(** * sidplayfp: the INI document store and the typed settings reader

    A shallow embedding of [src/ini/iniHandler.cpp] (class [iniHandler],
    declared in [iniHandler.h]) and of the static reading helpers of
    [IniConfig.cpp] ([readKey], [readString], [readInt], [readBool],
    [readChar], [readTime], [readColor], [IniConfig::readConsole]).

    Conventions of the embedding
    - [std::string] is [string]; a [const char*] argument is the [string] of
      the characters before its terminating NUL.
    - [size_t] is a [Z] in [0, 2^64) and its arithmetic wraps ([size_t]);
      [std::string::npos] is [npos].
    - [int] is a [Z] in [-2^31, 2^31); arithmetic that can leave the range is
      written with [int_wrap] (two's complement result).
    - [std::vector] is [list]; an iterator is a position in it.
    - An operation whose behaviour the language leaves undefined (use of an
      invalid iterator, erasing at [end()], indexing past the terminator)
      yields [None]. *)

From Stdlib Require Import ZArith List Bool Lia Ascii String.
Import ListNotations.

Local Open Scope list_scope.
Local Open Scope string_scope.
Local Open Scope Z_scope.

(* ------------------------------------------------------------------ *)
(** ** Machine integers *)

Definition int_min : Z := - 2 ^ 31.
Definition int_max : Z := 2 ^ 31 - 1.

(** The value an [int] computation leaves when its mathematical result is
    [z] (wrap-around on overflow). *)
Definition int_wrap (z : Z) : Z := (z + 2 ^ 31) mod 2 ^ 32 - 2 ^ 31.

(** Conversion of an [int] to [char] and back to [unsigned]: only the low
    eight bits survive, [char_of_int] keeps them as a code in [0, 256). *)
Definition char_of_int (z : Z) : ascii := ascii_of_N (Z.to_N (z mod 256)).

Definition char_code (c : ascii) : Z := Z.of_N (N_of_ascii c).

(* ------------------------------------------------------------------ *)
(** ** The part of [std::string] the program uses *)

Module StdString.

Definition npos : Z := 2 ^ 64 - 1.

(** Unsigned 64-bit wrap-around of [size_t] arithmetic. *)
Definition size_t (z : Z) : Z := z mod 2 ^ 64.

Definition size (s : string) : Z := Z.of_nat (String.length s).

Definition empty (s : string) : bool :=
  match s with EmptyString => true | String _ _ => false end.

Fixpoint drop (n : nat) (s : string) : string :=
  match n, s with
  | O, _ => s
  | S _, EmptyString => EmptyString
  | S n', String _ r => drop n' r
  end.

Fixpoint take (n : nat) (s : string) : string :=
  match n, s with
  | O, _ => EmptyString
  | S _, EmptyString => EmptyString
  | S n', String a r => String a (take n' r)
  end.

(** Position of the first, respectively last, character satisfying [p]. *)
Fixpoint first_index (p : ascii -> bool) (s : string) : option nat :=
  match s with
  | EmptyString => None
  | String a r => if p a then Some O else option_map S (first_index p r)
  end.

Fixpoint last_index (p : ascii -> bool) (s : string) : option nat :=
  match s with
  | EmptyString => None
  | String a r =>
      match last_index p r with
      | Some i => Some (S i)
      | None => if p a then Some O else None
      end
  end.

Definition of_index (o : option nat) : Z :=
  match o with Some i => Z.of_nat i | None => npos end.

(** [s.find(c)]; [s.find_first_of(c)] with a single character is the same
    search. *)
Definition find (s : string) (c : ascii) : Z :=
  of_index (first_index (Ascii.eqb c) s).

Definition find_first_of (s : string) (c : ascii) : Z := find s c.

(** [s.find_first_not_of(c, pos)]. *)
Definition find_first_not_of (s : string) (c : ascii) (pos : Z) : Z :=
  if size s <=? pos then npos
  else match first_index (fun a => negb (Ascii.eqb a c))
                         (drop (Z.to_nat pos) s) with
       | Some i => pos + Z.of_nat i
       | None => npos
       end.

(** [s.find_last_not_of(c, pos)]: the search starts at
    [min(pos, size - 1)] and runs towards the front. *)
Definition find_last_not_of (s : string) (c : ascii) (pos : Z) : Z :=
  of_index (last_index (fun a => negb (Ascii.eqb a c))
                       (take (Z.to_nat (Z.min pos (size s - 1) + 1)) s)).

(** [s.substr(pos, len)] for [pos <= size]: the characters
    [pos .. pos + min(len, size - pos)).  With [pos > size] the library
    throws [std::out_of_range]; no call of the modelled functions gets
    there (a position passed to [substr] is [0], [1], a found index or a
    found index plus one), and the model yields the empty string. *)
Definition substr (s : string) (pos len : Z) : string :=
  take (Z.to_nat (Z.min len (size s - pos))) (drop (Z.to_nat pos) s).

(** [s[i]]: defined up to and including [i = size], where it is the NUL
    terminator; undefined beyond. *)
Definition at_ (s : string) (i : nat) : option ascii :=
  match String.get i s with
  | Some a => Some a
  | None => if Nat.eqb i (String.length s) then Some zero else None
  end.

(** [s.c_str()] as a C string: what a reader of the [const char*] sees,
    the characters before the first NUL. *)
Fixpoint c_str (s : string) : string :=
  match s with
  | EmptyString => EmptyString
  | String a r => if Ascii.eqb a zero then EmptyString else String a (c_str r)
  end.

End StdString.

Import StdString.

(** Line feed, written by [std::endl] and consumed by [getline]. *)
Definition LF : ascii := "010"%char.

Definition endl : string := String LF EmptyString.

(** The lines successive [getline(iniFile, buffer)] calls deliver: each call
    takes the characters up to the next line feed (which it drops); the call
    that finds the stream exhausted before extracting anything fails and
    ends the loop. *)
Fixpoint getlines (text : string) : list string :=
  match text with
  | EmptyString => []
  | String c r =>
      if Ascii.eqb c LF then EmptyString :: getlines r
      else match getlines r with
           | [] => [String c EmptyString]
           | l :: ls => String c l :: ls
           end
  end.

(* ------------------------------------------------------------------ *)
(** ** The document model of [iniHandler.h] *)

Definition stringPair_t : Type := string * string.
Definition keys_t : Type := list stringPair_t.
Definition keyPair_t : Type := string * keys_t.
Definition sections_t : Type := list keyPair_t.

(** [sections_t::iterator]: [Singular] is an iterator that designates
    nothing and may not be used: the default-constructed one the
    constructor leaves in [curSection], or one invalidated since it was
    taken; [Pos i] designates element [i], and [Pos (length sections)] is
    [end()]. *)
Inductive iterator : Type :=
| Singular
| Pos (i : nat).

Record iniHandler : Type := mkIni {
  sections : sections_t;
  curSection : iterator;
  fileName : string;
  changed : bool
}.

(** [iniHandler::iniHandler()]. *)
Definition iniHandler_new : iniHandler :=
  {| sections := []; curSection := Singular; fileName := ""; changed := false |}.

(** The functor [compare<T>]: [s.compare(p.first) == 0]. *)
Definition compare {T : Type} (str : string) (p : string * T) : bool :=
  String.eqb str (fst p).

(** [std::find_if] over a vector: position of the first element satisfying
    the predicate, or the length ([end()]). *)
Fixpoint find_if {A : Type} (pred : A -> bool) (l : list A) : nat :=
  match l with
  | [] => O
  | x :: r => if pred x then O else S (find_if pred r)
  end.

(** A file system as far as the store sees it: the text of each file that
    exists, and whether a stream on a path can be opened. *)
Record filesys : Type := mkFs {
  file : string -> option string;
  readable : string -> bool;
  writable : string -> bool
}.

Definition open_ifstream (fs : filesys) (p : string) : option string :=
  if readable fs p then file fs p else None.

Definition store_file (fs : filesys) (p text : string) : filesys :=
  {| file := fun q => if String.eqb q p then Some text else file fs q;
     readable := readable fs;
     writable := writable fs |}.

Module Ini.

(** [iniHandler::parseSection]; [None] is [throw parseError()]. *)
Definition parseSection (buffer : string) : option string :=
  let pos := find buffer "]" in
  if pos =? npos then None
  else Some (substr buffer 1 (size_t (pos - 1))).

(** [iniHandler::parseKey]; [None] is [throw parseError()]. *)
Definition parseKey (buffer : string) : option stringPair_t :=
  let pos := find buffer "=" in
  if pos =? npos then None
  else
    let key :=
      substr buffer 0
             (size_t (find_last_not_of buffer " " (size_t (pos - 1)) + 1)) in
    let vpos := find_first_not_of buffer " " (size_t (pos + 1)) in
    let value := if vpos =? npos then "" else substr buffer vpos npos in
    Some (key, value).

(** [sections.back().second.push_back(e)] on a non-empty vector. *)
Fixpoint push_back_last (secs : sections_t) (e : stringPair_t) : sections_t :=
  match secs with
  | [] => []
  | [(name, keys)] => [(name, (keys ++ [e])%list)]
  | s :: r => s :: push_back_last r e
  end.

Definition sections_empty (secs : sections_t) : bool :=
  match secs with [] => true | _ :: _ => false end.

(** One turn of the [while (getline(...))] loop of [tryOpen]. *)
Definition parseLine (secs : sections_t) (buffer : string) : sections_t :=
  match buffer with
  | EmptyString => secs
  | String c _ =>
      if (Ascii.eqb c ";" || Ascii.eqb c "#")%bool then
        if negb (sections_empty secs)
        then push_back_last secs (EmptyString, buffer)
        else secs
      else if Ascii.eqb c "[" then
        match parseSection buffer with
        | Some section => (secs ++ [(section, [])])%list
        | None => secs
        end
      else
        if negb (sections_empty secs) then
          match parseKey buffer with
          | Some kv => push_back_last secs kv
          | None => secs
          end
        else secs
  end.

(** The whole loop over a stream holding [text]. *)
Definition parseStream (secs : sections_t) (text : string) : sections_t :=
  fold_left parseLine (getlines text) secs.

(** What [sections.push_back] leaves of an iterator into [sections]:
    growing a vector invalidates [end()] always and every other iterator
    when the storage is reallocated, which the library decides; an
    iterator taken before a section was appended is therefore not to be
    used again, and is [Singular] from then on. *)
Definition after_push_back (secs secs' : sections_t) (it : iterator)
  : iterator :=
  if Nat.eqb (List.length secs') (List.length secs) then it else Singular.

(** [iniHandler::tryOpen].  The function does not assign [curSection];
    the sections the loop appends invalidate it. *)
Definition tryOpen (ini : iniHandler) (fs : filesys) (fName : string)
  : iniHandler * bool :=
  let ini1 := {| sections := sections ini; curSection := curSection ini;
                 fileName := fName; changed := changed ini |} in
  match open_ifstream fs fName with
  | None => (ini1, false)
  | Some text =>
      let secs := parseStream (sections ini) text in
      ({| sections := secs;
          curSection := after_push_back (sections ini) secs (curSection ini);
          fileName := fName; changed := changed ini |}, true)
  end.

(** [iniHandler::open]: when [tryOpen] fails, an output stream on the
    path creates an empty file. *)
Definition open (ini : iniHandler) (fs : filesys) (fName : string)
  : iniHandler * filesys * bool :=
  let (ini1, ok) := tryOpen ini fs fName in
  if ok then (ini1, fs, true)
  else if writable fs fName then (ini1, store_file fs fName "", true)
  else (ini1, fs, false).

(** Everything sent to a stream by successive [<<], in order. *)
Fixpoint sent (chunks : list string) : string :=
  match chunks with
  | [] => ""
  | x :: r => x ++ sent r
  end.

(** What the loops of [write] send to the stream. *)
Definition writeEntry (entry : stringPair_t) : string :=
  (if empty (fst entry) then "" else fst entry ++ " = ")
    ++ snd entry ++ endl.

Definition writeSection (section : keyPair_t) : string :=
  "[" ++ fst section ++ "]" ++ endl
      ++ sent (map writeEntry (snd section)) ++ endl.

Definition writeStream (secs : sections_t) : string :=
  sent (map writeSection secs).

(** [iniHandler::write]. *)
Definition write (ini : iniHandler) (fs : filesys) (fName : string)
  : filesys * bool :=
  if writable fs fName
  then (store_file fs fName (writeStream (sections ini)), true)
  else (fs, false).

(** [iniHandler::close]; [sections.clear()] invalidates every iterator,
    [curSection] is [Singular] afterwards. *)
Definition close (ini : iniHandler) (fs : filesys) : iniHandler * filesys :=
  let fs' := if changed ini then fst (write ini fs (fileName ini)) else fs in
  ({| sections := []; curSection := Singular;
      fileName := fileName ini; changed := false |}, fs').

(** [iniHandler::setSection]. *)
Definition setSection (ini : iniHandler) (section : string)
  : iniHandler * bool :=
  let i := find_if (compare section) (sections ini) in
  ({| sections := sections ini; curSection := Pos i;
      fileName := fileName ini; changed := changed ini |},
   negb (Nat.eqb i (List.length (sections ini)))).

(** [*curSection]: defined when the iterator designates an element. *)
Definition deref (ini : iniHandler) : option keyPair_t :=
  match curSection ini with
  | Singular => None
  | Pos i => nth_error (sections ini) i
  end.

(** [iniHandler::getValue]: [Some None] is the null pointer, [Some (Some
    v)] a pointer to the C string [v]. *)
Definition getValue (ini : iniHandler) (key : string)
  : option (option string) :=
  match deref ini with
  | None => None
  | Some sect =>
      Some (option_map (fun kv => c_str (snd kv))
                       (nth_error (snd sect)
                                  (find_if (compare key) (snd sect))))
  end.

(** [sections.insert(it, x)] at position [i <= length]. *)
Definition insert_at {A : Type} (i : nat) (x : A) (l : list A) : list A :=
  (firstn i l ++ x :: skipn i l)%list.

(** [iniHandler::addSection]. *)
Definition addSection (ini : iniHandler) (section : string)
  : option iniHandler :=
  match curSection ini with
  | Singular => None
  | Pos i =>
      if (i <=? List.length (sections ini))%nat then
        Some {| sections := insert_at i (section, []) (sections ini);
                curSection := Pos i;
                fileName := fileName ini; changed := true |}
      else None
  end.

(** Replace the key vector of the section [curSection] designates. *)
Fixpoint set_keys (secs : sections_t) (i : nat) (keys : keys_t) : sections_t :=
  match secs, i with
  | [], _ => []
  | (name, _) :: r, O => (name, keys) :: r
  | s :: r, S i' => s :: set_keys r i' keys
  end.

Definition with_keys (ini : iniHandler) (i : nat) (keys : keys_t)
                     (chg : bool) : iniHandler :=
  {| sections := set_keys (sections ini) i keys;
     curSection := curSection ini;
     fileName := fileName ini; changed := chg |}.

(** [iniHandler::addValue]. *)
Definition addValue (ini : iniHandler) (key value : string)
  : option iniHandler :=
  match curSection ini with
  | Singular => None
  | Pos i =>
      match nth_error (sections ini) i with
      | None => None
      | Some sect =>
          Some (with_keys ini i (snd sect ++ [(key, value)])%list true)
      end
  end.

(** [std::remove_if(first, last, pred)], as the loop of the standard
    library: find the first element to remove, then move every later
    element to keep down to [result].  The vector is [done ++ gap ++ todo];
    [result] is at the start of [gap], [first] at the start of [todo].
    [moved x] is the state the slot of [x] is left in after
    [*result = std::move(x)] (valid but unspecified).  Returns the vector
    after the pass and the returned iterator. *)
Section RemoveIf.
Context {A : Type} (moved : A -> A) (pred : A -> bool).

Fixpoint remove_shift (done gap todo : list A) : list A * nat :=
  match todo with
  | [] => ((done ++ gap)%list, List.length done)
  | x :: todo' =>
      if pred x then remove_shift done (gap ++ [x])%list todo'
      else remove_shift (done ++ [x])%list (tl gap ++ [moved x])%list todo'
  end.

Definition remove_if (l : list A) : list A * nat :=
  let i := find_if pred l in
  match skipn i l with
  | [] => (l, List.length l)
  | m :: todo => remove_shift (firstn i l) [m] todo
  end.
End RemoveIf.

(** [v.erase(it)] with a single iterator: removes the one element at
    [it]; undefined when [it] is [end()]. *)
Definition erase {A : Type} (l : list A) (it : nat) : option (list A) :=
  if (it <? List.length l)%nat
  then Some (firstn it l ++ skipn (S it) l)%list
  else None.

(** [iniHandler::removeValue]. *)
Definition removeValue (moved : stringPair_t -> stringPair_t)
                       (ini : iniHandler) (key : string)
  : option iniHandler :=
  match curSection ini with
  | Singular => None
  | Pos i =>
      match nth_error (sections ini) i with
      | None => None
      | Some sect =>
          let (section, it) := remove_if moved (compare key) (snd sect) in
          match erase section it with
          | Some keys => Some (with_keys ini i keys true)
          | None => None
          end
      end
  end.

End Ini.

(* ------------------------------------------------------------------ *)
(** ** The typed settings reader of [IniConfig.cpp] *)

(** What the helpers [debug] and [error] print, one line each. *)
Inductive line : Type :=
| Stdout (text : string)
| Stderr (text : string).

(** The state the reading helpers work on: the document they are handed by
    reference and the lines printed so far. *)
Record state : Type := mkState {
  ini : iniHandler;
  printed : list line
}.

(** A computation on that state; [None] is undefined behaviour. *)
Definition M (A : Type) : Type := state -> option (A * state).

Definition ret {A : Type} (a : A) : M A := fun st => Some (a, st).

Definition bind {A B : Type} (c : M A) (k : A -> M B) : M B :=
  fun st => match c st with
            | Some (a, st') => k a st'
            | None => None
            end.

Definition undefined {A : Type} : M A := fun _ => None.

Notation "x <- c ;; k" := (bind c (fun x => k))
  (at level 61, c at next level, right associativity).
Notation "c ;;; k" := (bind c (fun _ => k))
  (at level 61, right associativity).

Definition print (l : line) : M unit :=
  fun st => Some (tt, {| ini := ini st; printed := (printed st ++ [l])%list |}).

Definition ini_getValue (key : string) : M (option string) :=
  fun st => match Ini.getValue (ini st) key with
            | Some v => Some (v, st)
            | None => None
            end.

Definition ini_update (f : iniHandler -> option iniHandler) : M unit :=
  fun st => match f (ini st) with
            | Some i => Some (tt, {| ini := i; printed := printed st |})
            | None => None
            end.

Definition ini_addValue (key value : string) : M unit :=
  ini_update (fun i => Ini.addValue i key value).

Definition ini_addSection (section : string) : M unit :=
  ini_update (fun i => Ini.addSection i section).

Definition ini_setSection (section : string) : M bool :=
  fun st => let (i, found) := Ini.setSection (ini st) section in
            Some (found, {| ini := i; printed := printed st |}).

(** [colorStrings]. *)
Definition colorStrings : list string :=
  [ "black"; "red"; "green"; "yellow"; "blue"; "magenta"; "cyan"; "white";
    "bright black"; "bright red"; "bright green"; "bright yellow";
    "bright blue"; "bright magenta"; "bright cyan"; "bright white" ].

(** [color_t] is an enumeration of [IniConfig.h]; [readColor] produces its
    values by [static_cast<color_t>(i)], and the model keeps the integer. *)
Definition color_t : Type := Z.

(** [(unsigned) c] for a [char]: plain [char] is signed on the platforms the
    program is built for, so a code above 127 converts to a value just below
    [2^32]; were [char] unsigned the value would be the code itself, on the
    same side of 32. *)
Definition unsigned_of_char (c : ascii) : Z :=
  let v := char_code c in
  if v <? 128 then v else v - 256 + 2 ^ 32.

Definition int_add (a b : Z) : Z := int_wrap (a + b).
Definition int_mul (a b : Z) : Z := int_wrap (a * b).

(** How the [try] block of [readTime] is left. *)
Inductive tried (A : Type) : Type :=
| Done (a : A)
| Thrown
| Invalid.
Arguments Done {A} a.
Arguments Thrown {A}.
Arguments Invalid {A}.

(** The console settings [console_s] of [IniConfig]. *)
Record console_section : Type := mkConsole {
  ansi : bool;
  topLeft : string;
  topRight : string;
  bottomLeft : string;
  bottomRight : string;
  vertical : string;
  horizontal : string;
  junctionLeft : string;
  junctionRight : string;
  decorations : color_t;
  title : color_t;
  label_core : color_t;
  text_core : color_t;
  label_extra : color_t;
  text_extra : color_t;
  notes : color_t;
  control_on : color_t;
  control_off : color_t
}.

Section IniConfig.

(** Whether the program is compiled with [NDEBUG], which empties [debug]. *)
Variable NDEBUG : bool.

(** [dataParser] ([dataParser.h]) is not part of the sources at hand: its
    three entry points are parameters, [None] standing for
    [throw parseError()]. *)
Variable double : Type.
Variable parseDouble : string -> option double.
Variable parseInt : string -> option Z.
Variable parseBool : string -> option bool.

Definition debug (msg val : string) : M unit :=
  if NDEBUG then ret tt else print (Stdout (msg ++ val)).

Definition error (msg val : string) : M unit :=
  print (Stderr (msg ++ val)).

(** [readKey]: [None] is the null pointer. *)
Definition readKey (key : string) : M (option string) :=
  value <- ini_getValue key ;;
  match value with
  | None =>
      ini_addValue key "" ;;;
      debug "Key doesn't exist: " key ;;;
      ret None
  | Some v =>
      if empty v then ret None else ret (Some v)
  end.

(** [readDouble], [readInt], [readBool]: the reference parameter
    [result] comes in as an argument and goes out as the value. *)
Definition readDouble (key : string) (result : double) : M double :=
  value <- readKey key ;;
  match value with
  | None => ret result
  | Some v =>
      match parseDouble v with
      | Some d => ret d
      | None => error "Error parsing double at " key ;;; ret result
      end
  end.

Definition readInt (key : string) (result : Z) : M Z :=
  value <- readKey key ;;
  match value with
  | None => ret result
  | Some v =>
      match parseInt v with
      | Some n => ret n
      | None => error "Error parsing int at " key ;;; ret result
      end
  end.

Definition readBool (key : string) (result : bool) : M bool :=
  value <- readKey key ;;
  match value with
  | None => ret result
  | Some v =>
      match parseBool v with
      | Some b => ret b
      | None => error "Error parsing bool at " key ;;; ret result
      end
  end.

(** [readString]. *)
Definition readString (key : string) : M string :=
  value <- ini_getValue key ;;
  match value with
  | None =>
      ini_addValue key "" ;;;
      debug "Key doesn't exist: " key ;;;
      ret ""
  | Some v => ret v
  end.

(** The last statement of [readChar]: [if ((unsigned) c >= 32) ch = c;]. *)
Definition clip (c ch : ascii) : ascii :=
  if 32 <=? unsigned_of_char c then c else ch.

(** [readChar]. *)
Definition readChar (key : string) (ch : ascii) : M ascii :=
  str <- readString key ;;
  if empty str then ret ch
  else
    match at_ str 0 with
    | None => undefined
    | Some c0 =>
        if Ascii.eqb c0 "'" then
          match at_ str 2 with
          | None => undefined
          | Some c2 =>
              if negb (Ascii.eqb c2 "'") then ret ch
              else match at_ str 1 with
                   | None => undefined
                   | Some c1 => ret (clip c1 ch)
                   end
          end
        else
          match parseInt str with
          | Some n => ret (clip (char_of_int n) ch)
          | None => error "Error parsing int at " key ;;; ret (clip zero ch)
          end
    end.

(** The [try] block of [readTime]: [Done (time, milliseconds)] when
    control reaches its end, [Thrown] when [parseInt] throws, [Invalid]
    on [goto IniCofig_readTime_error]. *)
Definition readTime_try (str : string) : tried (Z * Z) :=
  let sep := find_first_of str ":" in
  let dot := find_first_of str "." in
  if sep =? npos then
    match parseInt str with
    | Some time => Done (time, 0)
    | None => Thrown
    end
  else
    match parseInt (substr str 0 sep) with
    | None => Thrown
    | Some min =>
        if ((min <? 0) || (min >? 99))%bool then Invalid
        else
          let time := int_mul min 60 in
          let finish (sec milliseconds : Z) : tried (Z * Z) :=
            if ((sec <? 0) || (sec >? 59))%bool then Invalid
            else Done (int_add time sec, milliseconds) in
          if dot =? npos then
            match parseInt (substr str (size_t (sep + 1)) npos) with
            | None => Thrown
            | Some sec => finish sec 0
            end
          else
            match parseInt (substr str (size_t (sep + 1))
                                   (size_t (dot - sep))) with
            | None => Thrown
            | Some sec =>
                let msec := substr str (size_t (dot + 1)) npos in
                match parseInt msec with
                | None => Thrown
                | Some milliseconds =>
                    match String.length msec with
                    | 1%nat => finish sec (int_mul milliseconds 100)
                    | 2%nat => finish sec (int_mul milliseconds 10)
                    | 3%nat => finish sec milliseconds
                    | _ => Invalid
                    end
                end
            end
    end.

(** [readTime]: returns the flag and the content of [value]. *)
Definition readTime (key : string) (value : Z) : M (bool * Z) :=
  str <- readString key ;;
  if empty str then ret (false, value)
  else
    match readTime_try str with
    | Done (time, milliseconds) =>
        ret (true, int_add (int_mul time 1000) milliseconds)
    | Thrown => error "Error parsing time at " key ;;; ret (false, value)
    | Invalid => error "Invalid time at " key ;;; ret (false, value)
    end.

(** The [for] loop of [readColor] from index [i] on, over the names that
    remain: the first index whose name equals [str]. *)
Fixpoint color_loop (str : string) (i : Z) (names : list string) : option Z :=
  match names with
  | [] => None
  | name :: rest =>
      if String.eqb str name then Some i else color_loop str (i + 1) rest
  end.

(** [readColor]. *)
Definition readColor (key : string) (ch : color_t) : M (bool * color_t) :=
  str <- readString key ;;
  if empty str then ret (false, ch)
  else match color_loop str 0 colorStrings with
       | Some i => ret (true, i)
       | None => ret (false, ch)
       end.

(** [IniConfig::readConsole].  The local [bool ascii] is declared without
    an initialiser: [ascii0] is the indeterminate value it holds when
    [readBool] is entered. *)
Definition readConsole (ascii0 : bool) (console_s : console_section)
  : M console_section :=
  found <- ini_setSection "Console" ;;
  (if negb found then ini_addSection "Console" else ret tt) ;;;
  ascii <- readBool "ASCII" ascii0 ;;
  let glyph (plain : string) (current : console_section -> string) :=
    if ascii then plain else current console_s in
  ansi' <- readBool "Ansi" (ansi console_s) ;;
  decorations' <- readColor "Color Decorations" (decorations console_s) ;;
  title' <- readColor "Color Title" (title console_s) ;;
  label_core' <- readColor "Color Label Core" (label_core console_s) ;;
  text_core' <- readColor "Color Text Core" (text_core console_s) ;;
  label_extra' <- readColor "Color Label Extra" (label_extra console_s) ;;
  text_extra' <- readColor "Color Text Extra" (text_extra console_s) ;;
  notes' <- readColor "Color Notes" (notes console_s) ;;
  control_on' <- readColor "Color Control On" (control_on console_s) ;;
  control_off' <- readColor "Color Control Off" (control_off console_s) ;;
  ret {| ansi := ansi';
         topLeft := glyph "+" topLeft;
         topRight := glyph "+" topRight;
         bottomLeft := glyph "+" bottomLeft;
         bottomRight := glyph "+" bottomRight;
         vertical := glyph "|" vertical;
         horizontal := glyph "-" horizontal;
         junctionLeft := glyph "+" junctionLeft;
         junctionRight := glyph "+" junctionRight;
         decorations := snd decorations';
         title := snd title';
         label_core := snd label_core';
         text_core := snd text_core';
         label_extra := snd label_extra';
         text_extra := snd text_extra';
         notes := snd notes';
         control_on := snd control_on';
         control_off := snd control_off' |}.

End IniConfig.

(* ------------------------------------------------------------------ *)
(** ** Parsers and defaults used to run the reader on concrete documents *)

Definition is_digit (c : ascii) : bool :=
  (48 <=? char_code c) && (char_code c <=? 57).

(** Value of the decimal digits at the front of [s], continuing [acc]. *)
Fixpoint leading_digits (acc : Z) (s : string) : Z :=
  match s with
  | EmptyString => acc
  | String c r =>
      if is_digit c then leading_digits (acc * 10 + (char_code c - 48)) r
      else acc
  end.

(** Modelled from the spec: [dataParser::parseInt] ([dataParser.h] is not
    among the sources).  The spec calls it a numeric string parser whose
    failure leaves the field unchanged; its time example ("1:30.500" gives
    90500 ms) needs the seconds field, which [readTime] hands over together
    with the dot that follows it, to be read as 30.  The model reads an
    optionally signed run of decimal digits at the front of the string,
    ignores what follows, and fails when there is no digit or the value
    does not fit an [int]. *)
Definition decimalInt (s : string) : option Z :=
  let signed (negative : bool) (body : string) : option Z :=
    match body with
    | EmptyString => None
    | String c _ =>
        if is_digit c then
          let v := leading_digits 0 body in
          let n := if negative then - v else v in
          if (int_min <=? n) && (n <=? int_max) then Some n else None
        else None
    end in
  match s with
  | String "-" r => signed true r
  | String "+" r => signed false r
  | _ => signed false s
  end.

(** Modelled from the spec: [dataParser::parseBool] ([dataParser.h] is not
    among the sources); the spec calls it a boolean string parser that can
    fail.  The model accepts the integers 0 and 1. *)
Definition decimalBool (s : string) : option bool :=
  match decimalInt s with
  | Some 0 => Some false
  | Some 1 => Some true
  | _ => None
  end.

(** The three bytes of a box-drawing character U+25xx in UTF-8. *)
Definition box (third : ascii) : string :=
  String "226" (String "148" (String third EmptyString)).

(** Modelled from the spec: the enumerators of [color_t] ([IniConfig.h] is
    not among the sources) by the index order the spec gives, black = 0 to
    bright white = 15.  With them, the console part of [IniConfig::clear]. *)
Definition console_clear : console_section :=
  {| ansi := false;
     topLeft := box "140";
     topRight := box "144";
     bottomLeft := box "148";
     bottomRight := box "152";
     vertical := box "130";
     horizontal := box "128";
     junctionLeft := box "164";
     junctionRight := box "156";
     decorations := 15;
     title := 7;
     label_core := 10;
     text_core := 11;
     label_extra := 13;
     text_extra := 14;
     notes := 12;
     control_on := 10;
     control_off := 9 |}.

(* ------------------------------------------------------------------ *)
(** ** Well-formed documents *)

Definition has_char (c : ascii) (s : string) : bool :=
  match first_index (Ascii.eqb c) s with Some _ => true | None => false end.

Definition not_space (a : ascii) : bool := negb (Ascii.eqb a " ").

(** A key/value line: it has an [=], and a character other than a space
    stands before the first one (the key is not empty). *)
Definition key_value_line (l : string) : bool :=
  match first_index (Ascii.eqb "=") l, first_index not_space l with
  | Some p, Some q => (q <? p)%nat
  | _, _ => false
  end.

(** A line of the file format: blank, a comment, a section header with its
    closing bracket, or a key/value line. *)
Definition well_formed_line (l : string) : bool :=
  match l with
  | EmptyString => true
  | String c _ =>
      if (Ascii.eqb c ";" || Ascii.eqb c "#")%bool then true
      else if Ascii.eqb c "[" then has_char "]" l
      else key_value_line l
  end.

(** The first line that is not blank is a section header. *)
Fixpoint header_first (ls : list string) : bool :=
  match ls with
  | [] => true
  | EmptyString :: r => header_first r
  | String c _ :: _ => Ascii.eqb c "["
  end.

(** The largest text considered: a [std::string] cannot be longer. *)
Definition max_size : Z := 2 ^ 62.

Definition well_formed (text : string) : Prop :=
  size text < max_size /\
  forallb well_formed_line (getlines text) = true /\
  header_first (getlines text) = true.

(** The content of a document, in order: per section its name, then its
    entries. *)
Definition content (secs : sections_t) : list (string + stringPair_t) :=
  flat_map (fun s => inl (fst s) :: map inr (snd s)) secs.

(** The file format in the spec's words: what a line carries.  A line
    starting with [;] or [#] is kept verbatim, under an empty key; a
    section header carries the name, which is everything between the
    opening bracket and the first closing one; in a key/value line the
    first [=] separates the key, trimmed on the right, from the value,
    trimmed on the left; a blank line carries nothing.  These definitions
    use no function of the handler. *)
Fixpoint trim_left (s : string) : string :=
  match s with
  | EmptyString => EmptyString
  | String c r => if Ascii.eqb c " " then trim_left r else s
  end.

Fixpoint trim_right (s : string) : string :=
  match s with
  | EmptyString => EmptyString
  | String c r =>
      match trim_right r with
      | EmptyString =>
          if Ascii.eqb c " " then EmptyString else String c EmptyString
      | String d t => String c (String d t)
      end
  end.

Definition spec_line (l : string) : list (string + stringPair_t) :=
  match l with
  | EmptyString => []
  | String c r =>
      if (Ascii.eqb c ";" || Ascii.eqb c "#")%bool then [inr (EmptyString, l)]
      else if Ascii.eqb c "[" then
        match first_index (Ascii.eqb "]") r with
        | Some p => [inl (take p r)]
        | None => []
        end
      else
        match first_index (Ascii.eqb "=") l with
        | Some p => [inr (trim_right (take p l), trim_left (drop (S p) l))]
        | None => []
        end
  end.

(** What [tryOpen] keeps of a single line, through [parseSection] and
    [parseKey]; a blank line gives nothing. *)
Definition line_content (l : string) : list (string + stringPair_t) :=
  match l with
  | EmptyString => []
  | String c _ =>
      if (Ascii.eqb c ";" || Ascii.eqb c "#")%bool then [inr (EmptyString, l)]
      else if Ascii.eqb c "[" then
        match Ini.parseSection l with Some n => [inl n] | None => [] end
      else
        match Ini.parseKey l with Some kv => [inr kv] | None => [] end
  end.

(* ------------------------------------------------------------------ *)
(** ** Vocabulary of the statements *)

(** The current section is selected: [curSection] designates [sect]. *)
Definition selected (i : iniHandler) (sect : keyPair_t) : Prop :=
  Ini.deref i = Some sect.

(** No entry of the section carries the key. *)
Definition absent (key : string) (sect : keyPair_t) : Prop :=
  forall v, ~ In (key, v) (snd sect).


(** The time format in the spec's words: minutes in [0, 99], seconds in
    [0, 59], an optional fraction of one to three digits padded on the right
    to milliseconds; the result is
    [minutes * 60000 + seconds * 1000 + milliseconds].  Each field is given
    as the parser read it ([None] when it could not), the fraction with its
    number of characters. *)
Definition spec_time (minutes seconds : option Z)
                     (fraction : option (option Z * nat)) : option Z :=
  match minutes, seconds with
  | Some m, Some s =>
      if (0 <=? m) && (m <=? 99) && (0 <=? s) && (s <=? 59) then
        match fraction with
        | None => Some (m * 60000 + s * 1000)
        | Some (Some f, 1%nat) => Some (m * 60000 + s * 1000 + f * 100)
        | Some (Some f, 2%nat) => Some (m * 60000 + s * 1000 + f * 10)
        | Some (Some f, 3%nat) => Some (m * 60000 + s * 1000 + f)
        | Some _ => None
        end
      else None
  | _, _ => None
  end.

(** The time format in the spec's words, read off the text itself: a text
    without a colon is a bare integer of seconds; otherwise it is minutes,
    a colon, seconds and, optionally, a dot and a fraction, where minutes,
    seconds and the fraction are written with decimal digits only. *)
Fixpoint all_digits (s : string) : bool :=
  match s with
  | EmptyString => true
  | String c r => is_digit c && all_digits r
  end.

Definition digits (s : string) : option Z :=
  if empty s then None
  else if all_digits s then Some (leading_digits 0 s) else None.

Definition bare_integer (s : string) : option Z :=
  match s with
  | String "-" r => option_map Z.opp (digits r)
  | _ => digits s
  end.

Definition spec_time_text (str : string) : option Z :=
  match first_index (Ascii.eqb ":") str with
  | None => option_map (fun n => n * 1000) (bare_integer str)
  | Some p =>
      let minutes := take p str in
      let rest := drop (S p) str in
      match first_index (Ascii.eqb ".") rest with
      | None => spec_time (digits minutes) (digits rest) None
      | Some q =>
          let fraction := drop (S q) rest in
          spec_time (digits minutes) (digits (take q rest))
                    (Some (digits fraction, String.length fraction))
      end
  end.

(** What a caller of [readTime] sees: the flag and the content of the
    reference parameter, which held [value] before the call. *)
Definition time_outcome (value : Z) (t : option Z) : bool * Z :=
  match t with
  | Some ms => (true, ms)
  | None => (false, value)
  end.

(** A state whose document has one section with one entry, selected. *)
Definition document_with (section key value : string) : state :=
  {| ini := {| sections := [(section, [(key, value)])];
               curSection := Pos 0;
               fileName := "sidplayfp.ini";
               changed := false |};
     printed := [] |}.

(** The first statement of every group reader:
    [if (!ini.setSection(name)) ini.addSection(name);]. *)
Definition selectSection (name : string) : M unit :=
  found <- ini_setSection name ;;
  if negb found then ini_addSection name else ret tt.

(** The eight border glyphs of the console settings, and the plain ones
    [readConsole] assigns when [ascii] is true. *)
Definition glyphs (c : console_section) : list string :=
  [ topLeft c; topRight c; bottomLeft c; bottomRight c;
    vertical c; horizontal c; junctionLeft c; junctionRight c ].

Definition plain_glyphs : list string :=
  [ "+"; "+"; "+"; "+"; "|"; "-"; "+"; "+" ].

(** The ASCII key gives [readBool] nothing to store: it is not in the
    section, or its value is empty, or the value does not parse. *)
Definition gives_no_bool (parseBool : string -> option bool)
                         (i : iniHandler) (key : string) : Prop :=
  Ini.getValue i key = Some None \/
  exists v, Ini.getValue i key = Some (Some v) /\
            (v = "" \/ parseBool v = None).

(** *** Documents that [write] renders faithfully *)

Definition comment_start (c : ascii) : bool :=
  (Ascii.eqb c ";" || Ascii.eqb c "#")%bool.

Fixpoint ends_with_space (s : string) : bool :=
  match s with
  | EmptyString => false
  | String c EmptyString => Ascii.eqb c " "
  | String _ r => ends_with_space r
  end.

(** A bound that keeps every rendered line within [size_t]. *)
Definition line_limit : Z := 2 ^ 63.

(** A section name: no closing bracket, no line feed. *)
Definition valid_name (n : string) : bool :=
  negb (has_char "]" n) && negb (has_char LF n) && (size n <? line_limit).

(** A key: not empty, does not open like a comment or a header, has no
    [=] and no line feed, and does not end with a space. *)
Definition valid_key (k : string) : bool :=
  match k with
  | EmptyString => false
  | String c _ =>
      negb (comment_start c) && negb (Ascii.eqb c "[")
      && negb (has_char "=" k) && negb (has_char LF k)
      && negb (ends_with_space k)
  end.

(** A value: no line feed, and it does not open with a space. *)
Definition valid_value (v : string) : bool :=
  negb (has_char LF v)
  && match v with
     | EmptyString => true
     | String c _ => not_space c
     end.

(** A passthrough entry: a comment line. *)
Definition valid_comment (v : string) : bool :=
  match v with
  | EmptyString => false
  | String c _ => comment_start c && negb (has_char LF v)
  end.

Definition valid_entry (e : stringPair_t) : bool :=
  if empty (fst e) then valid_comment (snd e)
  else valid_key (fst e) && valid_value (snd e)
       && (size (fst e) + size (snd e) <? line_limit).

Definition valid_section (s : keyPair_t) : bool :=
  valid_name (fst s) && forallb valid_entry (snd s).

Definition valid_document (secs : sections_t) : bool :=
  forallb valid_section secs.

(** The line [write] emits for an entry, without its line feed. *)
Definition entry_line (e : stringPair_t) : string :=
  (if empty (fst e) then "" else fst e ++ " = ") ++ snd e.

(** *** Concrete documents for the examples *)

(** A file system holding one file, every path of which can be opened. *)
Definition fs_with (path text : string) : filesys :=
  {| file := fun q => if String.eqb q path then Some text else None;
     readable := fun _ => true;
     writable := fun _ => true |}.

(** A handler on a document with an entry added since it was loaded. *)
Definition handler_changed : iniHandler :=
  {| sections := [("Audio", [("Frequency", "48000"); ("Channels", "")])];
     curSection := Pos 0;
     fileName := "sidplayfp.ini";
     changed := true |}.

(** The state [IniConfig::read] starts from when the file is empty, and the
    one its [readConsole] is in once the Console section is selected. *)
Definition state_new : state :=
  {| ini := iniHandler_new; printed := [] |}.

Definition state_console_added : state :=
  {| ini := {| sections := [("Console", [])]; curSection := Pos 0;
               fileName := ""; changed := true |};
     printed := [] |}.

(** A file in the format of the spec. *)
Definition sample_text : string :=
  "[SIDPlayfp]" ++ endl ++
  "Default Play Length = 1:30.500" ++ endl ++
  "; a comment" ++ endl ++
  "# another comment" ++ endl ++
  endl ++
  "[Audio]" ++ endl ++
  "Frequency=48000" ++ endl.

(* ------------------------------------------------------------------ *)
(** ** Further vocabulary: lookups, blank text, header lines *)

(** The C string [getValue] returns for a key among the entries of a
    section: that of the first entry carrying the key. *)
Definition first_value (keys : keys_t) (key : string) : option string :=
  option_map (fun kv : stringPair_t => c_str (snd kv))
             (nth_error keys (find_if (compare key) keys)).

(** Spaces only (also: nothing at all). *)
Definition blank (s : string) : bool :=
  match first_index not_space s with Some _ => false | None => true end.

(** The section name a line contributes when [tryOpen] meets it: that of a
    header line with its closing bracket, nothing otherwise. *)
Definition header_name (l : string) : list string :=
  match l with
  | String c _ =>
      if Ascii.eqb c "[" then
        match Ini.parseSection l with Some n => [n] | None => [] end
      else []
  | EmptyString => []
  end.

(** A line that opens no section: it does not start with a bracket, or
    [parseSection] throws on it. *)
Definition opens_no_section (l : string) : Prop :=
  header_name l = [].

(* ------------------------------------------------------------------ *)
(** ** [utils::getPath] and its two callers (the branch without [_WIN32]) *)

Module Utils.

(** [utils::getPath(id, def)]; [getenv] is the environment, [None] of the
    result is [throw error()]. *)
Definition getPath (getenv : string -> option string) (id def : string)
  : option string :=
  match getenv id with
  | None =>
      match getenv "HOME" with
      | None => None
      | Some path => Some ("" ++ path ++ def)
      end
  | Some path => Some ("" ++ path)
  end.

Definition getDataPath (getenv : string -> option string) : option string :=
  getPath getenv "XDG_DATA_HOME" "/.local/share".

Definition getConfigPath (getenv : string -> option string) : option string :=
  getPath getenv "XDG_CONFIG_HOME" "/.config".

End Utils.

Definition SEPARATOR : string := "/".
Definition DIR_NAME : string := "sidplayfp".
Definition FILE_NAME : string := "sidplayfp.ini".

(* ------------------------------------------------------------------ *)
(** ** The setting groups of [IniConfig] and their readers *)

(** The enumerators of [SidConfig] that [readEmulation] assigns. *)
Inductive c64_model_t : Type := PAL | NTSC | OLD_NTSC | DREAN.
Inductive sid_model_t : Type := MOS6581 | MOS8580.
Inductive cia_model_t : Type := MOS6526 | MOS8521.
Inductive sampling_method_t : Type := INTERPOLATE | RESAMPLE_INTERPOLATE.
Inductive sid_cw_t : Type := AVERAGE | WEAK | STRONG.

(** [sidplay2_s]. *)
Record sidplay2_section : Type := mkSidplay2 {
  version : Z;
  database : string;
  playLength : Z;
  recordLength : Z;
  kernalRom : string;
  basicRom : string;
  chargenRom : string;
  verboseLevel : Z
}.

(** [audio_s]. *)
Record audio_section : Type := mkAudio {
  frequency : Z;
  channels : Z;
  precision : Z;
  bufLength : Z
}.

(** How a function that lets an exception through is left: by returning,
    or by the exception, in both cases with the object as it then is. *)
Inductive left_by (A : Type) : Type :=
| Returned (a : A)
| Escaped (a : A).
Arguments Returned {A} a.
Arguments Escaped {A} a.

(** The value the selected section holds for a key (that of the first
    entry with the key), if any. *)
Definition held (i : iniHandler) (key : string) : option string :=
  match Ini.getValue i key with
  | Some o => o
  | None => None
  end.

(** A held value that counts: the empty string is taken as no value. *)
Definition nonempty (o : option string) : option string :=
  match o with
  | Some v => if empty v then None else Some v
  | None => None
  end.

(** What [readString] returns for a held value. *)
Definition string_field (o : option string) : string :=
  match o with Some v => v | None => "" end.

(** What [readColor] leaves in a field that held [x]. *)
Definition color_field (x : color_t) (o : option string) : color_t :=
  match nonempty o with
  | Some v => match color_loop v 0 colorStrings with
              | Some i => i
              | None => x
              end
  | None => x
  end.

(** The [if]/[else if] chains of [readEmulation] on the strings it reads. *)
Definition c64_model_field (x : c64_model_t) (o : option string) : c64_model_t :=
  let str := string_field o in
  if empty str then x
  else if String.eqb str "PAL" then PAL
  else if String.eqb str "NTSC" then NTSC
  else if String.eqb str "OLD_NTSC" then OLD_NTSC
  else if String.eqb str "DREAN" then DREAN
  else x.

Definition cia_model_field (x : cia_model_t) (o : option string) : cia_model_t :=
  let str := string_field o in
  if empty str then x
  else if String.eqb str "MOS6526" then MOS6526
  else if String.eqb str "MOS8521" then MOS8521
  else x.

Definition sid_model_field (x : sid_model_t) (o : option string) : sid_model_t :=
  let str := string_field o in
  if empty str then x
  else if String.eqb str "MOS6581" then MOS6581
  else if String.eqb str "MOS8580" then MOS8580
  else x.

Definition cw_field (x : sid_cw_t) (o : option string) : sid_cw_t :=
  let str := string_field o in
  if empty str then x
  else if String.eqb str "AVERAGE" then AVERAGE
  else if String.eqb str "WEAK" then WEAK
  else if String.eqb str "STRONG" then STRONG
  else x.

Definition sampling_field (x : sampling_method_t) (o : option string)
  : sampling_method_t :=
  let str := string_field o in
  if empty str then x
  else if String.eqb str "INTERPOLATE" then INTERPOLATE
  else if String.eqb str "RESAMPLE" then RESAMPLE_INTERPOLATE
  else x.

Definition ini_removeValue (moved : stringPair_t -> stringPair_t)
                           (key : string) : M unit :=
  ini_update (fun i => Ini.removeValue moved i key).

(** The key is held by the selected section. *)
Definition present (i : iniHandler) (key : string) : Prop :=
  exists v, Ini.getValue i key = Some (Some v).

(** The selection has not moved, the sections have their names and order,
    and every section but the selected one is as it was. *)
Definition other_sections_kept (i i' : iniHandler) : Prop :=
  curSection i' = curSection i /\
  map fst (sections i') = map fst (sections i) /\
  forall j, curSection i <> Pos j ->
            nth_error (sections i') j = nth_error (sections i) j.

(** What one read of [key] does to the handler: a section stays selected,
    other keys are looked up as before, keys that were held keep their
    value, the key is held afterwards, nothing changes when it was held
    before, the file name stays, the changed flag is not cleared and is
    set when the key was not held, and the other sections are kept.  The
    key then holds the value it held, or the empty one; a valid document
    stays valid when the placeholder of the key is a valid entry. *)
Definition touched (i i' : iniHandler) (key : string) : Prop :=
  (exists sect, selected i' sect) /\
  (forall k, k <> key -> Ini.getValue i' k = Ini.getValue i k) /\
  (forall k, present i k -> Ini.getValue i' k = Ini.getValue i k) /\
  present i' key /\
  (present i key -> i' = i) /\
  fileName i' = fileName i /\
  (changed i = true -> changed i' = true) /\
  (~ present i key -> changed i' = true) /\
  other_sections_kept i i' /\
  held i' key = Some (string_field (held i key)) /\
  (valid_entry (key, "") = true ->
   valid_document (sections i) = true ->
   valid_document (sections i') = true).

(** The same for the reader state: output is only added. *)
Definition read_step (st st' : state) (key : string) : Prop :=
  touched (ini st) (ini st') key /\
  exists out, printed st' = (printed st ++ out)%list.

(** The state [st] was reached from [st1] by reads of the keys [keys]:
    a section is still selected, keys not yet read are looked up as in
    [st1], keys that [st1] held keep their value, every key read is now
    held, if [st1] held them all the document is the one of [st1] and
    otherwise the changed flag is set, output was only added and the other
    sections are kept; every key read holds the value [st1] held for it,
    or the empty one, and a valid document stays valid when the
    placeholders of the keys are valid entries. *)
Definition reads_from (st1 st : state) (keys : list string) : Prop :=
  (exists sect, selected (ini st) sect) /\
  (forall k, ~ In k keys ->
             Ini.getValue (ini st) k = Ini.getValue (ini st1) k) /\
  (forall k, present (ini st1) k ->
             Ini.getValue (ini st) k = Ini.getValue (ini st1) k) /\
  (forall k, In k keys -> present (ini st) k) /\
  ((forall k, In k keys -> present (ini st1) k) -> ini st = ini st1) /\
  fileName (ini st) = fileName (ini st1) /\
  (changed (ini st1) = true -> changed (ini st) = true) /\
  (exists out, printed st = (printed st1 ++ out)%list) /\
  (forall k, In k keys -> ~ present (ini st1) k ->
             changed (ini st) = true) /\
  other_sections_kept (ini st1) (ini st) /\
  (forall k, In k keys ->
             held (ini st) k = Some (string_field (held (ini st1) k))) /\
  (Forall (fun k => valid_entry (k, "") = true) keys ->
   valid_document (sections (ini st1)) = true ->
   valid_document (sections (ini st)) = true).

(** The first section of a document that carries a name, and the value it
    holds for a key: what a reader finds once it has selected the name. *)
Definition section_of (d : sections_t) (name : string) : option keyPair_t :=
  nth_error d (find_if (compare name) d).

Definition held_in (d : sections_t) (name key : string) : option string :=
  match section_of d name with
  | Some sect => first_value (snd sect) key
  | None => None
  end.

(** What a group reader does to the handler, told by documents: the group
    is [name] with the keys [keys].  The values held under other names and
    under other keys of the group are as before, values that were held
    stay, every key of the group is held afterwards, the file name stays;
    a document that held all the keys is not touched and its changed flag
    stays, any other sets the flag.  Every key of the group then holds the
    value it held, or the empty one, and a valid document stays valid when
    the name and the placeholders of the keys are valid. *)
Definition group_read (name : string) (keys : list string)
                      (i i' : iniHandler) : Prop :=
  (forall name2 key, name2 <> name ->
     held_in (sections i') name2 key = held_in (sections i) name2 key) /\
  (forall key, ~ In key keys ->
     held_in (sections i') name key = held_in (sections i) name key) /\
  (forall key v, held_in (sections i) name key = Some v ->
     held_in (sections i') name key = Some v) /\
  (forall key, In key keys -> held_in (sections i') name key <> None) /\
  fileName i' = fileName i /\
  (changed i = true -> changed i' = true) /\
  (keys <> [] ->
   (forall key, In key keys -> held_in (sections i) name key <> None) ->
   sections i' = sections i /\ changed i' = changed i) /\
  ((exists key, In key keys /\ held_in (sections i) name key = None) ->
   changed i' = true) /\
  (forall key, In key keys ->
     held_in (sections i') name key
     = Some (string_field (held_in (sections i) name key))) /\
  (valid_name name = true ->
   Forall (fun key => valid_entry (key, "") = true) keys ->
   valid_document (sections i) = true ->
   valid_document (sections i') = true).

(** The keys of the other groups, in the order they are read. *)
Definition sidplay2_keys : list string :=
  [ "Version"; "Songlength Database"; "Default Play Length";
    "Default Record Length"; "Kernal Rom"; "Basic Rom"; "Chargen Rom";
    "VerboseLevel" ].

Definition console_keys : list string :=
  [ "ASCII"; "Ansi"; "Color Decorations"; "Color Title"; "Color Label Core";
    "Color Text Core"; "Color Label Extra"; "Color Text Extra"; "Color Notes";
    "Color Control On"; "Color Control Off" ].

Definition audio_keys : list string :=
  [ "Frequency"; "Channels"; "BitsPerSample"; "BufferLength" ].

(** The keys [readEmulation] reads, in the order it reads them. *)
Definition emulation_keys (FEAT_FILTER_RANGE FEAT_CW_STRENGTH : bool)
  : list string :=
  ([ "Engine"; "C64Model"; "ForceC64Model"; "DigiBoost"; "CiaModel";
     "SidModel"; "ForceSidModel"; "UseFilter"; "FilterBias";
     "FilterCurve6581" ]
   ++ (if FEAT_FILTER_RANGE then ["FilterRange6581"] else [])
   ++ ["FilterCurve8580"]
   ++ (if FEAT_CW_STRENGTH then ["CombinedWaveforms"] else [])
   ++ ["PowerOnDelay"; "Sampling"; "ResidFastSampling"])%list.

(** The groups of [IniConfig::read] in the order they are read, and the
    documents that hold every key of every group. *)
Definition groups (FEAT_FILTER_RANGE FEAT_CW_STRENGTH : bool)
  : list (string * list string) :=
  [ ("SIDPlayfp", sidplay2_keys); ("Console", console_keys);
    ("Audio", audio_keys);
    ("Emulation", emulation_keys FEAT_FILTER_RANGE FEAT_CW_STRENGTH) ].

Definition holds_all (d : sections_t) (g : string * list string) : bool :=
  forallb (fun key => match held_in d (fst g) key with
                      | Some _ => true
                      | None => false
                      end)
          (snd g).

Definition complete (FEAT_FILTER_RANGE FEAT_CW_STRENGTH : bool)
                    (d : sections_t) : bool :=
  forallb (holds_all d) (groups FEAT_FILTER_RANGE FEAT_CW_STRENGTH).

(** The document with every group and every key, all values empty. *)
Definition template (FEAT_FILTER_RANGE FEAT_CW_STRENGTH : bool) : sections_t :=
  map (fun g : string * list string =>
         (fst g, map (fun key : string => (key, "")) (snd g)))
      (groups FEAT_FILTER_RANGE FEAT_CW_STRENGTH).

(** The configuration file under the configuration path [configPath], as
    [getConfigPath] appends to it. *)
Definition config_file (configPath : string) : string :=
  (configPath ++ SEPARATOR ++ DIR_NAME) ++ SEPARATOR ++ FILE_NAME.

(** What [getConfigPath] prints in a debug build: the path always, the
    file once both directories are there. *)
Definition path_lines (NDEBUG : bool) (configPath : string) (file : bool)
  : list line :=
  if NDEBUG then []
  else (Stdout ("Config path: " ++ configPath)
        :: if file then [Stdout ("Config file: " ++ config_file configPath)]
           else [])%list.

Section Groups.

Variable NDEBUG : bool.
Variable double : Type.
Variable parseDouble : string -> option double.
Variable parseInt : string -> option Z.
Variable parseBool : string -> option bool.

(** The environment, and the three queries of the file system library that
    [readSidplay2] makes on the default database path:
    [fs::is_regular_file(f)], which throws when the status cannot be read
    ([None]); [fs::exists(f, ec) && !ec]; and the owner, group and others
    read bits of [fs::status(f, ec).permissions()]. *)
Variable getenv : string -> option string.
Variable is_regular_file : string -> option bool.
Variable exists_no_error : string -> bool.
Variable read_permissions : string -> bool * bool * bool.

(** Whether the library offers [FEAT_FILTER_RANGE] and [FEAT_CW_STRENGTH];
    [moved] is the state of a moved-from entry (see [remove_if]). *)
Variable FEAT_FILTER_RANGE : bool.
Variable FEAT_CW_STRENGTH : bool.
Variable moved : stringPair_t -> stringPair_t.

(** What the typed readers leave in a field that held [x]. *)
Definition int_field (x : Z) (o : option string) : Z :=
  match nonempty o with
  | Some v => match parseInt v with Some n => n | None => x end
  | None => x
  end.

Definition bool_field (x : bool) (o : option string) : bool :=
  match nonempty o with
  | Some v => match parseBool v with Some b => b | None => x end
  | None => x
  end.

Definition double_field (x : double) (o : option string) : double :=
  match nonempty o with
  | Some v => match parseDouble v with Some d => d | None => x end
  | None => x
  end.

Definition time_field (x : Z) (o : option string) : Z :=
  match nonempty o with
  | Some v => match readTime_try parseInt v with
              | Done (time, milliseconds) =>
                  int_add (int_mul time 1000) milliseconds
              | Thrown => x
              | Invalid => x
              end
  | None => x
  end.

(** [emulation_s]. *)
Record emulation_section : Type := mkEmulation {
  engine : string;
  modelDefault : c64_model_t;
  modelForced : bool;
  digiboost : bool;
  ciaModel : cia_model_t;
  sidModel : sid_model_t;
  forceModel : bool;
  filter : bool;
  bias : double;
  filterCurve6581 : double;
  filterRange6581 : double;
  filterCurve8580 : double;
  combinedWaveformsStrength : sid_cw_t;
  powerOnDelay : Z;
  samplingMethod : sampling_method_t;
  fastSampling : bool
}.

(** [IniConfig::readAudio]. *)
Definition readAudio (audio_s : audio_section) : M audio_section :=
  selectSection "Audio" ;;;
  frequency' <- readInt NDEBUG parseInt "Frequency" (frequency audio_s) ;;
  channels' <- readInt NDEBUG parseInt "Channels" (channels audio_s) ;;
  precision' <- readInt NDEBUG parseInt "BitsPerSample" (precision audio_s) ;;
  bufLength' <- readInt NDEBUG parseInt "BufferLength" (bufLength audio_s) ;;
  ret {| frequency := frequency'; channels := channels';
         precision := precision'; bufLength := bufLength' |}.

(** The default database path and whether [readSidplay2] takes it:
    [None] when an exception leaves the block ([utils::error] from
    [getDataPath], or the one of [fs::is_regular_file]), otherwise the
    content of [database] after the block, which was empty before. *)
Definition default_database : option string :=
  match Utils.getDataPath getenv with
  | None => None
  | Some data =>
      let buffer := data ++ SEPARATOR ++ DIR_NAME ++ SEPARATOR
                         ++ "Songlengths.txt" in
      match is_regular_file buffer with
      | None => None
      | Some regular =>
          if (regular && exists_no_error buffer)%bool then
            let '(owner, group, others) := read_permissions buffer in
            if (owner && group && others)%bool then Some buffer else Some ""
          else Some ""
      end
  end.

(** [IniConfig::readSidplay2].  The local [int time] has no initial value:
    [time0] is what it holds when [readTime] is first entered. *)
Definition readSidplay2 (time0 : Z) (sidplay2_s : sidplay2_section)
  : M (left_by sidplay2_section) :=
  selectSection "SIDPlayfp" ;;;
  version' <- readInt NDEBUG parseInt "Version" (version sidplay2_s) ;;
  let s1 := {| version := if version' >? 0 then version'
                          else version sidplay2_s;
               database := database sidplay2_s;
               playLength := playLength sidplay2_s;
               recordLength := recordLength sidplay2_s;
               kernalRom := kernalRom sidplay2_s;
               basicRom := basicRom sidplay2_s;
               chargenRom := chargenRom sidplay2_s;
               verboseLevel := verboseLevel sidplay2_s |} in
  database' <- readString NDEBUG "Songlength Database" ;;
  let with_database (d : string) :=
    {| version := version s1; database := d;
       playLength := playLength s1; recordLength := recordLength s1;
       kernalRom := kernalRom s1; basicRom := basicRom s1;
       chargenRom := chargenRom s1; verboseLevel := verboseLevel s1 |} in
  match (if empty database' then default_database else Some database') with
  | None => ret (Escaped (with_database database'))
  | Some database'' =>
      play <- readTime NDEBUG parseInt "Default Play Length" time0 ;;
      record <- readTime NDEBUG parseInt "Default Record Length" (snd play) ;;
      kernalRom' <- readString NDEBUG "Kernal Rom" ;;
      basicRom' <- readString NDEBUG "Basic Rom" ;;
      chargenRom' <- readString NDEBUG "Chargen Rom" ;;
      verboseLevel' <- readInt NDEBUG parseInt "VerboseLevel"
                               (verboseLevel sidplay2_s) ;;
      ret (Returned
             {| version := version s1;
                database := database'';
                playLength := if fst play then snd play
                              else playLength sidplay2_s;
                recordLength := if fst record then snd record
                                else recordLength sidplay2_s;
                kernalRom := kernalRom';
                basicRom := basicRom';
                chargenRom := chargenRom';
                verboseLevel := verboseLevel' |})
  end.

(** The block of [readEmulation] under [FEAT_FILTER_RANGE] that moves the
    value of the old key [filterRange6581] to [FilterRange6581]. *)
Definition renameFilterRange : M unit :=
  value <- ini_getValue "filterRange6581" ;;
  match value with
  | Some v =>
      if negb (empty v) then
        ini_addValue "FilterRange6581" v ;;;
        ini_removeValue moved "filterRange6581"
      else ret tt
  | None => ret tt
  end.

(** [IniConfig::readEmulation]. *)
Definition readEmulation (emulation_s : emulation_section)
  : M emulation_section :=
  selectSection "Emulation" ;;;
  engine' <- readString NDEBUG "Engine" ;;
  c64 <- readString NDEBUG "C64Model" ;;
  modelForced' <- readBool NDEBUG parseBool "ForceC64Model"
                           (modelForced emulation_s) ;;
  digiboost' <- readBool NDEBUG parseBool "DigiBoost" (digiboost emulation_s) ;;
  cia <- readString NDEBUG "CiaModel" ;;
  sid <- readString NDEBUG "SidModel" ;;
  forceModel' <- readBool NDEBUG parseBool "ForceSidModel"
                          (forceModel emulation_s) ;;
  filter' <- readBool NDEBUG parseBool "UseFilter" (filter emulation_s) ;;
  bias' <- readDouble NDEBUG double parseDouble "FilterBias" (bias emulation_s) ;;
  filterCurve6581' <- readDouble NDEBUG double parseDouble "FilterCurve6581"
                                 (filterCurve6581 emulation_s) ;;
  filterRange6581' <-
    (if FEAT_FILTER_RANGE then
       renameFilterRange ;;;
       readDouble NDEBUG double parseDouble "FilterRange6581"
                  (filterRange6581 emulation_s)
     else ret (filterRange6581 emulation_s)) ;;
  filterCurve8580' <- readDouble NDEBUG double parseDouble "FilterCurve8580"
                                 (filterCurve8580 emulation_s) ;;
  cw <- (if FEAT_CW_STRENGTH
         then (str <- readString NDEBUG "CombinedWaveforms" ;; ret (Some str))
         else ret None) ;;
  powerOnDelay' <- readInt NDEBUG parseInt "PowerOnDelay"
                           (powerOnDelay emulation_s) ;;
  sampling <- readString NDEBUG "Sampling" ;;
  fastSampling' <- readBool NDEBUG parseBool "ResidFastSampling"
                            (fastSampling emulation_s) ;;
  ret {| engine := engine';
         modelDefault := c64_model_field (modelDefault emulation_s) (Some c64);
         modelForced := modelForced';
         digiboost := digiboost';
         ciaModel := cia_model_field (ciaModel emulation_s) (Some cia);
         sidModel := sid_model_field (sidModel emulation_s) (Some sid);
         forceModel := forceModel';
         filter := filter';
         bias := bias';
         filterCurve6581 := filterCurve6581';
         filterRange6581 := filterRange6581';
         filterCurve8580 := filterCurve8580';
         combinedWaveformsStrength :=
           cw_field (combinedWaveformsStrength emulation_s) cw;
         powerOnDelay := powerOnDelay';
         samplingMethod := sampling_field (samplingMethod emulation_s)
                                          (Some sampling);
         fastSampling := fastSampling' |}.

(** The settings each group reader returns, as functions of the values
    [h] the group's section holds for its keys. *)
Definition sidplay2_of (h : string -> option string) (path : string)
                       (s : sidplay2_section) : sidplay2_section :=
  {| version := (let v := int_field (version s) (h "Version") in
                 if v >? 0 then v else version s);
     database := path;
     playLength := time_field (playLength s) (h "Default Play Length");
     recordLength := time_field (recordLength s) (h "Default Record Length");
     kernalRom := string_field (h "Kernal Rom");
     basicRom := string_field (h "Basic Rom");
     chargenRom := string_field (h "Chargen Rom");
     verboseLevel := int_field (verboseLevel s) (h "VerboseLevel") |}.

Definition console_of (h : string -> option string) (ascii0 : bool)
                      (s : console_section) : console_section :=
  let ascii := bool_field ascii0 (h "ASCII") in
  let glyph (plain : string) (current : console_section -> string) :=
    if ascii then plain else current s in
  let color (current : console_section -> color_t) (key : string) :=
    color_field (current s) (h key) in
  {| ansi := bool_field (ansi s) (h "Ansi");
     topLeft := glyph "+" topLeft;
     topRight := glyph "+" topRight;
     bottomLeft := glyph "+" bottomLeft;
     bottomRight := glyph "+" bottomRight;
     vertical := glyph "|" vertical;
     horizontal := glyph "-" horizontal;
     junctionLeft := glyph "+" junctionLeft;
     junctionRight := glyph "+" junctionRight;
     decorations := color decorations "Color Decorations";
     title := color title "Color Title";
     label_core := color label_core "Color Label Core";
     text_core := color text_core "Color Text Core";
     label_extra := color label_extra "Color Label Extra";
     text_extra := color text_extra "Color Text Extra";
     notes := color notes "Color Notes";
     control_on := color control_on "Color Control On";
     control_off := color control_off "Color Control Off" |}.

Definition audio_of (h : string -> option string) (s : audio_section)
  : audio_section :=
  {| frequency := int_field (frequency s) (h "Frequency");
     channels := int_field (channels s) (h "Channels");
     precision := int_field (precision s) (h "BitsPerSample");
     bufLength := int_field (bufLength s) (h "BufferLength") |}.

Definition emulation_of (h : string -> option string) (s : emulation_section)
  : emulation_section :=
  {| engine := string_field (h "Engine");
     modelDefault := c64_model_field (modelDefault s) (h "C64Model");
     modelForced := bool_field (modelForced s) (h "ForceC64Model");
     digiboost := bool_field (digiboost s) (h "DigiBoost");
     ciaModel := cia_model_field (ciaModel s) (h "CiaModel");
     sidModel := sid_model_field (sidModel s) (h "SidModel");
     forceModel := bool_field (forceModel s) (h "ForceSidModel");
     filter := bool_field (filter s) (h "UseFilter");
     bias := double_field (bias s) (h "FilterBias");
     filterCurve6581 := double_field (filterCurve6581 s) (h "FilterCurve6581");
     filterRange6581 :=
       if FEAT_FILTER_RANGE
       then double_field (filterRange6581 s) (h "FilterRange6581")
       else filterRange6581 s;
     filterCurve8580 := double_field (filterCurve8580 s) (h "FilterCurve8580");
     combinedWaveformsStrength :=
       if FEAT_CW_STRENGTH
       then cw_field (combinedWaveformsStrength s) (h "CombinedWaveforms")
       else combinedWaveformsStrength s;
     powerOnDelay := int_field (powerOnDelay s) (h "PowerOnDelay");
     samplingMethod := sampling_field (samplingMethod s) (h "Sampling");
     fastSampling := bool_field (fastSampling s) (h "ResidFastSampling") |}.

(** The data members of [IniConfig] that the file names. *)
Record IniConfig : Type := mkIniConfig {
  sidplay2_s : sidplay2_section;
  console_s : console_section;
  audio_s : audio_section;
  emulation_s : emulation_section;
  m_fileName : string
}.

(** The settings [IniConfig::read] returns for a document [d], read from
    the file [fileName], on top of the settings [c0]: each group from the
    first section of its name. *)
Definition settings_of (d : sections_t) (path : string) (ascii0 : bool)
                       (c0 : IniConfig) (fileName : string) : IniConfig :=
  {| sidplay2_s := sidplay2_of (held_in d "SIDPlayfp") path (sidplay2_s c0);
     console_s := console_of (held_in d "Console") ascii0 (console_s c0);
     audio_s := audio_of (held_in d "Audio") (audio_s c0);
     emulation_s := emulation_of (held_in d "Emulation") (emulation_s c0);
     m_fileName := fileName |}.

(** [SidConfig::DEFAULT_SAMPLING_FREQ] and the literal [0.5], values of the
    library and of the floating point type that the model takes as given. *)
Variable DEFAULT_SAMPLING_FREQ : Z.
Variable half : double.

(** [IniConfig::clear].  No statement assigns [digiboost]; the filter range
    and the waveforms strength are assigned under their feature macros. *)
Definition clear (c : IniConfig) : IniConfig :=
  {| sidplay2_s :=
       {| version := 1;
          database := "";
          playLength := 0;
          recordLength := (3 * 60 + 30) * 1000;
          kernalRom := "";
          basicRom := "";
          chargenRom := "";
          verboseLevel := 0 |};
     console_s := console_clear;
     audio_s :=
       {| frequency := DEFAULT_SAMPLING_FREQ;
          channels := 0;
          precision := 16;
          bufLength := 250 |};
     emulation_s :=
       {| engine := "";
          modelDefault := PAL;
          modelForced := false;
          digiboost := digiboost (emulation_s c);
          ciaModel := MOS6526;
          sidModel := MOS6581;
          forceModel := false;
          filter := true;
          bias := half;
          filterCurve6581 := half;
          filterRange6581 := if FEAT_FILTER_RANGE then half
                             else filterRange6581 (emulation_s c);
          filterCurve8580 := half;
          combinedWaveformsStrength :=
            if FEAT_CW_STRENGTH then AVERAGE
            else combinedWaveformsStrength (emulation_s c);
          powerOnDelay := -1;
          samplingMethod := RESAMPLE_INTERPOLATE;
          fastSampling := false |};
     m_fileName := m_fileName c |}.

(** The answers of the system to [createDir]: [opendir path] gives the
    directory ([None]) or fails with an [errno]; [mkdir path] succeeds
    ([None]) or fails with an [errno]; [strerror] words an [errno]. *)
Variable opendir : string -> option Z.
Variable mkdir : string -> option Z.
Variable strerror : Z -> string.
Variable ENOENT : Z.

(** [createDir] (the branch without [_WIN32]): [Some msg] is
    [throw iniError(msg)]. *)
Definition createDir (path : string) : option string :=
  match opendir path with
  | None => None
  | Some errno =>
      if errno =? ENOENT then
        match mkdir path with
        | None => None
        | Some errno' => Some (strerror errno')
        end
      else Some (strerror errno)
  end.

(** The static [getConfigPath]: the path of the configuration file, or
    the message of the [iniError] it throws. *)
Definition getConfigPath : M (string + string) :=
  match Utils.getConfigPath getenv with
  | None => ret (inr "Cannot get config path!")
  | Some configPath =>
      debug NDEBUG "Config path: " configPath ;;;
      match createDir configPath with
      | Some msg => ret (inr msg)
      | None =>
          let configPath1 := configPath ++ SEPARATOR ++ DIR_NAME in
          match createDir configPath1 with
          | Some msg => ret (inr msg)
          | None =>
              let configPath2 := configPath1 ++ SEPARATOR ++ FILE_NAME in
              debug NDEBUG "Config file: " configPath2 ;;;
              ret (inl configPath2)
          end
      end
  end.

(** The static [tryOpen] (the branch without [_WIN32]). *)
Definition tryOpen (ini : iniHandler) : iniHandler * bool := (ini, false).

(** How [IniConfig::read] is left: by returning, with the settings, the
    files and the output as they then are; or by the exception that
    [readSidplay2] lets through, with the settings and the output at that
    point (what becomes of the handler on the way out is not told). *)
Inductive read_result : Type :=
| Read_returned (config : IniConfig) (files : filesys) (output : list line)
| Read_escaped (config : IniConfig) (output : list line).

(** The four group readers of [IniConfig::read] and what follows them:
    [m_fileName = ini.getFilename(); ini.close();] and, on leaving the
    scope, the destructor of the handler, which closes once more. *)
Definition read_groups (time0 : Z) (ascii0 : bool) (c0 : IniConfig)
                       (st : state) (fs : filesys) : option read_result :=
  match readSidplay2 time0 (sidplay2_s c0) st with
  | None => None
  | Some (Escaped s, st1) =>
      Some (Read_escaped {| sidplay2_s := s;
                            console_s := console_s c0;
                            audio_s := audio_s c0;
                            emulation_s := emulation_s c0;
                            m_fileName := m_fileName c0 |}
                         (printed st1))
  | Some (Returned s, st1) =>
      match (console <- readConsole NDEBUG parseBool ascii0 (console_s c0) ;;
             audio <- readAudio (audio_s c0) ;;
             emulation <- readEmulation (emulation_s c0) ;;
             ret (console, audio, emulation)) st1 with
      | None => None
      | Some ((console, audio, emulation), st2) =>
          let (closed, fs') := Ini.close (ini st2) fs in
          Some (Read_returned {| sidplay2_s := s;
                                 console_s := console;
                                 audio_s := audio;
                                 emulation_s := emulation;
                                 m_fileName := fileName (ini st2) |}
                              (snd (Ini.close closed fs'))
                              (printed st2))
      end
  end.

(** [IniConfig::read]; [out] is what has been printed before.  [time0]
    and [ascii0] are the contents of the uninitialised locals of
    [readSidplay2] and [readConsole]. *)
Definition read (time0 : Z) (ascii0 : bool) (c : IniConfig) (fs : filesys)
                (out : list line) : option read_result :=
  let c0 := clear c in
  let (ini0, opened) := tryOpen iniHandler_new in
  let st0 := {| ini := ini0; printed := out |} in
  if opened then read_groups time0 ascii0 c0 st0 fs
  else
    match getConfigPath st0 with
    | None => None
    | Some (inr message, st) =>
        Some (Read_returned c0 (snd (Ini.close (ini st) fs))
                            (printed st ++ [Stderr message])%list)
    | Some (inl configPath, st) =>
        match Ini.open (ini st) fs configPath with
        | (ini1, fs1, false) =>
            Some (Read_returned c0 (snd (Ini.close ini1 fs1))
                                (printed st
                                 ++ [Stderr "Error reading config file!"])%list)
        | (ini1, fs1, true) =>
            read_groups time0 ascii0 c0
                        {| ini := ini1; printed := printed st |} fs1
        end
    end.

End Groups.

(** Emulation settings to start a read from, with integers for the reals. *)
Definition emulation_sample : emulation_section Z :=
  {| engine := "";
     modelDefault := PAL;
     modelForced := false;
     digiboost := false;
     ciaModel := MOS6526;
     sidModel := MOS6581;
     forceModel := false;
     filter := true;
     bias := 5;
     filterCurve6581 := 5;
     filterRange6581 := 5;
     filterCurve8580 := 5;
     combinedWaveformsStrength := AVERAGE;
     powerOnDelay := -1;
     samplingMethod := RESAMPLE_INTERPOLATE;
     fastSampling := false |}.

(** The handler once an empty Emulation section has been appended to an
    empty document and selected. *)
Definition state_emulation_added : state :=
  {| ini := {| sections := [("Emulation", [])]; curSection := Pos 0;
               fileName := ""; changed := true |};
     printed := [] |}.

(** An environment with a home directory only, a file system without
    files in which every path can be written, and settings to start from. *)
Definition getenv_home (id : string) : option string :=
  if String.eqb id "HOME" then Some "/home/sid" else None.

Definition fs_empty : filesys :=
  {| file := fun _ => None;
     readable := fun _ => true;
     writable := fun _ => true |}.

Definition config_sample : IniConfig Z :=
  {| sidplay2_s := {| version := 1; database := ""; playLength := 0;
                      recordLength := 0; kernalRom := ""; basicRom := "";
                      chargenRom := ""; verboseLevel := 0 |};
     console_s := console_clear;
     audio_s := {| frequency := 44100; channels := 0; precision := 16;
                   bufLength := 250 |};
     emulation_s := emulation_sample;
     m_fileName := "" |}.

(* ------------------------------------------------------------------ *)
(** * Properties *)

(** ** The document store: selection, lookup, insertion *)

Lemma find_if_le {A : Type} (pred : A -> bool) (l : list A) :
  (find_if pred l <= List.length l)%nat.
Proof.
  induction l as [|x r IH]; simpl; [lia|].
  destruct (pred x); lia.
Qed.

Lemma find_if_none {A : Type} (pred : A -> bool) (l : list A) :
  forallb (fun x => negb (pred x)) l = true ->
  find_if pred l = List.length l.
Proof.
  induction l as [|x r IH]; simpl; intros H; [reflexivity|].
  apply andb_true_iff in H as [Hx Hr].
  destruct (pred x); [discriminate|].
  now rewrite IH.
Qed.

Lemma find_if_some {A : Type} (pred : A -> bool) (l : list A) (x : A) :
  nth_error l (find_if pred l) = Some x -> pred x = true.
Proof.
  induction l as [|y r IH]; simpl; [discriminate|].
  destruct (pred y) eqn:E; simpl; intros H.
  - now injection H as <-.
  - now apply IH.
Qed.

Lemma find_if_absent {A : Type} (pred : A -> bool) (l : list A) :
  nth_error l (find_if pred l) = None ->
  forallb (fun x => negb (pred x)) l = true.
Proof.
  induction l as [|y r IH]; simpl; [reflexivity|].
  destruct (pred y) eqn:E; simpl; [discriminate|].
  exact IH.
Qed.

Lemma nth_error_set_keys (secs : sections_t) (i : nat) (sect : keyPair_t)
      (keys : keys_t) :
  nth_error secs i = Some sect ->
  nth_error (Ini.set_keys secs i keys) i = Some (fst sect, keys).
Proof.
  revert i; induction secs as [|[n k] r IH]; intros [|i]; simpl;
    try discriminate.
  - now intros [= <-].
  - apply IH.
Qed.

Lemma length_set_keys (secs : sections_t) (i : nat) (keys : keys_t) :
  List.length (Ini.set_keys secs i keys) = List.length secs.
Proof.
  revert i; induction secs as [|[n k] r IH]; intros [|i]; simpl; auto.
Qed.

Lemma absent_forallb (key : string) (sect : keyPair_t) :
  absent key sect ->
  forallb (fun kv => negb (compare key kv)) (snd sect) = true.
Proof.
  unfold absent. destruct sect as [n keys]; simpl.
  induction keys as [|[k v] r IH]; simpl; intros H; [reflexivity|].
  apply andb_true_iff; split.
  - unfold compare; simpl. destruct (String.eqb_spec key k) as [->|]; auto.
    exfalso. apply (H v). now left.
  - apply IH. intros w Hw. apply (H w). now right.
Qed.

Lemma getValue_absent (i : iniHandler) (sect : keyPair_t) (key : string) :
  selected i sect -> absent key sect -> Ini.getValue i key = Some None.
Proof.
  intros Hs Ha. unfold Ini.getValue. rewrite Hs.
  rewrite (find_if_none _ _ (absent_forallb _ _ Ha)).
  now rewrite (proj2 (nth_error_None _ _) (Nat.le_refl _)).
Qed.

Lemma addValue_selected (i : iniHandler) (sect : keyPair_t) (key value : string) :
  selected i sect ->
  exists i',
    Ini.addValue i key value = Some i' /\
    selected i' (fst sect, (snd sect ++ [(key, value)])%list) /\
    changed i' = true /\
    fileName i' = fileName i /\
    curSection i' = curSection i.
Proof.
  unfold selected, Ini.deref, Ini.addValue.
  destruct (curSection i) as [|n] eqn:Ec; [discriminate|].
  intros Hn. rewrite Hn. eexists; split; [reflexivity|].
  unfold Ini.with_keys; simpl. rewrite Ec.
  repeat split. now apply nth_error_set_keys.
Qed.

(** Running a computation of the reader. *)
Lemma bind_some {A B : Type} (c : M A) (k : A -> M B) (st st' : state) (a : A) :
  c st = Some (a, st') -> bind c k st = k a st'.
Proof. unfold bind. now intros ->. Qed.

Lemma ini_getValue_some (st : state) (key : string) (r : option string) :
  Ini.getValue (ini st) key = Some r -> ini_getValue key st = Some (r, st).
Proof. unfold ini_getValue. now intros ->. Qed.

(** ** [remove_if] followed by the one-iterator [erase] *)

Section RemoveIfFacts.
Context {A : Type} (moved : A -> A) (pred : A -> bool).

Lemma remove_shift_keep (todo done : list A) (g : A) :
  forallb (fun x => negb (pred x)) todo = true ->
  exists g',
    Ini.remove_shift moved pred done [g] todo
    = ((done ++ todo) ++ [g'], List.length (done ++ todo))%list.
Proof.
  revert done g; induction todo as [|x r IH]; simpl; intros done g H.
  - exists g. now rewrite app_nil_r.
  - apply andb_true_iff in H as [Hx Hr].
    destruct (pred x); [discriminate|]. simpl.
    destruct (IH (done ++ [x])%list (moved x) Hr) as [g' Hg'].
    exists g'. rewrite Hg'. now rewrite <- !app_assoc.
Qed.

Lemma skipn_find_if (l : list A) (x : A) (r : list A) :
  skipn (find_if pred l) l = x :: r ->
  pred x = true /\ l = (firstn (find_if pred l) l ++ x :: r)%list.
Proof.
  intros H. split.
  - revert H. induction l as [|y t IH]; simpl; [discriminate|].
    destruct (pred y) eqn:E; simpl; [now intros [= <- _]|exact IH].
  - rewrite <- H. symmetry. apply firstn_skipn.
Qed.

Lemma find_if_split (pre post : list A) (x : A) :
  forallb (fun y => negb (pred y)) pre = true ->
  pred x = true ->
  find_if pred (pre ++ x :: post) = List.length pre.
Proof.
  induction pre as [|y t IH]; simpl; intros H Hx.
  - now rewrite Hx.
  - apply andb_true_iff in H as [Hy Ht].
    destruct (pred y); [discriminate|]. now rewrite IH.
Qed.

Lemma erase_last (l : list A) (g : A) :
  Ini.erase (l ++ [g])%list (List.length l) = Some l.
Proof.
  unfold Ini.erase. rewrite last_length.
  rewrite (proj2 (Nat.ltb_lt _ _) (Nat.lt_succ_diag_r _)). f_equal.
  rewrite (skipn_all2 (n := S (List.length l)) (l ++ [g])%list)
    by (rewrite last_length; lia).
  rewrite firstn_app, firstn_all, Nat.sub_diag. simpl.
  now rewrite !app_nil_r.
Qed.

(** With exactly one element to remove the pair of calls does remove it. *)
Lemma remove_erase_single (l pre post : list A) (x : A) :
  l = (pre ++ x :: post)%list ->
  forallb (fun y => negb (pred y)) pre = true ->
  pred x = true ->
  forallb (fun y => negb (pred y)) post = true ->
  Ini.erase (fst (Ini.remove_if moved pred l)) (snd (Ini.remove_if moved pred l))
  = Some (pre ++ post)%list.
Proof.
  intros -> Hpre Hx Hpost. unfold Ini.remove_if.
  rewrite (find_if_split pre post x Hpre Hx).
  rewrite skipn_app, skipn_all, Nat.sub_diag. simpl.
  rewrite firstn_app, firstn_all, Nat.sub_diag. simpl. rewrite app_nil_r.
  destruct (remove_shift_keep post pre x Hpost) as [g' ->].
  apply erase_last.
Qed.

(** With nothing to remove [remove_if] returns [end()], and erasing there
    is undefined. *)
Lemma remove_erase_none (l : list A) :
  forallb (fun y => negb (pred y)) l = true ->
  Ini.erase (fst (Ini.remove_if moved pred l)) (snd (Ini.remove_if moved pred l))
  = None.
Proof.
  intros H. unfold Ini.remove_if.
  rewrite (find_if_none pred l H), skipn_all. simpl.
  unfold Ini.erase. now rewrite Nat.ltb_irrefl.
Qed.
End RemoveIfFacts.

(** The pass and the erase that follows it, for any number of elements to
    remove (at least one): the elements to keep come first, in order, and
    one slot less than there were elements to remove stays behind them. *)
Section RemoveIfGeneral.
Context {A : Type} (moved : A -> A) (pred : A -> bool).

Lemma remove_shift_general (todo done gap : list A) :
  gap <> [] ->
  exists G,
    Ini.remove_shift moved pred done gap todo
    = ((done ++ List.filter (fun x => negb (pred x)) todo ++ G)%list,
       (List.length done
        + List.length (List.filter (fun x => negb (pred x)) todo))%nat) /\
    List.length G = (List.length gap + List.length (List.filter pred todo))%nat.
Proof.
  revert done gap; induction todo as [|x r IH]; simpl; intros done gap Hg.
  - exists gap. now rewrite !Nat.add_0_r.
  - destruct (pred x) eqn:E; simpl.
    + destruct (IH done (gap ++ [x])%list) as (G & -> & HG).
      { now destruct gap. }
      exists G. split; [reflexivity|].
      rewrite HG, length_app. simpl. lia.
    + destruct (IH (done ++ [x])%list (tl gap ++ [moved x])%list)
        as (G & -> & HG).
      { now destruct (tl gap). }
      exists G. split.
      * rewrite <- !app_assoc, length_app. simpl. f_equal. lia.
      * rewrite HG, length_app. destruct gap; [contradiction|]. simpl. lia.
Qed.

Lemma firstn_find_if (l : list A) :
  List.filter (fun x => negb (pred x)) (firstn (find_if pred l) l)
  = firstn (find_if pred l) l /\
  List.filter pred (firstn (find_if pred l) l) = [].
Proof.
  induction l as [|x r [IH1 IH2]]; simpl; [now split|].
  destruct (pred x) eqn:E; simpl; [now split|].
  rewrite E. simpl. now rewrite IH1, IH2.
Qed.

Lemma erase_app (a r : list A) (g : A) :
  Ini.erase (a ++ g :: r)%list (List.length a) = Some (a ++ r)%list.
Proof.
  unfold Ini.erase. rewrite length_app. cbn [List.length].
  rewrite (proj2 (Nat.ltb_lt _ _)) by lia. f_equal.
  rewrite firstn_app, firstn_all, Nat.sub_diag. cbn [firstn].
  rewrite app_nil_r. f_equal.
  rewrite skipn_app, (skipn_all2 (n := S (List.length a)) a) by lia.
  replace (S (List.length a) - List.length a)%nat with 1%nat by lia.
  reflexivity.
Qed.

Lemma remove_erase_general (l : list A) :
  existsb pred l = true ->
  exists rest,
    Ini.erase (fst (Ini.remove_if moved pred l))
              (snd (Ini.remove_if moved pred l))
    = Some (List.filter (fun x => negb (pred x)) l ++ rest)%list /\
    S (List.length rest) = List.length (List.filter pred l).
Proof.
  intros Hex. unfold Ini.remove_if.
  destruct (skipn (find_if pred l) l) as [|m todo] eqn:E.
  - exfalso.
    assert (Hn : nth_error l (find_if pred l) = None).
    { apply nth_error_None.
      rewrite <- (firstn_skipn (find_if pred l) l) at 1.
      rewrite E, app_nil_r. apply firstn_le_length. }
    apply find_if_absent in Hn.
    apply existsb_exists in Hex as (x & Hin & Hx).
    rewrite forallb_forall in Hn. specialize (Hn x Hin).
    now rewrite Hx in Hn.
  - destruct (skipn_find_if pred l m todo E) as [Hm Hl].
    destruct (firstn_find_if l) as [Hk Hc].
    destruct (remove_shift_general todo (firstn (find_if pred l) l) [m])
      as (G & -> & HG); [discriminate|].
    simpl fst. simpl snd.
    destruct G as [|g rest]; [discriminate HG|].
    exists rest.
    assert (Ekept : List.filter (fun x => negb (pred x)) l
                    = (firstn (find_if pred l) l
                       ++ List.filter (fun x => negb (pred x)) todo)%list).
    { rewrite Hl at 1. rewrite filter_app, Hk. simpl. now rewrite Hm. }
    assert (Ecount : List.filter pred l = m :: List.filter pred todo).
    { rewrite Hl at 1. rewrite filter_app, Hc. simpl. now rewrite Hm. }
    split.
    + rewrite Ekept, app_assoc, <- length_app. apply erase_app.
    + rewrite Ecount. simpl in *. lia.
Qed.

End RemoveIfGeneral.

Lemma removeValue_held (moved : stringPair_t -> stringPair_t)
      (i : iniHandler) (sect : keyPair_t) (key : string) :
  selected i sect ->
  existsb (compare key) (snd sect) = true ->
  exists i' keys,
    Ini.removeValue moved i key = Some i' /\
    selected i' (fst sect, keys) /\
    S (List.length keys) = List.length (snd sect) /\
    changed i' = true.
Proof.
  intros Hs Hex.
  destruct (remove_erase_general moved (compare key) (snd sect) Hex)
    as (rest & Her & Hlen).
  unfold selected, Ini.deref in Hs. unfold Ini.removeValue.
  destruct (curSection i) as [|n] eqn:Ec; [discriminate|].
  rewrite Hs.
  destruct (Ini.remove_if moved (compare key) (snd sect)) as [section it].
  simpl in Her. rewrite Her.
  eexists. eexists. split; [reflexivity|]. split.
  - unfold selected, Ini.deref, Ini.with_keys. simpl. rewrite Ec.
    now apply nth_error_set_keys.
  - split; [|reflexivity].
    rewrite length_app, <- Nat.add_succ_r, Hlen.
    rewrite Nat.add_comm. apply filter_length.
Qed.

Lemma removeValue_single (moved : stringPair_t -> stringPair_t)
      (i : iniHandler) (name key v : string) (pre post : keys_t) :
  selected i (name, (pre ++ (key, v) :: post)%list) ->
  absent key (name, pre) -> absent key (name, post) ->
  exists i',
    Ini.removeValue moved i key = Some i' /\
    selected i' (name, (pre ++ post)%list) /\ changed i' = true.
Proof.
  unfold selected, Ini.deref, Ini.removeValue.
  destruct (curSection i) as [|n] eqn:Ec; [discriminate|].
  intros Hn Hpre Hpost. rewrite Hn. simpl snd.
  match goal with
  | |- context [Ini.remove_if ?m ?p ?l] =>
      pose proof (remove_erase_single m p l pre post (key, v) eq_refl
                    (absent_forallb _ _ Hpre)
                    (String.eqb_refl key)
                    (absent_forallb _ _ Hpost)) as H;
      destruct (Ini.remove_if m p l) as [section it]
  end.
  simpl in H. rewrite H. eexists; split; [reflexivity|].
  unfold Ini.with_keys; simpl. rewrite Ec. split; [|reflexivity].
  now apply (nth_error_set_keys _ _ _ _ Hn).
Qed.

Lemma removeValue_changed (moved : stringPair_t -> stringPair_t)
      (i i' : iniHandler) (key : string) :
  Ini.removeValue moved i key = Some i' -> changed i' = true.
Proof.
  unfold Ini.removeValue.
  destruct (curSection i); [discriminate|].
  destruct (nth_error (sections i) i0); [|discriminate].
  destruct (Ini.remove_if moved (compare key) (snd k)) as [section it].
  destruct (Ini.erase section it); [|discriminate].
  now intros [= <-].
Qed.

(** C1 (as the code behaves): [removeValue] erases a single element.  In a
    section holding the legacy key twice, removing that key leaves the
    second entry in place, whatever state a moved-from pair is left in; the
    changed flag is set. *)
Theorem C1_removeValue_leaves_second_match :
  forall (moved : stringPair_t -> stringPair_t) (fName : string) (chg : bool),
    Ini.removeValue moved
      {| sections := [("Emulation", [("filterRange6581", "0.3");
                                     ("filterRange6581", "0.7")])];
         curSection := Pos 0; fileName := fName; changed := chg |}
      "filterRange6581"
    = Some {| sections := [("Emulation", [("filterRange6581", "0.7")])];
              curSection := Pos 0; fileName := fName; changed := true |}.
Proof. intros moved fName chg. reflexivity. Qed.

(** ** The fallback policy of [readKey] and [readString] *)

Section ReaderFacts.
Variable NDEBUG : bool.
Variable double : Type.
Variable parseDouble : string -> option double.
Variable parseInt : string -> option Z.
Variable parseBool : string -> option bool.

(** A key that is found: nothing is touched. *)
Lemma readString_present (st : state) (key v : string) :
  Ini.getValue (ini st) key = Some (Some v) ->
  readString NDEBUG key st = Some (v, st).
Proof.
  intros H. unfold readString.
  now rewrite (bind_some _ _ _ _ _ (ini_getValue_some _ _ _ H)).
Qed.

Lemma readKey_present (st : state) (key v : string) :
  Ini.getValue (ini st) key = Some (Some v) ->
  readKey NDEBUG key st = Some (if empty v then None else Some v, st).
Proof.
  intros H. unfold readKey.
  rewrite (bind_some _ _ _ _ _ (ini_getValue_some _ _ _ H)).
  now destruct (empty v).
Qed.

(** A key that is not found: the placeholder is appended. *)
Lemma read_absent (st : state) (sect : keyPair_t) (key : string) :
  selected (ini st) sect -> absent key sect ->
  exists st',
    readString NDEBUG key st = Some ("", st') /\
    readKey NDEBUG key st = Some (None, st') /\
    Ini.addValue (ini st) key "" = Some (ini st') /\
    selected (ini st') (fst sect, (snd sect ++ [(key, "")])%list) /\
    changed (ini st') = true /\
    printed st' = (printed st ++
                   if NDEBUG then []
                   else [Stdout ("Key doesn't exist: " ++ key)])%list.
Proof.
  intros Hs Ha.
  pose proof (getValue_absent _ _ _ Hs Ha) as Hg.
  destruct (addValue_selected (ini st) sect key "" Hs)
    as (i' & Hadd & Hsel & Hchg & _ & _).
  exists {| ini := i';
            printed := (printed st ++
                        if NDEBUG then []
                        else [Stdout ("Key doesn't exist: " ++ key)])%list |}.
  assert (Hrun : forall (A : Type) (a : A),
             (ini_addValue key "" ;;;
              debug NDEBUG "Key doesn't exist: " key ;;; ret a) st
             = Some (a, {| ini := i';
                           printed := (printed st ++
                             if NDEBUG then []
                             else [Stdout ("Key doesn't exist: " ++ key)])%list |})).
  { intros A a. unfold bind, ini_addValue, ini_update, debug.
    rewrite Hadd. destruct NDEBUG; unfold ret, print; simpl.
    - now rewrite app_nil_r.
    - reflexivity. }
  repeat split; simpl; auto.
  - unfold readString.
    rewrite (bind_some _ _ _ _ _ (ini_getValue_some _ _ _ Hg)). apply Hrun.
  - unfold readKey.
    rewrite (bind_some _ _ _ _ _ (ini_getValue_some _ _ _ Hg)). apply Hrun.
Qed.

(** C3: a typed read of a key the current section does not hold appends
    the key with an empty value to that section, sets the changed flag,
    and returns with the field as it was ([readTime] and [readColor]
    report no value). *)
Theorem C3_missing_key_is_inserted :
  forall (st : state) (sect : keyPair_t) (key : string),
    selected (ini st) sect ->
    absent key sect ->
    exists st',
      Ini.addValue (ini st) key "" = Some (ini st') /\
      selected (ini st') (fst sect, (snd sect ++ [(key, "")])%list) /\
      changed (ini st') = true /\
      (forall result, readInt NDEBUG parseInt key result st = Some (result, st')) /\
      (forall result, readBool NDEBUG parseBool key result st = Some (result, st')) /\
      (forall result, readDouble NDEBUG double parseDouble key result st
                      = Some (result, st')) /\
      (forall ch, readChar NDEBUG parseInt key ch st = Some (ch, st')) /\
      (forall value, readTime NDEBUG parseInt key value st
                     = Some ((false, value), st')) /\
      (forall ch, readColor NDEBUG key ch st = Some ((false, ch), st')).
Proof.
  intros st sect key Hs Ha.
  destruct (read_absent st sect key Hs Ha)
    as (st' & Hstr & Hkey & Hadd & Hsel & Hchg & _).
  exists st'. repeat split; auto; intros x.
  - unfold readInt. now rewrite (bind_some _ _ _ _ _ Hkey).
  - unfold readBool. now rewrite (bind_some _ _ _ _ _ Hkey).
  - unfold readDouble. now rewrite (bind_some _ _ _ _ _ Hkey).
  - unfold readChar. now rewrite (bind_some _ _ _ _ _ Hstr).
  - unfold readTime. now rewrite (bind_some _ _ _ _ _ Hstr).
  - unfold readColor. now rewrite (bind_some _ _ _ _ _ Hstr).
Qed.

(** C6: when the key is found with an empty value, every typed read
    returns with the field as it was; the document and the output are
    untouched as well. *)
Theorem C6_empty_value_is_no_value :
  forall (st : state) (key : string),
    Ini.getValue (ini st) key = Some (Some "") ->
    (forall result, readInt NDEBUG parseInt key result st = Some (result, st)) /\
    (forall result, readBool NDEBUG parseBool key result st = Some (result, st)) /\
    (forall result, readDouble NDEBUG double parseDouble key result st
                    = Some (result, st)) /\
    (forall ch, readChar NDEBUG parseInt key ch st = Some (ch, st)) /\
    (forall value, readTime NDEBUG parseInt key value st
                   = Some ((false, value), st)) /\
    (forall ch, readColor NDEBUG key ch st = Some ((false, ch), st)).
Proof.
  intros st key H.
  pose proof (readKey_present st key "" H) as Hkey.
  pose proof (readString_present st key "" H) as Hstr.
  simpl in Hkey.
  repeat split; intros x.
  - unfold readInt. now rewrite (bind_some _ _ _ _ _ Hkey).
  - unfold readBool. now rewrite (bind_some _ _ _ _ _ Hkey).
  - unfold readDouble. now rewrite (bind_some _ _ _ _ _ Hkey).
  - unfold readChar. now rewrite (bind_some _ _ _ _ _ Hstr).
  - unfold readTime. now rewrite (bind_some _ _ _ _ _ Hstr).
  - unfold readColor. now rewrite (bind_some _ _ _ _ _ Hstr).
Qed.

(** *** Colours *)

Lemma color_loop_none (str : string) (names : list string) (i : Z) :
  ~ In str names -> color_loop str i names = None.
Proof.
  revert i; induction names as [|n r IH]; simpl; intros i H; [reflexivity|].
  destruct (String.eqb_spec str n) as [->|_].
  - exfalso. apply H. now left.
  - apply IH. intros Hin. apply H. now right.
Qed.

Lemma color_loop_index (i : nat) (name : string) :
  nth_error colorStrings i = Some name ->
  color_loop name 0 colorStrings = Some (Z.of_nat i) /\ empty name = false.
Proof.
  do 16 (destruct i as [|i]; [intros [= <-]; split; reflexivity|]).
  simpl. now destruct i.
Qed.

(** C7: [readColor] compares the value, character for character, with the
    sixteen names of [colorStrings] (the eight colours, then their bright
    counterparts at 8 to 15).  A value equal to the name at index [i]
    sets the field to [i]; any other value leaves the field as it was,
    and in both cases nothing is printed and the document is untouched.
    "bright red" gives 9, "BRIGHT RED" gives nothing. *)
Theorem C7_readColor_by_exact_name :
  forall (st : state) (key v : string) (ch : color_t),
    Ini.getValue (ini st) key = Some (Some v) ->
    colorStrings =
      [ "black"; "red"; "green"; "yellow"; "blue"; "magenta"; "cyan";
        "white"; "bright black"; "bright red"; "bright green";
        "bright yellow"; "bright blue"; "bright magenta"; "bright cyan";
        "bright white" ] /\
    (forall i : nat, nth_error colorStrings i = Some v ->
                     readColor NDEBUG key ch st = Some ((true, Z.of_nat i), st)) /\
    (~ In v colorStrings ->
     readColor NDEBUG key ch st = Some ((false, ch), st)) /\
    (v = "bright red" -> readColor NDEBUG key ch st = Some ((true, 9), st)) /\
    (v = "BRIGHT RED" -> readColor NDEBUG key ch st = Some ((false, ch), st)).
Proof.
  intros st key v ch H.
  pose proof (readString_present st key v H) as Hstr.
  assert (Hhit : forall i : nat, nth_error colorStrings i = Some v ->
                   readColor NDEBUG key ch st = Some ((true, Z.of_nat i), st)).
  { intros i Hi. destruct (color_loop_index i v Hi) as [Hl He].
    unfold readColor. rewrite (bind_some _ _ _ _ _ Hstr), He, Hl.
    reflexivity. }
  assert (Hmiss : ~ In v colorStrings ->
                  readColor NDEBUG key ch st = Some ((false, ch), st)).
  { intros Hn. unfold readColor. rewrite (bind_some _ _ _ _ _ Hstr).
    rewrite (color_loop_none v colorStrings 0 Hn). now destruct (empty v). }
  split; [reflexivity|]. split; [exact Hhit|]. split; [exact Hmiss|]. split.
  - intros ->. apply (Hhit 9%nat). reflexivity.
  - intros ->. apply Hmiss. simpl.
    intros Hin. repeat (destruct Hin as [Hin|Hin]; [discriminate|]).
    exact Hin.
Qed.

End ReaderFacts.

(** ** The changed flag and [close] *)

Lemma getValue_first (i : iniHandler) (name key v : string) (pre post : keys_t) :
  selected i (name, (pre ++ (key, v) :: post)%list) ->
  absent key (name, pre) ->
  Ini.getValue i key = Some (Some (c_str v)).
Proof.
  intros Hs Ha. unfold Ini.getValue. rewrite Hs. simpl snd.
  match goal with
  | |- context [find_if ?p ?l] =>
      replace (find_if p l) with (List.length pre)
        by (symmetry; apply find_if_split;
            [apply (absent_forallb _ _ Ha) | apply String.eqb_refl])
  end.
  rewrite nth_error_app2, Nat.sub_diag by lia. reflexivity.
Qed.

Lemma addSection_changed (i i' : iniHandler) (section : string) :
  Ini.addSection i section = Some i' -> changed i' = true.
Proof.
  unfold Ini.addSection. destruct (curSection i); [discriminate|].
  destruct (i0 <=? List.length (sections i))%nat; [|discriminate].
  now intros [= <-].
Qed.

Lemma addValue_changed (i i' : iniHandler) (key value : string) :
  Ini.addValue i key value = Some i' -> changed i' = true.
Proof.
  unfold Ini.addValue. destruct (curSection i); [discriminate|].
  destruct (nth_error (sections i) i0); [|discriminate].
  now intros [= <-].
Qed.

Lemma after_push_back_singular (secs secs' : sections_t) :
  Ini.after_push_back secs secs' Singular = Singular.
Proof.
  unfold Ini.after_push_back.
  now destruct (Nat.eqb (List.length secs') (List.length secs)).
Qed.

Lemma tryOpen_changed (i : iniHandler) (fs : filesys) (fName : string) :
  changed (fst (Ini.tryOpen i fs fName)) = changed i.
Proof.
  unfold Ini.tryOpen. now destruct (open_ifstream fs fName).
Qed.

Lemma open_changed (i : iniHandler) (fs : filesys) (fName : string) :
  changed (fst (fst (Ini.open i fs fName))) = changed i.
Proof.
  unfold Ini.open. pose proof (tryOpen_changed i fs fName) as H.
  destruct (Ini.tryOpen i fs fName) as [i1 ok]. simpl in H.
  destruct ok; [exact H|]. now destruct (writable fs fName).
Qed.

(** C2: the changed flag.  Selecting a section, loading a file and reading
    a key that is found leave the flag (and, for the read, the whole state)
    as it was.  [addSection], [addValue] and [removeValue] set it whenever
    they return, and they do return: [addSection] after any [setSection],
    with one section more; [addValue] on a selected section, with the
    entry appended; [removeValue] on a selected section that holds the
    key, with one entry less.  The read of a key that is not found sets
    the flag too, through the placeholder it inserts.  [close] leaves the
    file system alone when the flag is clear; when it is set it performs
    [write] on the stored file name (the path given to [tryOpen]), which
    puts the serialised sections there if the file can be opened; in both
    cases the handler is left with no section and a clear flag. *)
Theorem C2_changed_flag_and_close :
  forall (NDEBUG : bool) (moved : stringPair_t -> stringPair_t)
         (i : iniHandler) (fs : filesys) (st : state)
         (name section key value fName : string) (sect : keyPair_t),
    changed (fst (Ini.setSection i section)) = changed i /\
    changed (fst (Ini.tryOpen i fs fName)) = changed i /\
    changed (fst (fst (Ini.open i fs fName))) = changed i /\
    fileName (fst (Ini.tryOpen i fs fName)) = fName /\
    (forall v, Ini.getValue (ini st) key = Some (Some v) ->
               readString NDEBUG key st = Some (v, st) /\
               readKey NDEBUG key st
               = Some (if empty v then None else Some v, st)) /\
    (forall i', Ini.addSection i section = Some i' -> changed i' = true) /\
    (forall i', Ini.addValue i key value = Some i' -> changed i' = true) /\
    (forall i', Ini.removeValue moved i key = Some i' -> changed i' = true) /\
    (exists i', Ini.addSection (fst (Ini.setSection i name)) section = Some i' /\
                changed i' = true /\
                List.length (sections i') = S (List.length (sections i))) /\
    (selected i sect ->
     exists i', Ini.addValue i key value = Some i' /\
                changed i' = true /\
                selected i' (fst sect, (snd sect ++ [(key, value)])%list)) /\
    (selected i sect -> (exists v, In (key, v) (snd sect)) ->
     exists i' keys, Ini.removeValue moved i key = Some i' /\
                     changed i' = true /\
                     selected i' (fst sect, keys) /\
                     S (List.length keys) = List.length (snd sect)) /\
    (selected (ini st) sect -> absent key sect ->
     exists st', readString NDEBUG key st = Some ("", st') /\
                 readKey NDEBUG key st = Some (None, st') /\
                 changed (ini st') = true) /\
    (changed i = false -> snd (Ini.close i fs) = fs) /\
    (changed i = true ->
     snd (Ini.close i fs) = fst (Ini.write i fs (fileName i))) /\
    (writable fs (fileName i) = true ->
     fst (Ini.write i fs (fileName i))
     = store_file fs (fileName i) (Ini.writeStream (sections i))) /\
    sections (fst (Ini.close i fs)) = [] /\
    changed (fst (Ini.close i fs)) = false.
Proof.
  intros NDEBUG moved i fs st name section key value fName sect.
  split; [reflexivity|].
  split; [apply tryOpen_changed|].
  split; [apply open_changed|].
  split; [unfold Ini.tryOpen; now destruct (open_ifstream fs fName)|].
  split; [intros v Hv; split;
          [now apply readString_present | now apply readKey_present]|].
  split; [intros i'; apply addSection_changed|].
  split; [intros i'; apply addValue_changed|].
  split; [intros i'; apply removeValue_changed|].
  split.
  { unfold Ini.addSection, Ini.setSection. cbn [fst curSection sections].
    match goal with
    | |- context [Nat.leb ?a ?b] =>
        replace (Nat.leb a b) with true
          by (symmetry; apply Nat.leb_le, find_if_le)
    end.
    eexists. split; [reflexivity|]. split; [reflexivity|].
    cbn [sections]. unfold Ini.insert_at.
    rewrite length_app. cbn [List.length].
    rewrite Nat.add_succ_r, <- length_app, firstn_skipn. reflexivity. }
  split.
  { intros Hs.
    destruct (addValue_selected i sect key value Hs)
      as (i' & H1 & H2 & H3 & _).
    now exists i'. }
  split.
  { intros Hs [v Hin].
    assert (Hex : existsb (compare key) (snd sect) = true).
    { apply existsb_exists. exists (key, v). split; [exact Hin|].
      apply String.eqb_refl. }
    destruct (removeValue_held moved i sect key Hs Hex)
      as (i' & keys & H1 & H2 & H3 & H4).
    now exists i', keys. }
  split.
  { intros Hs Ha.
    destruct (read_absent NDEBUG st sect key Hs Ha)
      as (st' & H1 & H2 & _ & _ & H3 & _).
    now exists st'. }
  split; [unfold Ini.close; simpl; now intros ->|].
  split; [unfold Ini.close; simpl; now intros ->|].
  split; [unfold Ini.write; now intros ->|].
  split; reflexivity.
Qed.

(** ** Lines read by [getline] *)

#[local] Arguments Ascii.eqb : simpl never.

Lemma getlines_line (l rest : string) :
  has_char LF l = false ->
  getlines (l ++ endl ++ rest) = l :: getlines rest.
Proof.
  change (endl ++ rest) with (String LF rest).
  unfold has_char. induction l as [|c r IH]; simpl; intros H.
  - reflexivity.
  - rewrite (Ascii.eqb_sym c LF).
    destruct (Ascii.eqb LF c); [discriminate|].
    destruct (first_index (Ascii.eqb LF) r); [discriminate|].
    now rewrite (IH eq_refl).
Qed.

(** C9: during parsing, a key/value line met while no section has been
    opened is dropped.  The line changes nothing in the (empty) section
    list; a file with such a line before its first header is parsed, and
    hence written back, exactly as the file without the line. *)
Theorem C9_key_before_first_section_is_dropped :
  forall (l : string) (c : ascii) (r : string) (kv : stringPair_t),
    l = String c r ->
    (Ascii.eqb c ";" || Ascii.eqb c "#" || Ascii.eqb c "[")%bool = false ->
    Ini.parseKey l = Some kv ->
    Ini.parseLine [] l = [] /\
    (forall before after : list string,
        fold_left Ini.parseLine before [] = [] ->
        fold_left Ini.parseLine (before ++ l :: after) []
        = fold_left Ini.parseLine (before ++ after) []) /\
    (has_char LF l = false ->
     forall rest : string,
       Ini.parseStream [] (l ++ endl ++ rest) = Ini.parseStream [] rest /\
       Ini.writeStream (Ini.parseStream [] (l ++ endl ++ rest))
       = Ini.writeStream (Ini.parseStream [] rest)).
Proof.
  intros l c r kv -> Hc Hkv.
  apply orb_false_iff in Hc as [Hc Hb].
  assert (Hline : Ini.parseLine [] (String c r) = []).
  { unfold Ini.parseLine. rewrite Hc, Hb. reflexivity. }
  split; [exact Hline|]. split.
  - intros before after Hb0.
    rewrite !fold_left_app, Hb0.
    change (fold_left Ini.parseLine (String c r :: after) [])
      with (fold_left Ini.parseLine after (Ini.parseLine [] (String c r))).
    now rewrite Hline.
  - intros Hlf rest.
    assert (Hp : Ini.parseStream [] (String c r ++ endl ++ rest)
                 = Ini.parseStream [] rest).
    { unfold Ini.parseStream. rewrite (getlines_line _ _ Hlf).
      change (fold_left Ini.parseLine (String c r :: getlines rest) [])
        with (fold_left Ini.parseLine (getlines rest)
                        (Ini.parseLine [] (String c r))).
      now rewrite Hline. }
    split; [exact Hp|]. now rewrite Hp.
Qed.

(** ** Facts about the string operations *)

Lemma append_nil_r (s : string) : s ++ "" = s.
Proof. induction s as [|c r IH]; simpl; [reflexivity|now rewrite IH]. Qed.

Lemma append_assoc (a b c : string) : (a ++ b) ++ c = a ++ b ++ c.
Proof. induction a as [|x r IH]; simpl; [reflexivity|now rewrite IH]. Qed.

Lemma length_append (a b : string) :
  String.length (a ++ b) = (String.length a + String.length b)%nat.
Proof. induction a as [|x r IH]; simpl; [reflexivity|now rewrite IH]. Qed.

Lemma size_append (a b : string) : size (a ++ b) = size a + size b.
Proof. unfold size. rewrite length_append. lia. Qed.

Lemma size_nonneg (s : string) : 0 <= size s.
Proof. unfold size. lia. Qed.

Lemma size_String (c : ascii) (s : string) : size (String c s) = size s + 1.
Proof. unfold size. simpl String.length. lia. Qed.

Lemma drop_append (a b : string) : drop (String.length a) (a ++ b) = b.
Proof. induction a as [|x r IH]; simpl; [reflexivity|exact IH]. Qed.

Lemma take_append (a b : string) : take (String.length a) (a ++ b) = a.
Proof. induction a as [|x r IH]; simpl; [reflexivity|now rewrite IH]. Qed.

Lemma take_all (s : string) (n : nat) :
  (String.length s <= n)%nat -> take n s = s.
Proof.
  revert n; induction s as [|x r IH]; intros [|n]; simpl; intros H;
    try reflexivity; try lia.
  rewrite IH; [reflexivity|lia].
Qed.

Lemma first_index_append (p : ascii -> bool) (a b : string) :
  first_index p a = None ->
  first_index p (a ++ b)
  = option_map (fun i => (String.length a + i)%nat) (first_index p b).
Proof.
  induction a as [|x r IH]; simpl; intros H.
  - now destruct (first_index p b).
  - destruct (p x); [discriminate|].
    destruct (first_index p r); [discriminate|].
    rewrite (IH eq_refl). now destruct (first_index p b).
Qed.

Lemma first_index_append_none (p : ascii -> bool) (a b : string) :
  first_index p (a ++ b) = None ->
  first_index p a = None /\ first_index p b = None.
Proof.
  induction a as [|x r IH]; simpl; intros H; [now split|].
  destruct (p x); [discriminate|].
  destruct (first_index p (r ++ b)); [discriminate|].
  destruct (IH eq_refl) as [-> ->]. now split.
Qed.

Lemma first_index_lt (p : ascii -> bool) (s : string) (i : nat) :
  first_index p s = Some i -> (i < String.length s)%nat.
Proof.
  revert i; induction s as [|x r IH]; simpl; intros i; [discriminate|].
  destruct (p x); [intros [= <-]; lia|].
  destruct (first_index p r) as [j|]; [|discriminate].
  intros [= <-]. specialize (IH j eq_refl). lia.
Qed.

(** [find] on a string split at the first occurrence. *)
Lemma find_split (a b : string) (c : ascii) :
  has_char c a = false -> find (a ++ String c b) c = size a.
Proof.
  unfold has_char, find, size. intros H.
  destruct (first_index (Ascii.eqb c) a) eqn:E; [discriminate|].
  rewrite (first_index_append _ a (String c b) E). simpl.
  rewrite Ascii.eqb_refl. simpl. f_equal. lia.
Qed.

Lemma find_none (s : string) (c : ascii) :
  has_char c s = false -> find s c = npos.
Proof.
  unfold has_char, find.
  now destruct (first_index (Ascii.eqb c) s).
Qed.

Lemma has_char_append (c : ascii) (a b : string) :
  has_char c (a ++ b) = (has_char c a || has_char c b)%bool.
Proof.
  unfold has_char.
  destruct (first_index (Ascii.eqb c) a) eqn:E.
  - revert n E. induction a as [|x r IH]; simpl; intros n; [discriminate|].
    destruct (Ascii.eqb c x); [reflexivity|].
    destruct (first_index (Ascii.eqb c) r) as [j|]; [|discriminate].
    intros _. specialize (IH j eq_refl).
    now destruct (first_index (Ascii.eqb c) (r ++ b)).
  - rewrite (first_index_append _ a b E).
    now destruct (first_index (Ascii.eqb c) b).
Qed.

Lemma npos_value : npos = 18446744073709551615.
Proof. reflexivity. Qed.

Lemma max_size_value : max_size = 4611686018427387904.
Proof. reflexivity. Qed.

Lemma size_t_small (z : Z) : 0 <= z < 2 ^ 64 -> size_t z = z.
Proof. intros H. unfold size_t. now apply Z.mod_small. Qed.

(** [substr] on a string given by its parts. *)
Lemma substr_mid (a b c : string) :
  substr (a ++ b ++ c) (size a) (size b) = b.
Proof.
  unfold substr. rewrite !size_append.
  replace (Z.min (size b) (size a + (size b + size c) - size a))
    with (size b) by (pose proof (size_nonneg c); lia).
  unfold size. rewrite !Nat2Z.id, drop_append. apply take_append.
Qed.

Lemma substr_front (b c : string) : substr (b ++ c) 0 (size b) = b.
Proof. exact (substr_mid "" b c). Qed.

Lemma substr_rest (a b : string) (len : Z) :
  size b <= len -> substr (a ++ b) (size a) len = b.
Proof.
  intros H. unfold substr. rewrite size_append.
  replace (Z.min len (size a + size b - size a)) with (size b) by lia.
  unfold size. rewrite !Nat2Z.id, drop_append. now apply take_all.
Qed.

(** ** The time coercion *)

Lemma int_wrap_small (z : Z) : int_min <= z <= int_max -> int_wrap z = z.
Proof.
  unfold int_wrap, int_min, int_max. intros H.
  rewrite Z.mod_small; lia.
Qed.

Section TimeFacts.
Variable NDEBUG : bool.
Variable parseInt : string -> option Z.

Lemma readTime_run (st : state) (key str : string) (value : Z) :
  Ini.getValue (ini st) key = Some (Some str) ->
  empty str = false ->
  readTime NDEBUG parseInt key value st
  = match readTime_try parseInt str with
    | Done (time, milliseconds) =>
        Some ((true, int_add (int_mul time 1000) milliseconds), st)
    | Thrown =>
        Some ((false, value),
              {| ini := ini st;
                 printed := (printed st
                             ++ [Stderr ("Error parsing time at " ++ key)])%list |})
    | Invalid =>
        Some ((false, value),
              {| ini := ini st;
                 printed := (printed st
                             ++ [Stderr ("Invalid time at " ++ key)])%list |})
    end.
Proof.
  intros H He. unfold readTime.
  rewrite (bind_some _ _ _ _ _ (readString_present NDEBUG st key str H)), He.
  destruct (readTime_try parseInt str) as [[t ms]| |]; reflexivity.
Qed.

(** Whatever the value, a [false] result comes with the field as it was. *)
Lemma readTime_false_unchanged (st st' : state) (key : string) (value v : Z) :
  readTime NDEBUG parseInt key value st = Some ((false, v), st') -> v = value.
Proof.
  unfold readTime, bind.
  destruct (readString NDEBUG key st) as [[str st1]|]; [|discriminate].
  destruct (empty str); [now intros [= <- _]|].
  destruct (readTime_try parseInt str) as [[t ms]| |]; unfold ret, error, print;
    simpl; intros [= ]; congruence.
Qed.

Lemma try_seconds (str : string) :
  has_char ":" str = false ->
  readTime_try parseInt str
  = match parseInt str with Some n => Done (n, 0) | None => Thrown end.
Proof.
  intros H. unfold readTime_try, find_first_of.
  rewrite (find_none _ _ H). reflexivity.
Qed.

Lemma try_minutes_seconds (mm ss : string) :
  has_char ":" mm = false ->
  has_char "." (mm ++ ":" ++ ss) = false ->
  size (mm ++ ":" ++ ss) < max_size ->
  readTime_try parseInt (mm ++ ":" ++ ss)
  = match parseInt mm with
    | None => Thrown
    | Some m =>
        if ((m <? 0) || (m >? 99))%bool then Invalid
        else match parseInt ss with
             | None => Thrown
             | Some s =>
                 if ((s <? 0) || (s >? 59))%bool then Invalid
                 else Done (int_add (int_mul m 60) s, 0)
             end
    end.
Proof.
  intros Hc Hd Hsz. unfold readTime_try, find_first_of.
  rewrite (find_none _ _ Hd).
  change (mm ++ ":" ++ ss) with (mm ++ String ":" ss) in *.
  rewrite (find_split mm ss ":" Hc).
  rewrite size_append, size_String in Hsz.
  pose proof (size_nonneg mm) as Hm. pose proof (size_nonneg ss) as Hs.
  rewrite max_size_value in Hsz.
  assert (Hne : (size mm =? npos) = false)
    by (apply Z.eqb_neq; rewrite npos_value; lia).
  rewrite Hne. change ((npos =? npos)) with true. cbv iota.
  rewrite substr_front.
  rewrite (size_t_small (size mm + 1)) by lia.
  change (mm ++ String ":" ss) with (mm ++ ":" ++ ss).
  rewrite <- append_assoc.
  replace (size mm + 1) with (size (mm ++ ":"))
    by (rewrite size_append; reflexivity).
  rewrite substr_rest by (rewrite npos_value; lia).
  reflexivity.
Qed.

Lemma try_minutes_seconds_fraction (mm ss ff : string) :
  has_char ":" mm = false ->
  has_char "." mm = false ->
  has_char "." ss = false ->
  size (mm ++ ":" ++ ss ++ "." ++ ff) < max_size ->
  readTime_try parseInt (mm ++ ":" ++ ss ++ "." ++ ff)
  = match parseInt mm with
    | None => Thrown
    | Some m =>
        if ((m <? 0) || (m >? 99))%bool then Invalid
        else
          match parseInt (ss ++ ".") with
          | None => Thrown
          | Some s =>
              match parseInt ff with
              | None => Thrown
              | Some f =>
                  let finish (milliseconds : Z) : tried (Z * Z) :=
                    if ((s <? 0) || (s >? 59))%bool then Invalid
                    else Done (int_add (int_mul m 60) s, milliseconds) in
                  match String.length ff with
                  | 1%nat => finish (int_mul f 100)
                  | 2%nat => finish (int_mul f 10)
                  | 3%nat => finish f
                  | _ => Invalid
                  end
              end
          end
    end.
Proof.
  intros Hc Hdm Hds Hsz. unfold readTime_try, find_first_of.
  pose proof (size_nonneg mm) as Hm. pose proof (size_nonneg ss) as Hs.
  pose proof (size_nonneg ff) as Hf.
  rewrite max_size_value in Hsz.
  assert (Hsize : size (mm ++ ":" ++ ss ++ "." ++ ff)
                  = size mm + 1 + size ss + 1 + size ff).
  { rewrite !size_append. change (size ":") with 1. change (size ".") with 1.
    lia. }
  rewrite Hsize in Hsz.
  assert (Hsep : find (mm ++ ":" ++ ss ++ "." ++ ff) ":" = size mm)
    by (apply (find_split mm (ss ++ "." ++ ff) ":" Hc)).
  assert (Hdot : find (mm ++ ":" ++ ss ++ "." ++ ff) "." = size mm + 1 + size ss).
  { replace (mm ++ ":" ++ ss ++ "." ++ ff)
      with ((mm ++ ":" ++ ss) ++ String "." ff)
      by (now rewrite !append_assoc).
    rewrite find_split.
    - rewrite !size_append. change (size ":") with 1. lia.
    - rewrite !has_char_append, Hdm, Hds. reflexivity. }
  rewrite Hsep, Hdot.
  assert (Hne1 : (size mm =? npos) = false)
    by (apply Z.eqb_neq; rewrite npos_value; lia).
  assert (Hne2 : (size mm + 1 + size ss =? npos) = false)
    by (apply Z.eqb_neq; rewrite npos_value; lia).
  rewrite Hne1, Hne2.
  rewrite substr_front.
  rewrite (size_t_small (size mm + 1)) by lia.
  rewrite (size_t_small (size mm + 1 + size ss - size mm)) by lia.
  rewrite (size_t_small (size mm + 1 + size ss + 1)) by lia.
  assert (Hsec : substr (mm ++ ":" ++ ss ++ "." ++ ff) (size mm + 1)
                        (size mm + 1 + size ss - size mm) = ss ++ ".").
  { replace (mm ++ ":" ++ ss ++ "." ++ ff)
      with ((mm ++ ":") ++ (ss ++ ".") ++ ff)
      by (now rewrite !append_assoc).
    replace (size mm + 1) with (size (mm ++ ":"))
      by (rewrite size_append; reflexivity).
    replace (size (mm ++ ":") + size ss - size mm) with (size (ss ++ "."))
      by (rewrite !size_append; change (size ":") with 1;
          change (size ".") with 1; lia).
    apply substr_mid. }
  assert (Hmsec : substr (mm ++ ":" ++ ss ++ "." ++ ff)
                         (size mm + 1 + size ss + 1) npos = ff).
  { replace (mm ++ ":" ++ ss ++ "." ++ ff)
      with ((mm ++ ":" ++ ss ++ ".") ++ ff)
      by (now rewrite !append_assoc).
    replace (size mm + 1 + size ss + 1) with (size (mm ++ ":" ++ ss ++ "."))
      by (rewrite !size_append; change (size ":") with 1;
          change (size ".") with 1; lia).
    apply substr_rest. rewrite npos_value. lia. }
  rewrite Hsec, Hmsec.
  destruct (parseInt mm) as [m|]; [|reflexivity].
  destruct ((m <? 0) || (m >? 99))%bool; [reflexivity|].
  destruct (parseInt (ss ++ ".")) as [s|]; [|reflexivity].
  destruct (parseInt ff) as [f|]; [|reflexivity].
  reflexivity.
Qed.

(** The first dot stands before the first colon: the seconds piece has
    the length [dot - sep], which wraps around and reaches the end of the
    value, and the fraction is everything after the dot, colon included. *)
Lemma try_dot_before_colon (a b rest : string) :
  has_char "." a = false ->
  has_char ":" (a ++ "." ++ b) = false ->
  size ((a ++ "." ++ b) ++ ":" ++ rest) < max_size ->
  readTime_try parseInt ((a ++ "." ++ b) ++ ":" ++ rest)
  = match parseInt (a ++ "." ++ b) with
    | None => Thrown
    | Some m =>
        if ((m <? 0) || (m >? 99))%bool then Invalid
        else
          match parseInt rest with
          | None => Thrown
          | Some s =>
              match parseInt (b ++ ":" ++ rest) with
              | None => Thrown
              | Some f =>
                  let finish (milliseconds : Z) : tried (Z * Z) :=
                    if ((s <? 0) || (s >? 59))%bool then Invalid
                    else Done (int_add (int_mul m 60) s, milliseconds) in
                  match String.length (b ++ ":" ++ rest) with
                  | 1%nat => finish (int_mul f 100)
                  | 2%nat => finish (int_mul f 10)
                  | 3%nat => finish f
                  | _ => Invalid
                  end
              end
          end
    end.
Proof.
  intros Hda Hc Hsz. unfold readTime_try, find_first_of.
  pose proof (size_nonneg a) as Ha. pose proof (size_nonneg b) as Hb.
  pose proof (size_nonneg rest) as Hr.
  rewrite max_size_value in Hsz.
  assert (Hsize : size ((a ++ "." ++ b) ++ ":" ++ rest)
                  = size a + 1 + size b + 1 + size rest).
  { rewrite !size_append. change (size ":") with 1. change (size ".") with 1.
    lia. }
  rewrite Hsize in Hsz.
  assert (Hsep : find ((a ++ "." ++ b) ++ ":" ++ rest) ":"
                 = size a + 1 + size b).
  { change (":" ++ rest) with (String ":" rest).
    rewrite (find_split (a ++ "." ++ b) rest ":" Hc).
    rewrite !size_append. change (size ".") with 1. lia. }
  assert (Hdot : find ((a ++ "." ++ b) ++ ":" ++ rest) "." = size a).
  { replace ((a ++ "." ++ b) ++ ":" ++ rest)
      with (a ++ String "." (b ++ ":" ++ rest))
      by (now rewrite !append_assoc).
    now apply find_split. }
  rewrite Hsep, Hdot.
  assert (Hne1 : (size a + 1 + size b =? npos) = false)
    by (apply Z.eqb_neq; rewrite npos_value; lia).
  assert (Hne2 : (size a =? npos) = false)
    by (apply Z.eqb_neq; rewrite npos_value; lia).
  rewrite Hne1, Hne2.
  assert (Hmin : substr ((a ++ "." ++ b) ++ ":" ++ rest) 0
                        (size a + 1 + size b) = a ++ "." ++ b).
  { replace (size a + 1 + size b) with (size (a ++ "." ++ b))
      by (rewrite !size_append; change (size ".") with 1; lia).
    apply substr_front. }
  rewrite (size_t_small (size a + 1 + size b + 1)) by lia.
  assert (Hlen : size_t (size a - (size a + 1 + size b))
                 = 2 ^ 64 - 1 - size b).
  { unfold size_t.
    replace (size a - (size a + 1 + size b))
      with (2 ^ 64 - 1 - size b + (-1) * 2 ^ 64) by lia.
    rewrite Z.mod_add by lia. apply Z.mod_small. lia. }
  rewrite Hlen.
  rewrite (size_t_small (size a + 1)) by lia.
  assert (Hsec : substr ((a ++ "." ++ b) ++ ":" ++ rest)
                        (size a + 1 + size b + 1) (2 ^ 64 - 1 - size b)
                 = rest).
  { replace ((a ++ "." ++ b) ++ ":" ++ rest)
      with (((a ++ "." ++ b) ++ ":") ++ rest)
      by (now rewrite !append_assoc).
    replace (size a + 1 + size b + 1) with (size ((a ++ "." ++ b) ++ ":"))
      by (rewrite !size_append; change (size ":") with 1;
          change (size ".") with 1; lia).
    apply substr_rest. lia. }
  assert (Hmsec : substr ((a ++ "." ++ b) ++ ":" ++ rest) (size a + 1) npos
                  = b ++ ":" ++ rest).
  { replace ((a ++ "." ++ b) ++ ":" ++ rest)
      with ((a ++ ".") ++ b ++ ":" ++ rest)
      by (now rewrite !append_assoc).
    replace (size a + 1) with (size (a ++ "."))
      by (rewrite size_append; reflexivity).
    apply substr_rest. rewrite !size_append, npos_value.
    change (size ":") with 1. lia. }
  rewrite Hmin, Hsec, Hmsec. reflexivity.
Qed.

End TimeFacts.

Lemma int_wrap_range (z : Z) : int_min <= int_wrap z <= int_max.
Proof.
  unfold int_wrap, int_min, int_max.
  pose proof (Z.mod_pos_bound (z + 2 ^ 31) (2 ^ 32) eq_refl). lia.
Qed.

Lemma int_wrap_idem (z : Z) : int_wrap (int_wrap z) = int_wrap z.
Proof. apply int_wrap_small, int_wrap_range. Qed.

Lemma int_time_value (m s ms : Z) :
  0 <= m <= 99 -> 0 <= s <= 59 -> 0 <= ms <= 99900 ->
  int_add (int_mul (int_add (int_mul m 60) s) 1000) ms
  = m * 60000 + s * 1000 + ms.
Proof.
  intros Hm Hs Hms. unfold int_add, int_mul.
  rewrite (int_wrap_small (m * 60)) by (unfold int_min, int_max; lia).
  rewrite (int_wrap_small (m * 60 + s)) by (unfold int_min, int_max; lia).
  rewrite (int_wrap_small ((m * 60 + s) * 1000))
    by (unfold int_min, int_max; lia).
  rewrite int_wrap_small by (unfold int_min, int_max; lia).
  lia.
Qed.

Lemma in_range_reflect (lo hi z : Z) :
  ((z <? lo) || (z >? hi))%bool = negb ((lo <=? z) && (z <=? hi)).
Proof.
  destruct (Z.ltb_spec z lo), (Z.leb_spec lo z), (Z.leb_spec z hi);
    rewrite ?Z.gtb_ltb; destruct (Z.ltb_spec hi z); simpl; try reflexivity; lia.
Qed.

Lemma int_wrap_add_wrap (a b : Z) : int_wrap (a + int_wrap b) = int_wrap (a + b).
Proof.
  unfold int_wrap. f_equal.
  replace (a + ((b + 2 ^ 31) mod 2 ^ 32 - 2 ^ 31) + 2 ^ 31)
    with (a + (b + 2 ^ 31) mod 2 ^ 32) by lia.
  rewrite Z.add_mod_idemp_r by lia. f_equal. lia.
Qed.

(** The value [readTime] assigns, up to the wrap of [int]: minutes and
    seconds are in range, the milliseconds are whatever was read. *)
Lemma int_time_wrap (m s ms : Z) :
  0 <= m <= 99 -> 0 <= s <= 59 ->
  int_add (int_mul (int_add (int_mul m 60) s) 1000) ms
  = int_wrap (m * 60000 + s * 1000 + ms).
Proof.
  intros Hm Hs. unfold int_add, int_mul.
  rewrite (int_wrap_small (m * 60)) by (unfold int_min, int_max; lia).
  rewrite (int_wrap_small (m * 60 + s)) by (unfold int_min, int_max; lia).
  rewrite (int_wrap_small ((m * 60 + s) * 1000))
    by (unfold int_min, int_max; lia).
  f_equal. lia.
Qed.

(** A character that occurs splits the text at its first occurrence. *)
Lemma has_char_split (c : ascii) (s : string) :
  has_char c s = true ->
  exists a b, s = a ++ String c b /\ has_char c a = false.
Proof.
  unfold has_char. induction s as [|x r IH]; simpl; [discriminate|].
  destruct (Ascii.eqb_spec c x) as [<-|Hx].
  - intros _. exists "", r. now split.
  - destruct (first_index (Ascii.eqb c) r) as [j|] eqn:E; [|discriminate].
    intros _. destruct (IH eq_refl) as (a & b & -> & Ha).
    exists (String x a), b. split; [reflexivity|].
    simpl. destruct (Ascii.eqb_spec c x) as [->|_]; [contradiction|].
    now destruct (first_index (Ascii.eqb c) a).
Qed.

Section TimeFormat.
Variable NDEBUG : bool.
Variable parseInt : string -> option Z.

(** The code against the spec's words, without a fraction. *)
Lemma readTime_minutes_seconds (st : state) (key mm ss : string) (value : Z) :
  Ini.getValue (ini st) key = Some (Some (mm ++ ":" ++ ss)) ->
  has_char ":" mm = false ->
  has_char "." (mm ++ ":" ++ ss) = false ->
  size (mm ++ ":" ++ ss) < max_size ->
  exists st',
    readTime NDEBUG parseInt key value st
    = Some (time_outcome value (spec_time (parseInt mm) (parseInt ss) None), st')
    /\ ini st' = ini st.
Proof.
  intros Hg Hc Hd Hsz.
  assert (He : empty (mm ++ ":" ++ ss) = false) by (now destruct mm).
  rewrite (readTime_run NDEBUG parseInt st key _ value Hg He).
  rewrite (try_minutes_seconds parseInt mm ss Hc Hd Hsz).
  unfold spec_time.
  destruct (parseInt mm) as [m|]; [|eexists; split; reflexivity].
  rewrite (in_range_reflect 0 99 m).
  destruct (Z.leb_spec 0 m), (Z.leb_spec m 99); simpl;
    try (destruct (parseInt ss); eexists; split; reflexivity).
  destruct (parseInt ss) as [s|]; [|eexists; split; reflexivity].
  rewrite (in_range_reflect 0 59 s).
  destruct (Z.leb_spec 0 s), (Z.leb_spec s 59); simpl;
    try (eexists; split; reflexivity).
  exists st. split; [|reflexivity].
  rewrite (int_time_value m s 0) by lia.
  unfold time_outcome. do 3 f_equal. lia.
Qed.

(** What the caller sees of a run on a value that is held and not empty. *)
Lemma readTime_seen (st : state) (key str : string) (value : Z) :
  Ini.getValue (ini st) key = Some (Some str) ->
  empty str = false ->
  exists st',
    readTime NDEBUG parseInt key value st
    = Some (match readTime_try parseInt str with
            | Done (time, milliseconds) =>
                (true, int_add (int_mul time 1000) milliseconds)
            | _ => (false, value)
            end, st') /\
    ini st' = ini st.
Proof.
  intros Hg He. rewrite (readTime_run NDEBUG parseInt st key str value Hg He).
  destruct (readTime_try parseInt str) as [[t ms]| |];
    eexists; split; reflexivity.
Qed.

(** The three integers the code reads, the fraction with the length of
    its piece, against the format: the ranges and the length decide, the
    value is the formula of the spec up to the wrap of [int]. *)
Lemma fields_outcome (value : Z) (pm ps pf : option Z) (n : nat) :
  match
    match pm with
    | None => Thrown
    | Some m =>
        if ((m <? 0) || (m >? 99))%bool then Invalid
        else
          match ps with
          | None => Thrown
          | Some s =>
              match pf with
              | None => Thrown
              | Some f =>
                  let finish (milliseconds : Z) : tried (Z * Z) :=
                    if ((s <? 0) || (s >? 59))%bool then Invalid
                    else Done (int_add (int_mul m 60) s, milliseconds) in
                  match n with
                  | 1%nat => finish (int_mul f 100)
                  | 2%nat => finish (int_mul f 10)
                  | 3%nat => finish f
                  | _ => Invalid
                  end
              end
          end
    end
  with
  | Done (time, milliseconds) =>
      (true, int_add (int_mul time 1000) milliseconds)
  | _ => (false, value)
  end
  = time_outcome value (option_map int_wrap (spec_time pm ps (Some (pf, n)))).
Proof.
  unfold spec_time.
  destruct pm as [m|]; [|reflexivity].
  rewrite (in_range_reflect 0 99 m).
  destruct (Z.leb_spec 0 m), (Z.leb_spec m 99); simpl;
    try (now destruct ps).
  destruct ps as [s|]; [|reflexivity].
  destruct pf as [f|]; [|now destruct (0 <=? s), (s <=? 59)].
  rewrite (in_range_reflect 0 59 s).
  destruct (Z.leb_spec 0 s), (Z.leb_spec s 59); simpl;
    try (now destruct n as [|[|[|[|n]]]]).
  destruct n as [|[|[|[|n]]]]; try reflexivity;
    unfold time_outcome; simpl option_map; f_equal.
  - rewrite int_time_wrap by lia. unfold int_mul.
    now rewrite int_wrap_add_wrap.
  - rewrite int_time_wrap by lia. unfold int_mul.
    now rewrite int_wrap_add_wrap.
  - now rewrite int_time_wrap by lia.
Qed.

(** C4, as the code has it: the time coercion.  A value without a colon is
    read as whole seconds.  A value with a colon is cut at its first colon
    and, when it has one, at its first dot; the pieces are handed to
    [parseInt] as they are, without a test that they are digits or that
    the dot follows the colon.  Minutes are what is read before the colon
    and must be in 0 to 99; seconds are what is read after it and must be
    in 0 to 59; with a dot, the piece after the first dot must have one to
    three characters and what is read there is scaled by 100, 10 or 1.
    When an integer cannot be read, a range is left or the fraction has
    no or more than three characters the function returns [false] and the
    field is as it was; otherwise the field becomes
    [minutes * 60000 + seconds * 1000 + milliseconds] (as an [int]).  With
    the dot after the colon the seconds piece keeps the dot that follows
    it; with the dot before the colon the seconds piece runs to the end of
    the value and the fraction is everything after the dot.  The three
    shapes cover every value with a colon.  The examples of the spec
    follow, and two values outside the format of the spec that are
    accepted. *)
Theorem C4_readTime_format :
  forall (st : state) (key str : string) (value : Z),
    Ini.getValue (ini st) key = Some (Some str) ->
    empty str = false ->
    size str < max_size ->
    (forall v st', readTime NDEBUG parseInt key value st = Some ((false, v), st') ->
                   v = value) /\
    (has_char ":" str = false ->
     (forall n, parseInt str = Some n ->
                readTime NDEBUG parseInt key value st
                = Some ((true, int_wrap (n * 1000)), st) /\
                (-2147483 <= n <= 2147483 -> int_wrap (n * 1000) = n * 1000)) /\
     (parseInt str = None ->
      exists st', readTime NDEBUG parseInt key value st
                  = Some ((false, value), st'))) /\
    (forall mm ss,
        str = mm ++ ":" ++ ss ->
        has_char ":" mm = false -> has_char "." str = false ->
        exists st',
          readTime NDEBUG parseInt key value st
          = Some (time_outcome value
                    (spec_time (parseInt mm) (parseInt ss) None), st')) /\
    (forall mm ss ff,
        str = mm ++ ":" ++ ss ++ "." ++ ff ->
        has_char ":" mm = false -> has_char "." mm = false ->
        has_char "." ss = false ->
        exists st',
          readTime NDEBUG parseInt key value st
          = Some (time_outcome value
                    (option_map int_wrap
                       (spec_time (parseInt mm) (parseInt (ss ++ "."))
                                  (Some (parseInt ff, String.length ff)))),
                  st')) /\
    (forall a b rest,
        str = (a ++ "." ++ b) ++ ":" ++ rest ->
        has_char "." a = false -> has_char ":" (a ++ "." ++ b) = false ->
        exists st',
          readTime NDEBUG parseInt key value st
          = Some (time_outcome value
                    (option_map int_wrap
                       (spec_time (parseInt (a ++ "." ++ b)) (parseInt rest)
                                  (Some (parseInt (b ++ ":" ++ rest),
                                         String.length (b ++ ":" ++ rest))))),
                  st')) /\
    (has_char ":" str = true ->
     exists mm rest,
       str = mm ++ ":" ++ rest /\ has_char ":" mm = false /\
       (has_char "." str = false \/
        (has_char "." mm = false /\
         exists ss ff, rest = ss ++ "." ++ ff /\ has_char "." ss = false) \/
        (exists a b, mm = a ++ "." ++ b /\ has_char "." a = false))) /\
    (forall t, int_min <= t <= int_max -> int_wrap t = t) /\
    (str = "1:30.500" ->
     parseInt "1" = Some 1 -> parseInt "30." = Some 30 ->
     parseInt "500" = Some 500 ->
     readTime NDEBUG parseInt key value st = Some ((true, 90500), st)) /\
    (str = "90" ->
     parseInt "90" = Some 90 ->
     readTime NDEBUG parseInt key value st = Some ((true, 90000), st)) /\
    (str = "99:59.999" ->
     parseInt "99" = Some 99 -> parseInt "59." = Some 59 ->
     parseInt "999" = Some 999 ->
     readTime NDEBUG parseInt key value st = Some ((true, 5999999), st)) /\
    (str = "100:00" ->
     parseInt "100" = Some 100 ->
     exists st', readTime NDEBUG parseInt key value st
                 = Some ((false, value), st')) /\
    (str = "1:60" ->
     parseInt "1" = Some 1 -> parseInt "60" = Some 60 ->
     exists st', readTime NDEBUG parseInt key value st
                 = Some ((false, value), st')) /\
    (str = "1:30.-5" ->
     parseInt "1" = Some 1 -> parseInt "30." = Some 30 ->
     parseInt "-5" = Some (-5) ->
     readTime NDEBUG parseInt key value st = Some ((true, 89950), st)) /\
    (str = "1.5:3" ->
     parseInt "1.5" = Some 1 -> parseInt "3" = Some 3 ->
     parseInt "5:3" = Some 5 ->
     readTime NDEBUG parseInt key value st = Some ((true, 63005), st)).
Proof.
  intros st key str value Hg He Hsz.
  pose proof (readTime_run NDEBUG parseInt st key str value Hg He) as Hrun.
  destruct (readTime_seen st key str value Hg He) as (st1 & Hseen & _).
  split; [intros v st'; apply readTime_false_unchanged|].
  split.
  { intros Hc. rewrite (try_seconds parseInt str Hc) in Hrun. split.
    - intros n Hn. rewrite Hn in Hrun. split.
      + rewrite Hrun. unfold int_add, int_mul.
        now rewrite Z.add_0_r, int_wrap_idem.
      + intros Hr. apply int_wrap_small. unfold int_min, int_max. lia.
    - intros Hn. rewrite Hn in Hrun. eexists. exact Hrun. }
  split.
  { intros mm ss -> Hc Hd.
    destruct (readTime_minutes_seconds st key mm ss value Hg Hc Hd Hsz)
      as (st' & H & _).
    now exists st'. }
  split.
  { intros mm ss ff -> Hc Hdm Hds. exists st1.
    rewrite Hseen.
    rewrite (try_minutes_seconds_fraction parseInt mm ss ff Hc Hdm Hds Hsz).
    now rewrite fields_outcome. }
  split.
  { intros a b rest -> Hda Hc. exists st1.
    rewrite Hseen.
    rewrite (try_dot_before_colon parseInt a b rest Hda Hc Hsz).
    now rewrite fields_outcome. }
  split.
  { intros Hc.
    destruct (has_char_split ":" str Hc) as (mm & rest & E & Hmm).
    exists mm, rest. split; [exact E|]. split; [exact Hmm|].
    destruct (has_char "." str) eqn:Hd; [|now left]. right.
    destruct (has_char "." mm) eqn:Hdm.
    - right. destruct (has_char_split "." mm Hdm) as (a & b & Ea & Ha).
      now exists a, b.
    - left. split; [reflexivity|].
      rewrite E in Hd. change (String ":" rest) with (":" ++ rest) in Hd.
      rewrite !has_char_append, Hdm in Hd.
      change (has_char "." ":") with false in Hd. simpl orb in Hd.
      destruct (has_char_split "." rest Hd) as (ss & ff & Es & Hss).
      now exists ss, ff. }
  split; [apply int_wrap_small|].
  split.
  { intros -> H1 H30 H500. rewrite Hrun.
    change "1:30.500" with ("1" ++ ":" ++ "30" ++ "." ++ "500") in Hsz |- *.
    rewrite (try_minutes_seconds_fraction parseInt "1" "30" "500"
               eq_refl eq_refl eq_refl Hsz).
    change ("30" ++ ".") with "30.". rewrite H1, H30, H500. reflexivity. }
  split.
  { intros -> H90. rewrite Hrun, (try_seconds parseInt "90" eq_refl), H90.
    reflexivity. }
  split.
  { intros -> H99 H59 H999. rewrite Hrun.
    change "99:59.999" with ("99" ++ ":" ++ "59" ++ "." ++ "999") in Hsz |- *.
    rewrite (try_minutes_seconds_fraction parseInt "99" "59" "999"
               eq_refl eq_refl eq_refl Hsz).
    change ("59" ++ ".") with "59.". rewrite H99, H59, H999. reflexivity. }
  split.
  { intros -> H100. rewrite Hrun.
    change "100:00" with ("100" ++ ":" ++ "00") in Hsz |- *.
    rewrite (try_minutes_seconds parseInt "100" "00" eq_refl eq_refl Hsz).
    rewrite H100. eexists. reflexivity. }
  split.
  { intros -> H1 H60. rewrite Hrun.
    change "1:60" with ("1" ++ ":" ++ "60") in Hsz |- *.
    rewrite (try_minutes_seconds parseInt "1" "60" eq_refl eq_refl Hsz).
    rewrite H1, H60. eexists. reflexivity. }
  split.
  { intros -> H1 H30 H5. rewrite Hrun.
    change "1:30.-5" with ("1" ++ ":" ++ "30" ++ "." ++ "-5") in Hsz |- *.
    rewrite (try_minutes_seconds_fraction parseInt "1" "30" "-5"
               eq_refl eq_refl eq_refl Hsz).
    change ("30" ++ ".") with "30.". rewrite H1, H30, H5. reflexivity. }
  { intros -> H1 H3 H5. rewrite Hrun.
    change "1.5:3" with (("1" ++ "." ++ "5") ++ ":" ++ "3") in Hsz |- *.
    rewrite (try_dot_before_colon parseInt "1" "5" "3" eq_refl eq_refl Hsz).
    change ("1" ++ "." ++ "5") with "1.5". change ("5" ++ ":" ++ "3") with "5:3".
    rewrite H1, H3, H5. reflexivity. }
Qed.

End TimeFormat.

(** C4 as the spec words it does not hold: in "1:30.-5" the fraction is not
    made of digits, and in "1.5:3" the dot stands before the colon; both
    are outside the format, yet both set the field. *)
Lemma C4_counterexample_values_outside_the_format :
  spec_time_text "1:30.-5" = None /\
  readTime true decimalInt "Default Play Length" 0
           (document_with "SIDPlayfp" "Default Play Length" "1:30.-5")
  = Some ((true, 89950),
          document_with "SIDPlayfp" "Default Play Length" "1:30.-5") /\
  89950 <> 0 /\
  spec_time_text "1.5:3" = None /\
  readTime true decimalInt "Default Play Length" 0
           (document_with "SIDPlayfp" "Default Play Length" "1.5:3")
  = Some ((true, 63005),
          document_with "SIDPlayfp" "Default Play Length" "1.5:3") /\
  spec_time_text "1:30.500" = Some 90500 /\
  spec_time_text "90" = Some 90000 /\
  spec_time_text "100:00" = None.
Proof. repeat split; try reflexivity. discriminate. Qed.

(** ** The single-character coercion *)

Lemma char_code_nonneg (c : ascii) : 0 <= char_code c.
Proof. unfold char_code. lia. Qed.

Lemma clip_spec (c ch : ascii) :
  clip c ch = if 32 <=? char_code c then c else ch.
Proof.
  unfold clip, unsigned_of_char. pose proof (char_code_nonneg c) as H.
  destruct (Z.ltb_spec (char_code c) 128).
  - reflexivity.
  - destruct (Z.leb_spec 32 (char_code c - 256 + 2 ^ 32)),
             (Z.leb_spec 32 (char_code c)); try reflexivity; lia.
Qed.

Lemma char_code_of_int (n : Z) : char_code (char_of_int n) = n mod 256.
Proof.
  unfold char_code, char_of_int.
  pose proof (Z.mod_pos_bound n 256 eq_refl) as H.
  rewrite N_ascii_embedding by lia. lia.
Qed.

Section CharFormat.
Variable NDEBUG : bool.
Variable parseInt : string -> option Z.

(** C8, as amended: a value that opens with a single quote sets the field
    to its second character when its third character is a single quote,
    whatever follows, and leaves the field as it was when the third
    character is anything else; any other value is read as an integer
    whose low eight bits are the character code.  Codes below 32 are
    rejected, and nothing is printed unless the integer does not parse.
    The spec's examples follow. *)
Theorem C8_readChar_third_character_closes :
  forall (st : state) (key v : string) (ch : ascii),
    Ini.getValue (ini st) key = Some (Some v) ->
    (forall c rest,
        v = String "'" (String c (String "'" rest)) ->
        readChar NDEBUG parseInt key ch st
        = Some (if 32 <=? char_code c then c else ch, st)) /\
    (forall c rest,
        v = String "'" (String c rest) ->
        (forall rest', rest <> String "'" rest') ->
        readChar NDEBUG parseInt key ch st = Some (ch, st)) /\
    (forall c0 rest n,
        v = String c0 rest -> c0 <> "'"%char -> parseInt v = Some n ->
        readChar NDEBUG parseInt key ch st
        = Some (if 32 <=? n mod 256 then char_of_int n else ch, st)) /\
    (forall c0 rest,
        v = String c0 rest -> c0 <> "'"%char -> parseInt v = None ->
        exists st', readChar NDEBUG parseInt key ch st = Some (ch, st') /\
                    ini st' = ini st) /\
    (v = "'A'" -> readChar NDEBUG parseInt key ch st = Some ("A"%char, st)) /\
    (v = "65" -> parseInt "65" = Some 65 ->
     readChar NDEBUG parseInt key ch st = Some ("A"%char, st)) /\
    (v = "' '" -> readChar NDEBUG parseInt key ch st = Some (" "%char, st)) /\
    (v = String "'" (String "009" (String "'" "")) ->
     readChar NDEBUG parseInt key ch st = Some (ch, st)).
Proof.
  intros st key v ch Hg.
  pose proof (readString_present NDEBUG st key v Hg) as Hstr.
  assert (Hquoted : forall c rest,
             v = String "'" (String c (String "'" rest)) ->
             readChar NDEBUG parseInt key ch st
             = Some (if 32 <=? char_code c then c else ch, st)).
  { intros c rest ->. unfold readChar.
    rewrite (bind_some _ _ _ _ _ Hstr). cbn. now rewrite clip_spec. }
  assert (Hnumber : forall c0 rest n,
             v = String c0 rest -> c0 <> "'"%char -> parseInt v = Some n ->
             readChar NDEBUG parseInt key ch st
             = Some (if 32 <=? n mod 256 then char_of_int n else ch, st)).
  { intros c0 rest n -> Hc Hn. unfold readChar.
    rewrite (bind_some _ _ _ _ _ Hstr). cbn.
    destruct (Ascii.eqb_spec c0 "'") as [E|_]; [contradiction|].
    rewrite Hn, clip_spec, char_code_of_int. reflexivity. }
  split; [exact Hquoted|]. split.
  { intros c rest -> Hrest. unfold readChar.
    rewrite (bind_some _ _ _ _ _ Hstr). cbn.
    destruct rest as [|c2 rest']; cbn; [reflexivity|].
    destruct (Ascii.eqb_spec c2 "'") as [->|_]; [|reflexivity].
    exfalso. now apply (Hrest rest'). }
  split; [exact Hnumber|]. split.
  { intros c0 rest -> Hc Hn. unfold readChar.
    rewrite (bind_some _ _ _ _ _ Hstr). cbn.
    destruct (Ascii.eqb_spec c0 "'") as [E|_]; [contradiction|].
    rewrite Hn. eexists. split; reflexivity. }
  split; [intros E; exact (Hquoted "A"%char "" E)|].
  split; [intros E H65; subst v;
          exact (Hnumber "6"%char "5" 65 eq_refl ltac:(discriminate) H65)|].
  split; [intros E; exact (Hquoted " "%char "" E)|].
  intros E. exact (Hquoted "009"%char "" E).
Qed.

End CharFormat.

(** C8 as the spec words it does not hold: a quoted value with characters after
    the closing quote is not of the form quote, character, quote, yet it
    sets the field. *)
Lemma C8_counterexample_characters_after_the_quote :
  (forall c : ascii, "'A'B" <> String "'" (String c (String "'" ""))) /\
  readChar true decimalInt "Char Top Left" "x"
           (document_with "Console" "Char Top Left" "'A'B")
  = Some ("A"%char, document_with "Console" "Char Top Left" "'A'B") /\
  "A"%char <> "x"%char.
Proof.
  split; [intros c H; discriminate|].
  split; [reflexivity|discriminate].
Qed.

(** ** Reads are defined once a section is selected *)

Lemma forallb_absent (key : string) (sect : keyPair_t) :
  forallb (fun kv => negb (compare key kv)) (snd sect) = true ->
  absent key sect.
Proof.
  unfold absent. destruct sect as [n keys]; simpl.
  induction keys as [|[k w] r IH]; simpl; intros H v; [tauto|].
  apply andb_true_iff in H as [Hk Hr].
  intros [E|Hin].
  - injection E as -> _. unfold compare in Hk; simpl in Hk.
    now rewrite String.eqb_refl in Hk.
  - exact (IH Hr v Hin).
Qed.

Lemma getValue_selected (i : iniHandler) (sect : keyPair_t) (key : string) :
  selected i sect ->
  (exists v, Ini.getValue i key = Some (Some v)) \/
  (Ini.getValue i key = Some None /\ absent key sect).
Proof.
  intros Hs.
  destruct (nth_error (snd sect) (find_if (compare key) (snd sect))) eqn:E.
  - left. eexists. unfold Ini.getValue. rewrite Hs, E. reflexivity.
  - right. split.
    + unfold Ini.getValue. now rewrite Hs, E.
    + apply forallb_absent. now apply find_if_absent.
Qed.

Lemma nth_error_insert_at {A : Type} (l : list A) (x : A) :
  nth_error (Ini.insert_at (List.length l) x l) (List.length l) = Some x.
Proof.
  unfold Ini.insert_at.
  rewrite nth_error_app2 by (rewrite firstn_all; lia).
  now rewrite firstn_all, Nat.sub_diag.
Qed.

Lemma setSection_spec (i : iniHandler) (name : string) :
  exists k : nat,
    Ini.setSection i name
    = ({| sections := sections i; curSection := Pos k;
          fileName := fileName i; changed := changed i |},
       negb (Nat.eqb k (List.length (sections i)))) /\
    (k <= List.length (sections i))%nat.
Proof. eexists. split; [reflexivity|apply find_if_le]. Qed.

Lemma selectSection_total (st : state) (name : string) :
  exists st1 sect,
    selectSection name st = Some (tt, st1) /\ selected (ini st1) sect.
Proof.
  unfold selectSection, bind, ini_setSection.
  destruct (setSection_spec (ini st) name) as (k & -> & Hle).
  destruct (Nat.eqb_spec k (List.length (sections (ini st)))) as [E|N]; simpl.
  - unfold ini_addSection, ini_update, Ini.addSection. simpl.
    eexists. exists (name, []). split.
    + rewrite (proj2 (Nat.leb_le _ _) Hle). reflexivity.
    + unfold selected, Ini.deref. simpl. rewrite E.
      apply nth_error_insert_at.
  - destruct (nth_error (sections (ini st)) k) as [sect|] eqn:En.
    + eexists. exists sect. split; [reflexivity|].
      unfold selected, Ini.deref. simpl. exact En.
    + apply nth_error_None in En. lia.
Qed.

Section ConsoleFacts.
Variable NDEBUG : bool.
Variable parseBool : string -> option bool.

Lemma readKey_total (st : state) (sect : keyPair_t) (key : string) :
  selected (ini st) sect ->
  exists r st' sect',
    readKey NDEBUG key st = Some (r, st') /\ selected (ini st') sect'.
Proof.
  intros Hs. destruct (getValue_selected _ _ key Hs) as [[v Hv]|[_ Ha]].
  - exists (if empty v then None else Some v), st, sect.
    split; [now apply readKey_present|exact Hs].
  - destruct (read_absent NDEBUG st sect key Hs Ha)
      as (st' & _ & Hk & _ & Hs' & _).
    now exists None, st', (fst sect, (snd sect ++ [(key, "")])%list).
Qed.

Lemma readString_total (st : state) (sect : keyPair_t) (key : string) :
  selected (ini st) sect ->
  exists v st' sect',
    readString NDEBUG key st = Some (v, st') /\ selected (ini st') sect'.
Proof.
  intros Hs. destruct (getValue_selected _ _ key Hs) as [[v Hv]|[_ Ha]].
  - exists v, st, sect. split; [now apply readString_present|exact Hs].
  - destruct (read_absent NDEBUG st sect key Hs Ha)
      as (st' & Hk & _ & _ & Hs' & _).
    now exists "", st', (fst sect, (snd sect ++ [(key, "")])%list).
Qed.

Lemma readBool_total (st : state) (sect : keyPair_t) (key : string)
      (result : bool) :
  selected (ini st) sect ->
  exists r st' sect',
    readBool NDEBUG parseBool key result st = Some (r, st') /\
    selected (ini st') sect'.
Proof.
  intros Hs. destruct (readKey_total st sect key Hs) as (v & st' & sect' & Hk & Hs').
  unfold readBool. rewrite (bind_some _ _ _ _ _ Hk).
  destruct v as [v|]; [|now exists result, st', sect'].
  destruct (parseBool v) as [b|]; [now exists b, st', sect'|].
  exists result,
         {| ini := ini st';
            printed := (printed st'
                        ++ [Stderr ("Error parsing bool at " ++ key)])%list |},
         sect'.
  split; [reflexivity|exact Hs'].
Qed.

Lemma readColor_total (st : state) (sect : keyPair_t) (key : string)
      (ch : color_t) :
  selected (ini st) sect ->
  exists r st' sect',
    readColor NDEBUG key ch st = Some (r, st') /\ selected (ini st') sect'.
Proof.
  intros Hs.
  destruct (readString_total st sect key Hs) as (v & st' & sect' & Hk & Hs').
  unfold readColor. rewrite (bind_some _ _ _ _ _ Hk).
  destruct (empty v); [now eexists _, st', sect'|].
  destruct (color_loop v 0 colorStrings); now eexists _, st', sect'.
Qed.

(** When the ASCII key gives nothing, [readBool] hands back the value it
    was given, and the state it leaves does not depend on that value. *)
Lemma readBool_gives_nothing (st : state) (sect : keyPair_t) (key : string) :
  selected (ini st) sect ->
  gives_no_bool parseBool (ini st) key ->
  exists st' sect',
    (forall b, readBool NDEBUG parseBool key b st = Some (b, st')) /\
    selected (ini st') sect'.
Proof.
  intros Hs [Hn|(v & Hv & Hcase)].
  - destruct (getValue_selected _ _ key Hs) as [[v Hv]|[_ Ha]];
      [congruence|].
    destruct (read_absent NDEBUG st sect key Hs Ha)
      as (st' & _ & Hk & _ & Hs' & _).
    exists st', (fst sect, (snd sect ++ [(key, "")])%list).
    split; [|exact Hs']. intros b. unfold readBool.
    now rewrite (bind_some _ _ _ _ _ Hk).
  - pose proof (readKey_present NDEBUG st key v Hv) as Hk.
    destruct Hcase as [->|Hp].
    + exists st, sect. split; [|exact Hs]. intros b. unfold readBool.
      now rewrite (bind_some _ _ _ _ _ Hk).
    + destruct (empty v) eqn:He.
      * exists st, sect. split; [|exact Hs]. intros b. unfold readBool.
        now rewrite (bind_some _ _ _ _ _ Hk).
      * exists {| ini := ini st;
                  printed := (printed st
                              ++ [Stderr ("Error parsing bool at " ++ key)])%list |},
               sect.
        split; [|exact Hs]. intros b. unfold readBool.
        rewrite (bind_some _ _ _ _ _ Hk), Hp. reflexivity.
Qed.

(** C10: in [readConsole] the local [ascii] has no initial value.  When
    the ASCII key of the Console section gives [readBool] nothing to
    store (the key is not there, its value is empty, or it does not
    parse), [readBool] hands back whatever it was given, and the run of
    [readConsole] is the same whatever [ascii] held, except for the
    glyphs: they are the plain ones if the indeterminate value was true
    and the previous ones if it was false. *)
Theorem C10_ascii_is_read_uninitialised :
  forall (st st1 : state) (console_s : console_section),
    selectSection "Console" st = Some (tt, st1) ->
    gives_no_bool parseBool (ini st1) "ASCII" ->
    exists (st' : state) (r : bool -> console_section),
      (exists st2, forall b : bool,
            readBool NDEBUG parseBool "ASCII" b st1 = Some (b, st2)) /\
      (forall ascii0 : bool,
          readConsole NDEBUG parseBool ascii0 console_s st
          = Some (r ascii0, st')) /\
      glyphs (r true) = plain_glyphs /\
      glyphs (r false) = glyphs console_s.
Proof.
  intros st st1 console_s Hsel Hno.
  destruct (selectSection_total st "Console") as (st1' & sect & Hsel' & Hs).
  rewrite Hsel in Hsel'. injection Hsel' as <-.
  destruct (readBool_gives_nothing st1 sect "ASCII" Hs Hno)
    as (st2 & s2 & Hascii & Hs2).
  destruct (readBool_total st2 s2 "Ansi" (ansi console_s) Hs2)
    as (a & st3 & s3 & Ha & Hs3).
  destruct (readColor_total st3 s3 "Color Decorations" (decorations console_s) Hs3)
    as (c1 & st4 & s4 & H1 & Hs4).
  destruct (readColor_total st4 s4 "Color Title" (title console_s) Hs4)
    as (c2 & st5 & s5 & H2 & Hs5).
  destruct (readColor_total st5 s5 "Color Label Core" (label_core console_s) Hs5)
    as (c3 & st6 & s6 & H3 & Hs6).
  destruct (readColor_total st6 s6 "Color Text Core" (text_core console_s) Hs6)
    as (c4 & st7 & s7 & H4 & Hs7).
  destruct (readColor_total st7 s7 "Color Label Extra" (label_extra console_s) Hs7)
    as (c5 & st8 & s8 & H5 & Hs8).
  destruct (readColor_total st8 s8 "Color Text Extra" (text_extra console_s) Hs8)
    as (c6 & st9 & s9 & H6 & Hs9).
  destruct (readColor_total st9 s9 "Color Notes" (notes console_s) Hs9)
    as (c7 & st10 & s10 & H7 & Hs10).
  destruct (readColor_total st10 s10 "Color Control On" (control_on console_s) Hs10)
    as (c8 & st11 & s11 & H8 & Hs11).
  destruct (readColor_total st11 s11 "Color Control Off" (control_off console_s) Hs11)
    as (c9 & st12 & s12 & H9 & Hs12).
  exists st12.
  exists (fun ascii0 : bool =>
            {| ansi := a;
               topLeft := if ascii0 then "+" else topLeft console_s;
               topRight := if ascii0 then "+" else topRight console_s;
               bottomLeft := if ascii0 then "+" else bottomLeft console_s;
               bottomRight := if ascii0 then "+" else bottomRight console_s;
               vertical := if ascii0 then "|" else vertical console_s;
               horizontal := if ascii0 then "-" else horizontal console_s;
               junctionLeft := if ascii0 then "+" else junctionLeft console_s;
               junctionRight := if ascii0 then "+" else junctionRight console_s;
               decorations := snd c1; title := snd c2;
               label_core := snd c3; text_core := snd c4;
               label_extra := snd c5; text_extra := snd c6;
               notes := snd c7; control_on := snd c8;
               control_off := snd c9 |}).
  split; [exists st2; exact Hascii|].
  split; [|split; reflexivity].
  intros ascii0.
  change (readConsole NDEBUG parseBool ascii0 console_s)
    with (selectSection "Console" ;;;
          ascii <- readBool NDEBUG parseBool "ASCII" ascii0 ;;
          ansi' <- readBool NDEBUG parseBool "Ansi" (ansi console_s) ;;
          decorations' <- readColor NDEBUG "Color Decorations" (decorations console_s) ;;
          title' <- readColor NDEBUG "Color Title" (title console_s) ;;
          label_core' <- readColor NDEBUG "Color Label Core" (label_core console_s) ;;
          text_core' <- readColor NDEBUG "Color Text Core" (text_core console_s) ;;
          label_extra' <- readColor NDEBUG "Color Label Extra" (label_extra console_s) ;;
          text_extra' <- readColor NDEBUG "Color Text Extra" (text_extra console_s) ;;
          notes' <- readColor NDEBUG "Color Notes" (notes console_s) ;;
          control_on' <- readColor NDEBUG "Color Control On" (control_on console_s) ;;
          control_off' <- readColor NDEBUG "Color Control Off" (control_off console_s) ;;
          ret {| ansi := ansi';
                 topLeft := if ascii then "+" else topLeft console_s;
                 topRight := if ascii then "+" else topRight console_s;
                 bottomLeft := if ascii then "+" else bottomLeft console_s;
                 bottomRight := if ascii then "+" else bottomRight console_s;
                 vertical := if ascii then "|" else vertical console_s;
                 horizontal := if ascii then "-" else horizontal console_s;
                 junctionLeft := if ascii then "+" else junctionLeft console_s;
                 junctionRight := if ascii then "+" else junctionRight console_s;
                 decorations := snd decorations'; title := snd title';
                 label_core := snd label_core'; text_core := snd text_core';
                 label_extra := snd label_extra'; text_extra := snd text_extra';
                 notes := snd notes'; control_on := snd control_on';
                 control_off := snd control_off' |}).
  rewrite (bind_some _ _ _ _ _ Hsel).
  rewrite (bind_some _ _ _ _ _ (Hascii ascii0)).
  rewrite (bind_some _ _ _ _ _ Ha).
  rewrite (bind_some _ _ _ _ _ H1), (bind_some _ _ _ _ _ H2).
  rewrite (bind_some _ _ _ _ _ H3), (bind_some _ _ _ _ _ H4).
  rewrite (bind_some _ _ _ _ _ H5), (bind_some _ _ _ _ _ H6).
  rewrite (bind_some _ _ _ _ _ H7), (bind_some _ _ _ _ _ H8).
  rewrite (bind_some _ _ _ _ _ H9).
  reflexivity.
Qed.

End ConsoleFacts.

(** ** Searching from the end, prefixes and suffixes *)

Lemma take_drop (n : nat) (s : string) : take n s ++ drop n s = s.
Proof.
  revert s; induction n as [|n IH]; intros [|c r]; simpl; try reflexivity.
  now rewrite IH.
Qed.

Lemma length_take (n : nat) (s : string) :
  String.length (take n s) = Nat.min n (String.length s).
Proof.
  revert s; induction n as [|n IH]; intros [|c r]; simpl; try reflexivity.
  now rewrite IH.
Qed.

Lemma length_drop (n : nat) (s : string) :
  String.length (drop n s) = (String.length s - n)%nat.
Proof.
  revert s; induction n as [|n IH]; intros [|c r]; simpl; try reflexivity.
  apply IH.
Qed.

Lemma take_take (n m : nat) (s : string) :
  (n <= m)%nat -> take n (take m s) = take n s.
Proof.
  revert m s; induction n as [|n IH]; intros [|m] [|c r] H; simpl;
    try reflexivity; try lia.
  rewrite IH; [reflexivity|lia].
Qed.

Lemma drop_drop (n m : nat) (s : string) :
  drop n (drop m s) = drop (m + n) s.
Proof.
  revert s; induction m as [|m IH]; intros s; simpl; [reflexivity|].
  destruct s as [|c r]; [now destruct n|apply IH].
Qed.

Lemma has_char_take (c : ascii) (n : nat) (s : string) :
  has_char c s = false -> has_char c (take n s) = false.
Proof.
  intros H. rewrite <- (take_drop n s), has_char_append in H.
  now apply orb_false_iff in H as [H _].
Qed.

Lemma has_char_drop (c : ascii) (n : nat) (s : string) :
  has_char c s = false -> has_char c (drop n s) = false.
Proof.
  intros H. rewrite <- (take_drop n s), has_char_append in H.
  now apply orb_false_iff in H as [_ H].
Qed.

Lemma first_index_take_none (p : ascii -> bool) (s : string) (i : nat) :
  first_index p s = Some i -> first_index p (take i s) = None.
Proof.
  revert i; induction s as [|c r IH]; simpl; intros i; [discriminate|].
  destruct (p c) eqn:E; [now intros [= <-]|].
  destruct (first_index p r) as [j|]; [|discriminate].
  intros [= <-]. simpl. rewrite E. now rewrite (IH j eq_refl).
Qed.

Lemma first_index_take_some (p : ascii -> bool) (s : string) (q n : nat) :
  first_index p s = Some q -> (q < n)%nat ->
  first_index p (take n s) = Some q.
Proof.
  revert q n; induction s as [|c r IH]; simpl; intros q n; [discriminate|].
  destruct (p c) eqn:E.
  - intros [= <-] Hn. destruct n; [lia|]. simpl. now rewrite E.
  - destruct (first_index p r) as [j|]; [|discriminate].
    intros [= <-] Hn. destruct n; [lia|]. simpl. rewrite E.
    rewrite (IH j n eq_refl); [reflexivity|lia].
Qed.

Lemma first_index_drop (p : ascii -> bool) (s : string) (i : nat) :
  first_index p s = Some i ->
  exists c r, drop i s = String c r /\ p c = true.
Proof.
  revert i; induction s as [|c r IH]; simpl; intros i; [discriminate|].
  destruct (p c) eqn:E.
  - intros [= <-]. now exists c, r.
  - destruct (first_index p r) as [j|]; [|discriminate].
    intros [= <-]. simpl. now apply IH.
Qed.

Lemma last_index_append (p : ascii -> bool) (a b : string) :
  last_index p (a ++ b)
  = match last_index p b with
    | Some j => Some (String.length a + j)%nat
    | None => last_index p a
    end.
Proof.
  induction a as [|x r IH]; simpl.
  - now destruct (last_index p b).
  - rewrite IH. now destruct (last_index p b).
Qed.

Lemma last_index_lt (p : ascii -> bool) (s : string) (j : nat) :
  last_index p s = Some j -> (j < String.length s)%nat.
Proof.
  revert j; induction s as [|c r IH]; simpl; intros j; [discriminate|].
  destruct (last_index p r) as [i|].
  - intros [= <-]. specialize (IH i eq_refl). lia.
  - destruct (p c); [intros [= <-]; lia|discriminate].
Qed.

Lemma last_index_exists (p : ascii -> bool) (s : string) (q : nat) :
  first_index p s = Some q -> exists j, last_index p s = Some j.
Proof.
  revert q; induction s as [|c r IH]; simpl; intros q; [discriminate|].
  destruct (p c) eqn:E.
  - intros _. destruct (last_index p r); eauto.
  - destruct (first_index p r) as [i|]; [|discriminate].
    intros _. destruct (IH i eq_refl) as [j ->]. eauto.
Qed.

(** The prefix that ends at the last character other than a space does not
    end with a space. *)
Lemma take_last_not_space (s : string) (j : nat) :
  last_index not_space s = Some j ->
  ends_with_space (take (S j) s) = false.
Proof.
  revert j; induction s as [|c r IH]; intros j; [discriminate|].
  simpl last_index. destruct (last_index not_space r) as [i|] eqn:E.
  - intros [= <-]. specialize (IH i eq_refl).
    change (take (S (S i)) (String c r)) with (String c (take (S i) r)).
    destruct r as [|c' r']; [discriminate|]. exact IH.
  - destruct (not_space c) eqn:Ec; [|discriminate].
    intros [= <-]. simpl. unfold not_space in Ec.
    now destruct (Ascii.eqb c " ").
Qed.

(** A string that does not end with a space has its last character as the
    last one other than a space. *)
Lemma last_not_space_of_key (k : string) :
  k <> "" -> ends_with_space k = false ->
  last_index not_space k = Some (String.length k - 1)%nat.
Proof.
  induction k as [|c r IH]; intros Hne He; [contradiction|].
  destruct r as [|c' r'].
  - simpl in *. unfold not_space. now rewrite He.
  - change (ends_with_space (String c (String c' r')))
      with (ends_with_space (String c' r')) in He.
    simpl last_index in *. rewrite (IH ltac:(discriminate) He).
    simpl. f_equal. lia.
Qed.

(** ** Reading back what [write] emits *)

Lemma line_limit_value : line_limit = 9223372036854775808.
Proof. reflexivity. Qed.

Lemma parseSection_written (n : string) :
  valid_name n = true ->
  Ini.parseSection ("[" ++ n ++ "]") = Some n.
Proof.
  unfold valid_name. intros H.
  apply andb_true_iff in H as [H Hsz]. apply andb_true_iff in H as [Hb Hlf].
  apply negb_true_iff in Hb. apply Z.ltb_lt in Hsz.
  rewrite line_limit_value in Hsz. pose proof (size_nonneg n) as Hn.
  unfold Ini.parseSection.
  assert (Hfind : find ("[" ++ n ++ "]") "]" = size n + 1).
  { replace ("[" ++ n ++ "]") with (("[" ++ n) ++ String "]" "")
      by (now rewrite append_assoc).
    rewrite find_split.
    - rewrite size_append. change (size "[") with 1. lia.
    - rewrite has_char_append, Hb. reflexivity. }
  rewrite Hfind.
  assert (Hne : (size n + 1 =? npos) = false)
    by (apply Z.eqb_neq; rewrite npos_value; lia).
  rewrite Hne. f_equal.
  rewrite (size_t_small (size n + 1 - 1)) by lia.
  replace (size n + 1 - 1) with (size n) by lia.
  change 1 with (size "["). apply substr_mid.
Qed.

Lemma valid_key_parts (k : string) :
  valid_key k = true ->
  exists c r, k = String c r /\ comment_start c = false /\
              Ascii.eqb c "[" = false /\
              has_char "=" k = false /\ has_char LF k = false /\
              ends_with_space k = false.
Proof.
  destruct k as [|c r]; [discriminate|]. unfold valid_key. intros H.
  repeat (apply andb_true_iff in H as [H ?]).
  exists c, r. repeat split; now apply negb_true_iff.
Qed.

Lemma parseKey_written (k v : string) :
  valid_key k = true -> valid_value v = true ->
  size k + size v < line_limit ->
  Ini.parseKey (k ++ " = " ++ v) = Some (k, v).
Proof.
  intros Hk Hv Hsz.
  destruct (valid_key_parts k Hk) as (c & r & Ek & _ & _ & Heq & _ & Hend).
  assert (Hne : k <> "") by (rewrite Ek; discriminate).
  rewrite line_limit_value in Hsz.
  pose proof (size_nonneg k) as Hk0. pose proof (size_nonneg v) as Hv0.
  assert (Hk1 : 1 <= size k)
    by (rewrite Ek, size_String; pose proof (size_nonneg r); lia).
  assert (Hsize : size (k ++ " = " ++ v) = size k + 3 + size v)
    by (rewrite !size_append; change (size " = ") with 3; lia).
  unfold Ini.parseKey.
  assert (Hfind : find (k ++ " = " ++ v) "=" = size k + 1).
  { replace (k ++ " = " ++ v) with ((k ++ " ") ++ String "=" (" " ++ v))
      by (now rewrite append_assoc).
    rewrite find_split.
    - rewrite size_append. reflexivity.
    - rewrite has_char_append, Heq. reflexivity. }
  rewrite Hfind.
  assert (Hnp : (size k + 1 =? npos) = false)
    by (apply Z.eqb_neq; rewrite npos_value; lia).
  rewrite Hnp.
  rewrite (size_t_small (size k + 1 - 1)) by lia.
  rewrite (size_t_small (size k + 1 + 1)) by lia.
  assert (Hlast : find_last_not_of (k ++ " = " ++ v) " " (size k + 1 - 1)
                  = size k - 1).
  { unfold find_last_not_of. rewrite Hsize.
    replace (Z.min (size k + 1 - 1) (size k + 3 + size v - 1) + 1)
      with (size (k ++ " ")) by (rewrite size_append; change (size " ") with 1; lia).
    unfold size at 1. rewrite Nat2Z.id.
    replace (k ++ " = " ++ v) with ((k ++ " ") ++ ("= " ++ v))
      by (now rewrite append_assoc).
    rewrite take_append, last_index_append.
    change (last_index (fun a => negb (Ascii.eqb a " ")) " ") with (@None nat).
    change (fun a => negb (Ascii.eqb a " ")) with not_space.
    rewrite (last_not_space_of_key k Hne Hend).
    unfold of_index, size.
    assert (1 <= String.length k)%nat by (rewrite Ek; simpl; lia). lia. }
  rewrite Hlast.
  rewrite (size_t_small (size k - 1 + 1)) by lia.
  replace (size k - 1 + 1) with (size k) by lia.
  rewrite substr_front.
  assert (Hfirst : find_first_not_of (k ++ " = " ++ v) " " (size k + 1 + 1)
                   = match v with
                     | EmptyString => npos
                     | String _ _ => size k + 3
                     end).
  { unfold find_first_not_of. rewrite Hsize.
    destruct (Z.leb_spec (size k + 3 + size v) (size k + 1 + 1)); [lia|].
    replace (size k + 1 + 1) with (size (k ++ " ="))
      by (rewrite size_append; change (size " =") with 2; lia).
    unfold size at 1. rewrite Nat2Z.id.
    replace (k ++ " = " ++ v) with ((k ++ " =") ++ (String " " v))
      by (now rewrite append_assoc).
    rewrite drop_append.
    change (fun a => negb (Ascii.eqb a " ")) with not_space.
    unfold valid_value in Hv. apply andb_true_iff in Hv as [_ Hv].
    destruct v as [|cv rv]; simpl.
    - reflexivity.
    - change (not_space " ") with false. cbv iota. rewrite Hv. simpl.
      rewrite size_append. change (size " =") with 2. lia. }
  rewrite Hfirst. f_equal. f_equal.
  destruct v as [|cv rv]; [reflexivity|].
  assert (Hnp3 : (size k + 3 =? npos) = false)
    by (apply Z.eqb_neq; rewrite npos_value; lia).
  rewrite Hnp3.
  replace (k ++ " = " ++ String cv rv) with ((k ++ " = ") ++ String cv rv)
    by (now rewrite append_assoc).
  replace (size k + 3) with (size (k ++ " = "))
    by (rewrite size_append; change (size " = ") with 3; lia).
  apply substr_rest. rewrite npos_value. lia.
Qed.

Lemma push_back_last_snoc (acc : sections_t) (n : string) (ks : keys_t)
      (e : stringPair_t) :
  Ini.push_back_last (acc ++ [(n, ks)])%list e = (acc ++ [(n, (ks ++ [e])%list)])%list.
Proof.
  induction acc as [|s r IH]; [reflexivity|].
  change ((s :: r) ++ [(n, ks)])%list with (s :: (r ++ [(n, ks)]))%list.
  destruct (r ++ [(n, ks)])%list as [|s' r'] eqn:E.
  - destruct r; discriminate.
  - destruct s as [sn sk].
    change (Ini.push_back_last ((sn, sk) :: s' :: r') e)
      with ((sn, sk) :: Ini.push_back_last (s' :: r') e).
    rewrite IH. reflexivity.
Qed.

Lemma sections_empty_snoc (acc : sections_t) (s : keyPair_t) :
  Ini.sections_empty (acc ++ [s])%list = false.
Proof. now destruct acc. Qed.

Lemma parseLine_header (acc : sections_t) (n : string) :
  valid_name n = true ->
  Ini.parseLine acc ("[" ++ n ++ "]") = (acc ++ [(n, [])])%list.
Proof.
  intros H. pose proof (parseSection_written n H) as Hp.
  change ("[" ++ n ++ "]") with (String "[" (n ++ "]")) in *.
  unfold Ini.parseLine. rewrite Hp. reflexivity.
Qed.

Lemma parseLine_entry (acc : sections_t) (n : string) (ks : keys_t)
      (e : stringPair_t) :
  valid_entry e = true ->
  Ini.parseLine (acc ++ [(n, ks)])%list (entry_line e)
  = (acc ++ [(n, (ks ++ [e])%list)])%list.
Proof.
  destruct e as [k v]. unfold valid_entry, entry_line. simpl fst; simpl snd.
  destruct (empty k) eqn:Ek.
  - destruct k; [|discriminate]. intros Hv.
    destruct v as [|c r]; [discriminate|].
    unfold valid_comment in Hv. apply andb_true_iff in Hv as [Hc _].
    change ("" ++ String c r) with (String c r).
    unfold Ini.parseLine. unfold comment_start in Hc. rewrite Hc.
    rewrite sections_empty_snoc. simpl negb. cbv iota.
    apply push_back_last_snoc.
  - intros H. apply andb_true_iff in H as [H Hsz].
    apply andb_true_iff in H as [Hk Hv]. apply Z.ltb_lt in Hsz.
    pose proof (parseKey_written k v Hk Hv Hsz) as Hp.
    destruct (valid_key_parts k Hk) as (c & r & -> & Hc & Hb & _).
    rewrite append_assoc.
    change (String c r ++ " = " ++ v) with (String c (r ++ " = " ++ v)) in *.
    unfold Ini.parseLine. unfold comment_start in Hc. rewrite Hc, Hb.
    rewrite sections_empty_snoc. simpl negb. cbv iota.
    rewrite Hp. apply push_back_last_snoc.
Qed.

Lemma entry_line_no_LF (e : stringPair_t) :
  valid_entry e = true -> has_char LF (entry_line e) = false.
Proof.
  destruct e as [k v]. unfold valid_entry, entry_line. simpl fst; simpl snd.
  destruct (empty k) eqn:Ek.
  - destruct v as [|c r]; [discriminate|]. unfold valid_comment. intros H.
    apply andb_true_iff in H as [_ H]. now apply negb_true_iff in H.
  - intros H. apply andb_true_iff in H as [H _].
    apply andb_true_iff in H as [Hk Hv].
    destruct (valid_key_parts k Hk) as (c & r & _ & _ & _ & _ & Hlf & _).
    unfold valid_value in Hv. apply andb_true_iff in Hv as [Hv _].
    apply negb_true_iff in Hv.
    rewrite !has_char_append, Hlf, Hv. reflexivity.
Qed.

Lemma writeEntry_line (e : stringPair_t) :
  Ini.writeEntry e = entry_line e ++ endl.
Proof. unfold Ini.writeEntry, entry_line. now rewrite append_assoc. Qed.

Lemma fold_left_cons {A B : Type} (f : A -> B -> A) (x : B) (l : list B) (a : A) :
  fold_left f (x :: l) a = fold_left f l (f a x).
Proof. reflexivity. Qed.

Lemma parse_entries (es : keys_t) :
  forallb valid_entry es = true ->
  forall (acc : sections_t) (n : string) (ks : keys_t) (rest : string),
    fold_left Ini.parseLine
              (getlines (Ini.sent (map Ini.writeEntry es) ++ rest))
              (acc ++ [(n, ks)])%list
    = fold_left Ini.parseLine (getlines rest)
                (acc ++ [(n, (ks ++ es)%list)])%list.
Proof.
  induction es as [|e es IH]; intros H acc n ks rest.
  - simpl. now rewrite app_nil_r.
  - apply andb_true_iff in H as [He Hes].
    simpl map. simpl Ini.sent.
    rewrite writeEntry_line, !append_assoc.
    rewrite (getlines_line _ _ (entry_line_no_LF e He)).
    rewrite fold_left_cons, (parseLine_entry acc n ks e He).
    rewrite (IH Hes). now rewrite <- app_assoc.
Qed.

Lemma parse_section (s : keyPair_t) (acc : sections_t) (rest : string) :
  valid_section s = true ->
  fold_left Ini.parseLine (getlines (Ini.writeSection s ++ rest)) acc
  = fold_left Ini.parseLine (getlines rest) (acc ++ [s])%list.
Proof.
  destruct s as [n es]. unfold valid_section, Ini.writeSection.
  simpl fst; simpl snd. intros H. apply andb_true_iff in H as [Hn Hes].
  assert (Hlf : has_char LF ("[" ++ n ++ "]") = false).
  { unfold valid_name in Hn. apply andb_true_iff in Hn as [Hn _].
    apply andb_true_iff in Hn as [_ Hn]. apply negb_true_iff in Hn.
    rewrite !has_char_append, Hn. reflexivity. }
  replace (("[" ++ n ++ "]" ++ endl ++ Ini.sent (map Ini.writeEntry es) ++ endl)
           ++ rest)
    with (("[" ++ n ++ "]") ++ endl
          ++ (Ini.sent (map Ini.writeEntry es) ++ (endl ++ rest)))
    by (now rewrite !append_assoc).
  rewrite (getlines_line _ _ Hlf).
  rewrite fold_left_cons, (parseLine_header acc n Hn).
  etransitivity; [exact (parse_entries es Hes acc n [] (endl ++ rest))|].
  change (endl ++ rest) with ("" ++ endl ++ rest).
  rewrite (getlines_line "" rest eq_refl), fold_left_cons.
  reflexivity.
Qed.

(** Parsing what [write] emitted for a valid document appends exactly that
    document. *)
Lemma parse_written (secs : sections_t) :
  valid_document secs = true ->
  forall acc : sections_t,
    Ini.parseStream acc (Ini.writeStream secs) = (acc ++ secs)%list.
Proof.
  unfold Ini.parseStream, Ini.writeStream, valid_document.
  induction secs as [|s r IH]; intros H acc.
  - simpl. now rewrite app_nil_r.
  - apply andb_true_iff in H as [Hs Hr].
    simpl map. simpl Ini.sent.
    etransitivity; [exact (parse_section s acc _ Hs)|].
    etransitivity; [exact (IH Hr _)|].
    now rewrite <- app_assoc.
Qed.

(** ** What the parser stores is valid *)

Lemma parseKey_parts (l : string) (p q : nat) :
  size l < max_size ->
  first_index (Ascii.eqb "=") l = Some p ->
  first_index not_space l = Some q ->
  (q < p)%nat ->
  exists j : nat,
    last_index not_space (take p l) = Some j /\ (j < p)%nat /\
    Ini.parseKey l
    = Some (take (S j) l,
            match first_index not_space (drop (S p) l) with
            | Some i => drop (S p + i) l
            | None => ""
            end).
Proof.
  intros Hsz Hp Hq Hlt. rewrite max_size_value in Hsz.
  pose proof (first_index_lt _ _ _ Hp) as Hpl. unfold size in Hsz.
  destruct (last_index_exists not_space (take p l) q
              (first_index_take_some _ _ _ _ Hq Hlt)) as [j Hj].
  pose proof (last_index_lt _ _ _ Hj) as Hjl. rewrite length_take in Hjl.
  exists j. split; [exact Hj|]. split; [lia|].
  unfold Ini.parseKey, find. rewrite Hp. cbv zeta. unfold of_index.
  assert (Hnp : (Z.of_nat p =? npos) = false)
    by (apply Z.eqb_neq; rewrite npos_value; lia).
  rewrite Hnp.
  rewrite (size_t_small (Z.of_nat p - 1)) by lia.
  rewrite (size_t_small (Z.of_nat p + 1)) by lia.
  unfold find_last_not_of.
  change (fun a => negb (Ascii.eqb a " ")) with not_space.
  replace (Z.to_nat (Z.min (Z.of_nat p - 1) (size l - 1) + 1)) with p
    by (unfold size; lia).
  rewrite Hj. unfold of_index.
  rewrite (size_t_small (Z.of_nat j + 1)) by lia.
  f_equal. f_equal.
  - unfold substr. simpl drop.
    replace (Z.to_nat (Z.min (Z.of_nat j + 1) (size l - 0))) with (S j)
      by (unfold size; lia).
    reflexivity.
  - unfold find_first_not_of.
    change (fun a => negb (Ascii.eqb a " ")) with not_space.
    replace (Z.to_nat (Z.of_nat p + 1)) with (S p) by lia.
    destruct (Z.leb_spec (size l) (Z.of_nat p + 1)) as [Hle|Hgt].
    + change (npos =? npos) with true. cbv iota.
      assert (E : drop (S p) l = "").
      { pose proof (length_drop (S p) l) as Hd.
        destruct (drop (S p) l); [reflexivity|].
        simpl in Hd. unfold size in Hle. lia. }
      now rewrite E.
    + destruct (first_index not_space (drop (S p) l)) as [i|] eqn:Ei;
        [|reflexivity].
      pose proof (first_index_lt _ _ _ Ei) as Hil. rewrite length_drop in Hil.
      assert (Hnp2 : (Z.of_nat p + 1 + Z.of_nat i =? npos) = false)
        by (apply Z.eqb_neq; rewrite npos_value; lia).
      rewrite Hnp2. unfold substr.
      replace (Z.to_nat (Z.of_nat p + 1 + Z.of_nat i)) with (S p + i)%nat by lia.
      apply take_all. rewrite length_drop. unfold size. rewrite npos_value. lia.
Qed.

Lemma parseKey_valid (l : string) (c : ascii) (r : string) (kv : stringPair_t) :
  l = String c r ->
  comment_start c = false -> Ascii.eqb c "[" = false ->
  has_char LF l = false ->
  size l < max_size ->
  key_value_line l = true ->
  Ini.parseKey l = Some kv ->
  valid_entry kv = true.
Proof.
  intros El Hc Hb Hlf Hsz Hkv Hparse.
  unfold key_value_line in Hkv.
  destruct (first_index (Ascii.eqb "=") l) as [p|] eqn:Hp; [|discriminate].
  destruct (first_index not_space l) as [q|] eqn:Hq; [|discriminate].
  apply Nat.ltb_lt in Hkv.
  destruct (parseKey_parts l p q Hsz Hp Hq Hkv) as (j & Hj & Hjp & Hk).
  assert (Hparts : exists K V,
             K = take (S j) l /\
             V = match first_index not_space (drop (S p) l) with
                 | Some i => drop (S p + i) l
                 | None => ""
                 end /\
             kv = (K, V)).
  { eexists _, _. split; [reflexivity|]. split; [reflexivity|]. congruence. }
  destruct Hparts as (K & V & EK & EV & ->). clear Hk Hparse.
  pose proof (first_index_lt _ _ _ Hp) as Hpl.
  assert (Etake : K = String c (take j r)) by (now rewrite EK, El).
  assert (HK : valid_key K = true).
  { assert (Heq : has_char "=" K = false).
    { rewrite EK, <- (take_take (S j) p l) by lia.
      apply has_char_take. unfold has_char.
      now rewrite (first_index_take_none _ _ _ Hp). }
    assert (Hlk : has_char LF K = false)
      by (rewrite EK; now apply has_char_take).
    assert (Hend : ends_with_space K = false).
    { rewrite EK, <- (take_take (S j) p l) by lia.
      now apply take_last_not_space. }
    unfold valid_key. rewrite Heq, Hlk, Hend. rewrite Etake.
    now rewrite Hc, Hb. }
  assert (HV : valid_value V = true).
  { unfold valid_value. rewrite EV.
    destruct (first_index not_space (drop (S p) l)) as [i|] eqn:Ei;
      [|reflexivity].
    rewrite (has_char_drop LF (S p + i) l Hlf).
    destruct (first_index_drop _ _ _ Ei) as (cv & rv & Ed & Hcv).
    rewrite drop_drop in Ed. now rewrite Ed. }
  assert (HS : size K + size V < line_limit).
  { rewrite line_limit_value. rewrite max_size_value in Hsz.
    assert (Hkl : size K <= size l)
      by (rewrite EK; unfold size; rewrite length_take; lia).
    assert (Hvl : size V <= size l).
    { rewrite EV. destruct (first_index not_space (drop (S p) l)).
      - unfold size. rewrite length_drop. lia.
      - apply size_nonneg. }
    lia. }
  unfold valid_entry. cbn [fst snd]. rewrite HK, HV.
  rewrite (proj2 (Z.ltb_lt _ _) HS). now rewrite Etake.
Qed.

Lemma parseSection_valid (l r name : string) :
  l = String "[" r ->
  has_char LF l = false ->
  size l < max_size ->
  Ini.parseSection l = Some name ->
  valid_name name = true.
Proof.
  intros -> Hlf Hsz. rewrite max_size_value in Hsz.
  unfold Ini.parseSection, find. simpl first_index.
  change (Ascii.eqb "]" "[") with false. cbv iota.
  destruct (first_index (Ascii.eqb "]") r) as [p|] eqn:Hp;
    [|simpl; change (npos =? npos) with true; discriminate].
  pose proof (first_index_lt _ _ _ Hp) as Hpl.
  rewrite size_String in Hsz. unfold size in Hsz.
  simpl option_map. unfold of_index.
  assert (Hnp : (Z.of_nat (S p) =? npos) = false)
    by (apply Z.eqb_neq; rewrite npos_value; lia).
  rewrite Hnp.
  rewrite (size_t_small (Z.of_nat (S p) - 1)) by lia.
  replace (substr (String "[" r) 1 (Z.of_nat (S p) - 1)) with (take p r).
  2:{ unfold substr. rewrite size_String.
      replace (Z.to_nat (Z.min (Z.of_nat (S p) - 1) (size r + 1 - 1))) with p
        by (unfold size; lia).
      reflexivity. }
  intros [= <-].
  unfold valid_name.
  assert (H1 : has_char "]" (take p r) = false)
    by (unfold has_char; now rewrite (first_index_take_none _ _ _ Hp)).
  assert (H2 : has_char LF (take p r) = false).
  { apply has_char_take.
    change (String "[" r) with ("[" ++ r) in Hlf.
    rewrite has_char_append in Hlf. now apply orb_false_iff in Hlf as [_ Hlf]. }
  rewrite H1, H2. simpl. apply Z.ltb_lt. rewrite line_limit_value.
  unfold size. rewrite length_take. lia.
Qed.

Lemma valid_push (acc : sections_t) (e : stringPair_t) :
  valid_document acc = true -> valid_entry e = true ->
  valid_document (Ini.push_back_last acc e) = true.
Proof.
  intros Ha He. destruct acc as [|s0 r0]; [reflexivity|].
  destruct (exists_last (l := s0 :: r0) ltac:(discriminate))
    as (front & [n ks] & E).
  rewrite E in *. rewrite push_back_last_snoc.
  unfold valid_document in *. rewrite forallb_app in *.
  apply andb_true_iff in Ha as [Hf Hl]. rewrite Hf. simpl in *.
  rewrite andb_true_r in *. unfold valid_section in *. simpl in *.
  apply andb_true_iff in Hl as [Hn Hks]. rewrite Hn, forallb_app, Hks.
  simpl. now rewrite He.
Qed.

Lemma valid_parseLine (acc : sections_t) (l : string) :
  valid_document acc = true ->
  has_char LF l = false ->
  size l < max_size ->
  well_formed_line l = true ->
  valid_document (Ini.parseLine acc l) = true.
Proof.
  intros Ha Hlf Hsz Hwf. destruct l as [|c r]; [exact Ha|].
  unfold Ini.parseLine. unfold well_formed_line in Hwf.
  destruct (Ascii.eqb c ";" || Ascii.eqb c "#")%bool eqn:Hc.
  - destruct (Ini.sections_empty acc); [exact Ha|]. simpl negb. cbv iota.
    apply valid_push; [exact Ha|].
    unfold valid_entry, valid_comment, comment_start. simpl.
    now rewrite Hc, Hlf.
  - destruct (Ascii.eqb_spec c "[") as [->|Hb].
    + destruct (Ini.parseSection (String "[" r)) as [name|] eqn:Hp; [|exact Ha].
      unfold valid_document in *. rewrite forallb_app, Ha. simpl.
      unfold valid_section. simpl.
      now rewrite (parseSection_valid _ r name eq_refl Hlf Hsz Hp).
    + destruct (Ini.sections_empty acc); [exact Ha|]. simpl negb. cbv iota.
      destruct (Ini.parseKey (String c r)) as [kv|] eqn:Hp; [|exact Ha].
      apply valid_push; [exact Ha|].
      apply (parseKey_valid (String c r) c r kv eq_refl Hc
               (proj2 (Ascii.eqb_neq _ _) Hb) Hlf Hsz Hwf Hp).
Qed.

(** ** The round trip *)

Lemma has_char_String (c a : ascii) (s : string) :
  has_char c (String a s) = (Ascii.eqb c a || has_char c s)%bool.
Proof.
  unfold has_char. simpl. destruct (Ascii.eqb c a); [reflexivity|].
  now destruct (first_index (Ascii.eqb c) s).
Qed.

Lemma getlines_lines (text : string) :
  Forall (fun l => has_char LF l = false /\ size l <= size text)
         (getlines text).
Proof.
  induction text as [|c r IH]; simpl; [constructor|].
  assert (Hmono : Forall (fun l => has_char LF l = false
                                   /\ size l <= size (String c r))
                         (getlines r)).
  { eapply Forall_impl; [|exact IH]. simpl. intros l [H1 H2].
    split; [exact H1|]. rewrite size_String. lia. }
  destruct (Ascii.eqb c LF) eqn:E.
  - constructor; [|exact Hmono]. split; [reflexivity|].
    pose proof (size_nonneg (String c r)). exact H.
  - destruct (getlines r) as [|l ls].
    + constructor; [|constructor]. split.
      * rewrite has_char_String, Ascii.eqb_sym, E. reflexivity.
      * rewrite !size_String. pose proof (size_nonneg r). simpl. lia.
    + inversion IH as [|? ? [H1 H2] Hrest]; subst.
      inversion Hmono as [|? ? _ Hrest']; subst.
      constructor; [|exact Hrest']. split.
      * rewrite has_char_String, Ascii.eqb_sym, E, H1. reflexivity.
      * rewrite !size_String. lia.
Qed.

Lemma valid_fold (lines : list string) :
  forall acc : sections_t,
    valid_document acc = true ->
    Forall (fun l => has_char LF l = false /\ size l < max_size) lines ->
    forallb well_formed_line lines = true ->
    valid_document (fold_left Ini.parseLine lines acc) = true.
Proof.
  induction lines as [|l ls IH]; intros acc Ha Hl Hwf; [exact Ha|].
  inversion Hl as [|? ? [H1 H2] Hrest]; subst.
  apply andb_true_iff in Hwf as [Hw Hws].
  rewrite fold_left_cons. apply IH; [|exact Hrest|exact Hws].
  now apply valid_parseLine.
Qed.

Lemma lines_bounded (text : string) :
  size text < max_size ->
  Forall (fun l => has_char LF l = false /\ size l < max_size) (getlines text).
Proof.
  intros H. eapply Forall_impl; [|apply getlines_lines].
  simpl. intros l [H1 H2]. split; [exact H1|lia].
Qed.

Lemma parseSection_some (r : string) :
  has_char "]" (String "[" r) = true ->
  size (String "[" r) < max_size ->
  exists n, Ini.parseSection (String "[" r) = Some n.
Proof.
  intros Hb Hsz. rewrite max_size_value in Hsz.
  unfold Ini.parseSection, find. unfold has_char in Hb.
  destruct (first_index (Ascii.eqb "]") (String "[" r)) as [p|] eqn:Hp;
    [|discriminate].
  pose proof (first_index_lt _ _ _ Hp) as Hpl. unfold size in Hsz.
  unfold of_index.
  assert (Hnp : (Z.of_nat p =? npos) = false)
    by (apply Z.eqb_neq; rewrite npos_value; lia).
  rewrite Hnp. eexists. reflexivity.
Qed.

Lemma content_snoc (acc : sections_t) (n : string) :
  content (acc ++ [(n, [])])%list = (content acc ++ [inl n])%list.
Proof. unfold content. now rewrite flat_map_app. Qed.

Lemma content_push (acc : sections_t) (e : stringPair_t) :
  Ini.sections_empty acc = false ->
  content (Ini.push_back_last acc e) = (content acc ++ [inr e])%list.
Proof.
  intros Hne. destruct acc as [|s0 r0]; [discriminate|].
  destruct (exists_last (l := s0 :: r0) ltac:(discriminate))
    as (front & [n ks] & E).
  rewrite E, push_back_last_snoc. unfold content.
  rewrite !flat_map_app. simpl. rewrite map_app, !app_nil_r. simpl.
  now rewrite <- !app_assoc.
Qed.

Lemma content_fold (lines : list string) :
  forall acc : sections_t,
    (Ini.sections_empty acc = false \/ header_first lines = true) ->
    Forall (fun l => has_char LF l = false /\ size l < max_size) lines ->
    forallb well_formed_line lines = true ->
    content (fold_left Ini.parseLine lines acc)
    = (content acc ++ flat_map line_content lines)%list.
Proof.
  induction lines as [|l ls IH]; intros acc Hh Hl Hwf.
  - simpl. now rewrite app_nil_r.
  - inversion Hl as [|? ? [H1 H2] Hrest]; subst.
    apply andb_true_iff in Hwf as [Hw Hws].
    rewrite fold_left_cons. simpl flat_map.
    destruct l as [|c r].
    + (* blank *)
      simpl. apply IH; auto.
    + unfold well_formed_line in Hw. unfold Ini.parseLine, line_content.
      destruct (Ascii.eqb c ";" || Ascii.eqb c "#")%bool eqn:Hc.
      * (* comment *)
        destruct (Ini.sections_empty acc) eqn:He.
        -- destruct Hh as [Hh|Hh]; [discriminate|]. simpl in Hh.
           apply orb_true_iff in Hc as [Hc|Hc];
             apply Ascii.eqb_eq in Hc; subst c; discriminate.
        -- simpl negb. cbv iota.
           rewrite IH; auto.
           ++ rewrite (content_push _ _ He). now rewrite <- app_assoc.
           ++ left. destruct acc as [|s0 r0]; [discriminate|].
              destruct (exists_last (l := s0 :: r0) ltac:(discriminate))
                as (front & [n ks] & E).
              rewrite E, push_back_last_snoc. apply sections_empty_snoc.
      * destruct (Ascii.eqb_spec c "[") as [->|Hb].
        -- (* header *)
           destruct (parseSection_some r Hw H2) as [n Hn]. rewrite Hn.
           rewrite IH; auto.
           ++ rewrite content_snoc. now rewrite <- app_assoc.
           ++ left. apply sections_empty_snoc.
        -- (* key/value *)
           destruct (Ini.sections_empty acc) eqn:He.
           ++ destruct Hh as [Hh|Hh]; [discriminate|]. simpl in Hh.
              apply Ascii.eqb_eq in Hh. contradiction.
           ++ simpl negb. cbv iota.
              destruct (Ini.parseKey (String c r)) as [kv|] eqn:Hp.
              ** rewrite IH; auto.
                 --- rewrite (content_push _ _ He). now rewrite <- app_assoc.
                 --- left. destruct acc as [|s0 r0]; [discriminate|].
                     destruct (exists_last (l := s0 :: r0) ltac:(discriminate))
                       as (front & [n ks] & E).
                     rewrite E, push_back_last_snoc. apply sections_empty_snoc.
              ** simpl. apply IH; auto.
Qed.

Lemma line_content_single (l : string) :
  has_char LF l = false -> size l < max_size ->
  well_formed_line l = true ->
  l = "" \/ exists x, line_content l = [x].
Proof.
  intros Hlf Hsz Hw. destruct l as [|c r]; [now left|]. right.
  unfold well_formed_line in Hw. unfold line_content.
  destruct (Ascii.eqb c ";" || Ascii.eqb c "#")%bool; [eauto|].
  destruct (Ascii.eqb_spec c "[") as [->|Hb].
  - destruct (parseSection_some r Hw Hsz) as [n ->]. eauto.
  - unfold key_value_line in Hw.
    destruct (first_index (Ascii.eqb "=") (String c r)) as [p|] eqn:Hp;
      [|discriminate].
    destruct (first_index not_space (String c r)) as [q|] eqn:Hq;
      [|discriminate].
    apply Nat.ltb_lt in Hw.
    destruct (parseKey_parts _ p q Hsz Hp Hq Hw) as (j & _ & _ & ->). eauto.
Qed.

Lemma tryOpen_new (fs : filesys) (fName text : string) :
  file fs fName = Some text -> readable fs fName = true ->
  Ini.tryOpen iniHandler_new fs fName
  = ({| sections := Ini.parseStream [] text; curSection := Singular;
        fileName := fName; changed := false |}, true).
Proof.
  intros Hf Hr. unfold Ini.tryOpen, open_ifstream. rewrite Hr, Hf.
  cbn [sections curSection changed iniHandler_new].
  now rewrite after_push_back_singular.
Qed.

(** *** The format in the words of the spec *)

Lemma trim_left_spec (s : string) :
  trim_left s
  = match first_index not_space s with
    | Some i => drop i s
    | None => ""
    end.
Proof.
  induction s as [|c r IH]; [reflexivity|]. simpl. unfold not_space at 1.
  destruct (Ascii.eqb c " "); simpl; [|reflexivity].
  rewrite IH. now destruct (first_index not_space r).
Qed.

Lemma trim_right_spec (s : string) :
  trim_right s
  = match last_index not_space s with
    | Some j => take (S j) s
    | None => ""
    end.
Proof.
  induction s as [|c r IH]; [reflexivity|].
  simpl trim_right. simpl last_index. rewrite IH.
  destruct (last_index not_space r) as [j|] eqn:E.
  - pose proof (last_index_lt _ _ _ E) as Hj.
    destruct r as [|d t]; [simpl in Hj; lia|]. reflexivity.
  - unfold not_space. now destruct (Ascii.eqb c " ").
Qed.

Lemma trim_right_fixed (k : string) :
  ends_with_space k = false -> trim_right k = k.
Proof.
  induction k as [|c r IH]; [reflexivity|].
  destruct r as [|d t].
  - simpl. now intros ->.
  - change (ends_with_space (String c (String d t)))
      with (ends_with_space (String d t)).
    intros H. simpl trim_right in *. now rewrite (IH H).
Qed.

Lemma trim_right_space (k : string) : trim_right (k ++ " ") = trim_right k.
Proof.
  induction k as [|c r IH]; [reflexivity|].
  simpl. now rewrite IH.
Qed.

Lemma parseSection_take (r : string) (p : nat) :
  size (String "[" r) < max_size ->
  first_index (Ascii.eqb "]") r = Some p ->
  Ini.parseSection (String "[" r) = Some (take p r).
Proof.
  intros Hsz Hp. rewrite max_size_value in Hsz.
  unfold Ini.parseSection, find. simpl first_index.
  change (Ascii.eqb "]" "[") with false. cbv iota. rewrite Hp.
  pose proof (first_index_lt _ _ _ Hp) as Hpl.
  rewrite size_String in Hsz. unfold size in Hsz.
  simpl option_map. unfold of_index.
  assert (Hnp : (Z.of_nat (S p) =? npos) = false)
    by (apply Z.eqb_neq; rewrite npos_value; lia).
  rewrite Hnp.
  rewrite (size_t_small (Z.of_nat (S p) - 1)) by lia.
  f_equal. unfold substr. rewrite size_String.
  replace (Z.to_nat (Z.min (Z.of_nat (S p) - 1) (size r + 1 - 1))) with p
    by (unfold size; lia).
  reflexivity.
Qed.

(** On a line of the format the code keeps what the spec says the line
    carries. *)
Lemma line_content_spec (l : string) :
  has_char LF l = false -> size l < max_size ->
  well_formed_line l = true ->
  line_content l = spec_line l.
Proof.
  intros Hlf Hsz Hw. destruct l as [|c r]; [reflexivity|].
  unfold well_formed_line in Hw. unfold line_content, spec_line.
  destruct (Ascii.eqb c ";" || Ascii.eqb c "#")%bool; [reflexivity|].
  destruct (Ascii.eqb_spec c "[") as [->|Hb].
  - unfold has_char in Hw. simpl first_index in Hw.
    change (Ascii.eqb "]" "[") with false in Hw. cbv iota in Hw.
    destruct (first_index (Ascii.eqb "]") r) as [p|] eqn:Hp; [|discriminate].
    now rewrite (parseSection_take r p Hsz Hp).
  - unfold key_value_line in Hw.
    destruct (first_index (Ascii.eqb "=") (String c r)) as [p|] eqn:Hp;
      [|discriminate].
    destruct (first_index not_space (String c r)) as [q|] eqn:Hq;
      [|discriminate].
    apply Nat.ltb_lt in Hw.
    destruct (parseKey_parts _ p q Hsz Hp Hq Hw) as (j & Hj & Hjp & ->).
    rewrite trim_right_spec, Hj, trim_left_spec.
    rewrite (take_take (S j) p) by lia.
    destruct (first_index not_space (drop (S p) (String c r))) as [i|];
      [|reflexivity].
    now rewrite drop_drop.
Qed.

Lemma spec_line_single (l : string) :
  has_char LF l = false -> size l < max_size ->
  well_formed_line l = true ->
  l = "" \/ exists x, spec_line l = [x].
Proof.
  intros Hlf Hsz Hw.
  destruct (line_content_single l Hlf Hsz Hw) as [H|[x H]]; [now left|].
  right. exists x. now rewrite <- (line_content_spec l Hlf Hsz Hw).
Qed.

Lemma spec_lines (lines : list string) :
  Forall (fun l => has_char LF l = false /\ size l < max_size) lines ->
  forallb well_formed_line lines = true ->
  flat_map line_content lines = flat_map spec_line lines.
Proof.
  induction lines as [|l ls IH]; intros Hl Hwf; [reflexivity|].
  inversion Hl as [|? ? [H1 H2] Hrest]; subst.
  simpl in Hwf. apply andb_true_iff in Hwf as [Hw Hws].
  simpl. now rewrite (line_content_spec l H1 H2 Hw), (IH Hrest Hws).
Qed.

(** What [write] emits, read as the spec reads a line. *)
Lemma spec_line_header (n : string) :
  valid_name n = true -> spec_line ("[" ++ n ++ "]") = [inl n].
Proof.
  unfold valid_name. intros H.
  apply andb_true_iff in H as [H _]. apply andb_true_iff in H as [Hb _].
  apply negb_true_iff in Hb. unfold has_char in Hb.
  destruct (first_index (Ascii.eqb "]") n) eqn:E; [discriminate|].
  change ("[" ++ n ++ "]") with (String "[" (n ++ "]")).
  unfold spec_line.
  change (Ascii.eqb "[" ";" || Ascii.eqb "[" "#")%bool with false.
  cbv iota. rewrite Ascii.eqb_refl.
  rewrite (first_index_append _ n "]" E). simpl option_map.
  rewrite Nat.add_0_r. now rewrite take_append.
Qed.

Lemma spec_line_entry (e : stringPair_t) :
  valid_entry e = true -> spec_line (entry_line e) = [inr e].
Proof.
  destruct e as [k v]. unfold valid_entry, entry_line. cbn [fst snd].
  destruct (empty k) eqn:Ek.
  - destruct k; [|discriminate]. intros Hv.
    destruct v as [|c r]; [discriminate|].
    unfold valid_comment, comment_start in Hv.
    apply andb_true_iff in Hv as [Hc _].
    change ("" ++ String c r) with (String c r).
    unfold spec_line. now rewrite Hc.
  - intros H. apply andb_true_iff in H as [H _].
    apply andb_true_iff in H as [Hk Hv].
    destruct (valid_key_parts k Hk)
      as (c & r & Ekey & Hc & Hb & Heq & _ & Hend).
    unfold has_char in Heq.
    destruct (first_index (Ascii.eqb "=") k) eqn:E; [discriminate|].
    assert (Hfirst : first_index (Ascii.eqb "=") (k ++ " = " ++ v)
                     = Some (S (String.length k))).
    { replace (k ++ " = " ++ v) with ((k ++ " ") ++ String "=" (" " ++ v))
        by (now rewrite append_assoc).
      rewrite first_index_append.
      - simpl. rewrite length_append. simpl. f_equal. lia.
      - rewrite (first_index_append _ k " " E). reflexivity. }
    assert (Hshape : exists r', k ++ " = " ++ v = String c r').
    { rewrite Ekey. eexists. reflexivity. }
    destruct Hshape as [r' Eline].
    rewrite append_assoc.
    unfold spec_line. rewrite Eline.
    unfold comment_start in Hc. rewrite Hc, Hb. rewrite <- Eline, Hfirst.
    assert (Hkey : take (S (String.length k)) (k ++ " = " ++ v) = k ++ " ").
    { replace (k ++ " = " ++ v) with ((k ++ " ") ++ "= " ++ v)
        by (now rewrite append_assoc).
      replace (S (String.length k)) with (String.length (k ++ " "))
        by (rewrite length_append; simpl; lia).
      apply take_append. }
    assert (Hval : drop (S (S (String.length k))) (k ++ " = " ++ v)
                   = " " ++ v).
    { replace (k ++ " = " ++ v) with ((k ++ " =") ++ " " ++ v)
        by (now rewrite append_assoc).
      replace (S (S (String.length k))) with (String.length (k ++ " ="))
        by (rewrite length_append; simpl; lia).
      apply drop_append. }
    rewrite Hkey, Hval, trim_right_space, (trim_right_fixed k Hend).
    change (" " ++ v) with (String " " v). simpl trim_left.
    unfold valid_value in Hv. apply andb_true_iff in Hv as [_ Hv].
    destruct v as [|cv rv]; [reflexivity|].
    simpl. unfold not_space in Hv. apply negb_true_iff in Hv.
    now rewrite Hv.
Qed.

Lemma spec_entries (es : keys_t) (rest : string) :
  forallb valid_entry es = true ->
  flat_map spec_line (getlines (Ini.sent (map Ini.writeEntry es) ++ rest))
  = (map inr es ++ flat_map spec_line (getlines rest))%list.
Proof.
  induction es as [|e es IH]; intros H; [reflexivity|].
  apply andb_true_iff in H as [He Hes].
  simpl map. simpl Ini.sent.
  rewrite writeEntry_line, !append_assoc.
  rewrite (getlines_line _ _ (entry_line_no_LF e He)).
  simpl flat_map. rewrite (spec_line_entry e He), (IH Hes). reflexivity.
Qed.

Lemma spec_section (s : keyPair_t) (rest : string) :
  valid_section s = true ->
  flat_map spec_line (getlines (Ini.writeSection s ++ rest))
  = (inl (fst s) :: map inr (snd s) ++ flat_map spec_line (getlines rest))%list.
Proof.
  destruct s as [n es]. unfold valid_section, Ini.writeSection.
  simpl fst; simpl snd. intros H. apply andb_true_iff in H as [Hn Hes].
  assert (Hlf : has_char LF ("[" ++ n ++ "]") = false).
  { unfold valid_name in Hn. apply andb_true_iff in Hn as [Hn' _].
    apply andb_true_iff in Hn' as [_ Hn']. apply negb_true_iff in Hn'.
    rewrite !has_char_append, Hn'. reflexivity. }
  replace (("[" ++ n ++ "]" ++ endl ++ Ini.sent (map Ini.writeEntry es) ++ endl)
           ++ rest)
    with (("[" ++ n ++ "]") ++ endl
          ++ (Ini.sent (map Ini.writeEntry es) ++ (endl ++ rest)))
    by (now rewrite !append_assoc).
  rewrite (getlines_line _ _ Hlf).
  cbn [flat_map]. rewrite (spec_line_header n Hn), (spec_entries es _ Hes).
  change (endl ++ rest) with ("" ++ endl ++ rest).
  rewrite (getlines_line "" rest eq_refl). reflexivity.
Qed.

(** The text [write] emits for a valid document carries, line by line,
    the content of the document. *)
Lemma spec_written (secs : sections_t) :
  valid_document secs = true ->
  flat_map spec_line (getlines (Ini.writeStream secs)) = content secs.
Proof.
  unfold Ini.writeStream, valid_document, content.
  induction secs as [|s r IH]; intros H; [reflexivity|].
  apply andb_true_iff in H as [Hs Hr].
  simpl map. simpl Ini.sent.
  etransitivity; [exact (spec_section s _ Hs)|].
  rewrite (IH Hr). reflexivity.
Qed.

(** The lines [getline] delivers are the text cut at its line feeds: put
    together again, each with its line feed, they give the text, with a
    line feed added when the text did not end with one. *)
Lemma getlines_empty (text : string) : getlines text = [] -> text = "".
Proof.
  destruct text as [|c r]; [reflexivity|]. simpl.
  destruct (Ascii.eqb c LF); [discriminate|].
  destruct (getlines r); discriminate.
Qed.

Lemma getlines_join (text : string) :
  let joined := fold_right (fun l rest => l ++ endl ++ rest) ""
                           (getlines text) in
  joined = text \/ joined = text ++ endl.
Proof.
  cbv zeta. induction text as [|c r IH]; [now left|].
  simpl getlines. destruct (Ascii.eqb_spec c LF) as [->|Hc].
  - cbn [fold_right]. change ("" ++ endl ++ ?x) with (String LF x).
    destruct IH as [-> | ->]; [now left|now right].
  - destruct (getlines r) as [|l ls] eqn:E.
    + apply getlines_empty in E. subst r. now right.
    + cbn [fold_right] in *.
      change (String c l ++ ?x) with (String c (l ++ x)).
      destruct IH as [-> | ->]; [now left|now right].
Qed.

(** C5: the round trip of a well-formed document.  What a line carries is
    taken from the description of the format in the spec ([spec_line]),
    not from the parser, and the lines are the text cut at its line
    feeds.  The parse keeps exactly the section names, the key/value pairs
    and the comment lines that the lines of the text carry, in their order; every line that is not blank carries exactly
    one of them, so blank lines are all that is lost.  The text that
    [write] emits for the parsed document carries the same names, pairs
    and comments in the same order, and parsing it gives the same document
    again.  Through the handler: [tryOpen] on the file succeeds and holds
    that document with a clear flag, [write] stores that text, and
    [tryOpen] on what was written holds the same document. *)
Theorem C5_parse_write_round_trip :
  forall text : string,
    well_formed text ->
    let parsed := Ini.parseStream [] text in
    let written := Ini.writeStream parsed in
    content parsed = flat_map spec_line (getlines text) /\
    Forall (fun l => has_char LF l = false /\
                     (l = "" \/ exists x, spec_line l = [x]))
           (getlines text) /\
    (let joined := fold_right (fun l rest => l ++ endl ++ rest) ""
                              (getlines text) in
     joined = text \/ joined = text ++ endl) /\
    flat_map spec_line (getlines written)
    = flat_map spec_line (getlines text) /\
    Ini.parseStream [] written = parsed /\
    (forall (fs : filesys) (fName out : string),
        file fs fName = Some text -> readable fs fName = true ->
        let opened := Ini.tryOpen iniHandler_new fs fName in
        snd opened = true /\
        sections (fst opened) = parsed /\
        changed (fst opened) = false /\
        fileName (fst opened) = fName /\
        (writable fs out = true ->
         Ini.write (fst opened) fs out = (store_file fs out written, true) /\
         (readable fs out = true ->
          snd (Ini.tryOpen iniHandler_new (store_file fs out written) out)
          = true /\
          sections (fst (Ini.tryOpen iniHandler_new
                           (store_file fs out written) out))
          = parsed))).
Proof.
  intros text (Hsz & Hwf & Hhead) parsed written.
  pose proof (lines_bounded text Hsz) as Hlines.
  assert (Hvalid : valid_document parsed = true)
    by (apply valid_fold; auto).
  assert (Hround : Ini.parseStream [] written = parsed)
    by (apply (parse_written _ Hvalid [])).
  assert (Hcontent : content parsed = flat_map spec_line (getlines text)).
  { unfold parsed, Ini.parseStream. rewrite content_fold by auto.
    now apply spec_lines. }
  split; [exact Hcontent|]. split.
  { clear Hhead Hvalid Hround Hcontent.
    induction (getlines text) as [|l ls IH]; [constructor|].
    inversion Hlines as [|? ? [H1 H2] Hrest]; subst.
    simpl in Hwf. apply andb_true_iff in Hwf as [Hw Hws].
    constructor; [split; [exact H1|now apply spec_line_single]|now apply IH]. }
  split; [apply getlines_join|].
  split.
  { unfold written. rewrite (spec_written parsed Hvalid). exact Hcontent. }
  split; [exact Hround|].
  intros fs fName out Hf Hr opened.
  unfold opened. rewrite (tryOpen_new fs fName text Hf Hr).
  cbn [fst snd sections changed fileName]. fold parsed.
  split; [reflexivity|]. split; [reflexivity|]. split; [reflexivity|].
  split; [reflexivity|].
  intros Hw. unfold Ini.write. rewrite Hw. cbn [sections]. fold written.
  split; [reflexivity|].
  intros Hro.
  rewrite (tryOpen_new (store_file fs out written) out written).
  - cbn [fst snd sections]. split; [reflexivity|exact Hround].
  - simpl. now rewrite String.eqb_refl.
  - exact Hro.
Qed.

(** ** Outside the stated domains *)

(** A line that opens with [=] has no key in the sense of the file format:
    the [pos - 1] of [parseKey] wraps to [npos], the search for the end of
    the key runs over the whole line, and the stored key is the line
    itself.  Such a line does not survive a second pass, which is why
    [well_formed] asks for a key that is not blank. *)
Remark parseKey_line_without_key :
  Ini.parseKey "=x" = Some ("=x", "x") /\
  Ini.parseStream [] ("[A]" ++ endl ++ "=x" ++ endl) = [("A", [("=x", "x")])] /\
  Ini.parseStream []
    (Ini.writeStream (Ini.parseStream [] ("[A]" ++ endl ++ "=x" ++ endl)))
  = [("A", [("=x = x", "x = x")])].
Proof. repeat split; reflexivity. Qed.

(** A value made of the opening quote alone: [readChar] indexes past the
    terminator of the string, which the language leaves undefined. *)
Remark readChar_lone_quote (NDEBUG : bool) (parseInt : string -> option Z)
       (ch : ascii) :
  readChar NDEBUG parseInt "Char Top Left" ch
           (document_with "Console" "Char Top Left" "'") = None.
Proof. reflexivity. Qed.

(** [removeValue] on a key the section does not hold erases at [end()]. *)
Remark removeValue_absent (moved : stringPair_t -> stringPair_t)
       (i : iniHandler) (sect : keyPair_t) (key : string) :
  selected i sect -> absent key sect -> Ini.removeValue moved i key = None.
Proof.
  unfold selected, Ini.deref, Ini.removeValue.
  destruct (curSection i) as [|n]; [discriminate|].
  intros Hn Ha. rewrite Hn.
  match goal with
  | |- context [Ini.remove_if ?m ?p ?l] =>
      pose proof (remove_erase_none m p l (absent_forallb _ _ Ha)) as H;
      destruct (Ini.remove_if m p l) as [section it]
  end.
  simpl in H. now rewrite H.
Qed.

(* ------------------------------------------------------------------ *)
(** * The statements at concrete documents *)

(** C2 at a handler whose flag is set: [close] writes the two entries of
    its section to the stored path and empties the handler; a read of the
    key that is there changes nothing, a read of a missing key sets the
    flag.  On the document with the one entry, whose flag is clear,
    [addSection] after a [setSection] that fails and [removeValue] of the
    key return with the flag set. *)
Lemma C2_changed_flag_witness :
  changed handler_changed = true /\
  writable (fs_with "sidplayfp.ini" "") (fileName handler_changed) = true /\
  file (snd (Ini.close handler_changed (fs_with "sidplayfp.ini" "")))
       "sidplayfp.ini"
  = Some ("[Audio]" ++ endl ++ "Frequency = 48000" ++ endl
          ++ "Channels = " ++ endl ++ endl) /\
  sections (fst (Ini.close handler_changed (fs_with "sidplayfp.ini" ""))) = [] /\
  changed (fst (Ini.close handler_changed (fs_with "sidplayfp.ini" ""))) = false /\
  readString true "Frequency" (document_with "Audio" "Frequency" "48000")
  = Some ("48000", document_with "Audio" "Frequency" "48000") /\
  (exists st', readString true "Channels"
                          (document_with "Audio" "Frequency" "48000")
               = Some ("", st') /\ changed (ini st') = true) /\
  changed (ini (document_with "Audio" "Frequency" "48000")) = false /\
  (exists i', Ini.addSection
                (fst (Ini.setSection
                        (ini (document_with "Audio" "Frequency" "48000"))
                        "Console"))
                "Console" = Some i' /\
              changed i' = true /\ List.length (sections i') = 2%nat) /\
  (exists i' keys,
      Ini.removeValue (fun x => x)
                      (ini (document_with "Audio" "Frequency" "48000"))
                      "Frequency" = Some i' /\
      changed i' = true /\ selected i' ("Audio", keys) /\
      List.length keys = 0%nat).
Proof.
  assert (Hs : selected (ini (document_with "Audio" "Frequency" "48000"))
                        ("Audio", [("Frequency", "48000")])) by reflexivity.
  assert (Ha : absent "Channels" ("Audio", [("Frequency", "48000")])).
  { intros v [H|[]]. discriminate H. }
  destruct (C2_changed_flag_and_close
              true (fun x => x) handler_changed (fs_with "sidplayfp.ini" "")
              (document_with "Audio" "Frequency" "48000")
              "Audio" "Audio" "Channels" "" "sidplayfp.ini"
              ("Audio", [("Frequency", "48000")]))
    as (_ & _ & _ & _ & _ & _ & _ & _ & _ & _ & _ & Habs & _ & Hclose & Hwrite
        & Hsec & Hchg).
  split; [reflexivity|]. split; [reflexivity|]. split.
  { rewrite (Hclose eq_refl), (Hwrite eq_refl). reflexivity. }
  split; [exact Hsec|]. split; [exact Hchg|].
  destruct (C2_changed_flag_and_close
              true (fun x => x)
              (ini (document_with "Audio" "Frequency" "48000"))
              (fs_with "sidplayfp.ini" "")
              (document_with "Audio" "Frequency" "48000")
              "Console" "Console" "Frequency" "" "sidplayfp.ini"
              ("Audio", [("Frequency", "48000")]))
    as (_ & _ & _ & _ & Hpres & _ & _ & _ & Hadd & _ & Hrem & _).
  split; [exact (proj1 (Hpres "48000" eq_refl))|].
  split.
  { destruct (Habs Hs Ha) as (st' & H1 & _ & H3). exists st'. now split. }
  split; [reflexivity|].
  split; [exact Hadd|].
  destruct (Hrem Hs (ex_intro _ "48000" (or_introl eq_refl)))
    as (i' & keys & H1 & H2 & H3 & H4).
  exists i', keys. split; [exact H1|]. split; [exact H2|].
  split; [exact H3|]. now injection H4 as H4.
Defined.

(** C3 at a section that has no Channels key. *)
Lemma C3_missing_key_witness :
  selected (ini (document_with "Audio" "Frequency" "48000"))
           ("Audio", [("Frequency", "48000")]) /\
  absent "Channels" ("Audio", [("Frequency", "48000")]) /\
  exists st',
    readInt true decimalInt "Channels" 2 (document_with "Audio" "Frequency" "48000")
    = Some (2, st') /\
    selected (ini st') ("Audio", [("Frequency", "48000"); ("Channels", "")]) /\
    changed (ini st') = true.
Proof.
  assert (Hs : selected (ini (document_with "Audio" "Frequency" "48000"))
                        ("Audio", [("Frequency", "48000")])) by reflexivity.
  assert (Ha : absent "Channels" ("Audio", [("Frequency", "48000")])).
  { intros v [H|[]]. discriminate H. }
  split; [exact Hs|]. split; [exact Ha|].
  destruct (C3_missing_key_is_inserted true Z decimalInt decimalInt decimalBool
              (document_with "Audio" "Frequency" "48000")
              ("Audio", [("Frequency", "48000")]) "Channels" Hs Ha)
    as (st' & _ & Hsel & Hchg & Hint & _).
  exists st'. split; [apply Hint|]. split; [exact Hsel|exact Hchg].
Defined.

(** C4 at the first example of the spec, and at a value whose fraction
    carries a sign. *)
Lemma C4_readTime_witness :
  Ini.getValue (ini (document_with "SIDPlayfp" "Default Play Length" "1:30.500"))
               "Default Play Length" = Some (Some "1:30.500") /\
  decimalInt "1" = Some 1 /\ decimalInt "30." = Some 30 /\
  decimalInt "500" = Some 500 /\ decimalInt "-5" = Some (-5) /\
  readTime true decimalInt "Default Play Length" 0
           (document_with "SIDPlayfp" "Default Play Length" "1:30.500")
  = Some ((true, 90500),
          document_with "SIDPlayfp" "Default Play Length" "1:30.500") /\
  readTime true decimalInt "Default Play Length" 0
           (document_with "SIDPlayfp" "Default Play Length" "1:30.-5")
  = Some ((true, 89950),
          document_with "SIDPlayfp" "Default Play Length" "1:30.-5").
Proof.
  split; [reflexivity|]. split; [reflexivity|]. split; [reflexivity|].
  split; [reflexivity|]. split; [reflexivity|]. split.
  - destruct (C4_readTime_format true decimalInt
                (document_with "SIDPlayfp" "Default Play Length" "1:30.500")
                "Default Play Length" "1:30.500" 0
                eq_refl eq_refl eq_refl)
      as (_ & _ & _ & _ & _ & _ & _ & Hex & _).
    exact (Hex eq_refl eq_refl eq_refl eq_refl).
  - destruct (C4_readTime_format true decimalInt
                (document_with "SIDPlayfp" "Default Play Length" "1:30.-5")
                "Default Play Length" "1:30.-5" 0
                eq_refl eq_refl eq_refl)
      as (_ & _ & _ & _ & _ & _ & _ & _ & _ & _ & _ & _ & Hex & _).
    exact (Hex eq_refl eq_refl eq_refl eq_refl).
Defined.

(** C5 at the sample file: two sections, a pair and two comments under
    the first, a pair under the second; the blank line is lost, and the
    text written back carries the same. *)
Lemma C5_round_trip_witness :
  well_formed sample_text /\
  content (Ini.parseStream [] sample_text)
  = [ inl "SIDPlayfp"; inr ("Default Play Length", "1:30.500");
      inr ("", "; a comment"); inr ("", "# another comment");
      inl "Audio"; inr ("Frequency", "48000") ] /\
  flat_map spec_line
           (getlines (Ini.writeStream (Ini.parseStream [] sample_text)))
  = [ inl "SIDPlayfp"; inr ("Default Play Length", "1:30.500");
      inr ("", "; a comment"); inr ("", "# another comment");
      inl "Audio"; inr ("Frequency", "48000") ] /\
  Ini.parseStream [] (Ini.writeStream (Ini.parseStream [] sample_text))
  = Ini.parseStream [] sample_text /\
  snd (Ini.tryOpen iniHandler_new (fs_with "sidplayfp.ini" sample_text)
                   "sidplayfp.ini") = true.
Proof.
  assert (Hwf : well_formed sample_text).
  { split; [reflexivity|]. split; reflexivity. }
  destruct (C5_parse_write_round_trip sample_text Hwf)
    as (Hcontent & _ & _ & Hwritten & Hround & Hopen).
  split; [exact Hwf|].
  split; [exact Hcontent|]. split; [exact Hwritten|].
  split; [exact Hround|].
  exact (proj1 (Hopen (fs_with "sidplayfp.ini" sample_text)
                      "sidplayfp.ini" "sidplayfp.ini" eq_refl eq_refl)).
Defined.

(** C6 at a Frequency key with an empty value. *)
Lemma C6_empty_value_witness :
  Ini.getValue (ini (document_with "Audio" "Frequency" "")) "Frequency"
  = Some (Some "") /\
  readInt true decimalInt "Frequency" 48000 (document_with "Audio" "Frequency" "")
  = Some (48000, document_with "Audio" "Frequency" "").
Proof.
  split; [reflexivity|].
  exact (proj1 (C6_empty_value_is_no_value true Z decimalInt decimalInt decimalBool
                  (document_with "Audio" "Frequency" "") "Frequency" eq_refl)
               48000).
Defined.

(** C7 at the value "bright red". *)
Lemma C7_readColor_witness :
  Ini.getValue (ini (document_with "Console" "Color Title" "bright red"))
               "Color Title" = Some (Some "bright red") /\
  readColor true "Color Title" 7
            (document_with "Console" "Color Title" "bright red")
  = Some ((true, 9), document_with "Console" "Color Title" "bright red").
Proof.
  split; [reflexivity|].
  destruct (C7_readColor_by_exact_name true
              (document_with "Console" "Color Title" "bright red")
              "Color Title" "bright red" 7 eq_refl)
    as (_ & _ & _ & Hex & _).
  exact (Hex eq_refl).
Defined.

(** C8 (amended) at the values "'A'" and "65". *)
Lemma C8_readChar_witness :
  Ini.getValue (ini (document_with "Console" "Char Top Left" "'A'"))
               "Char Top Left" = Some (Some "'A'") /\
  readChar true decimalInt "Char Top Left" "x"
           (document_with "Console" "Char Top Left" "'A'")
  = Some ("A"%char, document_with "Console" "Char Top Left" "'A'") /\
  decimalInt "65" = Some 65 /\
  readChar true decimalInt "Char Top Left" "x"
           (document_with "Console" "Char Top Left" "65")
  = Some ("A"%char, document_with "Console" "Char Top Left" "65").
Proof.
  split; [reflexivity|]. split.
  { destruct (C8_readChar_third_character_closes true decimalInt
                (document_with "Console" "Char Top Left" "'A'")
                "Char Top Left" "'A'" "x" eq_refl)
      as (_ & _ & _ & _ & Hex & _).
    exact (Hex eq_refl). }
  split; [reflexivity|].
  destruct (C8_readChar_third_character_closes true decimalInt
              (document_with "Console" "Char Top Left" "65")
              "Char Top Left" "65" "x" eq_refl)
    as (_ & _ & _ & _ & _ & Hex & _).
  exact (Hex eq_refl eq_refl).
Defined.

(** C9 at a file that opens with a key/value line. *)
Lemma C9_dropped_key_witness :
  Ini.parseKey "stray = 1" = Some ("stray", "1") /\
  has_char LF "stray = 1" = false /\
  Ini.parseLine [] "stray = 1" = [] /\
  Ini.parseStream [] ("stray = 1" ++ endl ++ sample_text)
  = Ini.parseStream [] sample_text.
Proof.
  split; [reflexivity|]. split; [reflexivity|].
  destruct (C9_key_before_first_section_is_dropped
              "stray = 1" "s" "tray = 1" ("stray", "1")
              eq_refl eq_refl eq_refl)
    as (Hline & _ & Hstream).
  split; [exact Hline|].
  exact (proj1 (Hstream eq_refl sample_text)).
Defined.

(** C10 on an empty document: the Console section is created empty, the
    ASCII key is not in it, and the two possible contents of [ascii] give
    two different sets of glyphs. *)
Lemma C10_ascii_witness :
  selectSection "Console" state_new = Some (tt, state_console_added) /\
  gives_no_bool decimalBool (ini state_console_added) "ASCII" /\
  exists (st' : state) (r : bool -> console_section),
    (forall ascii0 : bool,
        readConsole true decimalBool ascii0 console_clear state_new
        = Some (r ascii0, st')) /\
    glyphs (r true) = plain_glyphs /\
    glyphs (r false) = glyphs console_clear /\
    glyphs (r true) <> glyphs (r false).
Proof.
  assert (Hsel : selectSection "Console" state_new
                 = Some (tt, state_console_added)) by reflexivity.
  assert (Hno : gives_no_bool decimalBool (ini state_console_added) "ASCII")
    by (left; reflexivity).
  split; [exact Hsel|]. split; [exact Hno|].
  destruct (C10_ascii_is_read_uninitialised true decimalBool
              state_new state_console_added console_clear Hsel Hno)
    as (st' & r & _ & Hrun & Ht & Hf).
  exists st', r. split; [exact Hrun|]. split; [exact Ht|]. split; [exact Hf|].
  rewrite Ht, Hf. discriminate.
Defined.

(* ------------------------------------------------------------------ *)
(** * Further properties of the document store *)

Lemma find_if_cases {A : Type} (pred : A -> bool) (l : list A) :
  (find_if pred l = List.length l /\
   forallb (fun x => negb (pred x)) l = true) \/
  (exists pre x post,
      l = (pre ++ x :: post)%list /\
      forallb (fun y => negb (pred y)) pre = true /\
      pred x = true /\ find_if pred l = List.length pre).
Proof.
  induction l as [|y r IH]; [left; split; reflexivity|].
  simpl. destruct (pred y) eqn:E.
  - right. exists [], y, r. repeat split; auto.
  - destruct IH as [[H1 H2]|(pre & x & post & -> & Hp & Hx & Hf)].
    + left. split; [now rewrite H1|exact H2].
    + right. exists (y :: pre), x, post. simpl. rewrite E, Hp, Hf.
      repeat split; auto.
Qed.

Lemma compare_none_names (name : string) (l : sections_t) :
  forallb (fun s => negb (compare name s)) l = true <->
  ~ In name (map fst l).
Proof.
  induction l as [|[n k] r IH]; simpl; [tauto|].
  unfold compare at 1; simpl.
  destruct (String.eqb_spec name n) as [->|Hne]; simpl.
  - split; [discriminate|]. intros H. exfalso. apply H. now left.
  - rewrite IH. split.
    + intros H [E|Hin]; [now apply Hne|now apply H].
    + intros H Hin. apply H. now right.
Qed.

Lemma setSection_cases (i : iniHandler) (name : string) :
  (~ In name (map fst (sections i)) /\
   Ini.setSection i name
   = ({| sections := sections i; curSection := Pos (List.length (sections i));
         fileName := fileName i; changed := changed i |}, false)) \/
  (exists pre keys post,
      sections i = (pre ++ (name, keys) :: post)%list /\
      ~ In name (map fst pre) /\
      Ini.setSection i name
      = ({| sections := sections i; curSection := Pos (List.length pre);
            fileName := fileName i; changed := changed i |}, true)).
Proof.
  unfold Ini.setSection.
  match goal with
  | |- context [find_if ?p ?l] =>
      destruct (find_if_cases p l)
        as [[H1 H2]|(pre & [n keys] & post & E & Hp & Hx & Hf)]
  end.
  - left. split; [now apply compare_none_names|].
    rewrite H1, Nat.eqb_refl. reflexivity.
  - right. unfold compare in Hx; simpl in Hx.
    apply String.eqb_eq in Hx. subst n.
    exists pre, keys, post. split; [exact E|].
    split; [now apply compare_none_names|].
    rewrite Hf.
    assert (Hlt : Nat.eqb (List.length pre) (List.length (sections i)) = false).
    { apply Nat.eqb_neq. rewrite E, length_app. simpl. lia. }
    rewrite Hlt. reflexivity.
Qed.

Lemma setSection_found (i : iniHandler) (name : string) :
  snd (Ini.setSection i name) = true <-> In name (map fst (sections i)).
Proof.
  destruct (setSection_cases i name)
    as [[Hn ->]|(pre & keys & post & E & Hp & ->)]; simpl.
  - split; [discriminate|intros H; contradiction].
  - split; [|reflexivity]. intros _. rewrite E, map_app, in_app_iff.
    right. now left.
Qed.

(** X1: [setSection] reports whether a section of that name exists and
    selects the first one; it changes neither the sections, the file name
    nor the changed flag.  After a failed selection the iterator is
    [end()], and a lookup or an insertion through it is undefined. *)
Theorem X1_setSection_selects_first_match :
  forall (i : iniHandler) (name : string),
    sections (fst (Ini.setSection i name)) = sections i /\
    fileName (fst (Ini.setSection i name)) = fileName i /\
    changed (fst (Ini.setSection i name)) = changed i /\
    (snd (Ini.setSection i name) = true <-> In name (map fst (sections i))) /\
    (snd (Ini.setSection i name) = true ->
     exists pre keys post,
       sections i = (pre ++ (name, keys) :: post)%list /\
       ~ In name (map fst pre) /\
       selected (fst (Ini.setSection i name)) (name, keys)) /\
    (snd (Ini.setSection i name) = false ->
     forall key value,
       Ini.getValue (fst (Ini.setSection i name)) key = None /\
       Ini.addValue (fst (Ini.setSection i name)) key value = None).
Proof.
  intros i name.
  split; [reflexivity|]. split; [reflexivity|]. split; [reflexivity|].
  destruct (setSection_cases i name)
    as [[Hn ->]|(pre & keys & post & E & Hp & ->)]; simpl.
  - split; [split; [discriminate|intros H; contradiction]|].
    split; [discriminate|].
    intros _ key value.
    unfold Ini.getValue, Ini.deref, Ini.addValue. simpl.
    now rewrite (proj2 (nth_error_None _ _) (Nat.le_refl _)).
  - split.
    { split; [|reflexivity]. intros _. rewrite E, map_app, in_app_iff.
      right. now left. }
    split; [|discriminate].
    intros _. exists pre, keys, post. split; [exact E|]. split; [exact Hp|].
    unfold selected, Ini.deref. simpl.
    rewrite E, nth_error_app2, Nat.sub_diag by lia. reflexivity.
Qed.

Lemma first_value_app (a b : keys_t) (key : string) :
  first_value (a ++ b)%list key
  = match first_value a key with
    | Some v => Some v
    | None => first_value b key
    end.
Proof.
  unfold first_value. induction a as [|[k v] r IH]; simpl.
  - reflexivity.
  - unfold compare at 1 3; simpl.
    destruct (String.eqb key k); simpl; [reflexivity|exact IH].
Qed.

Lemma getValue_selected_first (i : iniHandler) (sect : keyPair_t) (key : string) :
  selected i sect -> Ini.getValue i key = Some (first_value (snd sect) key).
Proof. intros H. unfold Ini.getValue. now rewrite H. Qed.

Lemma first_value_absent (sect : keyPair_t) (key : string) :
  absent key sect <-> first_value (snd sect) key = None.
Proof.
  unfold first_value. split.
  - intros H. rewrite (find_if_none _ _ (absent_forallb _ _ H)).
    now rewrite (proj2 (nth_error_None _ _) (Nat.le_refl _)).
  - intros H. apply forallb_absent, find_if_absent.
    match type of H with
    | option_map _ ?y = None => destruct y eqn:E; [discriminate H|exact E]
    end.
Qed.

Lemma set_keys_names (secs : sections_t) (n : nat) (keys : keys_t) :
  map fst (Ini.set_keys secs n keys) = map fst secs.
Proof.
  revert n; induction secs as [|[name k] r IH]; intros [|n]; simpl;
    try reflexivity.
  now rewrite IH.
Qed.

Lemma set_keys_other (secs : sections_t) (n j : nat) (keys : keys_t) :
  j <> n -> nth_error (Ini.set_keys secs n keys) j = nth_error secs j.
Proof.
  revert n j; induction secs as [|[name k] r IH]; intros [|n] [|j] H; simpl;
    try reflexivity; try contradiction.
  apply IH. congruence.
Qed.

(** X2: insertion and lookup.  After [addValue key value] on the selected
    section, a lookup of [key] gives the new value when the section did not
    hold the key, and still the older value when it did: duplicates are
    stored, the first entry wins. *)
Theorem X2_addValue_then_getValue :
  forall (i i' : iniHandler) (sect : keyPair_t) (key value : string),
    selected i sect ->
    Ini.addValue i key value = Some i' ->
    selected i' (fst sect, (snd sect ++ [(key, value)])%list) /\
    (absent key sect -> Ini.getValue i' key = Some (Some (c_str value))) /\
    (forall v, Ini.getValue i key = Some (Some v) ->
               Ini.getValue i' key = Some (Some v)).
Proof.
  intros i i' sect key value Hs Hadd.
  destruct (addValue_selected i sect key value Hs) as (i2 & Hadd2 & Hs2 & _).
  rewrite Hadd in Hadd2. injection Hadd2 as <-.
  split; [exact Hs2|].
  rewrite (getValue_selected_first i' _ key Hs2). simpl snd.
  rewrite first_value_app. split.
  - intros Ha. apply first_value_absent in Ha. rewrite Ha.
    unfold first_value. simpl. unfold compare. simpl.
    now rewrite String.eqb_refl.
  - intros v Hv. rewrite (getValue_selected_first i sect key Hs) in Hv.
    injection Hv as Hv. now rewrite Hv.
Qed.

(** X3: what [addValue] leaves alone.  Lookups of every other key give what
    they gave before, the sections keep their names and order, and every
    section but the selected one is unchanged. *)
Theorem X3_addValue_frame :
  forall (i i' : iniHandler) (sect : keyPair_t) (key value : string),
    selected i sect ->
    Ini.addValue i key value = Some i' ->
    (forall key', key' <> key -> Ini.getValue i' key' = Ini.getValue i key') /\
    map fst (sections i') = map fst (sections i) /\
    curSection i' = curSection i /\
    fileName i' = fileName i /\
    (forall j, curSection i <> Pos j ->
               nth_error (sections i') j = nth_error (sections i) j).
Proof.
  intros i i' sect key value Hs Hadd.
  destruct (addValue_selected i sect key value Hs)
    as (i2 & Hadd2 & Hs2 & _ & Hf & Hc).
  rewrite Hadd in Hadd2. injection Hadd2 as <-.
  split.
  { intros key' Hne.
    rewrite (getValue_selected_first i' _ key' Hs2),
            (getValue_selected_first i sect key' Hs).
    simpl snd. rewrite first_value_app.
    destruct (first_value (snd sect) key'); [reflexivity|].
    unfold first_value. simpl. unfold compare. simpl.
    destruct (String.eqb_spec key' key); [contradiction|reflexivity]. }
  unfold Ini.addValue in Hadd. unfold selected, Ini.deref in Hs.
  destruct (curSection i) as [|n] eqn:Ec; [discriminate|].
  rewrite Hs in Hadd. injection Hadd as <-. simpl.
  split; [apply set_keys_names|]. split; [exact Ec|]. split; [reflexivity|].
  intros j Hj. apply set_keys_other. congruence.
Qed.

Lemma selectSection_cases (st : state) (name : string) :
  (exists pre keys post,
      sections (ini st) = (pre ++ (name, keys) :: post)%list /\
      ~ In name (map fst pre) /\
      selectSection name st
      = Some (tt, {| ini := {| sections := sections (ini st);
                               curSection := Pos (List.length pre);
                               fileName := fileName (ini st);
                               changed := changed (ini st) |};
                     printed := printed st |})) \/
  (~ In name (map fst (sections (ini st))) /\
   selectSection name st
   = Some (tt, {| ini := {| sections := (sections (ini st) ++ [(name, [])])%list;
                            curSection := Pos (List.length (sections (ini st)));
                            fileName := fileName (ini st);
                            changed := true |};
                  printed := printed st |})).
Proof.
  unfold selectSection, bind, ini_setSection.
  destruct (setSection_cases (ini st) name)
    as [[Hn ->]|(pre & keys & post & E & Hp & ->)].
  - right. split; [exact Hn|]. simpl.
    unfold ini_addSection, ini_update, Ini.addSection. simpl.
    rewrite Nat.leb_refl. unfold Ini.insert_at.
    now rewrite firstn_all, skipn_all.
  - left. exists pre, keys, post. split; [exact E|]. split; [exact Hp|].
    reflexivity.
Qed.

(** X4: the opening statement of every group reader,
    [if (!ini.setSection(name)) ini.addSection(name);].  When a section of
    that name exists the first one is selected and the handler is otherwise
    as it was; when none exists an empty section of that name is appended
    after all others, selected, and the changed flag is set.  Either way a
    following [setSection] of the name succeeds. *)
Theorem X4_select_or_append_section :
  forall (st : state) (name : string),
    exists st' keys,
      selectSection name st = Some (tt, st') /\
      selected (ini st') (name, keys) /\
      printed st' = printed st /\
      fileName (ini st') = fileName (ini st) /\
      snd (Ini.setSection (ini st') name) = true /\
      (In name (map fst (sections (ini st))) ->
       sections (ini st') = sections (ini st) /\
       changed (ini st') = changed (ini st)) /\
      (~ In name (map fst (sections (ini st))) ->
       sections (ini st') = (sections (ini st) ++ [(name, [])])%list /\
       keys = [] /\ changed (ini st') = true).
Proof.
  intros st name.
  destruct (selectSection_cases st name)
    as [(pre & keys & post & E & Hp & Hsel)|[Hn Hsel]].
  - eexists _, keys. split; [exact Hsel|].
    split.
    { unfold selected, Ini.deref. simpl.
      rewrite E, nth_error_app2, Nat.sub_diag by lia. reflexivity. }
    split; [reflexivity|]. split; [reflexivity|]. split.
    { apply setSection_found. cbn [ini sections].
      rewrite E, map_app, in_app_iff. right. now left. }
    split; [now split|].
    intros Hn. exfalso. apply Hn. rewrite E, map_app, in_app_iff.
    right. now left.
  - eexists _, []. split; [exact Hsel|].
    split.
    { unfold selected, Ini.deref. simpl.
      rewrite nth_error_app2, Nat.sub_diag by lia. reflexivity. }
    split; [reflexivity|]. split; [reflexivity|]. split.
    { apply setSection_found. cbn [ini sections].
      rewrite map_app, in_app_iff. right. now left. }
    split; [intros H; contradiction|].
    intros _. now split.
Qed.

(* ------------------------------------------------------------------ *)
(** * Further properties of the parser *)

Lemma drop_next (p : nat) (s : string) (c : ascii) (r : string) :
  drop p s = String c r -> drop (S p) s = r.
Proof.
  intros H. replace (S p) with (p + 1)%nat by lia.
  rewrite <- drop_drop, H. reflexivity.
Qed.

Lemma last_index_after (p : ascii -> bool) (s : string) (j : nat) :
  last_index p s = Some j -> first_index p (drop (S j) s) = None.
Proof.
  revert j; induction s as [|c r IH]; intros j; [discriminate|].
  simpl last_index. destruct (last_index p r) as [i|] eqn:E.
  - intros [= <-]. simpl. now apply IH.
  - destruct (p c); [|discriminate]. intros [= <-]. simpl.
    clear IH. induction r as [|c' r' IH']; [reflexivity|].
    simpl in E. destruct (last_index p r') as [i|]; [discriminate|].
    simpl. destruct (p c'); [discriminate|]. now rewrite (IH' eq_refl).
Qed.

Lemma last_index_none (p : ascii -> bool) (s : string) :
  first_index p s = None -> last_index p s = None.
Proof.
  induction s as [|c r IH]; simpl; [reflexivity|].
  destruct (p c); [discriminate|].
  destruct (first_index p r); [discriminate|].
  intros _. now rewrite (IH eq_refl).
Qed.

Lemma blank_first_index (s : string) :
  blank s = true <-> first_index not_space s = None.
Proof.
  unfold blank. destruct (first_index not_space s); split; congruence.
Qed.

Lemma blank_no_char (s : string) (c : ascii) :
  not_space c = true -> blank s = true -> has_char c s = false.
Proof.
  intros Hc. unfold blank, has_char.
  induction s as [|a r IH]; simpl; [reflexivity|].
  destruct (not_space a) eqn:Ea; [discriminate|].
  unfold not_space in Ea. apply negb_false_iff, Ascii.eqb_eq in Ea. subst a.
  assert (Hne : Ascii.eqb c " " = false)
    by (unfold not_space in Hc; now apply negb_true_iff in Hc).
  rewrite Hne.
  destruct (first_index not_space r); [discriminate|]. intros _.
  specialize (IH eq_refl).
  now destruct (first_index (Ascii.eqb c) r).
Qed.

Lemma parseKey_none (l : string) :
  size l < max_size ->
  (Ini.parseKey l = None <-> has_char "=" l = false).
Proof.
  intros Hsz. rewrite max_size_value in Hsz. unfold size in Hsz.
  unfold Ini.parseKey, find, has_char.
  destruct (first_index (Ascii.eqb "=") l) as [p|] eqn:Hp.
  - pose proof (first_index_lt _ _ _ Hp) as Hpl. unfold of_index.
    assert (Hnp : (Z.of_nat p =? npos) = false)
      by (apply Z.eqb_neq; rewrite npos_value; lia).
    rewrite Hnp. split; discriminate.
  - unfold of_index. change (npos =? npos) with true. cbv iota.
    split; reflexivity.
Qed.

(** X5: how [parseKey] splits a line.  It throws exactly on a line without
    [=].  On a line whose first [=] has something other than spaces before
    it, the line is the key, spaces, [=], spaces, the value: the key is not
    empty, holds no [=] and does not end with a space, and the value does
    not start with one.  Nothing but the spaces around the first [=] is
    dropped. *)
Theorem X5_parseKey_splits_at_first_equals :
  forall l : string,
    size l < max_size ->
    (Ini.parseKey l = None <-> has_char "=" l = false) /\
    (forall k v,
        key_value_line l = true ->
        Ini.parseKey l = Some (k, v) ->
        exists sp1 sp2,
          l = k ++ sp1 ++ "=" ++ sp2 ++ v /\
          blank sp1 = true /\ blank sp2 = true /\
          k <> "" /\ has_char "=" k = false /\ ends_with_space k = false /\
          (v = "" \/ exists c r, v = String c r /\ not_space c = true)).
Proof.
  intros l Hsz. split; [now apply parseKey_none|].
  intros k v Hkv Hparse. unfold key_value_line in Hkv.
  destruct (first_index (Ascii.eqb "=") l) as [p|] eqn:Hp; [|discriminate].
  destruct (first_index not_space l) as [q|] eqn:Hq; [|discriminate].
  apply Nat.ltb_lt in Hkv.
  destruct (parseKey_parts l p q Hsz Hp Hq Hkv) as (j & Hj & Hjp & Hk).
  assert (Hparts : k = take (S j) l /\
                   v = match first_index not_space (drop (S p) l) with
                       | Some i => drop (S p + i) l
                       | None => ""
                       end).
  { rewrite Hk in Hparse. injection Hparse as E1 E2.
    split; symmetry; assumption. }
  destruct Hparts as [Ek Ev]. clear Hk Hparse.
  destruct (first_index_drop _ _ _ Hp) as (c & r & Ed & Hc).
  apply Ascii.eqb_eq in Hc. subst c.
  pose proof (drop_next _ _ _ _ Ed) as Er.
  remember (drop (S j) (take p l)) as sp1 eqn:E1.
  remember (match first_index not_space (drop (S p) l) with
            | Some i => take i (drop (S p) l)
            | None => drop (S p) l
            end) as sp2 eqn:E2.
  assert (Hk1 : take p l = k ++ sp1).
  { rewrite E1, Ek, <- (take_take (S j) p l) by lia.
    symmetry. apply take_drop. }
  assert (Hv1 : r = sp2 ++ v).
  { rewrite <- Er, E2, Ev.
    destruct (first_index not_space (drop (S p) l)) as [i|].
    - rewrite <- drop_drop. symmetry. apply take_drop.
    - now rewrite append_nil_r. }
  exists sp1, sp2.
  split.
  { transitivity ((k ++ sp1) ++ String "=" (sp2 ++ v)).
    - rewrite <- Hk1, <- Hv1, <- Ed. symmetry. apply take_drop.
    - now rewrite append_assoc. }
  rewrite E1, E2.
  split; [apply blank_first_index; now apply last_index_after|].
  split.
  { apply blank_first_index.
    destruct (first_index not_space (drop (S p) l)) as [i|] eqn:Ei;
      [now apply first_index_take_none|exact Ei]. }
  split.
  { rewrite Ek. destruct l; [discriminate|]. discriminate. }
  split.
  { rewrite Ek, <- (take_take (S j) p l) by lia.
    apply has_char_take. unfold has_char.
    now rewrite (first_index_take_none _ _ _ Hp). }
  split.
  { rewrite Ek, <- (take_take (S j) p l) by lia.
    now apply take_last_not_space. }
  rewrite Ev. destruct (first_index not_space (drop (S p) l)) as [i|] eqn:Ei.
  - right. destruct (first_index_drop _ _ _ Ei) as (c & r' & Ed' & Hc).
    rewrite drop_drop in Ed'. eauto.
  - now left.
Qed.

Lemma size_t_npos_succ : size_t (npos + 1) = 0.
Proof. reflexivity. Qed.

(** X6: a line whose first [=] has only spaces before it.  [parseKey]
    stores it under the empty key, which is how comment lines are stored:
    [write] emits the value alone, without key and without [=]. *)
Theorem X6_parseKey_blank_key :
  forall sp rest : string,
    sp <> "" -> blank sp = true ->
    size (sp ++ "=" ++ rest) < max_size ->
    exists sp2 v,
      rest = sp2 ++ v /\ blank sp2 = true /\
      Ini.parseKey (sp ++ "=" ++ rest) = Some ("", v) /\
      Ini.writeEntry ("", v) = v ++ endl.
Proof.
  intros sp rest Hne Hb Hsz.
  pose proof (blank_no_char sp "=" eq_refl Hb) as Heq.
  assert (Hp : first_index (Ascii.eqb "=") (sp ++ "=" ++ rest)
               = Some (String.length sp)).
  { unfold has_char in Heq.
    destruct (first_index (Ascii.eqb "=") sp) eqn:E; [discriminate|].
    rewrite (first_index_append _ sp _ E). simpl.
    rewrite ?Ascii.eqb_refl. simpl. f_equal. lia. }
  assert (Hlen : (1 <= String.length sp)%nat)
    by (destruct sp; [contradiction|simpl; lia]).
  assert (Hsize : size (sp ++ "=" ++ rest) = size sp + 1 + size rest).
  { rewrite !size_append. change (size "=") with 1. lia. }
  rewrite max_size_value, Hsize in Hsz.
  pose proof (size_nonneg rest) as Hr. unfold size in Hsz, Hr.
  exists (match first_index not_space rest with
          | Some i => take i rest
          | None => rest
          end),
         (match first_index not_space rest with
          | Some i => drop i rest
          | None => ""
          end).
  split.
  { destruct (first_index not_space rest);
      [symmetry; apply take_drop|now rewrite append_nil_r]. }
  split.
  { apply blank_first_index.
    destruct (first_index not_space rest) as [i|] eqn:Ei;
      [now apply first_index_take_none|exact Ei]. }
  split; [|reflexivity].
  unfold Ini.parseKey, find. rewrite Hp. cbv zeta. unfold of_index.
  assert (Hnp : (Z.of_nat (String.length sp) =? npos) = false)
    by (apply Z.eqb_neq; rewrite npos_value; lia).
  rewrite Hnp.
  rewrite (size_t_small (Z.of_nat (String.length sp) - 1)) by lia.
  rewrite (size_t_small (Z.of_nat (String.length sp) + 1)) by lia.
  unfold find_last_not_of.
  change (fun a => negb (Ascii.eqb a " ")) with not_space.
  replace (Z.to_nat (Z.min (Z.of_nat (String.length sp) - 1)
                           (size (sp ++ "=" ++ rest) - 1) + 1))
    with (String.length sp) by (rewrite Hsize; unfold size; lia).
  rewrite take_append.
  rewrite (last_index_none _ _ (proj1 (blank_first_index sp) Hb)).
  unfold of_index. rewrite size_t_npos_succ.
  assert (Hkey : substr (sp ++ "=" ++ rest) 0 0 = "").
  { unfold substr. rewrite Hsize.
    replace (Z.to_nat (Z.min 0 (size sp + 1 + size rest - 0))) with O
      by (unfold size; lia).
    reflexivity. }
  rewrite Hkey. f_equal. f_equal.
  unfold find_first_not_of.
  change (fun a => negb (Ascii.eqb a " ")) with not_space.
  replace (Z.to_nat (Z.of_nat (String.length sp) + 1))
    with (String.length (sp ++ "=")) by (rewrite length_append; simpl; lia).
  rewrite <- (append_assoc sp "=" rest), drop_append.
  rewrite (append_assoc sp "=" rest), Hsize.
  destruct (Z.leb_spec (size sp + 1 + size rest)
                       (Z.of_nat (String.length sp) + 1)) as [Hle|Hgt].
  - assert (E : rest = "").
    { destruct rest; [reflexivity|].
      unfold size in Hle. simpl in Hle. lia. }
    subst rest. reflexivity.
  - destruct (first_index not_space rest) as [i|] eqn:Ei; [|reflexivity].
    pose proof (first_index_lt _ _ _ Ei) as Hil.
    assert (Hnp2 : (Z.of_nat (String.length sp) + 1 + Z.of_nat i =? npos) = false)
      by (apply Z.eqb_neq; rewrite npos_value; lia).
    rewrite Hnp2. unfold substr.
    replace (Z.to_nat (Z.of_nat (String.length sp) + 1 + Z.of_nat i))
      with (String.length (sp ++ "=") + i)%nat
      by (rewrite length_append; simpl; lia).
    rewrite <- drop_drop, <- (append_assoc sp "=" rest), drop_append.
    apply take_all. rewrite length_drop, (append_assoc sp "=" rest), Hsize.
    unfold size. rewrite npos_value. lia.
Qed.

Lemma parseSection_none (l : string) :
  size l < max_size ->
  (Ini.parseSection l = None <-> has_char "]" l = false).
Proof.
  intros Hsz. rewrite max_size_value in Hsz. unfold size in Hsz.
  unfold Ini.parseSection, find, has_char.
  destruct (first_index (Ascii.eqb "]") l) as [p|] eqn:Hp.
  - pose proof (first_index_lt _ _ _ Hp) as Hpl. unfold of_index.
    assert (Hnp : (Z.of_nat p =? npos) = false)
      by (apply Z.eqb_neq; rewrite npos_value; lia).
    rewrite Hnp. split; discriminate.
  - unfold of_index. change (npos =? npos) with true. cbv iota.
    split; reflexivity.
Qed.

(** X7: [parseSection] throws exactly on a line without a closing bracket;
    on a header line the name is what stands between the opening bracket
    and the first closing one, and whatever follows that bracket on the
    line is ignored. *)
Theorem X7_parseSection_name_up_to_first_bracket :
  forall l : string,
    size l < max_size ->
    (Ini.parseSection l = None <-> has_char "]" l = false) /\
    (forall n rest,
        l = "[" ++ n ++ "]" ++ rest ->
        has_char "]" n = false ->
        Ini.parseSection l = Some n).
Proof.
  intros l Hsz. split; [now apply parseSection_none|].
  intros n rest -> Hn. rewrite max_size_value in Hsz.
  assert (Hsize : size ("[" ++ n ++ "]" ++ rest) = 1 + size n + 1 + size rest).
  { rewrite !size_append. change (size "[") with 1. change (size "]") with 1.
    lia. }
  rewrite Hsize in Hsz.
  pose proof (size_nonneg n) as H0. pose proof (size_nonneg rest) as H1.
  unfold Ini.parseSection.
  assert (Hfind : find ("[" ++ n ++ "]" ++ rest) "]" = size n + 1).
  { replace ("[" ++ n ++ "]" ++ rest) with (("[" ++ n) ++ String "]" rest)
      by (now rewrite append_assoc).
    rewrite find_split.
    - rewrite size_append. change (size "[") with 1. lia.
    - rewrite has_char_append, Hn. reflexivity. }
  rewrite Hfind.
  assert (Hne : (size n + 1 =? npos) = false)
    by (apply Z.eqb_neq; rewrite npos_value; lia).
  rewrite Hne. f_equal.
  rewrite (size_t_small (size n + 1 - 1)) by lia.
  replace (size n + 1 - 1) with (size n) by lia.
  change 1 with (size "["). apply substr_mid.
Qed.

Lemma push_back_last_names (acc : sections_t) (e : stringPair_t) :
  map fst (Ini.push_back_last acc e) = map fst acc.
Proof.
  destruct acc as [|s0 r0]; [reflexivity|].
  destruct (exists_last (l := s0 :: r0) ltac:(discriminate))
    as (front & [n ks] & E).
  rewrite E, push_back_last_snoc, !map_app. reflexivity.
Qed.

Lemma push_back_last_front (acc : sections_t) (e : stringPair_t) :
  removelast (Ini.push_back_last acc e) = removelast acc.
Proof.
  destruct acc as [|s0 r0]; [reflexivity|].
  destruct (exists_last (l := s0 :: r0) ltac:(discriminate))
    as (front & [n ks] & E).
  rewrite E, push_back_last_snoc, !removelast_last. reflexivity.
Qed.

Lemma parseLine_names (acc : sections_t) (l : string) :
  map fst (Ini.parseLine acc l) = (map fst acc ++ header_name l)%list.
Proof.
  destruct l as [|c r]; [simpl; now rewrite app_nil_r|].
  unfold Ini.parseLine, header_name.
  destruct (Ascii.eqb c ";" || Ascii.eqb c "#")%bool eqn:Hc.
  - assert (Hb : Ascii.eqb c "[" = false).
    { apply orb_true_iff in Hc as [Hc|Hc]; apply Ascii.eqb_eq in Hc;
        subst c; reflexivity. }
    rewrite Hb, app_nil_r.
    destruct (negb (Ini.sections_empty acc)); [apply push_back_last_names|reflexivity].
  - destruct (Ascii.eqb c "[").
    + destruct (Ini.parseSection (String c r)).
      * now rewrite map_app.
      * now rewrite app_nil_r.
    + rewrite app_nil_r.
      destruct (negb (Ini.sections_empty acc)); [|reflexivity].
      destruct (Ini.parseKey (String c r)); [apply push_back_last_names|reflexivity].
Qed.

Lemma parseLine_front (acc : sections_t) (l : string) :
  exists tail, Ini.parseLine acc l = (removelast acc ++ tail)%list /\
               (acc <> [] -> tail <> []).
Proof.
  assert (Hself : exists tail, acc = (removelast acc ++ tail)%list /\
                               (acc <> [] -> tail <> [])).
  { destruct acc as [|s0 r0]; [exists []; split; [reflexivity|tauto]|].
    destruct (exists_last (l := s0 :: r0) ltac:(discriminate))
      as (front & x & E).
    rewrite E, removelast_last. exists [x]. split; [reflexivity|].
    intros _. discriminate. }
  assert (Hpush : forall e, exists tail,
               Ini.push_back_last acc e = (removelast acc ++ tail)%list /\
               (acc <> [] -> tail <> [])).
  { intros e. destruct acc as [|s0 r0]; [exists []; split; [reflexivity|tauto]|].
    destruct (exists_last (l := s0 :: r0) ltac:(discriminate))
      as (front & [n ks] & E).
    rewrite E, push_back_last_snoc, removelast_last.
    eexists. split; [reflexivity|]. intros _. discriminate. }
  destruct l as [|c r]; [exact Hself|].
  unfold Ini.parseLine.
  destruct (Ascii.eqb c ";" || Ascii.eqb c "#")%bool.
  - destruct (negb (Ini.sections_empty acc)); [apply Hpush|exact Hself].
  - destruct (Ascii.eqb c "[").
    + destruct (Ini.parseSection (String c r)) as [n|]; [|exact Hself].
      destruct Hself as (tail & E & Hne).
      exists (tail ++ [(n, [])])%list. split.
      * rewrite E at 1. now rewrite <- app_assoc.
      * intros _. now destruct tail.
    + destruct (negb (Ini.sections_empty acc)); [|exact Hself].
      destruct (Ini.parseKey (String c r)); [apply Hpush|exact Hself].
Qed.

(** X8: the sections [tryOpen] builds.  Their names are the names already
    held followed by those of the header lines of the text, in order and
    with repetitions kept (sections of the same name are not merged); and
    every section held before, except the last one, is left exactly as it
    was. *)
Theorem X8_parse_keeps_sections_in_order :
  forall (acc : sections_t) (text : string),
    map fst (Ini.parseStream acc text)
    = (map fst acc ++ flat_map header_name (getlines text))%list /\
    exists tail,
      Ini.parseStream acc text = (removelast acc ++ tail)%list /\
      (acc <> [] -> tail <> []).
Proof.
  intros acc text. unfold Ini.parseStream.
  generalize (getlines text) as lines. intros lines. revert acc.
  induction lines as [|l ls IH]; intros acc.
  - simpl. rewrite app_nil_r. split; [reflexivity|].
    destruct acc as [|s0 r0]; [exists []; split; [reflexivity|tauto]|].
    destruct (exists_last (l := s0 :: r0) ltac:(discriminate))
      as (front & x & E).
    rewrite E, removelast_last. exists [x]. split; [reflexivity|].
    intros _. discriminate.
  - rewrite fold_left_cons. destruct (IH (Ini.parseLine acc l)) as [Hn (tail & Ht & Hne)].
    split.
    + rewrite Hn, parseLine_names. simpl flat_map. now rewrite <- app_assoc.
    + destruct (parseLine_front acc l) as (t1 & E1 & Hne1).
      destruct acc as [|s0 r0].
      * exists (fold_left Ini.parseLine ls (Ini.parseLine [] l)).
        split; [reflexivity|tauto].
      * specialize (Hne1 ltac:(discriminate)).
        rewrite Ht, E1.
        destruct (exists_last Hne1) as (t1' & x & ->).
        rewrite app_assoc, removelast_last.
        exists (t1' ++ tail)%list. split; [now rewrite <- app_assoc|].
        intros _ Happ. apply app_eq_nil in Happ as [_ Htl].
        apply Hne; [|exact Htl]. rewrite E1. intros Hnil.
        apply app_eq_nil in Hnil as [_ Hnil].
        apply app_eq_nil in Hnil as [_ Hnil]. discriminate.
Qed.

Lemma parseLine_opens_nothing (l : string) :
  opens_no_section l -> Ini.parseLine [] l = [].
Proof.
  unfold opens_no_section, header_name, Ini.parseLine.
  destruct l as [|c r]; [reflexivity|].
  destruct (Ascii.eqb c ";" || Ascii.eqb c "#")%bool; [reflexivity|].
  destruct (Ascii.eqb c "["); [|reflexivity].
  destruct (Ini.parseSection (String c r)); [discriminate|reflexivity].
Qed.

Lemma getlines_written (ls : list string) (rest : string) :
  Forall (fun l => has_char LF l = false) ls ->
  getlines (Ini.sent (map (fun l => l ++ endl) ls) ++ rest)
  = (ls ++ getlines rest)%list.
Proof.
  induction ls as [|l r IH]; intros H; [reflexivity|].
  inversion H as [|? ? Hl Hr]; subst.
  simpl map. simpl Ini.sent. rewrite !append_assoc.
  rewrite (getlines_line _ _ Hl), (IH Hr). reflexivity.
Qed.

(** X9: nothing that precedes the first section header survives the parse.
    Lines that open no section (comments, key/value lines, lines without
    [=], headers without closing bracket, blank lines), met while no
    section is held, leave the handler without sections: the file is parsed
    as if it started after them. *)
Theorem X9_lines_before_first_header_are_dropped :
  forall (before : list string),
    Forall opens_no_section before ->
    (forall after : list string,
        fold_left Ini.parseLine (before ++ after) []
        = fold_left Ini.parseLine after []) /\
    (Forall (fun l => has_char LF l = false) before ->
     forall rest : string,
       Ini.parseStream [] (Ini.sent (map (fun l => l ++ endl) before) ++ rest)
       = Ini.parseStream [] rest).
Proof.
  intros before Hb.
  assert (Hfold : forall after,
             fold_left Ini.parseLine (before ++ after) []
             = fold_left Ini.parseLine after []).
  { induction Hb as [|l ls Hl Hls IH]; intros after; [reflexivity|].
    simpl app. rewrite fold_left_cons, (parseLine_opens_nothing l Hl).
    apply IH. }
  split; [exact Hfold|].
  intros Hlf rest. unfold Ini.parseStream.
  rewrite (getlines_written before rest Hlf). apply Hfold.
Qed.

(** X10: reading back what was written.  For a valid document (names
    without closing bracket, keys that are not empty, hold no [=], do not
    open like a comment or a header and do not end with a space, values that
    do not open with a space, no line feeds), parsing the text [write]
    emits gives the document back, entry for entry; so does [tryOpen] on a
    new handler after [close] has written a changed document. *)
Theorem X10_write_then_parse :
  forall d : sections_t,
    valid_document d = true ->
    Ini.parseStream [] (Ini.writeStream d) = d /\
    (forall (i : iniHandler) (fs : filesys),
        sections i = d -> changed i = true ->
        writable fs (fileName i) = true ->
        readable fs (fileName i) = true ->
        sections (fst (Ini.tryOpen iniHandler_new
                                   (snd (Ini.close i fs)) (fileName i)))
        = d).
Proof.
  intros d Hv.
  pose proof (parse_written d Hv []) as Hp. simpl in Hp.
  split; [exact Hp|].
  intros i fs Hd Hc Hw Hr.
  unfold Ini.close. rewrite Hc. unfold Ini.write. rewrite Hw. simpl snd.
  rewrite (tryOpen_new _ (fileName i) (Ini.writeStream (sections i))).
  - now rewrite Hd.
  - simpl. now rewrite String.eqb_refl.
  - exact Hr.
Qed.

Lemma valid_set_keys (secs : sections_t) (n : nat) (sect : keyPair_t)
      (keys : keys_t) :
  valid_document secs = true ->
  nth_error secs n = Some sect ->
  forallb valid_entry keys = true ->
  valid_document (Ini.set_keys secs n keys) = true.
Proof.
  unfold valid_document.
  revert n; induction secs as [|[name k] r IH]; intros [|n] Hv Hn Hk;
    simpl in *; try discriminate.
  - apply andb_true_iff in Hv as [Hs Hr]. rewrite Hr, andb_true_r.
    unfold valid_section in *. simpl in *.
    apply andb_true_iff in Hs as [Hname _]. now rewrite Hname, Hk.
  - apply andb_true_iff in Hv as [Hs Hr]. rewrite Hs. simpl.
    now apply IH.
Qed.

Lemma valid_nth (secs : sections_t) (n : nat) (sect : keyPair_t) :
  valid_document secs = true -> nth_error secs n = Some sect ->
  valid_section sect = true.
Proof.
  unfold valid_document. intros Hv Hn.
  apply (proj1 (forallb_forall _ _) Hv). eapply nth_error_In. exact Hn.
Qed.

(** X11: the mutators keep a valid document valid.  [addValue] of a valid
    entry (in particular of a placeholder: a valid key with the empty
    value) and [addSection] of a valid name give a valid document again, so
    that what [close] writes afterwards is read back as it is. *)
Theorem X11_mutators_keep_documents_valid :
  forall (i i' : iniHandler) (key value name : string),
    valid_document (sections i) = true ->
    (valid_entry (key, value) = true ->
     Ini.addValue i key value = Some i' ->
     valid_document (sections i') = true) /\
    (valid_key key = true -> size key < line_limit ->
     Ini.addValue i key "" = Some i' ->
     valid_document (sections i') = true) /\
    (valid_name name = true ->
     Ini.addSection i name = Some i' ->
     valid_document (sections i') = true).
Proof.
  intros i i' key value name Hv.
  assert (Hadd : forall v, valid_entry (key, v) = true ->
                           Ini.addValue i key v = Some i' ->
                           valid_document (sections i') = true).
  { intros v He. unfold Ini.addValue.
    destruct (curSection i) as [|n]; [discriminate|].
    destruct (nth_error (sections i) n) as [sect|] eqn:En; [|discriminate].
    intros [= <-]. simpl.
    apply (valid_set_keys _ _ sect _ Hv En).
    pose proof (valid_nth _ _ _ Hv En) as Hs. unfold valid_section in Hs.
    apply andb_true_iff in Hs as [_ Hks].
    rewrite forallb_app, Hks. simpl. now rewrite He. }
  split; [apply Hadd|]. split.
  - intros Hk Hsz. apply Hadd. unfold valid_entry. cbn [fst snd].
    rewrite Hk. change (size "") with 0. rewrite Z.add_0_r.
    rewrite (proj2 (Z.ltb_lt _ _) Hsz).
    destruct (valid_key_parts key Hk) as (c & r & -> & _). reflexivity.
  - intros Hn. unfold Ini.addSection.
    destruct (curSection i) as [|n]; [discriminate|].
    destruct (n <=? List.length (sections i))%nat; [|discriminate].
    intros [= <-]. simpl. unfold Ini.insert_at, valid_document in *.
    rewrite <- (firstn_skipn n (sections i)), forallb_app in Hv.
    apply andb_true_iff in Hv as [H1 H2].
    rewrite forallb_app. apply andb_true_iff. split; [exact H1|].
    simpl. apply andb_true_iff. split; [|exact H2].
    unfold valid_section. simpl. now rewrite Hn.
Qed.

(* ------------------------------------------------------------------ *)
(** ** Opening a file *)

Lemma parseStream_names (acc : sections_t) (text : string) :
  map fst (Ini.parseStream acc text)
  = (map fst acc ++ flat_map header_name (getlines text))%list.
Proof.
  unfold Ini.parseStream. generalize (getlines text) as lines.
  intros lines. revert acc.
  induction lines as [|l ls IH]; intros acc.
  - simpl. now rewrite app_nil_r.
  - rewrite fold_left_cons, IH, parseLine_names. simpl flat_map.
    now rewrite <- app_assoc.
Qed.

Lemma after_push_back_headers (acc : sections_t) (text : string) (it : iterator) :
  (flat_map header_name (getlines text) = [] ->
   Ini.after_push_back acc (Ini.parseStream acc text) it = it) /\
  (flat_map header_name (getlines text) <> [] ->
   Ini.after_push_back acc (Ini.parseStream acc text) it = Singular).
Proof.
  unfold Ini.after_push_back.
  pose proof (f_equal (@List.length string) (parseStream_names acc text)) as H.
  rewrite length_app, !length_map in H.
  unfold keyPair_t in *.
  match goal with
  | |- context [Nat.eqb ?a ?b] => destruct (Nat.eqb_spec a b) as [E|E]
  end.
  - split; [reflexivity|]. intros Hh. exfalso.
    destruct (flat_map header_name (getlines text)) as [|n ns];
      [now contradiction Hh|].
    simpl in H. rewrite E in H. clear -H.
    assert (H' : (List.length acc + 0 = List.length acc + S (List.length ns))%nat)
      by (rewrite Nat.add_0_r; exact H).
    apply Nat.add_cancel_l in H'. discriminate H'.
  - split; [|reflexivity]. intros Hh. exfalso. apply E.
    rewrite Hh in H. simpl in H. now rewrite Nat.add_0_r in H.
Qed.

(** X12: [iniHandler::open].  It succeeds exactly when the file can be read
    or the path can be written.  A file that is read is parsed onto the
    sections and the file system is left alone; [curSection] is as it was
    when the text has no header line with its closing bracket, and is lost
    when it has one, since the section appended invalidates it: lookups
    and insertions through it are then undefined until [setSection] is
    called.  Otherwise the sections and [curSection] stay, and a writable
    path is left holding an empty file, also when a file that could not be
    read was there before, while no other path is affected.  The file name
    is recorded and the changed flag kept in every case. *)
Theorem X12_open_reads_or_creates :
  forall (moved : stringPair_t -> stringPair_t)
         (i : iniHandler) (fs : filesys) (fName : string),
    let r := Ini.open i fs fName in
    let i' := fst (fst r) in
    let fs' := snd (fst r) in
    fileName i' = fName /\
    changed i' = changed i /\
    (snd r = true <->
     open_ifstream fs fName <> None \/ writable fs fName = true) /\
    (forall text, open_ifstream fs fName = Some text ->
        sections i' = Ini.parseStream (sections i) text /\ fs' = fs /\
        (flat_map header_name (getlines text) = [] ->
         curSection i' = curSection i) /\
        (flat_map header_name (getlines text) <> [] ->
         curSection i' = Singular /\
         forall key value,
           Ini.getValue i' key = None /\
           Ini.addValue i' key value = None /\
           Ini.removeValue moved i' key = None /\
           Ini.addSection i' key = None)) /\
    (open_ifstream fs fName = None ->
        sections i' = sections i /\
        curSection i' = curSection i /\
        (writable fs fName = false -> fs' = fs) /\
        (writable fs fName = true ->
           file fs' fName = Some "" /\
           forall q, q <> fName -> file fs' q = file fs q)) /\
    (forall text, file fs fName = Some text -> readable fs fName = false ->
        writable fs fName = true -> file fs' fName = Some "").
Proof.
  intros moved i fs fName. unfold Ini.open, Ini.tryOpen. cbv zeta.
  destruct (open_ifstream fs fName) as [text|] eqn:Eo; simpl.
  - split; [reflexivity|]. split; [reflexivity|].
    split; [split; [intros _; left; discriminate|reflexivity]|].
    split.
    { intros t [= <-].
      destruct (after_push_back_headers (sections i) text (curSection i))
        as [Hkeep Hlost].
      split; [reflexivity|]. split; [reflexivity|].
      split; [exact Hkeep|].
      intros Hh. specialize (Hlost Hh). split; [exact Hlost|].
      intros key value.
      unfold Ini.getValue, Ini.deref, Ini.addValue, Ini.removeValue,
        Ini.addSection.
      cbn [curSection]. rewrite Hlost. repeat split. }
    split; [discriminate|].
    intros t Hf Hr. unfold open_ifstream in Eo. rewrite Hr in Eo.
    discriminate.
  - destruct (writable fs fName) eqn:Ew; simpl.
    + split; [reflexivity|]. split; [reflexivity|].
      split; [split; [intros _; now right|reflexivity]|].
      split; [discriminate|].
      split.
      * intros _. split; [reflexivity|]. split; [reflexivity|].
        split; [discriminate|].
        intros _. split; [now rewrite String.eqb_refl|].
        intros q Hq. now destruct (String.eqb_spec q fName).
      * intros. now rewrite String.eqb_refl.
    + split; [reflexivity|]. split; [reflexivity|].
      split; [split; [discriminate|intros [H|H]; [now contradiction H|discriminate]]|].
      split; [discriminate|].
      split; [|discriminate].
      intros _. split; [reflexivity|]. split; [reflexivity|].
      split; [reflexivity|discriminate].
Qed.

(* ------------------------------------------------------------------ *)
(** ** One read *)

Lemma held_selected (i : iniHandler) (sect : keyPair_t) (key : string) :
  selected i sect -> held i key = first_value (snd sect) key.
Proof.
  intros H. unfold held. now rewrite (getValue_selected_first i sect key H).
Qed.

Lemma held_present (i : iniHandler) (key v : string) :
  Ini.getValue i key = Some (Some v) -> held i key = Some v.
Proof. intros H. unfold held. now rewrite H. Qed.

Lemma held_absent (i : iniHandler) (key : string) :
  Ini.getValue i key = Some None -> held i key = None.
Proof. intros H. unfold held. now rewrite H. Qed.

Lemma first_value_single (key k v : string) :
  first_value [(key, v)] k = if String.eqb k key then Some (c_str v) else None.
Proof.
  unfold first_value. simpl. unfold compare. simpl.
  now destruct (String.eqb k key).
Qed.

Section ReaderSteps.
Variable NDEBUG : bool.
Variable double : Type.
Variable parseDouble : string -> option double.
Variable parseInt : string -> option Z.
Variable parseBool : string -> option bool.

(** [readString] and [readKey] on any key of a selected section. *)
Lemma other_sections_kept_refl (i : iniHandler) : other_sections_kept i i.
Proof. now repeat split. Qed.

Lemma other_sections_kept_trans (a b c : iniHandler) :
  other_sections_kept a b -> other_sections_kept b c ->
  other_sections_kept a c.
Proof.
  intros (A1 & A2 & A3) (B1 & B2 & B3). repeat split.
  - now rewrite B1.
  - now rewrite B2.
  - intros j Hj. rewrite B3 by now rewrite A1. now apply A3.
Qed.

Lemma addValue_kept (i i' : iniHandler) (key value : string) :
  Ini.addValue i key value = Some i' -> other_sections_kept i i'.
Proof.
  unfold Ini.addValue.
  destruct (curSection i) as [|n] eqn:Ec; [discriminate|].
  destruct (nth_error (sections i) n) as [sect|]; [|discriminate].
  intros [= <-]. unfold other_sections_kept. simpl. rewrite Ec.
  split; [reflexivity|]. split; [apply set_keys_names|].
  intros j Hj. apply set_keys_other. congruence.
Qed.

Lemma addValue_valid (i i' : iniHandler) (key value : string) :
  valid_document (sections i) = true ->
  valid_entry (key, value) = true ->
  Ini.addValue i key value = Some i' ->
  valid_document (sections i') = true.
Proof.
  intros Hv He. unfold Ini.addValue.
  destruct (curSection i) as [|n]; [discriminate|].
  destruct (nth_error (sections i) n) as [sect|] eqn:En; [|discriminate].
  intros [= <-]. simpl.
  apply (valid_set_keys _ _ sect _ Hv En).
  pose proof (valid_nth _ _ _ Hv En) as Hs. unfold valid_section in Hs.
  apply andb_true_iff in Hs as [_ Hks].
  rewrite forallb_app, Hks. simpl. now rewrite He.
Qed.

Lemma touch_spec (st : state) (sect : keyPair_t) (key : string) :
  selected (ini st) sect ->
  exists st',
    readString NDEBUG key st = Some (string_field (held (ini st) key), st') /\
    readKey NDEBUG key st = Some (nonempty (held (ini st) key), st') /\
    read_step st st' key /\
    held (ini st') key = Some (string_field (held (ini st) key)).
Proof.
  intros Hs. destruct (getValue_selected _ _ key Hs) as [[v Hv]|[Hn Ha]].
  - exists st. rewrite (held_present _ _ _ Hv). simpl.
    split; [now apply readString_present|].
    split; [now apply readKey_present|].
    split; [|reflexivity].
    split; [|exists []; now rewrite app_nil_r].
    split; [now exists sect|]. split; [reflexivity|]. split; [reflexivity|].
    split; [now exists v|]. split; [reflexivity|]. split; [reflexivity|].
    split; [auto|]. split; [intros H; contradiction H; now exists v|].
    split; [apply other_sections_kept_refl|].
    split; [now rewrite (held_present _ _ _ Hv)|auto].
  - destruct (read_absent NDEBUG st sect key Hs Ha)
      as (st' & Hr & Hk & Hadd & Hs' & Hc & Hp).
    destruct (addValue_selected (ini st) sect key "" Hs)
      as (i2 & Hadd2 & _ & _ & Hf & _).
    rewrite Hadd in Hadd2. injection Hadd2 as <-.
    exists st'. rewrite (held_absent _ _ Hn). simpl.
    split; [exact Hr|]. split; [exact Hk|].
    assert (Hg : forall k, Ini.getValue (ini st') k
                           = Some (match first_value (snd sect) k with
                                   | Some v => Some v
                                   | None => if String.eqb k key
                                             then Some "" else None
                                   end)).
    { intros k. rewrite (getValue_selected_first _ _ k Hs'). simpl snd.
      now rewrite first_value_app, first_value_single. }
    assert (Hk0 : first_value (snd sect) key = None)
      by now apply first_value_absent.
    split; [split|].
    + split; [eexists; exact Hs'|]. split.
      { intros k Hne. rewrite Hg, (getValue_selected_first _ _ k Hs).
        destruct (first_value (snd sect) k); [reflexivity|].
        now destruct (String.eqb_spec k key). }
      split.
      { intros k [v Hv]. rewrite Hg.
        rewrite (getValue_selected_first _ _ k Hs) in Hv.
        injection Hv as Hv.
        now rewrite (getValue_selected_first _ _ k Hs), Hv. }
      split; [exists ""; now rewrite Hg, Hk0, String.eqb_refl|].
      split; [intros [v Hv]; rewrite Hn in Hv; discriminate|].
      split; [exact Hf|]. split; [intros _; exact Hc|].
      split; [intros _; exact Hc|].
      split; [exact (addValue_kept _ _ _ _ Hadd)|].
      split.
      { rewrite (held_absent _ _ Hn). unfold held.
        now rewrite Hg, Hk0, String.eqb_refl. }
      intros He Hv. exact (addValue_valid _ _ _ _ Hv He Hadd).
    + eexists. exact Hp.
    + unfold held. now rewrite Hg, Hk0, String.eqb_refl.
Qed.

Lemma read_step_print (st st' : state) (key : string) (l : line) :
  read_step st st' key ->
  read_step st {| ini := ini st'; printed := (printed st' ++ [l])%list |} key.
Proof.
  intros [Ht [out Ho]]. split; [exact Ht|]. simpl.
  exists (out ++ [l])%list. now rewrite Ho, app_assoc.
Qed.

Lemma readInt_step (st : state) (sect : keyPair_t) (key : string) (x : Z) :
  selected (ini st) sect ->
  exists st',
    readInt NDEBUG parseInt key x st
    = Some (int_field parseInt x (held (ini st) key), st') /\
    read_step st st' key.
Proof.
  intros Hs. destruct (touch_spec st sect key Hs) as (st' & _ & Hk & Ht & _).
  unfold readInt, int_field. rewrite (bind_some _ _ _ _ _ Hk).
  destruct (nonempty (held (ini st) key)) as [v|]; [|now exists st'].
  destruct (parseInt v) as [n|]; [now exists st'|].
  eexists. split; [reflexivity|]. now apply read_step_print.
Qed.

Lemma readBool_step (st : state) (sect : keyPair_t) (key : string) (x : bool) :
  selected (ini st) sect ->
  exists st',
    readBool NDEBUG parseBool key x st
    = Some (bool_field parseBool x (held (ini st) key), st') /\
    read_step st st' key.
Proof.
  intros Hs. destruct (touch_spec st sect key Hs) as (st' & _ & Hk & Ht & _).
  unfold readBool, bool_field. rewrite (bind_some _ _ _ _ _ Hk).
  destruct (nonempty (held (ini st) key)) as [v|]; [|now exists st'].
  destruct (parseBool v) as [n|]; [now exists st'|].
  eexists. split; [reflexivity|]. now apply read_step_print.
Qed.

Lemma readDouble_step (st : state) (sect : keyPair_t) (key : string)
      (x : double) :
  selected (ini st) sect ->
  exists st',
    readDouble NDEBUG double parseDouble key x st
    = Some (double_field double parseDouble x (held (ini st) key), st') /\
    read_step st st' key.
Proof.
  intros Hs. destruct (touch_spec st sect key Hs) as (st' & _ & Hk & Ht & _).
  unfold readDouble, double_field. rewrite (bind_some _ _ _ _ _ Hk).
  destruct (nonempty (held (ini st) key)) as [v|]; [|now exists st'].
  destruct (parseDouble v) as [n|]; [now exists st'|].
  eexists. split; [reflexivity|]. now apply read_step_print.
Qed.

Lemma readString_step (st : state) (sect : keyPair_t) (key : string) :
  selected (ini st) sect ->
  exists st',
    readString NDEBUG key st = Some (string_field (held (ini st) key), st') /\
    read_step st st' key.
Proof.
  intros Hs. destruct (touch_spec st sect key Hs) as (st' & Hr & _ & Ht & _).
  now exists st'.
Qed.

Lemma nonempty_string_field (o : option string) :
  nonempty o = if empty (string_field o) then None else Some (string_field o).
Proof. destruct o as [v|]; reflexivity. Qed.

Lemma readTime_step (st : state) (sect : keyPair_t) (key : string)
      (o : option string) :
  selected (ini st) sect -> held (ini st) key = o ->
  exists b st',
    (forall x, readTime NDEBUG parseInt key x st
               = Some ((b, time_field parseInt x o), st')) /\
    (forall x y, (if b then time_field parseInt x o else y)
                 = time_field parseInt y o) /\
    read_step st st' key.
Proof.
  intros Hs <-.
  destruct (touch_spec st sect key Hs) as (st' & Hr & _ & Ht & _).
  unfold readTime, time_field.
  rewrite nonempty_string_field.
  destruct (empty (string_field (held (ini st) key))) eqn:Ee.
  { exists false, st'. split; [|now split].
    intros x. now rewrite (bind_some _ _ _ _ _ Hr), Ee. }
  destruct (readTime_try parseInt (string_field (held (ini st) key)))
    as [[t ms]| |] eqn:Et.
  - exists true, st'. split; [|now split].
    intros x. now rewrite (bind_some _ _ _ _ _ Hr), Ee, Et.
  - exists false. eexists. split; [|split; [reflexivity|]].
    + intros x. rewrite (bind_some _ _ _ _ _ Hr), Ee, Et. reflexivity.
    + now apply read_step_print.
  - exists false. eexists. split; [|split; [reflexivity|]].
    + intros x. rewrite (bind_some _ _ _ _ _ Hr), Ee, Et. reflexivity.
    + now apply read_step_print.
Qed.

Lemma readColor_step (st : state) (sect : keyPair_t) (key : string)
      (x : color_t) :
  selected (ini st) sect ->
  exists b st',
    readColor NDEBUG key x st
    = Some ((b, color_field x (held (ini st) key)), st') /\
    read_step st st' key.
Proof.
  intros Hs. destruct (touch_spec st sect key Hs) as (st' & Hr & _ & Ht & _).
  unfold readColor, color_field. rewrite (bind_some _ _ _ _ _ Hr).
  rewrite nonempty_string_field.
  destruct (empty (string_field (held (ini st) key)));
    [now exists false, st'|].
  destruct (color_loop (string_field (held (ini st) key)) 0 colorStrings).
  - now exists true, st'.
  - now exists false, st'.
Qed.

End ReaderSteps.

(* ------------------------------------------------------------------ *)
(** ** Sequences of reads *)

Lemma reads_from_start (st : state) (sect : keyPair_t) :
  selected (ini st) sect -> reads_from st st [].
Proof.
  intros Hs. unfold reads_from.
  split; [now exists sect|]. split; [reflexivity|]. split; [reflexivity|].
  split; [intros k []|]. split; [reflexivity|]. split; [reflexivity|].
  split; [auto|]. split; [exists []; now rewrite app_nil_r|].
  split; [intros k []|]. split; [apply other_sections_kept_refl|].
  split; [intros k []|auto].
Qed.

Lemma reads_from_step (st1 st st' : state) (key : string) (ts : list string) :
  reads_from st1 st ts -> read_step st st' key ->
  reads_from st1 st' (ts ++ [key])%list.
Proof.
  intros (R1 & R2 & R3 & R4 & R5 & R6 & R7 & [o1 R8] & R9 & R10 & R11 & R12)
         ((T1 & T2 & T3 & T4 & T5 & T6 & T7 & T9 & T10 & T11 & T12)
          & [o2 T8]).
  unfold reads_from.
  split; [exact T1|]. split.
  { intros k Hk. rewrite T2, R2; auto.
    - intros Hin. apply Hk, in_or_app. now left.
    - intros ->. apply Hk, in_or_app. right. now left. }
  split.
  { intros k Hk. rewrite T3; [now apply R3|].
    destruct Hk as [v Hv]. exists v. now rewrite R3 by now exists v. }
  split.
  { intros k Hk. apply in_app_or in Hk as [Hk|[<-|[]]]; [|exact T4].
    destruct (R4 k Hk) as [v Hv]. exists v. rewrite T3; [exact Hv|].
    now exists v. }
  split.
  { intros Hall.
    assert (E : ini st = ini st1).
    { apply R5. intros k Hk. apply Hall, in_or_app. now left. }
    rewrite <- E. apply T5. rewrite E. apply Hall, in_or_app. right.
    now left. }
  split; [now rewrite T6|]. split; [auto|].
  split; [exists (o1 ++ o2)%list; now rewrite T8, R8, app_assoc|].
  split.
  { intros k Hk Hn. apply in_app_or in Hk as [Hk|[<-|[]]].
    - apply T7. exact (R9 k Hk Hn).
    - destruct (in_dec string_dec key ts) as [Hin|Hout].
      + apply T7. exact (R9 key Hin Hn).
      + apply T9. intros [v Hv]. apply Hn. exists v.
        now rewrite <- (R2 key Hout). }
  split; [exact (other_sections_kept_trans _ _ _ R10 T10)|].
  split.
  { intros k Hk. apply in_app_or in Hk as [Hk|[<-|[]]].
    - rewrite <- (R11 k Hk). unfold held. rewrite T3; [reflexivity|].
      exact (R4 k Hk).
    - rewrite T11. destruct (in_dec string_dec key ts) as [Hin|Hout].
      + now rewrite (R11 key Hin).
      + unfold held at 1. now rewrite (R2 key Hout). }
  intros Hall Hv. apply Forall_app in Hall as [Hts Hkey].
  apply T12; [now inversion Hkey|]. now apply R12.
Qed.

Lemma reads_from_held (st1 st : state) (ts : list string) (key : string) :
  reads_from st1 st ts -> existsb (String.eqb key) ts = false ->
  held (ini st) key = held (ini st1) key.
Proof.
  intros (_ & R2 & _) Hk. unfold held. rewrite R2; [reflexivity|].
  intros Hin.
  assert (existsb (String.eqb key) ts = true) as E; [|congruence].
  apply existsb_exists. exists key. split; [exact Hin|apply String.eqb_refl].
Qed.

(** One more read in a sequence: [step_read] takes the step lemma of the
    reader applied to its arguments but the state and section. *)
Ltac next_state k :=
  match goal with
  | Hr : reads_from ?st1 ?st ?ts |- _ =>
      let sect := fresh "sect" in
      let Hsel := fresh "Hsel" in
      destruct (proj1 Hr) as [sect Hsel]; k Hr st sect Hsel
  end.

Ltac finish_step Hr Hrun Hstep key :=
  try rewrite (reads_from_held _ _ _ key Hr eq_refl) in Hrun;
  apply (reads_from_step _ _ _ key _ Hr) in Hstep;
  clear Hr; simpl app in Hstep.

Ltac run_one :=
  match goal with
  | H : ?c = Some _ |- ?c = _ => exact H
  | H : forall x, ?f x ?st = Some _ |- ?f _ ?st = _ => apply H
  end.

Ltac run_reads :=
  repeat lazymatch goal with
         | |- bind (bind ?a ?f) ?k ?st = _ =>
             erewrite (bind_some (bind a f) k st);
             [|erewrite (bind_some a f st); [|run_one];
               cbv beta; first [run_one|reflexivity]]
         | |- bind (ret ?x) ?k ?st = _ =>
             erewrite (bind_some (ret x) k st); [|reflexivity]
         | |- bind ?c ?k ?st = _ =>
             erewrite (bind_some c k st); [|run_one]
         end.

Lemma selectSection_bind {A : Type} (name : string) (k : M A) (st : state) :
  (found <- ini_setSection name ;;
   (if negb found then ini_addSection name else ret tt) ;;; k) st
  = (selectSection name ;;; k) st.
Proof.
  unfold selectSection, bind.
  now destruct (ini_setSection name st) as [[found st0]|].
Qed.

Lemma empty_true (s : string) : empty s = true -> s = "".
Proof.
  destruct s as [|c r]; [reflexivity|discriminate].
Qed.

Section GroupFacts.
Variable NDEBUG : bool.
Variable double : Type.
Variable parseDouble : string -> option double.
Variable parseInt : string -> option Z.
Variable parseBool : string -> option bool.
Variable getenv : string -> option string.
Variable is_regular_file : string -> option bool.
Variable exists_no_error : string -> bool.
Variable read_permissions : string -> bool * bool * bool.
Variable moved : stringPair_t -> stringPair_t.

Ltac read_int key x :=
  next_state ltac:(fun Hr st sect Hsel =>
    let st' := fresh "st" in
    let Hrun := fresh "Hrun" in
    let Hstep := fresh "Hr" in
    destruct (readInt_step NDEBUG parseInt st sect key x Hsel)
      as (st' & Hrun & Hstep);
    clear sect Hsel; finish_step Hr Hrun Hstep key).

Ltac read_bool key x :=
  next_state ltac:(fun Hr st sect Hsel =>
    let st' := fresh "st" in
    let Hrun := fresh "Hrun" in
    let Hstep := fresh "Hr" in
    destruct (readBool_step NDEBUG parseBool st sect key x Hsel)
      as (st' & Hrun & Hstep);
    clear sect Hsel; finish_step Hr Hrun Hstep key).

Ltac read_double key x :=
  next_state ltac:(fun Hr st sect Hsel =>
    let st' := fresh "st" in
    let Hrun := fresh "Hrun" in
    let Hstep := fresh "Hr" in
    destruct (readDouble_step NDEBUG double parseDouble st sect key x Hsel)
      as (st' & Hrun & Hstep);
    clear sect Hsel; finish_step Hr Hrun Hstep key).

Ltac read_string key :=
  next_state ltac:(fun Hr st sect Hsel =>
    let st' := fresh "st" in
    let Hrun := fresh "Hrun" in
    let Hstep := fresh "Hr" in
    destruct (readString_step NDEBUG st sect key Hsel)
      as (st' & Hrun & Hstep);
    clear sect Hsel; finish_step Hr Hrun Hstep key).

Ltac read_time key :=
  match goal with
  | Hr : reads_from ?st1 ?st ?ts |- _ =>
      let sect := fresh "sect" in
      let Hsel := fresh "Hsel" in
      let st' := fresh "st" in
      let b := fresh "b" in
      let Hrun := fresh "Hrun" in
      let Hif := fresh "Hif" in
      let Hstep := fresh "Hr" in
      destruct (proj1 Hr) as [sect Hsel];
      destruct (readTime_step NDEBUG parseInt st sect key _ Hsel
                  (reads_from_held _ _ _ key Hr eq_refl))
        as (b & st' & Hrun & Hif & Hstep);
      clear sect Hsel;
      apply (reads_from_step _ _ _ key _ Hr) in Hstep;
      clear Hr; simpl app in Hstep
  end.

Ltac read_color key x :=
  next_state ltac:(fun Hr st sect Hsel =>
    let st' := fresh "st" in
    let b := fresh "b" in
    let Hrun := fresh "Hrun" in
    let Hstep := fresh "Hr" in
    destruct (readColor_step NDEBUG st sect key x Hsel)
      as (b & st' & Hrun & Hstep);
    clear sect Hsel; finish_step Hr Hrun Hstep key).

(** X13: [readAudio].  It always returns.  Each of the four fields is
    what [readInt] makes of the value its own key holds in the Audio
    section as it is selected (the first section of that name, or a new
    empty one): the parsed integer, or the field as it was when the key is
    missing, empty or unparsable.  Afterwards the section holds all four
    keys, entries that were there keep their values, and a section that
    held the four keys already leaves the handler as it was selected. *)
Theorem X13_readAudio_reads_each_field_from_its_key :
  forall (st : state) (audio_s : audio_section),
  exists st1 st',
    selectSection "Audio" st = Some (tt, st1) /\
    readAudio NDEBUG parseInt audio_s st
    = Some ({| frequency := int_field parseInt (frequency audio_s)
                                      (held (ini st1) "Frequency");
               channels := int_field parseInt (channels audio_s)
                                     (held (ini st1) "Channels");
               precision := int_field parseInt (precision audio_s)
                                      (held (ini st1) "BitsPerSample");
               bufLength := int_field parseInt (bufLength audio_s)
                                      (held (ini st1) "BufferLength") |},
            st') /\
    reads_from st1 st'
               ["Frequency"; "Channels"; "BitsPerSample"; "BufferLength"].
Proof.
  intros st audio_s.
  destruct (selectSection_total st "Audio") as (st1 & sect & Hsel & Hs).
  pose proof (reads_from_start st1 sect Hs) as Hr.
  read_int "Frequency" (frequency audio_s).
  read_int "Channels" (channels audio_s).
  read_int "BitsPerSample" (precision audio_s).
  read_int "BufferLength" (bufLength audio_s).
  exists st1. eexists. split; [exact Hsel|]. split; [|eassumption].
  unfold readAudio. run_reads. reflexivity.
Qed.

(** X14: [readConsole].  It always returns, and each field comes from its
    own key of the Console section as selected: [ansi] through [readBool],
    the nine colours through the table of [readColor], and the eight border
    glyphs are the plain ones exactly when the ASCII key yields true, the
    previous ones otherwise.  All eleven keys are held afterwards. *)
Theorem X14_readConsole_reads_each_field_from_its_key :
  forall (st : state) (ascii0 : bool) (console_s : console_section),
  exists st1 st',
    selectSection "Console" st = Some (tt, st1) /\
    readConsole NDEBUG parseBool ascii0 console_s st
    = Some
        (let ascii := bool_field parseBool ascii0 (held (ini st1) "ASCII") in
         let glyph (plain : string) (current : console_section -> string) :=
           if ascii then plain else current console_s in
         let color (current : console_section -> color_t) (key : string) :=
           color_field (current console_s) (held (ini st1) key) in
         {| ansi := bool_field parseBool (ansi console_s)
                               (held (ini st1) "Ansi");
            topLeft := glyph "+" topLeft;
            topRight := glyph "+" topRight;
            bottomLeft := glyph "+" bottomLeft;
            bottomRight := glyph "+" bottomRight;
            vertical := glyph "|" vertical;
            horizontal := glyph "-" horizontal;
            junctionLeft := glyph "+" junctionLeft;
            junctionRight := glyph "+" junctionRight;
            decorations := color decorations "Color Decorations";
            title := color title "Color Title";
            label_core := color label_core "Color Label Core";
            text_core := color text_core "Color Text Core";
            label_extra := color label_extra "Color Label Extra";
            text_extra := color text_extra "Color Text Extra";
            notes := color notes "Color Notes";
            control_on := color control_on "Color Control On";
            control_off := color control_off "Color Control Off" |},
         st') /\
    reads_from st1 st'
               ["ASCII"; "Ansi"; "Color Decorations"; "Color Title";
                "Color Label Core"; "Color Text Core"; "Color Label Extra";
                "Color Text Extra"; "Color Notes"; "Color Control On";
                "Color Control Off"].
Proof.
  intros st ascii0 console_s.
  destruct (selectSection_total st "Console") as (st1 & sect & Hsel & Hs).
  pose proof (reads_from_start st1 sect Hs) as Hr.
  read_bool "ASCII" ascii0.
  read_bool "Ansi" (ansi console_s).
  read_color "Color Decorations" (decorations console_s).
  read_color "Color Title" (title console_s).
  read_color "Color Label Core" (label_core console_s).
  read_color "Color Text Core" (text_core console_s).
  read_color "Color Label Extra" (label_extra console_s).
  read_color "Color Text Extra" (text_extra console_s).
  read_color "Color Notes" (notes console_s).
  read_color "Color Control On" (control_on console_s).
  read_color "Color Control Off" (control_off console_s).
  exists st1. eexists. split; [exact Hsel|]. split; [|eassumption].
  unfold readConsole. rewrite selectSection_bind. run_reads. reflexivity.
Qed.

(** X15: [readSidplay2].  The version is replaced only by a value above
    zero.  A database path that is configured is taken as it is; when the
    key is missing or empty the default path is examined, and if that
    raises an exception the function is left with only Version and
    Songlength Database read, the other fields as they were.  Otherwise
    every field comes from its own key of the SIDPlayfp section as
    selected, the two lengths keep their previous value when [readTime]
    reports no time, and nothing depends on the content of the
    uninitialised local [time]. *)
Theorem X15_readSidplay2_reads_each_field_from_its_key :
  forall (st : state) (sidplay2_s : sidplay2_section),
  exists st1 st' r,
    selectSection "SIDPlayfp" st = Some (tt, st1) /\
    (forall time0,
        readSidplay2 NDEBUG parseInt getenv is_regular_file exists_no_error
                     read_permissions time0 sidplay2_s st = Some (r, st')) /\
    let v := int_field parseInt (version sidplay2_s)
                       (held (ini st1) "Version") in
    let version' := if v >? 0 then v else version sidplay2_s in
    let configured := string_field (held (ini st1) "Songlength Database") in
    match (if empty configured
           then default_database getenv is_regular_file exists_no_error
                                 read_permissions
           else Some configured) with
    | None =>
        r = Escaped {| version := version';
                       database := "";
                       playLength := playLength sidplay2_s;
                       recordLength := recordLength sidplay2_s;
                       kernalRom := kernalRom sidplay2_s;
                       basicRom := basicRom sidplay2_s;
                       chargenRom := chargenRom sidplay2_s;
                       verboseLevel := verboseLevel sidplay2_s |} /\
        reads_from st1 st' ["Version"; "Songlength Database"]
    | Some path =>
        r = Returned
              {| version := version';
                 database := path;
                 playLength := time_field parseInt (playLength sidplay2_s)
                                 (held (ini st1) "Default Play Length");
                 recordLength := time_field parseInt (recordLength sidplay2_s)
                                   (held (ini st1) "Default Record Length");
                 kernalRom := string_field (held (ini st1) "Kernal Rom");
                 basicRom := string_field (held (ini st1) "Basic Rom");
                 chargenRom := string_field (held (ini st1) "Chargen Rom");
                 verboseLevel := int_field parseInt (verboseLevel sidplay2_s)
                                   (held (ini st1) "VerboseLevel") |} /\
        reads_from st1 st'
                   ["Version"; "Songlength Database"; "Default Play Length";
                    "Default Record Length"; "Kernal Rom"; "Basic Rom";
                    "Chargen Rom"; "VerboseLevel"]
    end.
Proof.
  intros st sidplay2_s.
  destruct (selectSection_total st "SIDPlayfp") as (st1 & sect & Hsel & Hs).
  pose proof (reads_from_start st1 sect Hs) as Hr.
  read_int "Version" (version sidplay2_s).
  read_string "Songlength Database".
  cbv zeta.
  destruct (if empty (string_field (held (ini st1) "Songlength Database"))
            then default_database getenv is_regular_file exists_no_error
                                  read_permissions
            else Some (string_field (held (ini st1) "Songlength Database")))
    as [path|] eqn:Edb.
  - read_time "Default Play Length".
    read_time "Default Record Length".
    read_string "Kernal Rom".
    read_string "Basic Rom".
    read_string "Chargen Rom".
    read_int "VerboseLevel" (verboseLevel sidplay2_s).
    exists st1. eexists. eexists. split; [exact Hsel|].
    split; [|rewrite Edb; split; [reflexivity|eassumption]].
    intros time0. unfold readSidplay2. run_reads. cbv zeta. rewrite Edb.
    run_reads. unfold ret. cbn [fst snd]. rewrite Hif, Hif0. reflexivity.
  - exists st1. eexists. eexists. split; [exact Hsel|].
    split; [|rewrite Edb; split; [reflexivity|eassumption]].
    intros time0. unfold readSidplay2. run_reads. cbv zeta. rewrite Edb.
    unfold ret. cbn [version database playLength recordLength kernalRom
                     basicRom chargenRom verboseLevel].
    destruct (empty (string_field (held (ini st1) "Songlength Database")))
      eqn:Ee; [|discriminate Edb].
    now rewrite (empty_true _ Ee).
Qed.

(** Without a non-empty value under the old key the renaming block does
    nothing. *)
Lemma renameFilterRange_none (st : state) (sect : keyPair_t) :
  selected (ini st) sect ->
  nonempty (held (ini st) "filterRange6581") = None ->
  renameFilterRange moved st = Some (tt, st).
Proof.
  intros Hs Hn. unfold renameFilterRange.
  pose proof (getValue_selected_first (ini st) sect "filterRange6581" Hs) as Hg.
  rewrite (bind_some _ _ _ _ _ (ini_getValue_some _ _ _ Hg)).
  rewrite (held_selected _ _ _ Hs) in Hn.
  destruct (first_value (snd sect) "filterRange6581") as [v|]; [|reflexivity].
  simpl in Hn. destruct (empty v); [reflexivity|discriminate].
Qed.

Ltac rename_nothing Hold :=
  match goal with
  | Hr : reads_from ?st1 ?st ?ts |- _ =>
      let sect := fresh "sect" in
      let Hsel := fresh "Hsel" in
      let Hren := fresh "Hren" in
      destruct (proj1 Hr) as [sect Hsel];
      assert (Hren : renameFilterRange moved st = Some (tt, st))
        by (apply (renameFilterRange_none st sect Hsel);
            rewrite (reads_from_held _ _ _ "filterRange6581" Hr eq_refl);
            exact Hold);
      clear sect Hsel
  end.

(** X16: [readEmulation], when the old key [filterRange6581] holds no
    non-empty value or the library has no filter range.  It returns, and
    each field comes from its own key of the Emulation section as selected:
    the engine as a string, the models, the combined waveforms strength and
    the sampling method through their lists of names (any other name leaves
    the field), the flags through [readBool], the filter parameters
    through [readDouble] and the power-on delay through [readInt].  The
    filter range and the waveforms strength are read only where the
    library has the feature.  All keys read are held afterwards. *)
Theorem X16_readEmulation_reads_each_field_from_its_key :
  forall (FEAT_FILTER_RANGE FEAT_CW_STRENGTH : bool)
         (st st1 : state) (emulation_s : emulation_section double),
    selectSection "Emulation" st = Some (tt, st1) ->
    (FEAT_FILTER_RANGE = true ->
     nonempty (held (ini st1) "filterRange6581") = None) ->
    exists st',
      readEmulation NDEBUG double parseDouble parseInt parseBool
                    FEAT_FILTER_RANGE FEAT_CW_STRENGTH moved emulation_s st
      = Some
          (let flag (current : emulation_section double -> bool)
                    (key : string) :=
             bool_field parseBool (current emulation_s) (held (ini st1) key) in
           let real (current : emulation_section double -> double)
                    (key : string) :=
             double_field double parseDouble (current emulation_s)
                          (held (ini st1) key) in
           {| engine := string_field (held (ini st1) "Engine");
              modelDefault := c64_model_field (modelDefault double emulation_s)
                                              (held (ini st1) "C64Model");
              modelForced := flag (modelForced double) "ForceC64Model";
              digiboost := flag (digiboost double) "DigiBoost";
              ciaModel := cia_model_field (ciaModel double emulation_s)
                                          (held (ini st1) "CiaModel");
              sidModel := sid_model_field (sidModel double emulation_s)
                                          (held (ini st1) "SidModel");
              forceModel := flag (forceModel double) "ForceSidModel";
              filter := flag (filter double) "UseFilter";
              bias := real (bias double) "FilterBias";
              filterCurve6581 := real (filterCurve6581 double) "FilterCurve6581";
              filterRange6581 :=
                if FEAT_FILTER_RANGE
                then real (filterRange6581 double) "FilterRange6581"
                else filterRange6581 double emulation_s;
              filterCurve8580 := real (filterCurve8580 double) "FilterCurve8580";
              combinedWaveformsStrength :=
                if FEAT_CW_STRENGTH
                then cw_field (combinedWaveformsStrength double emulation_s)
                              (held (ini st1) "CombinedWaveforms")
                else combinedWaveformsStrength double emulation_s;
              powerOnDelay := int_field parseInt (powerOnDelay double emulation_s)
                                        (held (ini st1) "PowerOnDelay");
              samplingMethod := sampling_field (samplingMethod double emulation_s)
                                               (held (ini st1) "Sampling");
              fastSampling := flag (fastSampling double) "ResidFastSampling" |},
           st') /\
      reads_from st1 st' (emulation_keys FEAT_FILTER_RANGE FEAT_CW_STRENGTH).
Proof.
  intros FR CW st st1 emulation_s Hsel Hold.
  destruct (selectSection_total st "Emulation") as (st1' & sect & Hsel' & Hs).
  rewrite Hsel in Hsel'. injection Hsel' as <-.
  pose proof (reads_from_start st1 sect Hs) as Hr.
  read_string "Engine".
  read_string "C64Model".
  read_bool "ForceC64Model" (modelForced double emulation_s).
  read_bool "DigiBoost" (digiboost double emulation_s).
  read_string "CiaModel".
  read_string "SidModel".
  read_bool "ForceSidModel" (forceModel double emulation_s).
  read_bool "UseFilter" (filter double emulation_s).
  read_double "FilterBias" (bias double emulation_s).
  read_double "FilterCurve6581" (filterCurve6581 double emulation_s).
  destruct FR.
  - rename_nothing (Hold eq_refl).
    read_double "FilterRange6581" (filterRange6581 double emulation_s).
    read_double "FilterCurve8580" (filterCurve8580 double emulation_s).
    destruct CW.
    + read_string "CombinedWaveforms".
      read_int "PowerOnDelay" (powerOnDelay double emulation_s).
      read_string "Sampling".
      read_bool "ResidFastSampling" (fastSampling double emulation_s).
      eexists. split; [|eassumption].
      unfold readEmulation. run_reads. reflexivity.
    + read_int "PowerOnDelay" (powerOnDelay double emulation_s).
      read_string "Sampling".
      read_bool "ResidFastSampling" (fastSampling double emulation_s).
      eexists. split; [|eassumption].
      unfold readEmulation. run_reads. reflexivity.
  - read_double "FilterCurve8580" (filterCurve8580 double emulation_s).
    destruct CW.
    + read_string "CombinedWaveforms".
      read_int "PowerOnDelay" (powerOnDelay double emulation_s).
      read_string "Sampling".
      read_bool "ResidFastSampling" (fastSampling double emulation_s).
      eexists. split; [|eassumption].
      unfold readEmulation. run_reads. reflexivity.
    + read_int "PowerOnDelay" (powerOnDelay double emulation_s).
      read_string "Sampling".
      read_bool "ResidFastSampling" (fastSampling double emulation_s).
      eexists. split; [|eassumption].
      unfold readEmulation. run_reads. reflexivity.
Qed.

Lemma c_str_idem (s : string) : c_str (c_str s) = c_str s.
Proof.
  induction s as [|a r IH]; [reflexivity|]. simpl.
  destruct (Ascii.eqb a zero) eqn:E; [reflexivity|]. simpl.
  now rewrite E, IH.
Qed.

Lemma absent_app (key name : string) (a b : keys_t) :
  absent key (name, a) -> absent key (name, b) ->
  absent key (name, (a ++ b)%list).
Proof.
  unfold absent. simpl. intros Ha Hb v Hin.
  apply in_app_or in Hin as [H|H]; [exact (Ha v H)|exact (Hb v H)].
Qed.

(** X17: the renaming block of [readEmulation].  When the selected section
    holds the old key [filterRange6581] once, with a value that is not
    empty as a C string, the block appends that value under
    [FilterRange6581] and removes the old entry, the other entries keeping
    their order, and sets the changed flag.  The old key is no longer held;
    a [FilterRange6581] entry that was there before still comes first, so
    its value is the one read and the old value only follows it. *)
Theorem X17_renameFilterRange_moves_old_value :
  forall (st : state) (name v : string) (pre post : keys_t),
    selected (ini st) (name, (pre ++ ("filterRange6581", v) :: post)%list) ->
    absent "filterRange6581" (name, pre) ->
    absent "filterRange6581" (name, post) ->
    empty (c_str v) = false ->
    exists st',
      renameFilterRange moved st = Some (tt, st') /\
      selected (ini st')
               (name, (pre ++ post ++ [("FilterRange6581", c_str v)])%list) /\
      changed (ini st') = true /\
      printed st' = printed st /\
      held (ini st') "filterRange6581" = None /\
      held (ini st') "FilterRange6581"
      = Some (match first_value (pre ++ post)%list "FilterRange6581" with
              | Some w => w
              | None => c_str v
              end).
Proof.
  intros st name v pre post Hs Hpre Hpost Hv.
  assert (Hg : Ini.getValue (ini st) "filterRange6581" = Some (Some (c_str v))).
  { rewrite (getValue_selected_first _ _ _ Hs). simpl snd.
    rewrite first_value_app.
    pose proof (proj1 (first_value_absent (name, pre) _) Hpre) as E.
    simpl snd in E. rewrite E.
    unfold first_value. simpl. reflexivity. }
  destruct (addValue_selected (ini st) _ "FilterRange6581" (c_str v) Hs)
    as (i1 & Hadd & Hs1 & _).
  simpl fst in Hs1. simpl snd in Hs1. rewrite <- app_assoc in Hs1.
  simpl app in Hs1.
  assert (Hpost' : absent "filterRange6581"
                          (name, (post ++ [("FilterRange6581", c_str v)])%list)).
  { apply absent_app; [exact Hpost|]. intros w [H|[]]. discriminate H. }
  destruct (removeValue_single moved i1 name "filterRange6581" v pre _
              Hs1 Hpre Hpost') as (i2 & Hrem & Hs2 & Hc2).
  exists {| ini := i2; printed := printed st |}.
  split.
  { unfold renameFilterRange.
    rewrite (bind_some _ _ _ _ _ (ini_getValue_some _ _ _ Hg)), Hv.
    unfold bind, ini_addValue, ini_removeValue, ini_update.
    cbn [negb]. cbv beta. rewrite Hadd. cbn [ini]. rewrite Hrem.
    reflexivity. }
  split; [exact Hs2|]. split; [exact Hc2|]. split; [reflexivity|].
  simpl ini. rewrite !(held_selected _ _ _ Hs2). simpl snd.
  assert (Hall : first_value (pre ++ post)%list "filterRange6581" = None).
  { exact (proj1 (first_value_absent (name, (pre ++ post)%list) _)
                 (absent_app _ _ _ _ Hpre Hpost)). }
  split.
  - rewrite app_assoc, first_value_app, Hall. now rewrite first_value_single.
  - rewrite app_assoc, first_value_app.
    destruct (first_value (pre ++ post)%list "FilterRange6581");
      [reflexivity|].
    rewrite first_value_single. simpl. now rewrite c_str_idem.
Qed.

End GroupFacts.

(* ------------------------------------------------------------------ *)
(** ** [removeValue] on any number of matching entries *)


Lemma first_value_filter (keys : keys_t) (key k : string) :
  k <> key ->
  first_value (List.filter (fun kv => negb (compare key kv)) keys) k
  = first_value keys k.
Proof.
  intros Hne. induction keys as [|[k0 v0] r IH]; [reflexivity|].
  change ((k0, v0) :: r) with ([(k0, v0)] ++ r)%list.
  rewrite filter_app, !first_value_app, IH. simpl List.filter.
  unfold compare at 1. simpl fst.
  destruct (String.eqb_spec key k0) as [->|Hk]; simpl.
  - rewrite first_value_single.
    destruct (String.eqb_spec k k0); [contradiction|reflexivity].
  - reflexivity.
Qed.

Lemma first_value_none_filter (keys : keys_t) (key : string) :
  first_value (List.filter (fun kv => negb (compare key kv)) keys) key = None.
Proof.
  induction keys as [|[k0 v0] r IH]; [reflexivity|]. simpl.
  unfold compare at 1. simpl fst.
  destruct (String.eqb_spec key k0) as [->|Hk]; simpl; [exact IH|].
  change ((k0, v0) :: List.filter (fun kv => negb (compare key kv)) r)
    with ([(k0, v0)]
          ++ List.filter (fun kv : stringPair_t => negb (compare key kv)) r)%list.
  rewrite first_value_app, first_value_single.
  destruct (String.eqb_spec key k0); [contradiction|exact IH].
Qed.

(** X18: [removeValue] when the selected section holds the key.  The call
    is defined, sets the changed flag and shortens the section by exactly
    one slot: the entries with other keys stay in front, in their order,
    followed by one slot less than there were entries with the key.  So a
    key held once is gone afterwards, and lookups of other keys that were
    held give what they gave before. *)
Theorem X18_removeValue_drops_one_slot :
  forall (moved : stringPair_t -> stringPair_t) (i : iniHandler)
         (sect : keyPair_t) (key : string),
    selected i sect ->
    present i key ->
    let kept := List.filter (fun kv => negb (compare key kv)) (snd sect) in
    let matching := List.filter (compare key) (snd sect) in
    exists i' rest,
      Ini.removeValue moved i key = Some i' /\
      selected i' (fst sect, (kept ++ rest)%list) /\
      S (List.length rest) = List.length matching /\
      changed i' = true /\
      curSection i' = curSection i /\
      fileName i' = fileName i /\
      (List.length matching = 1%nat -> held i' key = None) /\
      (forall k, k <> key -> present i k ->
                 Ini.getValue i' k = Ini.getValue i k).
Proof.
  intros moved i sect key Hs [v Hv] kept matching.
  assert (Hex : existsb (compare key) (snd sect) = true).
  { rewrite (getValue_selected_first _ _ _ Hs) in Hv. injection Hv as Hv.
    unfold first_value in Hv.
    destruct (nth_error (snd sect) (find_if (compare key) (snd sect)))
      as [kv|] eqn:E; [|discriminate].
    apply existsb_exists. exists kv. split.
    - now apply nth_error_In in E.
    - now apply find_if_some in E. }
  destruct (remove_erase_general moved (compare key) (snd sect) Hex)
    as (rest & Her & Hlen).
  pose proof Hs as Hs0.
  unfold selected, Ini.deref in Hs. unfold Ini.removeValue.
  destruct (curSection i) as [|n] eqn:Ec; [discriminate|].
  rewrite Hs.
  destruct (Ini.remove_if moved (compare key) (snd sect)) as [section it].
  simpl in Her. rewrite Her.
  eexists. exists rest. split; [reflexivity|].
  assert (Hs' : selected (Ini.with_keys i n (kept ++ rest)%list true)
                         (fst sect, (kept ++ rest)%list)).
  { unfold selected, Ini.deref, Ini.with_keys. simpl. rewrite Ec.
    now apply nth_error_set_keys. }
  split; [exact Hs'|]. split; [exact Hlen|]. split; [reflexivity|].
  split; [simpl; now rewrite Ec|]. split; [reflexivity|]. split.
  - intros H1.
    assert (H2 : S (List.length rest) = 1%nat)
      by (etransitivity; [exact Hlen|exact H1]).
    destruct rest; [|discriminate H2].
    rewrite (held_selected _ _ _ Hs'). simpl snd. rewrite app_nil_r.
    apply first_value_none_filter.
  - intros k Hne [w Hw].
    rewrite (getValue_selected_first _ _ _ Hs0) in Hw |- *.
    rewrite (getValue_selected_first _ _ _ Hs'). simpl snd.
    rewrite first_value_app. unfold kept. rewrite first_value_filter by exact Hne.
    injection Hw as Hw. now rewrite Hw.
Qed.

(* ------------------------------------------------------------------ *)
(** ** Paths from the environment *)

Lemma append_empty_l (s : string) : "" ++ s = s.
Proof. reflexivity. Qed.

(** X19: [utils::getPath].  The variable named by [id] wins whenever it is
    set, whatever it holds, and the default is not appended to it;
    otherwise the result is the home directory followed by the default;
    the error is thrown exactly when neither variable is set.  So with a
    home directory neither [getDataPath] nor [getConfigPath] throws. *)
Theorem X19_getPath_prefers_the_named_variable :
  forall (getenv : string -> option string) (id def : string),
    (forall p, getenv id = Some p -> Utils.getPath getenv id def = Some p) /\
    (getenv id = None ->
     forall h, getenv "HOME" = Some h ->
               Utils.getPath getenv id def = Some (h ++ def)) /\
    (Utils.getPath getenv id def = None <->
     getenv id = None /\ getenv "HOME" = None) /\
    (getenv "HOME" <> None ->
     Utils.getDataPath getenv <> None /\ Utils.getConfigPath getenv <> None).
Proof.
  intros getenv id def. unfold Utils.getDataPath, Utils.getConfigPath.
  split; [|split; [|split]].
  - intros p Hp. unfold Utils.getPath. now rewrite Hp.
  - intros Hn h Hh. unfold Utils.getPath. now rewrite Hn, Hh.
  - unfold Utils.getPath.
    destruct (getenv id) as [p|]; [split; [discriminate|intros [H _]; discriminate H]|].
    destruct (getenv "HOME") as [h|]; [split; [discriminate|intros [_ H]; discriminate H]|].
    now split.
  - intros Hh. unfold Utils.getPath.
    destruct (getenv "HOME") as [h|]; [|now contradiction Hh].
    split.
    + destruct (getenv "XDG_DATA_HOME"); discriminate.
    + destruct (getenv "XDG_CONFIG_HOME"); discriminate.
Qed.

(** X20: the default song length database of [readSidplay2].  The path
    examined is the data path followed by [/sidplayfp/Songlengths.txt].
    An exception leaves the block exactly when the data path cannot be
    had or the file status cannot be read.  The path is taken exactly when
    it is a regular file, exists, and owner, group and others may all read
    it; in every other case the database stays empty, for instance for a
    file only its owner may read. *)
Theorem X20_default_database_needs_all_read_bits :
  forall (getenv : string -> option string)
         (is_regular_file : string -> option bool)
         (exists_no_error : string -> bool)
         (read_permissions : string -> bool * bool * bool),
    let found := default_database getenv is_regular_file exists_no_error
                                  read_permissions in
    let path_of (data : string) := data ++ "/sidplayfp/Songlengths.txt" in
    (found = None <->
     Utils.getDataPath getenv = None \/
     exists data, Utils.getDataPath getenv = Some data /\
                  is_regular_file (path_of data) = None) /\
    (forall data regular owner group others,
        Utils.getDataPath getenv = Some data ->
        is_regular_file (path_of data) = Some regular ->
        read_permissions (path_of data) = (owner, group, others) ->
        found = Some (if (regular && exists_no_error (path_of data)
                          && owner && group && others)%bool
                      then path_of data else "")).
Proof.
  intros getenv irf ene perms. cbv zeta. unfold default_database.
  unfold SEPARATOR, DIR_NAME.
  destruct (Utils.getDataPath getenv) as [data|].
  - change (data ++ "/" ++ "sidplayfp" ++ "/" ++ "Songlengths.txt")
      with (data ++ "/sidplayfp/Songlengths.txt").
    split.
    + destruct (irf (data ++ "/sidplayfp/Songlengths.txt")) as [regular|] eqn:E.
      * split.
        -- destruct (regular && ene _)%bool; [|discriminate].
           destruct (perms _) as [[o g] r].
           destruct (o && g && r)%bool; discriminate.
        -- intros [H|(d & [= <-] & H)]; [discriminate|]. rewrite E in H.
           discriminate.
      * split; [|reflexivity]. intros _. right. now exists data.
    + intros d regular o g r [= <-] -> ->.
      destruct regular, (ene (data ++ "/sidplayfp/Songlengths.txt")), o, g, r;
        reflexivity.
  - split.
    + split; [now left|reflexivity].
    + discriminate.
Qed.

(* ------------------------------------------------------------------ *)
(** ** Group readers, told by documents *)

Lemma find_if_names (d d' : sections_t) (name : string) :
  map fst d = map fst d' ->
  find_if (compare name) d = find_if (compare name) d'.
Proof.
  revert d'; induction d as [|[n k] r IH]; intros [|[n' k'] r']; simpl;
    try discriminate; [reflexivity|].
  intros [= <- Hr]. unfold compare at 1 3. simpl.
  destruct (String.eqb name n); [reflexivity|]. f_equal. now apply IH.
Qed.

Lemma find_if_app_none {A : Type} (pred : A -> bool) (l l' : list A) :
  forallb (fun x => negb (pred x)) l = true ->
  find_if pred (l ++ l') = (List.length l + find_if pred l')%nat.
Proof.
  induction l as [|x r IH]; simpl; intros H; [reflexivity|].
  apply andb_true_iff in H as [Hx Hr].
  destruct (pred x); [discriminate|]. now rewrite IH.
Qed.

Lemma section_of_split (pre post : sections_t) (name : string) (keys : keys_t) :
  ~ In name (map fst pre) ->
  find_if (compare name) (pre ++ (name, keys) :: post) = List.length pre /\
  section_of (pre ++ (name, keys) :: post)%list name = Some (name, keys).
Proof.
  intros Hp. apply compare_none_names in Hp.
  assert (E : find_if (compare name) (pre ++ (name, keys) :: post)
              = List.length pre).
  { apply find_if_split; [exact Hp|]. unfold compare. simpl.
    apply String.eqb_refl. }
  split; [exact E|]. unfold section_of.
  etransitivity; [exact (f_equal (nth_error _) E)|].
  rewrite nth_error_app2 by lia. now rewrite Nat.sub_diag.
Qed.

Lemma section_of_none (d : sections_t) (name : string) :
  ~ In name (map fst d) ->
  find_if (compare name) d = List.length d /\ section_of d name = None.
Proof.
  intros Hp. apply compare_none_names in Hp.
  pose proof (find_if_none _ _ Hp) as E. split; [exact E|].
  unfold section_of.
  etransitivity; [exact (f_equal (nth_error _) E)|].
  apply nth_error_None. apply Nat.le_refl.
Qed.

Lemma held_in_snoc (d : sections_t) (name name2 key : string) :
  held_in (d ++ [(name, [])])%list name2 key = held_in d name2 key.
Proof.
  unfold held_in, section_of.
  destruct (find_if_cases (compare name2) d)
    as [[H1 H2]|(pre & x & post & E & Hp & Hx & Hf)];
    unfold sections_t, keyPair_t, keys_t, stringPair_t in *.
  - match goal with
    | |- context [find_if ?p (?a ++ ?b)%list] =>
        rewrite (find_if_app_none p a b H2)
    end.
    rewrite H1.
    rewrite (proj2 (nth_error_None d (List.length d)) (Nat.le_refl _)).
    simpl find_if.
    match goal with
    | |- context [if ?c then _ else _] => destruct c
    end.
    + rewrite Nat.add_0_r, nth_error_app2, Nat.sub_diag by apply Nat.le_refl.
      reflexivity.
    + rewrite (proj2 (nth_error_None _ _)); [reflexivity|].
      rewrite length_app. simpl. apply Nat.le_refl.
  - rewrite Hf. subst d. rewrite <- app_assoc. simpl app.
    match goal with
    | |- context [find_if ?p (?a ++ ?y :: ?b)%list] =>
        rewrite (find_if_split p a b y Hp Hx)
    end.
    rewrite !nth_error_app2, !Nat.sub_diag by apply Nat.le_refl.
    reflexivity.
Qed.

Lemma held_held_in (i : iniHandler) (name key : string) :
  curSection i = Pos (find_if (compare name) (sections i)) ->
  held i key = held_in (sections i) name key.
Proof.
  intros Hc. unfold held, held_in, section_of, Ini.getValue, Ini.deref.
  rewrite Hc. now destruct (nth_error (sections i) _).
Qed.

Lemma held_some (i : iniHandler) (key v : string) :
  held i key = Some v <-> Ini.getValue i key = Some (Some v).
Proof.
  unfold held. destruct (Ini.getValue i key) as [[w|]|]; split;
    intros H; try discriminate; congruence.
Qed.

(** The selection that opens a group reader. *)
Lemma selectSection_doc (st : state) (name : string) :
  exists st1 ks,
    selectSection name st = Some (tt, st1) /\
    selected (ini st1) (name, ks) /\
    curSection (ini st1)
    = Pos (find_if (compare name) (sections (ini st1))) /\
    (forall name2 key,
        held_in (sections (ini st1)) name2 key
        = held_in (sections (ini st)) name2 key) /\
    fileName (ini st1) = fileName (ini st) /\
    printed st1 = printed st /\
    (changed (ini st) = true -> changed (ini st1) = true) /\
    ((exists key, held_in (sections (ini st)) name key <> None) ->
     sections (ini st1) = sections (ini st) /\
     changed (ini st1) = changed (ini st)) /\
    (valid_name name = true ->
     valid_document (sections (ini st)) = true ->
     valid_document (sections (ini st1)) = true).
Proof.
  destruct (selectSection_cases st name)
    as [(pre & keys & post & E & Hp & Hrun)|(Hn & Hrun)].
  - destruct (section_of_split pre post name keys Hp) as [Hf Hsec].
    eexists. exists keys. split; [exact Hrun|]. simpl.
    split.
    { unfold selected, Ini.deref. simpl. rewrite E.
      rewrite nth_error_app2 by apply Nat.le_refl. now rewrite Nat.sub_diag. }
    split; [f_equal; symmetry; rewrite E; exact Hf|].
    split; [reflexivity|]. split; [reflexivity|]. split; [reflexivity|].
    split; [auto|]. split; [intros _; now split|auto].
  - destruct (section_of_none _ name Hn) as [Hf Hsec].
    eexists. exists []. split; [exact Hrun|]. simpl.
    assert (Hfind : find_if (compare name)
                            (sections (ini st) ++ [(name, [])])
                    = List.length (sections (ini st))).
    { rewrite (find_if_app_none _ _ _ (proj2 (compare_none_names _ _) Hn)).
      simpl. unfold compare. simpl. rewrite String.eqb_refl.
      apply Nat.add_0_r. }
    split.
    { unfold selected, Ini.deref. simpl.
      rewrite nth_error_app2, Nat.sub_diag by apply Nat.le_refl.
      reflexivity. }
    split; [now rewrite Hfind|].
    split; [intros name2 key; apply held_in_snoc|].
    split; [reflexivity|]. split; [reflexivity|]. split; [reflexivity|].
    split.
    { intros [key Hk]. exfalso. apply Hk. unfold held_in. now rewrite Hsec. }
    intros Hname Hv. unfold valid_document. rewrite forallb_app.
    apply andb_true_iff. split; [exact Hv|]. simpl.
    unfold valid_section. simpl. now rewrite Hname.
Qed.

(** A selection followed by reads of the group's keys. *)
Lemma group_read_of (st st1 st' : state) (name : string) (ks : keys_t)
      (keys : list string) :
  selected (ini st1) (name, ks) ->
  curSection (ini st1) = Pos (find_if (compare name) (sections (ini st1))) ->
  (forall name2 key,
      held_in (sections (ini st1)) name2 key
      = held_in (sections (ini st)) name2 key) ->
  fileName (ini st1) = fileName (ini st) ->
  (changed (ini st) = true -> changed (ini st1) = true) ->
  ((exists key, held_in (sections (ini st)) name key <> None) ->
   sections (ini st1) = sections (ini st) /\
   changed (ini st1) = changed (ini st)) ->
  (valid_name name = true ->
   valid_document (sections (ini st)) = true ->
   valid_document (sections (ini st1)) = true) ->
  reads_from st1 st' keys ->
  group_read name keys (ini st) (ini st').
Proof.
  intros Hs Hc Hd Hf Hch Hsame Hval
         (R1 & R2 & R3 & R4 & R5 & R6 & R7 & _ & R9 & (K1 & K2 & K3)
          & R11 & R12).
  assert (Hc' : curSection (ini st')
                = Pos (find_if (compare name) (sections (ini st')))).
  { rewrite K1, Hc. f_equal. symmetry. now apply find_if_names. }
  assert (A : forall key, held_in (sections (ini st')) name key
                          = held (ini st') key).
  { intros key. symmetry. now apply held_held_in. }
  assert (A1 : forall key, held_in (sections (ini st)) name key
                           = held (ini st1) key).
  { intros key. rewrite <- Hd. symmetry. now apply held_held_in. }
  assert (B : forall name2 key, name2 <> name ->
                held_in (sections (ini st')) name2 key
                = held_in (sections (ini st1)) name2 key).
  { intros name2 key Hne. unfold held_in, section_of.
    rewrite (find_if_names _ _ name2 K2).
    rewrite K3; [reflexivity|].
    rewrite Hc. intros [= E].
    unfold selected, Ini.deref in Hs. rewrite Hc, E in Hs.
    apply find_if_some in Hs. unfold compare in Hs. simpl in Hs.
    apply String.eqb_eq in Hs. contradiction. }
  unfold group_read.
  split; [intros name2 key Hne; now rewrite B, Hd|].
  split.
  { intros key Hk. rewrite A, A1. unfold held. now rewrite (R2 key Hk). }
  split.
  { intros key v Hv. rewrite A1 in Hv. rewrite A.
    apply held_some in Hv. apply held_some. rewrite R3; [exact Hv|].
    now exists v. }
  split.
  { intros key Hk. rewrite A. destruct (R4 key Hk) as [v Hv].
    apply held_some in Hv. now rewrite Hv. }
  split; [now rewrite R6|]. split; [auto|]. split.
  - intros Hne Hall.
    assert (E : ini st' = ini st1).
    { apply R5. intros k Hk. specialize (Hall k Hk). rewrite A1 in Hall.
      destruct (held (ini st1) k) as [v|] eqn:Ev; [|contradiction].
      exists v. now apply held_some. }
    rewrite E. apply Hsame. destruct keys as [|k r]; [contradiction|].
    exists k. apply Hall. now left.
  - split.
    { intros (key & Hk & Hnone). apply (R9 key Hk).
      intros [v Hv]. apply held_some in Hv. rewrite <- A1 in Hv.
      congruence. }
    split.
    { intros key Hk. now rewrite A, A1, (R11 key Hk). }
    intros Hname Hkeys Hv. apply R12; [exact Hkeys|]. now apply Hval.
Qed.

Section DocFacts.
Variable NDEBUG : bool.
Variable double : Type.
Variable parseDouble : string -> option double.
Variable parseInt : string -> option Z.
Variable parseBool : string -> option bool.
Variable getenv : string -> option string.
Variable is_regular_file : string -> option bool.
Variable exists_no_error : string -> bool.
Variable read_permissions : string -> bool * bool * bool.
Variable moved : stringPair_t -> stringPair_t.

Ltac read_int key x :=
  next_state ltac:(fun Hr st sect Hsel =>
    let st' := fresh "st" in
    let Hrun := fresh "Hrun" in
    let Hstep := fresh "Hr" in
    destruct (readInt_step NDEBUG parseInt st sect key x Hsel)
      as (st' & Hrun & Hstep);
    clear sect Hsel; finish_step Hr Hrun Hstep key).

Ltac read_bool key x :=
  next_state ltac:(fun Hr st sect Hsel =>
    let st' := fresh "st" in
    let Hrun := fresh "Hrun" in
    let Hstep := fresh "Hr" in
    destruct (readBool_step NDEBUG parseBool st sect key x Hsel)
      as (st' & Hrun & Hstep);
    clear sect Hsel; finish_step Hr Hrun Hstep key).

Ltac read_double key x :=
  next_state ltac:(fun Hr st sect Hsel =>
    let st' := fresh "st" in
    let Hrun := fresh "Hrun" in
    let Hstep := fresh "Hr" in
    destruct (readDouble_step NDEBUG double parseDouble st sect key x Hsel)
      as (st' & Hrun & Hstep);
    clear sect Hsel; finish_step Hr Hrun Hstep key).

Ltac read_string key :=
  next_state ltac:(fun Hr st sect Hsel =>
    let st' := fresh "st" in
    let Hrun := fresh "Hrun" in
    let Hstep := fresh "Hr" in
    destruct (readString_step NDEBUG st sect key Hsel)
      as (st' & Hrun & Hstep);
    clear sect Hsel; finish_step Hr Hrun Hstep key).

Ltac read_time key :=
  match goal with
  | Hr : reads_from ?st1 ?st ?ts |- _ =>
      let sect := fresh "sect" in
      let Hsel := fresh "Hsel" in
      let st' := fresh "st" in
      let b := fresh "b" in
      let Hrun := fresh "Hrun" in
      let Hif := fresh "Hif" in
      let Hstep := fresh "Hr" in
      destruct (proj1 Hr) as [sect Hsel];
      destruct (readTime_step NDEBUG parseInt st sect key _ Hsel
                  (reads_from_held _ _ _ key Hr eq_refl))
        as (b & st' & Hrun & Hif & Hstep);
      clear sect Hsel;
      apply (reads_from_step _ _ _ key _ Hr) in Hstep;
      clear Hr; simpl app in Hstep
  end.

Ltac read_color key x :=
  next_state ltac:(fun Hr st sect Hsel =>
    let st' := fresh "st" in
    let b := fresh "b" in
    let Hrun := fresh "Hrun" in
    let Hstep := fresh "Hr" in
    destruct (readColor_step NDEBUG st sect key x Hsel)
      as (b & st' & Hrun & Hstep);
    clear sect Hsel; finish_step Hr Hrun Hstep key).

Ltac rename_nothing Hold :=
  match goal with
  | Hr : reads_from ?st1 ?st ?ts |- _ =>
      let sect := fresh "sect" in
      let Hsel := fresh "Hsel" in
      let Hren := fresh "Hren" in
      destruct (proj1 Hr) as [sect Hsel];
      assert (Hren : renameFilterRange moved st = Some (tt, st))
        by (apply (renameFilterRange_none moved st sect Hsel);
            rewrite (reads_from_held _ _ _ "filterRange6581" Hr eq_refl);
            exact Hold);
      clear sect Hsel
  end.

Ltac open_group name :=
  match goal with
  | |- context [sections (ini ?st)] =>
      let st1 := fresh "st" in
      let ks := fresh "ks" in
      let Hsel := fresh "Hsel" in
      let Hs := fresh "Hs" in
      let Hc := fresh "Hc" in
      let Hd := fresh "Hd" in
      let Hf := fresh "Hf" in
      let Hp := fresh "Hp" in
      let Hch := fresh "Hch" in
      let Hsame := fresh "Hsame" in
      let Hval := fresh "Hval" in
      let Hh := fresh "Hh" in
      let Hgroup := fresh "Hgroup" in
      let Hr := fresh "Hr" in
      let st' := fresh "st'" in
      let keys := fresh "keys" in
      let out := fresh "out" in
      let Hout := fresh "Hout" in
      destruct (selectSection_doc st name)
        as (st1 & ks & Hsel & Hs & Hc & Hd & Hf & Hp & Hch & Hsame & Hval);
      assert (Hh : forall key, held (ini st1) key
                               = held_in (sections (ini st)) name key)
        by (intros key; rewrite <- Hd; now apply held_held_in);
      assert (Hgroup : forall st' keys,
                 reads_from st1 st' keys ->
                 group_read name keys (ini st) (ini st') /\
                 exists out, printed st' = (printed st ++ out)%list)
        by (intros st' keys Hr; split;
            [exact (group_read_of st st1 st' name ks keys
                                  Hs Hc Hd Hf Hch Hsame Hval Hr)
            |destruct Hr as (_ & _ & _ & _ & _ & _ & _ & [out Hout] & _);
             exists out; rewrite Hout; f_equal; exact Hp]);
      pose proof (reads_from_start st1 _ Hs) as Hr;
      clear Hs Hc Hd Hf Hp Hch Hsame Hval
  end.

Ltac close_group :=
  match goal with
  | Hg : (forall st' keys, reads_from _ st' keys -> _),
    Hr : reads_from _ _ _ |- _ => exact (Hg _ _ Hr)
  end.

Lemma readAudio_doc (st : state) (s : audio_section) :
  exists st',
    readAudio NDEBUG parseInt s st
    = Some (audio_of parseInt (held_in (sections (ini st)) "Audio") s, st') /\
    group_read "Audio" audio_keys (ini st) (ini st') /\
    exists out, printed st' = (printed st ++ out)%list.
Proof.
  open_group "Audio".
  read_int "Frequency" (frequency s).
  read_int "Channels" (channels s).
  read_int "BitsPerSample" (precision s).
  read_int "BufferLength" (bufLength s).
  eexists. split; [|close_group].
  unfold readAudio. run_reads. unfold ret, audio_of. now rewrite !Hh.
Qed.

Lemma readConsole_doc (st : state) (ascii0 : bool) (s : console_section) :
  exists st',
    readConsole NDEBUG parseBool ascii0 s st
    = Some (console_of parseBool (held_in (sections (ini st)) "Console")
                       ascii0 s, st') /\
    group_read "Console" console_keys (ini st) (ini st') /\
    exists out, printed st' = (printed st ++ out)%list.
Proof.
  open_group "Console".
  read_bool "ASCII" ascii0.
  read_bool "Ansi" (ansi s).
  read_color "Color Decorations" (decorations s).
  read_color "Color Title" (title s).
  read_color "Color Label Core" (label_core s).
  read_color "Color Text Core" (text_core s).
  read_color "Color Label Extra" (label_extra s).
  read_color "Color Text Extra" (text_extra s).
  read_color "Color Notes" (notes s).
  read_color "Color Control On" (control_on s).
  read_color "Color Control Off" (control_off s).
  eexists. split; [|close_group].
  unfold readConsole. rewrite selectSection_bind. run_reads.
  unfold ret, console_of. cbn [fst snd]. now rewrite !Hh.
Qed.

Lemma readSidplay2_doc (st : state) (s : sidplay2_section) (path : string) :
  (let configured :=
     string_field (held_in (sections (ini st)) "SIDPlayfp"
                           "Songlength Database") in
   if empty configured
   then default_database getenv is_regular_file exists_no_error
                         read_permissions
   else Some configured) = Some path ->
  exists st',
    (forall time0,
        readSidplay2 NDEBUG parseInt getenv is_regular_file exists_no_error
                     read_permissions time0 s st
        = Some (Returned
                  (sidplay2_of parseInt
                               (held_in (sections (ini st)) "SIDPlayfp")
                               path s), st')) /\
    group_read "SIDPlayfp" sidplay2_keys (ini st) (ini st') /\
    exists out, printed st' = (printed st ++ out)%list.
Proof.
  cbv zeta. intros Hdb.
  open_group "SIDPlayfp".
  rewrite <- Hh in Hdb.
  read_int "Version" (version s).
  read_string "Songlength Database".
  read_time "Default Play Length".
  read_time "Default Record Length".
  read_string "Kernal Rom".
  read_string "Basic Rom".
  read_string "Chargen Rom".
  read_int "VerboseLevel" (verboseLevel s).
  eexists. split; [|close_group].
  intros time0. unfold readSidplay2. run_reads. cbv zeta. rewrite Hdb.
  run_reads. unfold ret, sidplay2_of. cbn [fst snd]. rewrite Hif, Hif0.
  cbn [version database playLength recordLength kernalRom basicRom
       chargenRom verboseLevel].
  now rewrite !Hh.
Qed.

Lemma readEmulation_doc (FEAT_FILTER_RANGE FEAT_CW_STRENGTH : bool)
      (st : state) (s : emulation_section double) :
  (FEAT_FILTER_RANGE = true ->
   nonempty (held_in (sections (ini st)) "Emulation" "filterRange6581")
   = None) ->
  exists st',
    readEmulation NDEBUG double parseDouble parseInt parseBool
                  FEAT_FILTER_RANGE FEAT_CW_STRENGTH moved s st
    = Some (emulation_of double parseDouble parseInt parseBool
                         FEAT_FILTER_RANGE FEAT_CW_STRENGTH
                         (held_in (sections (ini st)) "Emulation") s, st') /\
    group_read "Emulation"
               (emulation_keys FEAT_FILTER_RANGE FEAT_CW_STRENGTH)
               (ini st) (ini st') /\
    exists out, printed st' = (printed st ++ out)%list.
Proof.
  intros Hold.
  open_group "Emulation".
  rewrite <- Hh in Hold.
  read_string "Engine".
  read_string "C64Model".
  read_bool "ForceC64Model" (modelForced double s).
  read_bool "DigiBoost" (digiboost double s).
  read_string "CiaModel".
  read_string "SidModel".
  read_bool "ForceSidModel" (forceModel double s).
  read_bool "UseFilter" (filter double s).
  read_double "FilterBias" (bias double s).
  read_double "FilterCurve6581" (filterCurve6581 double s).
  destruct FEAT_FILTER_RANGE.
  - rename_nothing (Hold eq_refl).
    read_double "FilterRange6581" (filterRange6581 double s).
    read_double "FilterCurve8580" (filterCurve8580 double s).
    destruct FEAT_CW_STRENGTH.
    + read_string "CombinedWaveforms".
      read_int "PowerOnDelay" (powerOnDelay double s).
      read_string "Sampling".
      read_bool "ResidFastSampling" (fastSampling double s).
      eexists. split; [|close_group].
      unfold readEmulation. run_reads. unfold ret, emulation_of.
      now rewrite !Hh.
    + read_int "PowerOnDelay" (powerOnDelay double s).
      read_string "Sampling".
      read_bool "ResidFastSampling" (fastSampling double s).
      eexists. split; [|close_group].
      unfold readEmulation. run_reads. unfold ret, emulation_of.
      now rewrite !Hh.
  - read_double "FilterCurve8580" (filterCurve8580 double s).
    destruct FEAT_CW_STRENGTH.
    + read_string "CombinedWaveforms".
      read_int "PowerOnDelay" (powerOnDelay double s).
      read_string "Sampling".
      read_bool "ResidFastSampling" (fastSampling double s).
      eexists. split; [|close_group].
      unfold readEmulation. run_reads. unfold ret, emulation_of.
      now rewrite !Hh.
    + read_int "PowerOnDelay" (powerOnDelay double s).
      read_string "Sampling".
      read_bool "ResidFastSampling" (fastSampling double s).
      eexists. split; [|close_group].
      unfold readEmulation. run_reads. unfold ret, emulation_of.
      now rewrite !Hh.
Qed.

Lemma readSidplay2_escapes_doc (st : state) (s : sidplay2_section) :
  (let configured :=
     string_field (held_in (sections (ini st)) "SIDPlayfp"
                           "Songlength Database") in
   if empty configured
   then default_database getenv is_regular_file exists_no_error
                         read_permissions
   else Some configured) = None ->
  exists st',
    (forall time0,
        readSidplay2 NDEBUG parseInt getenv is_regular_file exists_no_error
                     read_permissions time0 s st
        = Some (Escaped
                  {| version :=
                       (let v := int_field parseInt (version s)
                                   (held_in (sections (ini st)) "SIDPlayfp"
                                            "Version") in
                        if v >? 0 then v else version s);
                     database := "";
                     playLength := playLength s;
                     recordLength := recordLength s;
                     kernalRom := kernalRom s;
                     basicRom := basicRom s;
                     chargenRom := chargenRom s;
                     verboseLevel := verboseLevel s |}, st')) /\
    exists out, printed st' = (printed st ++ out)%list.
Proof.
  cbv zeta. intros Hdb.
  open_group "SIDPlayfp".
  rewrite <- Hh in Hdb.
  read_int "Version" (version s).
  read_string "Songlength Database".
  eexists. split; [|exact (proj2 ltac:(close_group))].
  intros time0. unfold readSidplay2. run_reads. cbv zeta. rewrite Hdb.
  unfold ret.
  cbn [version database playLength recordLength kernalRom basicRom
       chargenRom verboseLevel].
  destruct (empty (string_field (held (ini st0) "Songlength Database")))
    eqn:Ee; [|discriminate Hdb].
  rewrite (empty_true _ Ee). now rewrite !Hh.
Qed.

End DocFacts.

(* ------------------------------------------------------------------ *)
(** ** Closing, and the whole of [IniConfig::read] *)

Lemma close_close (i : iniHandler) (fs : filesys) :
  Ini.close (fst (Ini.close i fs)) (snd (Ini.close i fs)) = Ini.close i fs.
Proof. reflexivity. Qed.

(** X21: [close].  It writes only for a changed handler and only to a
    path that can be written: edits to a file that cannot be written are
    dropped without notice.  When it writes, the file of the handler holds
    the serialised sections and no other file is affected.  Afterwards the
    handler has no sections and no selection, so a lookup is undefined, and
    closing again (as the destructor does) changes nothing. *)
Theorem X21_close_writes_once_or_drops :
  forall (i : iniHandler) (fs : filesys),
    let r := Ini.close i fs in
    Ini.close (fst r) (snd r) = r /\
    (changed i = false \/ writable fs (fileName i) = false -> snd r = fs) /\
    (changed i = true -> writable fs (fileName i) = true ->
     file (snd r) (fileName i) = Some (Ini.writeStream (sections i)) /\
     forall q, q <> fileName i -> file (snd r) q = file fs q) /\
    sections (fst r) = [] /\
    changed (fst r) = false /\
    fileName (fst r) = fileName i /\
    (forall key, Ini.getValue (fst r) key = None).
Proof.
  intros i fs. cbv zeta. split; [reflexivity|].
  unfold Ini.close, Ini.write. simpl.
  split.
  { intros [H|H]; rewrite H; [reflexivity|]. now destruct (changed i). }
  split.
  { intros -> ->. simpl. split; [now rewrite String.eqb_refl|].
    intros q Hq. now destruct (String.eqb_spec q (fileName i)). }
  repeat split.
Qed.

Lemma group_read_mono (name : string) (keys : list string)
      (i i' : iniHandler) :
  group_read name keys i i' ->
  forall name2 key v,
    held_in (sections i) name2 key = Some v ->
    held_in (sections i') name2 key = Some v.
Proof.
  intros (G1 & _ & G3 & _) name2 key v Hv.
  destruct (string_dec name2 name) as [->|Hne].
  - now apply G3.
  - now rewrite G1.
Qed.

Lemma holds_all_spec (d : sections_t) (name : string) (keys : list string) :
  holds_all d (name, keys) = true <->
  forall key, In key keys -> held_in d name key <> None.
Proof.
  unfold holds_all. simpl. rewrite forallb_forall. split.
  - intros H key Hk. specialize (H key Hk).
    now destruct (held_in d name key).
  - intros H key Hk. specialize (H key Hk).
    now destruct (held_in d name key).
Qed.

Lemma holds_all_not (d : sections_t) (name : string) (keys : list string) :
  holds_all d (name, keys) = false ->
  exists key, In key keys /\ held_in d name key = None.
Proof.
  unfold holds_all. simpl. induction keys as [|k r IH]; simpl; [discriminate|].
  destruct (held_in d name k) eqn:E; simpl.
  - intros H. destruct (IH H) as (key & Hk & Hn). exists key. now split; [right|].
  - intros _. exists k. now split; [left|].
Qed.

Section ReadFacts.
Variable NDEBUG : bool.
Variable double : Type.
Variable parseDouble : string -> option double.
Variable parseInt : string -> option Z.
Variable parseBool : string -> option bool.
Variable getenv : string -> option string.
Variable is_regular_file : string -> option bool.
Variable exists_no_error : string -> bool.
Variable read_permissions : string -> bool * bool * bool.
Variable FEAT_FILTER_RANGE : bool.
Variable FEAT_CW_STRENGTH : bool.
Variable moved : stringPair_t -> stringPair_t.
Variable DEFAULT_SAMPLING_FREQ : Z.
Variable half : double.
Variable opendir : string -> option Z.
Variable mkdir : string -> option Z.
Variable strerror : Z -> string.
Variable ENOENT : Z.

Local Abbreviation read_config :=
  (read NDEBUG double parseDouble parseInt parseBool getenv is_regular_file
        exists_no_error read_permissions FEAT_FILTER_RANGE FEAT_CW_STRENGTH
        moved DEFAULT_SAMPLING_FREQ half opendir mkdir strerror ENOENT).
Local Abbreviation defaults :=
  (clear double FEAT_FILTER_RANGE FEAT_CW_STRENGTH DEFAULT_SAMPLING_FREQ half).
Local Abbreviation make_dir := (createDir opendir mkdir strerror ENOENT).
Local Abbreviation config_path :=
  (getConfigPath NDEBUG getenv opendir mkdir strerror ENOENT).
Local Abbreviation fallback :=
  (default_database getenv is_regular_file exists_no_error read_permissions).

Lemma getConfigPath_run (st : state) :
  config_path st
  = match Utils.getConfigPath getenv with
    | None => Some (inr "Cannot get config path!", st)
    | Some cp =>
        match make_dir cp with
        | Some msg =>
            Some (inr msg, {| ini := ini st;
                              printed := (printed st ++ path_lines NDEBUG cp false)%list |})
        | None =>
            match make_dir (cp ++ SEPARATOR ++ DIR_NAME) with
            | Some msg =>
                Some (inr msg,
                      {| ini := ini st;
                         printed := (printed st ++ path_lines NDEBUG cp false)%list |})
            | None =>
                Some (inl (config_file cp),
                      {| ini := ini st;
                         printed := (printed st ++ path_lines NDEBUG cp true)%list |})
            end
        end
    end.
Proof.
  unfold getConfigPath, path_lines, debug.
  destruct (Utils.getConfigPath getenv) as [cp|]; [|reflexivity].
  destruct st as [i p].
  destruct NDEBUG; unfold bind, ret, print; cbn [ini printed];
    repeat match goal with
           | |- context [createDir ?a ?b ?c ?d ?q] =>
               destruct (createDir a b c d q)
           end;
    rewrite ?app_nil_r; try reflexivity.
  cbn [ini printed]. now rewrite <- app_assoc.
Qed.

Lemma console_of_ext (h h' : string -> option string) (ascii0 : bool)
      (s : console_section) :
  (forall key, h key = h' key) ->
  console_of parseBool h ascii0 s = console_of parseBool h' ascii0 s.
Proof. intros H. unfold console_of. now rewrite !H. Qed.

Lemma audio_of_ext (h h' : string -> option string) (s : audio_section) :
  (forall key, h key = h' key) ->
  audio_of parseInt h s = audio_of parseInt h' s.
Proof. intros H. unfold audio_of. now rewrite !H. Qed.

Lemma emulation_of_ext (h h' : string -> option string)
      (s : emulation_section double) :
  (forall key, h key = h' key) ->
  emulation_of double parseDouble parseInt parseBool
               FEAT_FILTER_RANGE FEAT_CW_STRENGTH h s
  = emulation_of double parseDouble parseInt parseBool
                 FEAT_FILTER_RANGE FEAT_CW_STRENGTH h' s.
Proof. intros H. unfold emulation_of. now rewrite !H. Qed.

Lemma emulation_keys_first :
  emulation_keys FEAT_FILTER_RANGE FEAT_CW_STRENGTH <> [].
Proof. discriminate. Qed.

(** X22: [IniConfig::read] when no file is opened.  Without a
    configuration path, when one of the two directories can neither be
    opened nor made, or when the file can be neither read nor created,
    the settings are the defaults of [clear], no file is touched, and one
    line on the error stream tells why: the fixed message, the wording of
    the system error, or "Error reading config file!". *)
Theorem X22_read_keeps_defaults_when_nothing_opens :
  forall (time0 : Z) (ascii0 : bool) (c : IniConfig double) (fs : filesys)
         (out : list line),
    (Utils.getConfigPath getenv = None ->
     read_config time0 ascii0 c fs out
     = Some (Read_returned double (defaults c) fs
               (out ++ [Stderr "Cannot get config path!"])%list)) /\
    (forall cp msg,
        Utils.getConfigPath getenv = Some cp ->
        make_dir cp = Some msg \/
        (make_dir cp = None /\
         make_dir (cp ++ SEPARATOR ++ DIR_NAME) = Some msg) ->
        read_config time0 ascii0 c fs out
        = Some (Read_returned double (defaults c) fs
                  ((out ++ path_lines NDEBUG cp false) ++ [Stderr msg])%list)) /\
    (forall cp,
        Utils.getConfigPath getenv = Some cp ->
        make_dir cp = None ->
        make_dir (cp ++ SEPARATOR ++ DIR_NAME) = None ->
        open_ifstream fs (config_file cp) = None ->
        writable fs (config_file cp) = false ->
        read_config time0 ascii0 c fs out
        = Some (Read_returned double (defaults c) fs
                  ((out ++ path_lines NDEBUG cp true)
                   ++ [Stderr "Error reading config file!"])%list)).
Proof.
  intros time0 ascii0 c fs out. unfold read, tryOpen.
  rewrite getConfigPath_run. split; [|split].
  - intros ->. reflexivity.
  - intros cp msg -> [->|[-> ->]]; reflexivity.
  - intros cp -> -> -> Ho Hw. cbn [ini printed].
    unfold Ini.open, Ini.tryOpen. rewrite Ho, Hw. reflexivity.
Qed.

(** X23: [IniConfig::read] on a file that can be read.  Let [d] be the
    document parsed from the file, with a song length database at hand
    (configured, or examined without an exception) and no value under the
    old filter range key.  Then [read] returns, and every setting is the
    function its group reader computes from the values that [d] holds in
    the first section of the group's name, starting from the defaults;
    the file name is the path of the file and output is only added.  The
    file is left alone when [d] holds every key of every group, and when
    it cannot be written; otherwise it is rewritten with a document that
    holds every key and keeps every value [d] held. *)
Theorem X23_read_settings_from_the_document :
  forall (ascii0 : bool) (c : IniConfig double) (fs : filesys)
         (out : list line) (cp text path : string),
    Utils.getConfigPath getenv = Some cp ->
    make_dir cp = None ->
    make_dir (cp ++ SEPARATOR ++ DIR_NAME) = None ->
    open_ifstream fs (config_file cp) = Some text ->
    let d := Ini.parseStream [] text in
    (let configured :=
       string_field (held_in d "SIDPlayfp" "Songlength Database") in
     if empty configured then fallback else Some configured) = Some path ->
    (FEAT_FILTER_RANGE = true ->
     nonempty (held_in d "Emulation" "filterRange6581") = None) ->
    exists files output,
      (forall time0,
          read_config time0 ascii0 c fs out
          = Some (Read_returned double
                    {| sidplay2_s :=
                         sidplay2_of parseInt (held_in d "SIDPlayfp") path
                                     (sidplay2_s double (defaults c));
                       console_s :=
                         console_of parseBool (held_in d "Console") ascii0
                                    (console_s double (defaults c));
                       audio_s :=
                         audio_of parseInt (held_in d "Audio")
                                  (audio_s double (defaults c));
                       emulation_s :=
                         emulation_of double parseDouble parseInt parseBool
                                      FEAT_FILTER_RANGE FEAT_CW_STRENGTH
                                      (held_in d "Emulation")
                                      (emulation_s double (defaults c));
                       m_fileName := config_file cp |}
                    files output)) /\
      (exists more, output = (out ++ more)%list) /\
      (complete FEAT_FILTER_RANGE FEAT_CW_STRENGTH d = true \/
       writable fs (config_file cp) = false -> files = fs) /\
      (complete FEAT_FILTER_RANGE FEAT_CW_STRENGTH d = false ->
       writable fs (config_file cp) = true ->
       exists d',
         files = store_file fs (config_file cp) (Ini.writeStream d') /\
         complete FEAT_FILTER_RANGE FEAT_CW_STRENGTH d' = true /\
         forall name key v,
           held_in d name key = Some v -> held_in d' name key = Some v).
Proof.
  intros ascii0 c fs out cp text path Hcp Hd1 Hd2 Hopen d Hdb Hold.
  set (st0 := {| ini := {| sections := d; curSection := Singular;
                           fileName := config_file cp; changed := false |};
                 printed := (out ++ path_lines NDEBUG cp true)%list |}).
  destruct (readSidplay2_doc NDEBUG parseInt getenv is_regular_file
              exists_no_error read_permissions st0
              (sidplay2_s double (defaults c)) path Hdb)
    as (st1 & Hrun1 & G1 & [o1 Ho1]).
  destruct (readConsole_doc NDEBUG parseBool st1 ascii0
              (console_s double (defaults c)))
    as (st2 & Hrun2 & G2 & [o2 Ho2]).
  destruct (readAudio_doc NDEBUG parseInt st2 (audio_s double (defaults c)))
    as (st3 & Hrun3 & G3 & [o3 Ho3]).
  assert (E1 : forall name key, name <> "SIDPlayfp" ->
                 held_in (sections (ini st1)) name key = held_in d name key)
    by (intros name key Hne; exact (proj1 G1 name key Hne)).
  assert (E2 : forall name key, name <> "SIDPlayfp" -> name <> "Console" ->
                 held_in (sections (ini st2)) name key = held_in d name key)
    by (intros name key H1 H2; rewrite (proj1 G2 name key H2); now apply E1).
  assert (E3 : forall name key, name <> "SIDPlayfp" -> name <> "Console" ->
                 name <> "Audio" ->
                 held_in (sections (ini st3)) name key = held_in d name key)
    by (intros name key H1 H2 H3; rewrite (proj1 G3 name key H3);
        now apply E2).
  assert (Hold3 : FEAT_FILTER_RANGE = true ->
                  nonempty (held_in (sections (ini st3)) "Emulation"
                                    "filterRange6581") = None).
  { intros HF. rewrite E3 by discriminate. exact (Hold HF). }
  destruct (readEmulation_doc NDEBUG double parseDouble parseInt parseBool
              moved FEAT_FILTER_RANGE FEAT_CW_STRENGTH st3
              (emulation_s double (defaults c)) Hold3)
    as (st4 & Hrun4 & G4 & [o4 Ho4]).
  assert (Hname : fileName (ini st4) = config_file cp).
  { destruct G1 as (_ & _ & _ & _ & F1 & _), G2 as (_ & _ & _ & _ & F2 & _),
             G3 as (_ & _ & _ & _ & F3 & _), G4 as (_ & _ & _ & _ & F4 & _).
    now rewrite F4, F3, F2, F1. }
  exists (snd (Ini.close (ini st4) fs)), (printed st4).
  split.
  { intros time0. unfold read, tryOpen. rewrite getConfigPath_run, Hcp, Hd1, Hd2.
    cbn [ini printed]. unfold Ini.open, Ini.tryOpen. rewrite Hopen.
    cbn [sections curSection fileName changed iniHandler_new].
    rewrite after_push_back_singular.
    unfold read_groups. fold d. fold st0. rewrite Hrun1.
    unfold bind. rewrite Hrun2, Hrun3, Hrun4. unfold ret.
    rewrite (surjective_pairing (Ini.close (ini st4) fs)), close_close.
    rewrite Hname.
    rewrite (console_of_ext _ (held_in d "Console") _ _
               (fun key => E1 "Console" key ltac:(discriminate))).
    rewrite (audio_of_ext _ (held_in d "Audio") _
               (fun key => E2 "Audio" key ltac:(discriminate)
                                          ltac:(discriminate))).
    rewrite (emulation_of_ext _ (held_in d "Emulation") _
               (fun key => E3 "Emulation" key ltac:(discriminate)
                              ltac:(discriminate) ltac:(discriminate))).
    reflexivity. }
  split.
  { exists (path_lines NDEBUG cp true ++ o1 ++ o2 ++ o3 ++ o4)%list.
    rewrite Ho4, Ho3, Ho2, Ho1. simpl printed. now rewrite <- !app_assoc. }
  split.
  { intros [Hc|Hw].
    - unfold complete, groups in Hc. simpl in Hc.
      rewrite !andb_true_iff in Hc. destruct Hc as (C1 & C2 & C3 & C4 & _).
      pose proof (proj1 (holds_all_spec _ _ _) C1) as A1.
      pose proof (proj1 (holds_all_spec _ _ _) C2) as A2.
      pose proof (proj1 (holds_all_spec _ _ _) C3) as A3.
      pose proof (proj1 (holds_all_spec _ _ _) C4) as A4.
      clear C1 C2 C3 C4.
      destruct G1 as (_ & _ & _ & _ & _ & _ & S1 & _).
      destruct (S1 ltac:(discriminate) A1) as [S1s S1c].
      destruct G2 as (_ & _ & _ & _ & _ & _ & S2 & _).
      simpl sections in S1s. rewrite <- S1s in A2.
      destruct (S2 ltac:(discriminate) A2) as [S2s S2c].
      destruct G3 as (_ & _ & _ & _ & _ & _ & S3 & _).
      rewrite <- S1s, <- S2s in A3.
      destruct (S3 ltac:(discriminate) A3) as [S3s S3c].
      destruct G4 as (_ & _ & _ & _ & _ & _ & S4 & _).
      rewrite <- S1s, <- S2s, <- S3s in A4.
      destruct (S4 emulation_keys_first A4) as [S4s S4c].
      unfold Ini.close. now rewrite S4c, S3c, S2c, S1c.
    - unfold Ini.close, Ini.write. rewrite Hname, Hw.
      now destruct (changed (ini st4)). }
  intros Hc Hw.
  assert (Hchg : changed (ini st4) = true).
  { destruct G1 as (_ & _ & _ & _ & _ & _ & _ & I1 & _),
             G2 as (_ & _ & _ & _ & _ & K2 & _ & I2 & _),
             G3 as (_ & _ & _ & _ & _ & K3 & _ & I3 & _),
             G4 as (_ & _ & _ & _ & _ & K4 & _ & I4 & _).
    unfold complete, groups in Hc. simpl in Hc. rewrite andb_true_r in Hc.
    destruct (holds_all d ("SIDPlayfp", sidplay2_keys)) eqn:C1.
    2:{ apply K4, K3, K2, I1. exact (holds_all_not _ _ _ C1). }
    destruct (holds_all d ("Console", console_keys)) eqn:C2.
    2:{ apply K4, K3, I2. destruct (holds_all_not _ _ _ C2) as (k & Hk & Hn).
        exists k. split; [exact Hk|]. now rewrite E1 by discriminate. }
    destruct (holds_all d ("Audio", audio_keys)) eqn:C3.
    2:{ apply K4, I3. destruct (holds_all_not _ _ _ C3) as (k & Hk & Hn).
        exists k. split; [exact Hk|]. now rewrite E2 by discriminate. }
    simpl in Hc.
    apply I4. destruct (holds_all_not _ _ _ Hc) as (k & Hk & Hn).
    exists k. split; [exact Hk|]. now rewrite E3 by discriminate. }
  exists (sections (ini st4)). split.
  { unfold Ini.close, Ini.write. now rewrite Hchg, Hname, Hw. }
  pose proof (group_read_mono _ _ _ _ G1) as M1.
  pose proof (group_read_mono _ _ _ _ G2) as M2.
  pose proof (group_read_mono _ _ _ _ G3) as M3.
  pose proof (group_read_mono _ _ _ _ G4) as M4.
  split; [|intros name key v Hv; apply M4, M3, M2, M1; exact Hv].
  assert (Keep : forall (i i' : iniHandler) name key,
             (forall name2 key v, held_in (sections i) name2 key = Some v ->
                                  held_in (sections i') name2 key = Some v) ->
             held_in (sections i) name key <> None ->
             held_in (sections i') name key <> None).
  { intros i i' name key M Hn.
    destruct (held_in (sections i) name key) as [v|] eqn:E; [|contradiction].
    now rewrite (M name key v E). }
  unfold complete, groups. simpl. rewrite !andb_true_iff.
  destruct G1 as (_ & _ & _ & P1 & _), G2 as (_ & _ & _ & P2 & _),
           G3 as (_ & _ & _ & P3 & _), G4 as (_ & _ & _ & P4 & _).
  split; [|split; [|split; [|split; [|reflexivity]]]]; apply holds_all_spec;
    intros key Hk.
  - apply (Keep _ _ _ _ M4), (Keep _ _ _ _ M3), (Keep _ _ _ _ M2), P1, Hk.
  - apply (Keep _ _ _ _ M4), (Keep _ _ _ _ M3), P2, Hk.
  - apply (Keep _ _ _ _ M4), P3, Hk.
  - apply P4, Hk.
Qed.

(** X24: [IniConfig::read] when there is no file yet and the path can be
    written.  The settings are the defaults (with the default database,
    and plain border glyphs if the uninitialised [ascii] happens to be
    true), and the file is created holding the four sections with every
    key of every group and an empty value each; no other file changes. *)
Theorem X24_read_creates_the_template :
  forall (time0 : Z) (ascii0 : bool) (c : IniConfig double) (fs : filesys)
         (out : list line) (cp path : string),
    Utils.getConfigPath getenv = Some cp ->
    make_dir cp = None ->
    make_dir (cp ++ SEPARATOR ++ DIR_NAME) = None ->
    open_ifstream fs (config_file cp) = None ->
    writable fs (config_file cp) = true ->
    fallback = Some path ->
    exists files output,
      read_config time0 ascii0 c fs out
      = Some (Read_returned double
                {| sidplay2_s :=
                     sidplay2_of parseInt (fun _ => None) path
                                 (sidplay2_s double (defaults c));
                   console_s :=
                     console_of parseBool (fun _ => None) ascii0 console_clear;
                   audio_s := audio_s double (defaults c);
                   emulation_s := emulation_s double (defaults c);
                   m_fileName := config_file cp |}
                files output) /\
      file files (config_file cp)
      = Some (Ini.writeStream (template FEAT_FILTER_RANGE FEAT_CW_STRENGTH)) /\
      (forall q, q <> config_file cp -> file files q = file fs q).
Proof.
  intros time0 ascii0 c fs out cp path Hcp Hd1 Hd2 Hopen Hw Hfb.
  unfold read, tryOpen. rewrite getConfigPath_run, Hcp, Hd1, Hd2.
  cbn [ini printed]. unfold Ini.open, Ini.tryOpen. rewrite Hopen, Hw.
  unfold read_groups, readSidplay2. rewrite Hfb.
  remember (config_file cp) as cf eqn:Ecf.
  remember (out ++ path_lines NDEBUG cp true)%list as out0 eqn:Eout.
  clear Hcp Hd1 Hd2 Hopen Hfb Ecf Eout.
  destruct fs as [f r w]. cbn [writable] in Hw.
  destruct NDEBUG, FEAT_FILTER_RANGE, FEAT_CW_STRENGTH.
  all: match goal with
       | |- context [template ?fr ?cw] =>
           exists (store_file (store_file (mkFs f r w) cf "") cf
                              (Ini.writeStream (template fr cw)))
       end.
  all: eexists; split; [lazy; rewrite Hw; lazy; reflexivity|].
  all: unfold store_file; cbn [file]; rewrite String.eqb_refl.
  all: split; [reflexivity|].
  all: intros q Hq; now destruct (String.eqb_spec q cf).
Qed.

(** X25: [IniConfig::read] is left by an exception when the file names no
    song length database and the default one cannot be examined (no data
    path in the environment, or a file status that cannot be read).  The
    exception of [readSidplay2] is not caught: the Console, Audio and
    Emulation sections are not read, the settings are the defaults except
    for a version the file gave, and the file name is not recorded. *)
Theorem X25_read_is_left_by_the_exception :
  forall (ascii0 : bool) (c : IniConfig double) (fs : filesys)
         (out : list line) (cp text : string),
    Utils.getConfigPath getenv = Some cp ->
    make_dir cp = None ->
    make_dir (cp ++ SEPARATOR ++ DIR_NAME) = None ->
    open_ifstream fs (config_file cp) = Some text ->
    let d := Ini.parseStream [] text in
    empty (string_field (held_in d "SIDPlayfp" "Songlength Database")) = true ->
    fallback = None ->
    exists output,
      (forall time0,
          read_config time0 ascii0 c fs out
          = Some (Read_escaped double
                    {| sidplay2_s :=
                         {| version :=
                              (let v := int_field parseInt 1
                                          (held_in d "SIDPlayfp" "Version") in
                               if v >? 0 then v else 1);
                            database := "";
                            playLength := 0;
                            recordLength := 210000;
                            kernalRom := "";
                            basicRom := "";
                            chargenRom := "";
                            verboseLevel := 0 |};
                       console_s := console_clear;
                       audio_s := audio_s double (defaults c);
                       emulation_s := emulation_s double (defaults c);
                       m_fileName := m_fileName double c |}
                    output)) /\
      exists more, output = (out ++ more)%list.
Proof.
  intros ascii0 c fs out cp text Hcp Hd1 Hd2 Hopen d Hempty Hfb.
  set (st0 := {| ini := {| sections := d; curSection := Singular;
                           fileName := config_file cp; changed := false |};
                 printed := (out ++ path_lines NDEBUG cp true)%list |}).
  assert (Hdb : (let configured :=
                   string_field (held_in (sections (ini st0)) "SIDPlayfp"
                                         "Songlength Database") in
                 if empty configured then fallback else Some configured)
                = None).
  { cbv zeta. simpl sections. now rewrite Hempty. }
  destruct (readSidplay2_escapes_doc NDEBUG parseInt getenv is_regular_file
              exists_no_error read_permissions st0
              (sidplay2_s double (defaults c)) Hdb)
    as (st1 & Hrun1 & [o1 Ho1]).
  exists (printed st1). split.
  - intros time0. unfold read, tryOpen.
    rewrite getConfigPath_run, Hcp, Hd1, Hd2.
    cbn [ini printed]. unfold Ini.open, Ini.tryOpen. rewrite Hopen.
    cbn [sections curSection fileName changed iniHandler_new].
    rewrite after_push_back_singular.
    unfold read_groups. fold d. fold st0. rewrite Hrun1. reflexivity.
  - exists (path_lines NDEBUG cp true ++ o1)%list.
    rewrite Ho1. simpl printed. now rewrite <- app_assoc.
Qed.

Lemma nonempty_canon (o : option string) :
  nonempty (Some (string_field o)) = nonempty o.
Proof. now destruct o. Qed.

Lemma nonempty_view (o o' : option string) :
  string_field o' = string_field o -> nonempty o' = nonempty o.
Proof. intros H. now rewrite !nonempty_string_field, H. Qed.

Lemma group_read_view (name : string) (keys : list string)
      (i i' : iniHandler) :
  group_read name keys i i' ->
  forall name2 key,
    string_field (held_in (sections i') name2 key)
    = string_field (held_in (sections i) name2 key).
Proof.
  intros (G1 & G2 & _ & _ & _ & _ & _ & _ & G9 & _) name2 key.
  destruct (string_dec name2 name) as [->|Hne]; [|now rewrite G1].
  destruct (in_dec string_dec key keys) as [Hin|Hout].
  - now rewrite (G9 key Hin).
  - now rewrite G2.
Qed.

Ltac view_fields H :=
  repeat match goal with
         | |- context [nonempty (?h ?k)] =>
             lazymatch type of H with
             | forall key, string_field (h key) = _ =>
                 rewrite (nonempty_view _ _ (H k))
             end
         | |- context [string_field (?h ?k)] =>
             lazymatch type of H with
             | forall key, string_field (h key) = _ => rewrite (H k)
             end
         end.

Lemma sidplay2_of_view (h h' : string -> option string) (path : string)
      (s : sidplay2_section) :
  (forall key, string_field (h' key) = string_field (h key)) ->
  sidplay2_of parseInt h' path s = sidplay2_of parseInt h path s.
Proof.
  intros H. unfold sidplay2_of, int_field, time_field. now view_fields H.
Qed.

Lemma console_of_view (h h' : string -> option string) (ascii0 : bool)
      (s : console_section) :
  (forall key, string_field (h' key) = string_field (h key)) ->
  console_of parseBool h' ascii0 s = console_of parseBool h ascii0 s.
Proof.
  intros H. unfold console_of, bool_field, color_field. now view_fields H.
Qed.

Lemma audio_of_view (h h' : string -> option string) (s : audio_section) :
  (forall key, string_field (h' key) = string_field (h key)) ->
  audio_of parseInt h' s = audio_of parseInt h s.
Proof. intros H. unfold audio_of, int_field. now view_fields H. Qed.

Lemma emulation_of_view (h h' : string -> option string)
      (s : emulation_section double) :
  (forall key, string_field (h' key) = string_field (h key)) ->
  emulation_of double parseDouble parseInt parseBool
               FEAT_FILTER_RANGE FEAT_CW_STRENGTH h' s
  = emulation_of double parseDouble parseInt parseBool
                 FEAT_FILTER_RANGE FEAT_CW_STRENGTH h s.
Proof.
  intros H.
  unfold emulation_of, bool_field, int_field, double_field, c64_model_field,
         cia_model_field, sid_model_field, cw_field, sampling_field.
  cbv zeta. now view_fields H.
Qed.

Local Abbreviation settings :=
  (settings_of double parseDouble parseInt parseBool
               FEAT_FILTER_RANGE FEAT_CW_STRENGTH).

Lemma settings_view (d d' : sections_t) (path : string) (ascii0 : bool)
      (c0 : IniConfig double) (p : string) :
  (forall name key,
      string_field (held_in d' name key) = string_field (held_in d name key)) ->
  settings d' path ascii0 c0 p = settings d path ascii0 c0 p.
Proof.
  intros H. unfold settings_of.
  rewrite (sidplay2_of_view (held_in d "SIDPlayfp") (held_in d' "SIDPlayfp"))
    by (intros key; apply H).
  rewrite (console_of_view (held_in d "Console") (held_in d' "Console"))
    by (intros key; apply H).
  rewrite (audio_of_view (held_in d "Audio") (held_in d' "Audio"))
    by (intros key; apply H).
  rewrite (emulation_of_view (held_in d "Emulation") (held_in d' "Emulation"))
    by (intros key; apply H).
  reflexivity.
Qed.

Lemma bool_field_idem (x : bool) (o : option string) :
  bool_field parseBool (bool_field parseBool x o) o = bool_field parseBool x o.
Proof.
  unfold bool_field. destruct (nonempty o) as [v|]; [|reflexivity].
  now destruct (parseBool v).
Qed.

(** Reading again starts from what was read: only [digiboost] comes from
    the settings before, and the same value is read into it again.  The
    content of the local [ascii] is that of the second call. *)
Lemma settings_again (d : sections_t) (path : string) (ascii1 ascii2 : bool)
      (c : IniConfig double) (p : string) :
  settings d path ascii2 (defaults (settings d path ascii1 (defaults c) p)) p
  = settings d path ascii2 (defaults c) p.
Proof.
  unfold settings_of, clear.
  cbn [sidplay2_s console_s audio_s emulation_s m_fileName].
  f_equal. unfold emulation_of.
  cbn [engine modelDefault modelForced digiboost ciaModel sidModel forceModel
       filter bias filterCurve6581 filterRange6581 filterCurve8580
       combinedWaveformsStrength powerOnDelay samplingMethod fastSampling].
  rewrite bool_field_idem. now destruct FEAT_FILTER_RANGE, FEAT_CW_STRENGTH.
Qed.

(** A value that [parseBool] reads decides [ascii] whatever the local
    held; without one the local is what [readConsole] tests. *)
Lemma bool_field_read (x y : bool) (o : option string) :
  (exists v b, nonempty o = Some v /\ parseBool v = Some b) ->
  bool_field parseBool x o = bool_field parseBool y o.
Proof.
  intros (v & b & Hv & Hb). unfold bool_field. now rewrite Hv, Hb.
Qed.

Lemma bool_field_unread (x : bool) (o : option string) :
  (forall v, nonempty o = Some v -> parseBool v = None) ->
  bool_field parseBool x o = x.
Proof.
  intros H. unfold bool_field. destruct (nonempty o) as [v|]; [|reflexivity].
  now rewrite (H v eq_refl).
Qed.

Lemma group_keys_valid :
  Forall (fun key => valid_entry (key, "") = true) sidplay2_keys /\
  Forall (fun key => valid_entry (key, "") = true) console_keys /\
  Forall (fun key => valid_entry (key, "") = true) audio_keys /\
  Forall (fun key => valid_entry (key, "") = true)
         (emulation_keys FEAT_FILTER_RANGE FEAT_CW_STRENGTH).
Proof.
  repeat split; try (repeat constructor).
  destruct FEAT_FILTER_RANGE, FEAT_CW_STRENGTH; repeat constructor.
Qed.

(** The four group readers and the two closings, from a handler that
    holds the document [d] unchanged. *)
Lemma read_groups_doc (ascii0 : bool) (c0 : IniConfig double) (fs : filesys)
      (out0 : list line) (d : sections_t) (cs : iterator) (p path : string) :
  (let configured :=
     string_field (held_in d "SIDPlayfp" "Songlength Database") in
   if empty configured then fallback else Some configured) = Some path ->
  (FEAT_FILTER_RANGE = true ->
   nonempty (held_in d "Emulation" "filterRange6581") = None) ->
  exists d' output,
    (forall time0,
        read_groups NDEBUG double parseDouble parseInt parseBool getenv
                    is_regular_file exists_no_error read_permissions
                    FEAT_FILTER_RANGE FEAT_CW_STRENGTH moved time0 ascii0 c0
                    {| ini := {| sections := d; curSection := cs;
                                 fileName := p; changed := false |};
                       printed := out0 |} fs
        = Some (Read_returned double (settings d path ascii0 c0 p)
                  (if (negb (complete FEAT_FILTER_RANGE FEAT_CW_STRENGTH d)
                       && writable fs p)%bool
                   then store_file fs p (Ini.writeStream d') else fs)
                  output)) /\
    (exists more, output = (out0 ++ more)%list) /\
    (complete FEAT_FILTER_RANGE FEAT_CW_STRENGTH d = true -> d' = d) /\
    complete FEAT_FILTER_RANGE FEAT_CW_STRENGTH d' = true /\
    (forall name key,
        string_field (held_in d' name key)
        = string_field (held_in d name key)) /\
    (valid_document d = true -> valid_document d' = true).
Proof.
  intros Hdb Hold.
  set (st0 := {| ini := {| sections := d; curSection := cs;
                           fileName := p; changed := false |};
                 printed := out0 |}).
  destruct (readSidplay2_doc NDEBUG parseInt getenv is_regular_file
              exists_no_error read_permissions st0
              (sidplay2_s double c0) path Hdb)
    as (st1 & Hrun1 & G1 & [o1 Ho1]).
  destruct (readConsole_doc NDEBUG parseBool st1 ascii0 (console_s double c0))
    as (st2 & Hrun2 & G2 & [o2 Ho2]).
  destruct (readAudio_doc NDEBUG parseInt st2 (audio_s double c0))
    as (st3 & Hrun3 & G3 & [o3 Ho3]).
  assert (E1 : forall name key, name <> "SIDPlayfp" ->
                 held_in (sections (ini st1)) name key = held_in d name key)
    by (intros name key Hne; exact (proj1 G1 name key Hne)).
  assert (E2 : forall name key, name <> "SIDPlayfp" -> name <> "Console" ->
                 held_in (sections (ini st2)) name key = held_in d name key)
    by (intros name key H1 H2; rewrite (proj1 G2 name key H2); now apply E1).
  assert (E3 : forall name key, name <> "SIDPlayfp" -> name <> "Console" ->
                 name <> "Audio" ->
                 held_in (sections (ini st3)) name key = held_in d name key)
    by (intros name key H1 H2 H3; rewrite (proj1 G3 name key H3);
        now apply E2).
  assert (Hold3 : FEAT_FILTER_RANGE = true ->
                  nonempty (held_in (sections (ini st3)) "Emulation"
                                    "filterRange6581") = None).
  { intros HF. rewrite E3 by discriminate. exact (Hold HF). }
  destruct (readEmulation_doc NDEBUG double parseDouble parseInt parseBool
              moved FEAT_FILTER_RANGE FEAT_CW_STRENGTH st3
              (emulation_s double c0) Hold3)
    as (st4 & Hrun4 & G4 & [o4 Ho4]).
  assert (Hname : fileName (ini st4) = p).
  { destruct G1 as (_ & _ & _ & _ & F1 & _), G2 as (_ & _ & _ & _ & F2 & _),
             G3 as (_ & _ & _ & _ & F3 & _), G4 as (_ & _ & _ & _ & F4 & _).
    now rewrite F4, F3, F2, F1. }
  assert (Hsame : complete FEAT_FILTER_RANGE FEAT_CW_STRENGTH d = true ->
                  sections (ini st4) = d /\ changed (ini st4) = false).
  { intros Hc. unfold complete, groups in Hc. simpl in Hc.
    rewrite !andb_true_iff in Hc. destruct Hc as (C1 & C2 & C3 & C4 & _).
    pose proof (proj1 (holds_all_spec _ _ _) C1) as A1.
    pose proof (proj1 (holds_all_spec _ _ _) C2) as A2.
    pose proof (proj1 (holds_all_spec _ _ _) C3) as A3.
    pose proof (proj1 (holds_all_spec _ _ _) C4) as A4.
    clear C1 C2 C3 C4.
    destruct G1 as (_ & _ & _ & _ & _ & _ & S1 & _).
    destruct (S1 ltac:(discriminate) A1) as [S1s S1c].
    destruct G2 as (_ & _ & _ & _ & _ & _ & S2 & _).
    simpl sections in S1s. rewrite <- S1s in A2.
    destruct (S2 ltac:(discriminate) A2) as [S2s S2c].
    destruct G3 as (_ & _ & _ & _ & _ & _ & S3 & _).
    rewrite <- S1s, <- S2s in A3.
    destruct (S3 ltac:(discriminate) A3) as [S3s S3c].
    destruct G4 as (_ & _ & _ & _ & _ & _ & S4 & _).
    rewrite <- S1s, <- S2s, <- S3s in A4.
    destruct (S4 emulation_keys_first A4) as [S4s S4c].
    split; [now rewrite S4s, S3s, S2s|].
    now rewrite S4c, S3c, S2c, S1c. }
  assert (Hchg : complete FEAT_FILTER_RANGE FEAT_CW_STRENGTH d = false ->
                 changed (ini st4) = true).
  { intros Hc.
    destruct G1 as (_ & _ & _ & _ & _ & _ & _ & I1 & _),
             G2 as (_ & _ & _ & _ & _ & K2 & _ & I2 & _),
             G3 as (_ & _ & _ & _ & _ & K3 & _ & I3 & _),
             G4 as (_ & _ & _ & _ & _ & K4 & _ & I4 & _).
    unfold complete, groups in Hc. simpl in Hc. rewrite andb_true_r in Hc.
    destruct (holds_all d ("SIDPlayfp", sidplay2_keys)) eqn:C1.
    2:{ apply K4, K3, K2, I1. exact (holds_all_not _ _ _ C1). }
    destruct (holds_all d ("Console", console_keys)) eqn:C2.
    2:{ apply K4, K3, I2. destruct (holds_all_not _ _ _ C2) as (k & Hk & Hn).
        exists k. split; [exact Hk|]. now rewrite E1 by discriminate. }
    destruct (holds_all d ("Audio", audio_keys)) eqn:C3.
    2:{ apply K4, I3. destruct (holds_all_not _ _ _ C3) as (k & Hk & Hn).
        exists k. split; [exact Hk|]. now rewrite E2 by discriminate. }
    simpl in Hc.
    apply I4. destruct (holds_all_not _ _ _ Hc) as (k & Hk & Hn).
    exists k. split; [exact Hk|]. now rewrite E3 by discriminate. }
  exists (sections (ini st4)), (printed st4).
  split.
  { intros time0. unfold read_groups. fold st0. rewrite Hrun1.
    unfold bind. rewrite Hrun2, Hrun3, Hrun4. unfold ret.
    rewrite (surjective_pairing (Ini.close (ini st4) fs)), close_close.
    rewrite Hname. unfold settings_of.
    rewrite (console_of_ext _ (held_in d "Console") _ _
               (fun key => E1 "Console" key ltac:(discriminate))).
    rewrite (audio_of_ext _ (held_in d "Audio") _
               (fun key => E2 "Audio" key ltac:(discriminate)
                                          ltac:(discriminate))).
    rewrite (emulation_of_ext _ (held_in d "Emulation") _
               (fun key => E3 "Emulation" key ltac:(discriminate)
                              ltac:(discriminate) ltac:(discriminate))).
    do 2 f_equal. unfold Ini.close, Ini.write. rewrite Hname.
    destruct (complete FEAT_FILTER_RANGE FEAT_CW_STRENGTH d) eqn:Hc.
    - now rewrite (proj2 (Hsame eq_refl)).
    - rewrite (Hchg eq_refl). simpl. now destruct (writable fs p). }
  split.
  { exists (o1 ++ o2 ++ o3 ++ o4)%list.
    rewrite Ho4, Ho3, Ho2, Ho1. simpl printed. now rewrite <- !app_assoc. }
  split; [intros Hc; exact (proj1 (Hsame Hc))|].
  pose proof (group_read_mono _ _ _ _ G2) as M2.
  pose proof (group_read_mono _ _ _ _ G3) as M3.
  pose proof (group_read_mono _ _ _ _ G4) as M4.
  split.
  { assert (Keep : forall (i i' : iniHandler) name key,
               (forall name2 key v, held_in (sections i) name2 key = Some v ->
                                    held_in (sections i') name2 key = Some v) ->
               held_in (sections i) name key <> None ->
               held_in (sections i') name key <> None).
    { intros i i' name key M Hn.
      destruct (held_in (sections i) name key) as [v|] eqn:E; [|contradiction].
      now rewrite (M name key v E). }
    unfold complete, groups. simpl. rewrite !andb_true_iff.
    destruct G1 as (_ & _ & _ & P1 & _), G2 as (_ & _ & _ & P2 & _),
             G3 as (_ & _ & _ & P3 & _), G4 as (_ & _ & _ & P4 & _).
    split; [|split; [|split; [|split; [|reflexivity]]]];
      apply holds_all_spec; intros key Hk.
    - apply (Keep _ _ _ _ M4), (Keep _ _ _ _ M3), (Keep _ _ _ _ M2), P1, Hk.
    - apply (Keep _ _ _ _ M4), (Keep _ _ _ _ M3), P2, Hk.
    - apply (Keep _ _ _ _ M4), P3, Hk.
    - apply P4, Hk. }
  split.
  { intros name key.
    rewrite (group_read_view _ _ _ _ G4), (group_read_view _ _ _ _ G3),
            (group_read_view _ _ _ _ G2), (group_read_view _ _ _ _ G1).
    reflexivity. }
  intros Hv. destruct group_keys_valid as (V1 & V2 & V3 & V4).
  destruct G1 as (_ & _ & _ & _ & _ & _ & _ & _ & _ & W1),
           G2 as (_ & _ & _ & _ & _ & _ & _ & _ & _ & W2),
           G3 as (_ & _ & _ & _ & _ & _ & _ & _ & _ & W3),
           G4 as (_ & _ & _ & _ & _ & _ & _ & _ & _ & W4).
  apply (W4 eq_refl V4), (W3 eq_refl V3), (W2 eq_refl V2), (W1 eq_refl V1).
  exact Hv.
Qed.

Lemma read_run (time0 : Z) (ascii0 : bool) (c : IniConfig double)
      (fs : filesys) (out : list line) (cp text : string) :
  Utils.getConfigPath getenv = Some cp ->
  make_dir cp = None ->
  make_dir (cp ++ SEPARATOR ++ DIR_NAME) = None ->
  open_ifstream fs (config_file cp) = Some text ->
  read_config time0 ascii0 c fs out
  = read_groups NDEBUG double parseDouble parseInt parseBool getenv
                is_regular_file exists_no_error read_permissions
                FEAT_FILTER_RANGE FEAT_CW_STRENGTH moved time0 ascii0
                (defaults c)
                {| ini := {| sections := Ini.parseStream [] text;
                             curSection := Singular;
                             fileName := config_file cp; changed := false |};
                   printed := (out ++ path_lines NDEBUG cp true)%list |} fs.
Proof.
  intros Hcp Hd1 Hd2 Hopen. unfold read, tryOpen.
  rewrite getConfigPath_run, Hcp, Hd1, Hd2.
  cbn [ini printed]. unfold Ini.open, Ini.tryOpen. rewrite Hopen.
  cbn [sections curSection fileName changed iniHandler_new].
  rewrite after_push_back_singular. reflexivity.
Qed.

(** X29: reading again.  After [read] has returned for a file that parses
    to a valid document (with a database at hand and no value under the
    old filter range key), a second [read] on the settings and the files
    the first one left returns too and leaves the same files: the
    placeholders written the first time are read back as no value, and no
    key is missing any more.  The settings of the three other groups and
    the file name are the same; the console group is again the function of
    the document, computed with the content the local [ascii] has in the
    second call.  So the two results are equal when the ASCII key holds a
    value that is read as a boolean, or when the local holds the same in
    both calls; when the key gives nothing the glyphs of each call follow
    its own local, and the two calls may differ there. *)
Theorem X29_reading_again_differs_only_in_glyphs :
  forall (ascii1 : bool) (c : IniConfig double) (fs : filesys)
         (out : list line) (cp text path : string),
    Utils.getConfigPath getenv = Some cp ->
    make_dir cp = None ->
    make_dir (cp ++ SEPARATOR ++ DIR_NAME) = None ->
    open_ifstream fs (config_file cp) = Some text ->
    let d := Ini.parseStream [] text in
    (let configured :=
       string_field (held_in d "SIDPlayfp" "Songlength Database") in
     if empty configured then fallback else Some configured) = Some path ->
    (FEAT_FILTER_RANGE = true ->
     nonempty (held_in d "Emulation" "filterRange6581") = None) ->
    valid_document d = true ->
    exists config files output,
      (forall time0,
          read_config time0 ascii1 c fs out
          = Some (Read_returned double config files output)) /\
      console_s double config
      = console_of parseBool (held_in d "Console") ascii1 console_clear /\
      forall ascii2 : bool,
      exists config' output',
        (forall time0,
            read_config time0 ascii2 config files output
            = Some (Read_returned double config' files output')) /\
        sidplay2_s double config' = sidplay2_s double config /\
        audio_s double config' = audio_s double config /\
        emulation_s double config' = emulation_s double config /\
        m_fileName double config' = m_fileName double config /\
        console_s double config'
        = console_of parseBool (held_in d "Console") ascii2 console_clear /\
        (ascii2 = ascii1 \/
         (exists v b, nonempty (held_in d "Console" "ASCII") = Some v /\
                      parseBool v = Some b) ->
         config' = config) /\
        ((forall v, nonempty (held_in d "Console" "ASCII") = Some v ->
                    parseBool v = None) ->
         glyphs (console_s double config)
         = (if ascii1 then plain_glyphs else glyphs console_clear) /\
         glyphs (console_s double config')
         = (if ascii2 then plain_glyphs else glyphs console_clear)).
Proof.
  intros ascii1 c fs out cp text path Hcp Hd1 Hd2 Hopen d Hdb Hold Hvalid.
  destruct (read_groups_doc ascii1 (defaults c) fs
              (out ++ path_lines NDEBUG cp true)%list d Singular
              (config_file cp) path Hdb Hold)
    as (d' & out1 & Hrun1 & _ & Hsame1 & Hcomp1 & Hview1 & Hvalid1).
  set (config := settings d path ascii1 (defaults c) (config_file cp)) in *.
  set (files := if (negb (complete FEAT_FILTER_RANGE FEAT_CW_STRENGTH d)
                    && writable fs (config_file cp))%bool
                then store_file fs (config_file cp) (Ini.writeStream d')
                else fs) in *.
  assert (Hread : readable fs (config_file cp) = true).
  { unfold open_ifstream in Hopen.
    now destruct (readable fs (config_file cp)). }
  assert (Hnext : exists text1,
             open_ifstream files (config_file cp) = Some text1 /\
             (forall name key,
                 string_field (held_in (Ini.parseStream [] text1) name key)
                 = string_field (held_in d name key)) /\
             (negb (complete FEAT_FILTER_RANGE FEAT_CW_STRENGTH
                             (Ini.parseStream [] text1))
              && writable files (config_file cp))%bool = false).
  { unfold files.
    destruct (negb (complete FEAT_FILTER_RANGE FEAT_CW_STRENGTH d)
              && writable fs (config_file cp))%bool eqn:Hb.
    - exists (Ini.writeStream d'). split.
      { unfold open_ifstream, store_file. cbn [readable file].
        now rewrite Hread, String.eqb_refl. }
      rewrite (parse_written d' (Hvalid1 Hvalid) []). cbn [app].
      split; [exact Hview1|]. now rewrite Hcomp1.
    - exists text. split; [exact Hopen|]. split; [reflexivity|exact Hb]. }
  destruct Hnext as (text1 & Hopen1 & Hview & Hkeep).
  set (d1 := Ini.parseStream [] text1) in *.
  assert (Hdb1 : (let configured :=
                    string_field (held_in d1 "SIDPlayfp"
                                          "Songlength Database") in
                  if empty configured then fallback else Some configured)
                 = Some path).
  { cbv zeta. rewrite Hview. exact Hdb. }
  assert (Hold1 : FEAT_FILTER_RANGE = true ->
                  nonempty (held_in d1 "Emulation" "filterRange6581") = None).
  { intros HF. rewrite (nonempty_view _ _ (Hview _ _)). exact (Hold HF). }
  exists config, files, out1.
  split.
  { intros time0. rewrite (read_run _ _ _ _ _ cp text Hcp Hd1 Hd2 Hopen).
    apply Hrun1. }
  split; [reflexivity|].
  intros ascii2.
  destruct (read_groups_doc ascii2 (defaults config) files
              (out1 ++ path_lines NDEBUG cp true)%list d1 Singular
              (config_file cp) path Hdb1 Hold1)
    as (d2 & out2 & Hrun2 & _).
  exists (settings d path ascii2 (defaults c) (config_file cp)), out2.
  split.
  { intros time0. rewrite (read_run _ _ _ _ _ cp text1 Hcp Hd1 Hd2 Hopen1).
    fold d1. rewrite Hrun2, Hkeep.
    rewrite (settings_view d d1 _ _ _ _ Hview).
    unfold config. now rewrite settings_again. }
  split; [reflexivity|]. split; [reflexivity|]. split; [reflexivity|].
  split; [reflexivity|]. split; [reflexivity|].
  split.
  { intros [->|Hread2]; [reflexivity|].
    unfold config, settings_of. f_equal. unfold console_of.
    now rewrite (bool_field_read ascii2 ascii1 _ Hread2). }
  intros Hno. unfold config, settings_of, console_of, glyphs.
  cbn [console_s topLeft topRight bottomLeft bottomRight vertical horizontal
       junctionLeft junctionRight].
  rewrite !(bool_field_unread _ _ Hno).
  split; [now destruct ascii1|now destruct ascii2].
Qed.

End ReadFacts.

(* ------------------------------------------------------------------ *)
(** ** What the parse lets a reader see *)

Lemma held_in_app_last (front : sections_t) (n : string) (ks : keys_t)
      (name key : string) :
  held_in (front ++ [(n, ks)])%list name key
  = match section_of front name with
    | Some sect => first_value (snd sect) key
    | None => if String.eqb name n then first_value ks key else None
    end.
Proof.
  unfold held_in, section_of.
  destruct (find_if_cases (compare name) front)
    as [[H1 H2]|(pre & x & post & E & Hp & Hx & Hf)];
    unfold sections_t, keyPair_t, keys_t, stringPair_t in *.
  - match goal with
    | |- context [find_if ?p (?a ++ ?b)%list] =>
        rewrite (find_if_app_none p a b H2)
    end.
    rewrite H1.
    rewrite (proj2 (nth_error_None front (List.length front)) (Nat.le_refl _)).
    simpl find_if. unfold compare at 1. simpl fst.
    destruct (String.eqb name n).
    + rewrite Nat.add_0_r, nth_error_app2, Nat.sub_diag by apply Nat.le_refl.
      reflexivity.
    + rewrite (proj2 (nth_error_None _ _)); [reflexivity|].
      rewrite length_app. simpl. apply Nat.le_refl.
  - rewrite Hf. subst front. rewrite <- app_assoc. simpl app.
    match goal with
    | |- context [find_if ?p (?a ++ ?y :: ?b)%list] =>
        rewrite (find_if_split p a b y Hp Hx)
    end.
    rewrite !nth_error_app2, !Nat.sub_diag by apply Nat.le_refl.
    reflexivity.
Qed.

Lemma held_in_push (acc : sections_t) (e : stringPair_t) (name key : string) :
  (forall v, held_in acc name key = Some v ->
             held_in (Ini.push_back_last acc e) name key = Some v) /\
  (key <> fst e ->
   held_in (Ini.push_back_last acc e) name key = held_in acc name key).
Proof.
  destruct acc as [|s0 r0]; [now split|].
  destruct (exists_last (l := s0 :: r0) ltac:(discriminate))
    as (front & [n ks] & E).
  rewrite E, push_back_last_snoc, !held_in_app_last.
  destruct (section_of front name); [now split|].
  destruct (String.eqb name n); [|now split].
  rewrite first_value_app. destruct e as [k w]. split.
  - intros v ->. reflexivity.
  - intros Hne. destruct (first_value ks key); [reflexivity|].
    rewrite first_value_single. simpl in Hne.
    now destruct (String.eqb_spec key k).
Qed.

Lemma parseLine_keeps (acc : sections_t) (l name key v : string) :
  held_in acc name key = Some v ->
  held_in (Ini.parseLine acc l) name key = Some v.
Proof.
  intros Hv. destruct l as [|c r]; [exact Hv|].
  unfold Ini.parseLine.
  destruct (Ascii.eqb c ";" || Ascii.eqb c "#")%bool.
  - destruct (negb (Ini.sections_empty acc)); [|exact Hv].
    now apply held_in_push.
  - destruct (Ascii.eqb c "[").
    + destruct (Ini.parseSection (String c r)); [|exact Hv].
      now rewrite held_in_snoc.
    + destruct (negb (Ini.sections_empty acc)); [|exact Hv].
      destruct (Ini.parseKey (String c r)); [|exact Hv].
      now apply held_in_push.
Qed.

(** X26: which of several entries a reader sees.  A value that the first
    section of a name holds for a key is never replaced by the lines that
    follow: a later entry with the same key and a later section of the
    same name are kept in the document but not seen.  Comment lines and
    empty lines do not change what is held under any key that is not
    empty. *)
Theorem X26_first_entry_is_the_one_seen :
  forall (acc : sections_t),
    (forall text name key v,
        held_in acc name key = Some v ->
        held_in (Ini.parseStream acc text) name key = Some v) /\
    (forall c rest name key,
        comment_start c = true -> key <> "" ->
        held_in (Ini.parseLine acc (String c rest)) name key
        = held_in acc name key) /\
    Ini.parseLine acc "" = acc.
Proof.
  intros acc. split; [|split; [|reflexivity]].
  - intros text name key v. unfold Ini.parseStream.
    revert acc. induction (getlines text) as [|l ls IH]; intros acc Hv;
      [exact Hv|].
    rewrite fold_left_cons. apply IH. now apply parseLine_keeps.
  - intros c rest name key Hc Hk. unfold Ini.parseLine.
    unfold comment_start in Hc. rewrite Hc.
    destruct (negb (Ini.sections_empty acc)); [|reflexivity].
    apply held_in_push. simpl. exact Hk.
Qed.

Lemma getlines_final_endl (text : string) :
  getlines (text ++ endl) = getlines text \/
  getlines (text ++ endl) = (getlines text ++ [""])%list.
Proof.
  induction text as [|c r IH]; [now right|].
  change (String c r ++ endl) with (String c (r ++ endl)).
  cbn [getlines]. destruct (Ascii.eqb c LF).
  - destruct IH as [->| ->]; [now left|now right].
  - destruct IH as [->| ->]; [now left|].
    destruct (getlines r) as [|l ls]; [now left|now right].
Qed.

Lemma getlines_endl_nonempty (a : string) : getlines (a ++ endl) <> [].
Proof.
  destruct a as [|c r]; [discriminate|].
  change (String c r ++ endl) with (String c (r ++ endl)).
  cbn [getlines]. destruct (Ascii.eqb c LF); [discriminate|].
  destruct (getlines (r ++ endl)); discriminate.
Qed.

Lemma getlines_app (a b : string) :
  getlines ((a ++ endl) ++ b) = (getlines (a ++ endl) ++ getlines b)%list.
Proof.
  induction a as [|c r IH]; [reflexivity|].
  change ((String c r ++ endl) ++ b) with (String c ((r ++ endl) ++ b)).
  change (String c r ++ endl) with (String c (r ++ endl)).
  cbn [getlines]. rewrite IH. destruct (Ascii.eqb c LF); [reflexivity|].
  pose proof (getlines_endl_nonempty r) as Hne.
  destruct (getlines (r ++ endl)) as [|l ls]; [contradiction|reflexivity].
Qed.

(** X27: the parse goes line by line.  A text that ends a line and goes on
    is parsed as its first part followed by the rest; an empty line
    changes nothing wherever it stands; and a final line is parsed the
    same with or without its line end. *)
Theorem X27_parse_is_line_by_line :
  forall (acc : sections_t) (a b : string),
    Ini.parseStream acc ((a ++ endl) ++ b)
    = Ini.parseStream (Ini.parseStream acc (a ++ endl)) b /\
    Ini.parseStream acc ((a ++ endl) ++ endl ++ b)
    = Ini.parseStream acc ((a ++ endl) ++ b) /\
    Ini.parseStream acc (a ++ endl) = Ini.parseStream acc a.
Proof.
  intros acc a b. unfold Ini.parseStream. split; [|split].
  - now rewrite getlines_app, fold_left_app.
  - rewrite !getlines_app, !fold_left_app.
    change (endl ++ b) with (String LF b). reflexivity.
  - destruct (getlines_final_endl a) as [->| ->]; [reflexivity|].
    now rewrite fold_left_app.
Qed.

(** X28: [IniConfig::clear].  Every setting is set to a value that does
    not depend on what the object held, except [digiboost], which no
    statement assigns and which therefore keeps its value (as does the
    file name); with both features compiled in, two objects that agree on
    [digiboost] are cleared to the same settings.  Clearing twice is
    clearing once. *)
Theorem X28_clear_leaves_digiboost_alone :
  forall (double : Type) (FEAT_FILTER_RANGE FEAT_CW_STRENGTH : bool)
         (DEFAULT_SAMPLING_FREQ : Z) (half : double) (c c' : IniConfig double),
    let cleared :=
      clear double FEAT_FILTER_RANGE FEAT_CW_STRENGTH
            DEFAULT_SAMPLING_FREQ half in
    digiboost double (emulation_s double (cleared c))
    = digiboost double (emulation_s double c) /\
    m_fileName double (cleared c) = m_fileName double c /\
    sidplay2_s double (cleared c) = sidplay2_s double (cleared c') /\
    console_s double (cleared c) = console_s double (cleared c') /\
    audio_s double (cleared c) = audio_s double (cleared c') /\
    (FEAT_FILTER_RANGE = true -> FEAT_CW_STRENGTH = true ->
     digiboost double (emulation_s double c)
     = digiboost double (emulation_s double c') ->
     emulation_s double (cleared c) = emulation_s double (cleared c')) /\
    cleared (cleared c) = cleared c.
Proof.
  intros double FR CW freq half c c'. cbv zeta.
  repeat (split; [reflexivity|]). split.
  - intros -> -> H. unfold clear. cbn [emulation_s]. now rewrite H.
  - unfold clear. cbn [emulation_s m_fileName digiboost filterRange6581
                       combinedWaveformsStrength].
    now destruct FR, CW.
Qed.

(* ------------------------------------------------------------------ *)
(** ** The properties above at concrete documents *)

(** X2 at a section without the Channels key. *)
Lemma X2_addValue_witness :
  Ini.getValue
    {| sections := [("Audio", [("Frequency", "48000"); ("Channels", "2")])];
       curSection := Pos 0; fileName := "sidplayfp.ini"; changed := true |}
    "Channels"
  = Some (Some "2").
Proof.
  destruct (X2_addValue_then_getValue
              (ini (document_with "Audio" "Frequency" "48000"))
              {| sections := [("Audio", [("Frequency", "48000");
                                         ("Channels", "2")])];
                 curSection := Pos 0; fileName := "sidplayfp.ini";
                 changed := true |}
              ("Audio", [("Frequency", "48000")]) "Channels" "2"
              eq_refl eq_refl) as (_ & H & _).
  apply H. intros v [E|[]]. discriminate E.
Defined.

(** X3 at the same insertion, looked up under the other key. *)
Lemma X3_addValue_frame_witness :
  Ini.getValue
    {| sections := [("Audio", [("Frequency", "48000"); ("Channels", "2")])];
       curSection := Pos 0; fileName := "sidplayfp.ini"; changed := true |}
    "Frequency"
  = Ini.getValue (ini (document_with "Audio" "Frequency" "48000")) "Frequency".
Proof.
  destruct (X3_addValue_frame
              (ini (document_with "Audio" "Frequency" "48000"))
              {| sections := [("Audio", [("Frequency", "48000");
                                         ("Channels", "2")])];
                 curSection := Pos 0; fileName := "sidplayfp.ini";
                 changed := true |}
              ("Audio", [("Frequency", "48000")]) "Channels" "2"
              eq_refl eq_refl) as (H & _).
  apply H. discriminate.
Defined.

(** X5 at the line "Frequency = 48000". *)
Lemma X5_parseKey_witness :
  exists sp1 sp2,
    "Frequency = 48000" = "Frequency" ++ sp1 ++ "=" ++ sp2 ++ "48000" /\
    blank sp1 = true /\ blank sp2 = true.
Proof.
  destruct (X5_parseKey_splits_at_first_equals "Frequency = 48000" eq_refl)
    as (_ & H).
  destruct (H "Frequency" "48000" eq_refl eq_refl)
    as (sp1 & sp2 & E & B1 & B2 & _).
  now exists sp1, sp2.
Defined.

(** X6 at the line " = x". *)
Lemma X6_blank_key_witness :
  exists sp2 v,
    " x" = sp2 ++ v /\ blank sp2 = true /\
    Ini.parseKey (" " ++ "=" ++ " x") = Some ("", v) /\
    Ini.writeEntry ("", v) = v ++ endl.
Proof.
  apply (X6_parseKey_blank_key " " " x"); [discriminate|reflexivity|reflexivity].
Defined.

(** X7 at the header "[Audio] ; output". *)
Lemma X7_parseSection_witness :
  Ini.parseSection "[Audio] ; output" = Some "Audio".
Proof.
  destruct (X7_parseSection_name_up_to_first_bracket "[Audio] ; output" eq_refl)
    as (_ & H).
  exact (H "Audio" " ; output" eq_refl eq_refl).
Defined.

(** X9 at a key/value line and a comment that precede the first header. *)
Lemma X9_dropped_lines_witness :
  fold_left Ini.parseLine
            (["Frequency=48000"; "; a comment"] ++ ["[Audio]"; "Channels=2"])%list
            []
  = fold_left Ini.parseLine ["[Audio]"; "Channels=2"] [].
Proof.
  assert (H : Forall opens_no_section ["Frequency=48000"; "; a comment"]).
  { repeat constructor. }
  exact (proj1 (X9_lines_before_first_header_are_dropped _ H)
               ["[Audio]"; "Channels=2"]).
Defined.

(** X10 at a document of one section and one entry. *)
Lemma X10_write_then_parse_witness :
  Ini.parseStream [] (Ini.writeStream [("Audio", [("Frequency", "48000")])])
  = [("Audio", [("Frequency", "48000")])].
Proof.
  exact (proj1 (X10_write_then_parse [("Audio", [("Frequency", "48000")])]
                                     eq_refl)).
Defined.

(** X11 at the placeholder for Channels. *)
Lemma X11_valid_after_placeholder_witness :
  valid_document [("Audio", [("Frequency", "48000"); ("Channels", "")])] = true.
Proof.
  destruct (X11_mutators_keep_documents_valid
              (ini (document_with "Audio" "Frequency" "48000"))
              {| sections := [("Audio", [("Frequency", "48000");
                                         ("Channels", "")])];
                 curSection := Pos 0; fileName := "sidplayfp.ini";
                 changed := true |}
              "Channels" "" "Console" eq_refl) as (_ & H & _).
  exact (H eq_refl eq_refl eq_refl).
Defined.

(** X16 at an empty document, with the decimal parser and every feature. *)
Lemma X16_readEmulation_witness :
  exists r st',
    readEmulation true Z decimalInt decimalInt decimalBool true true
                  (fun x => x) emulation_sample state_new
    = Some (r, st') /\
    reads_from state_emulation_added st' (emulation_keys true true).
Proof.
  destruct (X16_readEmulation_reads_each_field_from_its_key
              true Z decimalInt decimalInt decimalBool (fun x => x)
              true true state_new state_emulation_added emulation_sample
              eq_refl (fun _ => eq_refl)) as (st' & Hrun & Hr).
  eexists. exists st'. split; [exact Hrun|exact Hr].
Defined.

(** X17 at a section that holds the old key only. *)
Lemma X17_renameFilterRange_witness :
  exists st',
    renameFilterRange (fun x => x)
                      (document_with "Emulation" "filterRange6581" "0.3")
    = Some (tt, st') /\
    selected (ini st') ("Emulation", [("FilterRange6581", "0.3")]) /\
    held (ini st') "filterRange6581" = None /\
    held (ini st') "FilterRange6581" = Some "0.3".
Proof.
  assert (Ha : absent "filterRange6581" ("Emulation", [])).
  { intros v []. }
  destruct (X17_renameFilterRange_moves_old_value
              (fun x => x) (document_with "Emulation" "filterRange6581" "0.3")
              "Emulation" "0.3" [] [] eq_refl Ha Ha eq_refl)
    as (st' & Hrun & Hs & _ & _ & Ho & Hn).
  exists st'. split; [exact Hrun|]. split; [exact Hs|]. split; [exact Ho|].
  exact Hn.
Defined.

(** X18 at a section that holds the key once. *)
Lemma X18_removeValue_witness :
  exists i',
    Ini.removeValue (fun x => x)
                    (ini (document_with "Audio" "Frequency" "48000")) "Frequency"
    = Some i' /\
    held i' "Frequency" = None.
Proof.
  destruct (X18_removeValue_drops_one_slot
              (fun x => x) (ini (document_with "Audio" "Frequency" "48000"))
              ("Audio", [("Frequency", "48000")]) "Frequency" eq_refl
              (ex_intro _ "48000" eq_refl))
    as (i' & rest & Hrun & _ & _ & _ & _ & _ & H1 & _).
  exists i'. split; [exact Hrun|]. exact (H1 eq_refl).
Defined.

(** X23 at the sample file under the home directory, with the decimal
    parser and no song length database on disk. *)
Lemma X23_read_witness :
  exists config files output,
    read true Z decimalInt decimalInt decimalBool getenv_home
         (fun _ => Some false) (fun _ => false)
         (fun _ => (false, false, false)) true true (fun x => x) 44100 5
         (fun _ => None) (fun _ => None) (fun _ => "") 2 0 false
         config_sample
         (fs_with (config_file "/home/sid/.config") sample_text) []
    = Some (Read_returned Z config files output) /\
    playLength (sidplay2_s Z config) = 90500 /\
    frequency (audio_s Z config) = 48000.
Proof.
  destruct (X23_read_settings_from_the_document
              true Z decimalInt decimalInt decimalBool getenv_home
              (fun _ => Some false) (fun _ => false)
              (fun _ => (false, false, false)) true true (fun x => x) 44100 5
              (fun _ => None) (fun _ => None) (fun _ => "") 2 false
              config_sample
              (fs_with (config_file "/home/sid/.config") sample_text) []
              "/home/sid/.config" sample_text ""
              eq_refl eq_refl eq_refl eq_refl eq_refl (fun _ => eq_refl))
    as (files & output & Hrun & _).
  eexists. exists files, output. split; [exact (Hrun 0)|].
  split; reflexivity.
Defined.

(** X24 at a home directory without a configuration file. *)
Lemma X24_read_template_witness :
  exists files output,
    read true Z decimalInt decimalInt decimalBool getenv_home
         (fun _ => Some false) (fun _ => false)
         (fun _ => (false, false, false)) true true (fun x => x) 44100 5
         (fun _ => None) (fun _ => None) (fun _ => "") 2 0 false
         config_sample fs_empty []
    = Some (Read_returned Z
              {| sidplay2_s :=
                   sidplay2_of decimalInt (fun _ => None) ""
                               (sidplay2_s Z (clear Z true true 44100 5
                                                    config_sample));
                 console_s :=
                   console_of decimalBool (fun _ => None) false console_clear;
                 audio_s := audio_s Z (clear Z true true 44100 5 config_sample);
                 emulation_s :=
                   emulation_s Z (clear Z true true 44100 5 config_sample);
                 m_fileName := config_file "/home/sid/.config" |}
              files output) /\
    file files (config_file "/home/sid/.config")
    = Some (Ini.writeStream (template true true)).
Proof.
  destruct (X24_read_creates_the_template
              true Z decimalInt decimalInt decimalBool getenv_home
              (fun _ => Some false) (fun _ => false)
              (fun _ => (false, false, false)) true true (fun x => x) 44100 5
              (fun _ => None) (fun _ => None) (fun _ => "") 2 0 false
              config_sample fs_empty [] "/home/sid/.config" ""
              eq_refl eq_refl eq_refl eq_refl eq_refl eq_refl)
    as (files & output & Hrun & Hfile & _).
  exists files, output. split; [exact Hrun|exact Hfile].
Defined.

(** X25 at the sample file when the status of the default database
    cannot be read. *)
Lemma X25_read_escapes_witness :
  exists config output,
    read true Z decimalInt decimalInt decimalBool getenv_home
         (fun _ => None) (fun _ => false)
         (fun _ => (false, false, false)) true true (fun x => x) 44100 5
         (fun _ => None) (fun _ => None) (fun _ => "") 2 0 false
         config_sample
         (fs_with (config_file "/home/sid/.config") sample_text) []
    = Some (Read_escaped Z config output).
Proof.
  destruct (X25_read_is_left_by_the_exception
              true Z decimalInt decimalInt decimalBool getenv_home
              (fun _ => None) (fun _ => false)
              (fun _ => (false, false, false)) true true (fun x => x) 44100 5
              (fun _ => None) (fun _ => None) (fun _ => "") 2 false
              config_sample
              (fs_with (config_file "/home/sid/.config") sample_text) []
              "/home/sid/.config" sample_text
              eq_refl eq_refl eq_refl eq_refl eq_refl eq_refl)
    as (output & Hrun & _).
  eexists. exists output. exact (Hrun 0).
Defined.

(** X29 at the sample file, which has no Console section: the first call
    finds its local [ascii] clear and leaves the box glyphs, the second
    finds it set and returns the plain ones, on the same files. *)
Lemma X29_reading_again_witness :
  exists config files output config' output',
    read true Z decimalInt decimalInt decimalBool getenv_home
         (fun _ => Some false) (fun _ => false)
         (fun _ => (false, false, false)) true true (fun x => x) 44100 5
         (fun _ => None) (fun _ => None) (fun _ => "") 2 0 false
         config_sample
         (fs_with (config_file "/home/sid/.config") sample_text) []
    = Some (Read_returned Z config files output) /\
    read true Z decimalInt decimalInt decimalBool getenv_home
         (fun _ => Some false) (fun _ => false)
         (fun _ => (false, false, false)) true true (fun x => x) 44100 5
         (fun _ => None) (fun _ => None) (fun _ => "") 2 7 true
         config files output
    = Some (Read_returned Z config' files output') /\
    glyphs (console_s Z config) = glyphs console_clear /\
    glyphs (console_s Z config') = plain_glyphs /\
    audio_s Z config' = audio_s Z config.
Proof.
  destruct (X29_reading_again_differs_only_in_glyphs
              true Z decimalInt decimalInt decimalBool getenv_home
              (fun _ => Some false) (fun _ => false)
              (fun _ => (false, false, false)) true true (fun x => x) 44100 5
              (fun _ => None) (fun _ => None) (fun _ => "") 2 false
              config_sample
              (fs_with (config_file "/home/sid/.config") sample_text) []
              "/home/sid/.config" sample_text ""
              eq_refl eq_refl eq_refl eq_refl eq_refl (fun _ => eq_refl)
              eq_refl)
    as (config & files & output & Hfirst & _ & Hsecond).
  destruct (Hsecond true)
    as (config' & output' & Hrun & _ & Haudio & _ & _ & _ & _ & Hglyphs).
  exists config, files, output, config', output'.
  split; [exact (Hfirst 0)|]. split; [exact (Hrun 7)|].
  assert (Hno : forall v,
             nonempty (held_in (Ini.parseStream [] sample_text)
                               "Console" "ASCII") = Some v ->
             decimalBool v = None) by (intros v H; discriminate H).
  destruct (Hglyphs Hno) as [G1 G2].
  split; [exact G1|]. split; [exact G2|exact Haudio].
Defined.
